(** * The file-store bot: registry, links, upload admission, search

    A shallow embedding of [fileshaare.py].  The relational store is a record
    of tables (lists of rows, in insertion order); every SQL statement of the
    program is a function on that record which checks the constraints the
    schema of [init_database] declares.  Handlers are small programs over
    these statements, so that they can be run alone or interleaved. *)

From Stdlib Require Import ZArith List Bool Ascii String Lia Permutation Sorted.
Import ListNotations.
Local Open Scope string_scope.
Local Open Scope list_scope.
Local Open Scope Z_scope.

Set Implicit Arguments.

(* ------------------------------------------------------------------ *)
(** * 1. Configuration constants *)

Definition MAX_FILE_SIZE : Z := 2000 * 1024 * 1024.
Definition UPLOAD_CONCURRENCY : nat := 5.
Definition POOL_MAX_SIZE : nat := 10.

(** Ranges of the column types INTEGER and BIGINT.  PostgreSQL never wraps:
    a value outside the range makes the statement raise. *)
Definition INT4_MIN : Z := - 2147483648.
Definition INT4_MAX : Z := 2147483647.
Definition INT8_MIN : Z := - 9223372036854775808.
Definition INT8_MAX : Z := 9223372036854775807.

Definition in_int4 (z : Z) : bool := (INT4_MIN <=? z) && (z <=? INT4_MAX).
Definition in_int8 (z : Z) : bool := (INT8_MIN <=? z) && (z <=? INT8_MAX).

(* ------------------------------------------------------------------ *)
(** * 2. Schema: the tables of [init_database] *)

Inductive ftype := document | video | audio | photo | voice | video_note.

Inductive ltype := LinkFile | LinkGroup.

(** [groups]: UNIQUE(name, owner_id). *)
Record group_row := mkGroup {
  g_id : Z;
  g_name : string;
  g_owner_id : Z;
  total_files : Z;
  total_size : Z
}.

(** [files]: UNIQUE(unique_id), UNIQUE(group_id, serial_number),
    group_id REFERENCES groups(id) ON DELETE CASCADE. *)
Record file_row := mkFile {
  f_id : Z;
  f_group_id : Z;
  serial_number : Z;
  unique_id : string;
  file_name : string;
  file_type : ftype;
  file_size : Z;
  telegram_file_id : string;
  uploader_id : Z;
  uploader_username : option string;
  storage_message_id : Z
}.

(** [file_links]: UNIQUE(link_code), file_id REFERENCES files(id) and
    group_id REFERENCES groups(id), both ON DELETE CASCADE. *)
Record link_row := mkLink {
  l_id : Z;
  link_code : string;
  l_file_id : option Z;
  l_group_id : option Z;
  link_type : ltype;
  l_owner_id : Z;
  clicks : Z;
  is_active : bool
}.

(** The store: three tables and the sequences behind their SERIAL keys.
    A sequence holds the next value it will hand out. *)
Record db := mkDb {
  groups : list group_row;
  files : list file_row;
  file_links : list link_row;
  groups_seq : Z;
  files_seq : Z;
  links_seq : Z
}.

Definition empty_db : db := mkDb [] [] [] 1 1 1.

Inductive db_error :=
| UniqueViolationError
| ForeignKeyViolationError
| NumericValueOutOfRangeError
| SequenceLimitExceededError.

Inductive res (A : Type) : Type :=
| Ok (a : A)
| Raise (e : db_error).
Arguments Raise {A} e.

Definition opt_eqb (a : option Z) (b : Z) : bool :=
  match a with Some x => x =? b | None => false end.

Definition mem_z (x : Z) (l : list Z) : bool := existsb (Z.eqb x) l.

Definition opt_mem (a : option Z) (l : list Z) : bool :=
  match a with Some x => mem_z x l | None => false end.

(** nextval: a SERIAL key is an INTEGER. *)
Definition nextval (s : Z) : option Z :=
  if s <=? INT4_MAX then Some s else None.

(** What survives the rollback of a transaction: rows go back, sequences
    do not. *)
Definition rollback (before after : db) : db :=
  mkDb (groups before) (files before) (file_links before)
       (groups_seq after) (files_seq after) (links_seq after).

(* ------------------------------------------------------------------ *)
(** * 3. The SQL statements of the program *)

(** ** groups *)

(** INSERT INTO groups (name, owner_id) VALUES ($1, $2) *)
Definition insert_group (name : string) (owner : Z) (d : db) : res Z * db :=
  match nextval (groups_seq d) with
  | None => (Raise SequenceLimitExceededError, d)
  | Some id =>
    let d1 := mkDb (groups d) (files d) (file_links d)
                   (groups_seq d + 1) (files_seq d) (links_seq d) in
    if existsb (fun g => (g_name g =? name)%string && (g_owner_id g =? owner))
               (groups d)
    then (Raise UniqueViolationError, d1)
    else (Ok id,
          mkDb (groups d ++ [mkGroup id name owner 0 0]) (files d)
               (file_links d) (groups_seq d + 1) (files_seq d) (links_seq d))
  end.

(** SELECT id FROM groups WHERE owner_id = $1 AND name = $2 *)
Definition select_group_id (owner : Z) (name : string) (d : db) : option Z :=
  option_map g_id
    (find (fun g => (g_owner_id g =? owner) && (g_name g =? name)%string)
          (groups d)).

(** UPDATE groups SET total_files = .., total_size = .. WHERE id = $2.
    The two UPDATE statements of the program differ only in the new values. *)
Definition update_groups_where_id (gid : Z) (upd : group_row -> group_row)
    (d : db) : res unit * db :=
  if forallb (fun g => negb (g_id g =? gid)
                       || (in_int4 (total_files (upd g))
                           && in_int8 (total_size (upd g))))
             (groups d)
  then (Ok tt,
        mkDb (map (fun g => if g_id g =? gid then upd g else g) (groups d))
             (files d) (file_links d)
             (groups_seq d) (files_seq d) (links_seq d))
  else (Raise NumericValueOutOfRangeError, d).

(** UPDATE groups SET total_files = total_files + 1,
                      total_size = total_size + $1 WHERE id = $2 *)
Definition update_stats_add (size gid : Z) : db -> res unit * db :=
  update_groups_where_id gid
    (fun g => mkGroup (g_id g) (g_name g) (g_owner_id g)
                      (total_files g + 1) (total_size g + size)).

(** UPDATE groups SET total_files = total_files - 1,
                      total_size = total_size - $1 WHERE id = $2 *)
Definition update_stats_sub (size gid : Z) : db -> res unit * db :=
  update_groups_where_id gid
    (fun g => mkGroup (g_id g) (g_name g) (g_owner_id g)
                      (total_files g - 1) (total_size g - size)).

(** DELETE FROM groups WHERE owner_id = $1 AND name = $2, with the cascades
    declared on files.group_id, file_links.group_id and file_links.file_id.
    Returns the number of group rows deleted ('DELETE n'). *)
Definition delete_group (owner : Z) (name : string) (d : db) : nat * db :=
  let doomed g := (g_owner_id g =? owner) && (g_name g =? name)%string in
  let gids := map g_id (filter doomed (groups d)) in
  let fids := map f_id (filter (fun f => mem_z (f_group_id f) gids) (files d)) in
  (List.length gids,
   mkDb (filter (fun g => negb (doomed g)) (groups d))
        (filter (fun f => negb (mem_z (f_group_id f) gids)) (files d))
        (filter (fun l => negb (opt_mem (l_group_id l) gids)
                          && negb (opt_mem (l_file_id l) fids))
                (file_links d))
        (groups_seq d) (files_seq d) (links_seq d)).

(** ** files *)

(** The values an upload supplies for a new row of [files]. *)
Record file_meta := mkMeta {
  m_unique_id : string;
  m_file_name : string;
  m_file_type : ftype;
  m_file_size : Z;
  m_telegram_file_id : string;
  m_uploader_id : Z;
  m_uploader_username : option string;
  m_storage_message_id : Z
}.

Definition group_files (gid : Z) (d : db) : list file_row :=
  filter (fun f => f_group_id f =? gid) (files d).

(** MAX over a column: NULL on no rows. *)
Definition sql_max (l : list Z) : option Z :=
  match l with
  | [] => None
  | x :: r => Some (fold_left Z.max r x)
  end.

Definition coalesce (o : option Z) (dflt : Z) : Z :=
  match o with Some x => x | None => dflt end.

(** SELECT COALESCE(MAX(serial_number), 0) + 1 FROM files WHERE group_id = $1 *)
Definition select_next_serial (gid : Z) (d : db) : res Z :=
  let n := coalesce (sql_max (map serial_number (group_files gid d))) 0 + 1 in
  if in_int4 n then Ok n else Raise NumericValueOutOfRangeError.

(** INSERT INTO files (group_id, serial_number, unique_id, ...) VALUES (...) *)
Definition insert_file (gid serial : Z) (m : file_meta) (d : db)
    : res Z * db :=
  if negb (in_int4 serial) then (Raise NumericValueOutOfRangeError, d) else
  match nextval (files_seq d) with
  | None => (Raise SequenceLimitExceededError, d)
  | Some id =>
    let d1 := mkDb (groups d) (files d) (file_links d)
                   (groups_seq d) (files_seq d + 1) (links_seq d) in
    if existsb (fun f => (unique_id f =? m_unique_id m)%string) (files d)
    then (Raise UniqueViolationError, d1)
    else if existsb (fun f => (f_group_id f =? gid) && (serial_number f =? serial))
                    (files d)
    then (Raise UniqueViolationError, d1)
    else if negb (existsb (fun g => g_id g =? gid) (groups d))
    then (Raise ForeignKeyViolationError, d1)
    else (Ok id,
          mkDb (groups d)
               (files d ++ [mkFile id gid serial (m_unique_id m) (m_file_name m)
                                   (m_file_type m) (m_file_size m)
                                   (m_telegram_file_id m) (m_uploader_id m)
                                   (m_uploader_username m)
                                   (m_storage_message_id m)])
               (file_links d)
               (groups_seq d) (files_seq d + 1) (links_seq d))
  end.

(** DELETE FROM files WHERE id = $1, with the cascade on file_links.file_id. *)
Definition delete_file_by_id (fid : Z) (d : db) : nat * db :=
  (List.length (filter (fun f => f_id f =? fid) (files d)),
   mkDb (groups d)
        (filter (fun f => negb (f_id f =? fid)) (files d))
        (filter (fun l => negb (opt_eqb (l_file_id l) fid)) (file_links d))
        (groups_seq d) (files_seq d) (links_seq d)).

(** FROM files f JOIN groups g ON f.group_id = g.id *)
Definition files_join_groups (d : db) : list (file_row * group_row) :=
  flat_map (fun f => map (pair f)
                       (filter (fun g => g_id g =? f_group_id f) (groups d)))
           (files d).

(** ... WHERE g.owner_id = $1 AND g.name = $2 AND f.serial_number = $3
    (fetchrow: the first row, if any). *)
Definition select_file_of (owner : Z) (name : string) (serial : Z) (d : db)
    : option (file_row * group_row) :=
  find (fun fg => (g_owner_id (snd fg) =? owner)
                  && (g_name (snd fg) =? name)%string
                  && (serial_number (fst fg) =? serial))
       (files_join_groups d).

(** SELECT f.storage_message_id FROM files f JOIN groups g ON ...
    WHERE g.owner_id = $1 AND g.name = $2 *)
Definition select_group_message_ids (owner : Z) (name : string) (d : db)
    : list Z :=
  map (fun fg => storage_message_id (fst fg))
      (filter (fun fg => (g_owner_id (snd fg) =? owner)
                         && (g_name (snd fg) =? name)%string)
              (files_join_groups d)).

(** ** file_links *)

(** INSERT INTO file_links (link_code, file_id, group_id, link_type, owner_id)
    VALUES ($1, $2, $3, $4, $5).  The unique index is checked when the row is
    inserted, the foreign keys at the end of the statement. *)
Definition insert_link (code : string) (fid gid : option Z) (lt : ltype)
    (owner : Z) (d : db) : res Z * db :=
  match nextval (links_seq d) with
  | None => (Raise SequenceLimitExceededError, d)
  | Some id =>
    let d1 := mkDb (groups d) (files d) (file_links d)
                   (groups_seq d) (files_seq d) (links_seq d + 1) in
    if existsb (fun l => (link_code l =? code)%string) (file_links d)
    then (Raise UniqueViolationError, d1)
    else if match fid with
            | Some f => negb (existsb (fun r => f_id r =? f) (files d))
            | None => false
            end
    then (Raise ForeignKeyViolationError, d1)
    else if match gid with
            | Some g => negb (existsb (fun r => g_id r =? g) (groups d))
            | None => false
            end
    then (Raise ForeignKeyViolationError, d1)
    else (Ok id,
          mkDb (groups d) (files d)
               (file_links d ++ [mkLink id code fid gid lt owner 0 true])
               (groups_seq d) (files_seq d) (links_seq d + 1))
  end.

(** SELECT * FROM file_links WHERE link_code = $1 AND is_active = TRUE *)
Definition select_active_link (code : string) (d : db) : option link_row :=
  find (fun l => (link_code l =? code)%string && is_active l) (file_links d).

(** UPDATE file_links SET clicks = clicks + 1 WHERE id = $1 *)
Definition click (lid : Z) (l : link_row) : link_row :=
  if l_id l =? lid
  then mkLink (l_id l) (link_code l) (l_file_id l) (l_group_id l) (link_type l)
              (l_owner_id l) (clicks l + 1) (is_active l)
  else l.

Definition update_clicks (lid : Z) (d : db) : res unit * db :=
  if forallb (fun l => negb (l_id l =? lid) || in_int4 (clicks l + 1))
             (file_links d)
  then (Ok tt,
        mkDb (groups d) (files d) (map (click lid) (file_links d))
             (groups_seq d) (files_seq d) (links_seq d))
  else (Raise NumericValueOutOfRangeError, d).

(** DELETE FROM file_links WHERE link_code = $1 AND owner_id = $2 *)
Definition delete_link (code : string) (owner : Z) (d : db) : nat * db :=
  let hit l := (link_code l =? code)%string && (l_owner_id l =? owner) in
  (List.length (filter hit (file_links d)),
   mkDb (groups d) (files d)
        (filter (fun l => negb (hit l)) (file_links d))
        (groups_seq d) (files_seq d) (links_seq d)).

(** SELECT f.*, g.name as group_name FROM files f JOIN groups g ON ...
    WHERE f.id = $1 *)
Definition select_file_info (fid : option Z) (d : db)
    : option (file_row * string) :=
  option_map (fun fg => (fst fg, g_name (snd fg)))
    (find (fun fg => opt_eqb fid (f_id (fst fg))) (files_join_groups d)).

(** SELECT * FROM files WHERE group_id = $1 ORDER BY serial_number *)
Fixpoint insert_by {A} (leb : A -> A -> bool) (x : A) (l : list A) : list A :=
  match l with
  | [] => [x]
  | y :: r => if leb x y then x :: l else y :: insert_by leb x r
  end.

Definition sort_by {A} (leb : A -> A -> bool) (l : list A) : list A :=
  fold_right (insert_by leb) [] l.

Definition select_files_ordered (gid : option Z) (d : db) : list file_row :=
  sort_by (fun a b => serial_number a <=? serial_number b)
          (filter (fun f => opt_eqb gid (f_group_id f)) (files d)).

(** SELECT name FROM groups WHERE id = $1 *)
Definition select_group_name (gid : option Z) (d : db) : option string :=
  option_map g_name (find (fun g => opt_eqb gid (g_id g)) (groups d)).

(* ------------------------------------------------------------------ *)
(** * 4. Programs over the store

    A handler talks to the store one statement (or one commit) at a time;
    between two of them another handler may run.  [Atomic a k] is one such
    indivisible interaction [a] followed by the rest [k] of the handler.
    Inside [conn.transaction()] the reads see the committed rows and the
    writes become visible together at commit (READ COMMITTED, the level
    asyncpg's [transaction()] uses by default); outside it every statement
    commits by itself. *)

Inductive proc (R : Type) : Type :=
| Ret (r : R)
| Atomic (X : Type) (a : db -> X * db) (k : X -> proc R).
Arguments Ret {R} r.
Arguments Atomic {R X} a k.

Notation "'stmt' x <- a ; k" := (Atomic a (fun x => k))
  (at level 10, x name, a at level 100, k at level 200).

Definition read {X} (q : db -> X) : db -> X * db := fun d => (q d, d).

(** Running a handler with nothing in between its statements. *)
Fixpoint run {R} (p : proc R) (d : db) : R * db :=
  match p with
  | Ret r => (r, d)
  | Atomic a k => let (x, d') := a d in run (k x) d'
  end.

(** One statement of a handler. *)
Definition step {R} (p : proc R) (d : db) : proc R * db :=
  match p with
  | Ret r => (Ret r, d)
  | Atomic a k => let (x, d') := a d in (k x, d')
  end.

Fixpoint set_nth {A} (i : nat) (x : A) (l : list A) : list A :=
  match l, i with
  | [], _ => []
  | _ :: r, O => x :: r
  | y :: r, S j => y :: set_nth j x r
  end.

(** Handlers running side by side: the schedule names, statement after
    statement, the handler that moves next. *)
Fixpoint run_sched {R} (sched : list nat) (ts : list (proc R)) (d : db)
    : list (proc R) * db :=
  match sched with
  | [] => (ts, d)
  | i :: rest =>
    match nth_error ts i with
    | None => run_sched rest ts d
    | Some p => let (p', d') := step p d in run_sched rest (set_nth i p' ts) d'
    end
  end.

Definition finished {R} (p : proc R) : option R :=
  match p with Ret r => Some r | Atomic _ _ => None end.

(** What a handler reports. *)
Inductive outcome :=
| OSaved (serial : Z)
| OFileDeleted (message_id : Z)
| OGroupDeleted (message_ids : list Z)
| OGroupCreated (id : Z)
| ODuplicateName
| OLinkRevoked
| OIssued (code : string)
| OPoolWait
| OFile (f : file_row) (group_name : string)
| OGroup (group_name : option string) (fs : list file_row)
| OGroupEmpty
| OFileMissing
| ONotFound
| OError (e : db_error).

(** ** [_process_file_upload], lines 702-717: the registering transaction *)

Definition upload_commit (gid serial : Z) (m : file_meta) (d : db)
    : res unit * db :=
  match insert_file gid serial m d with
  | (Raise e, d1) => (Raise e, rollback d d1)
  | (Ok _, d1) =>
    match update_stats_add (m_file_size m) gid d1 with
    | (Raise e, d2) => (Raise e, rollback d d2)
    | (Ok _, d2) => (Ok tt, d2)
    end
  end.

Definition upload_txn (gid : Z) (m : file_meta) : proc outcome :=
  stmt r <- read (select_next_serial gid);
  match r with
  | Raise e => Ret (OError e)
  | Ok next_serial =>
    stmt c <- upload_commit gid next_serial m;
    match c with
    | Ok _ => Ret (OSaved next_serial)
    | Raise e => Ret (OError e)
    end
  end.

(** ** [_perform_file_delete], lines 835-850 *)

Definition delete_commit (fid size gid : Z) (d : db) : res unit * db :=
  let (_, d1) := delete_file_by_id fid d in
  match update_stats_sub size gid d1 with
  | (Raise e, d2) => (Raise e, rollback d d2)
  | (Ok _, d2) => (Ok tt, d2)
  end.

Definition delete_file_txn (owner : Z) (name : string) (serial : Z)
    : proc outcome :=
  stmt file_data <- read (select_file_of owner name serial);
  match file_data with
  | None => Ret ONotFound
  | Some (f, g) =>
    stmt c <- delete_commit (f_id f) (file_size f) (g_id g);
    match c with
    | Ok _ => Ret (OFileDeleted (storage_message_id f))
    | Raise e => Ret (OError e)
    end
  end.

(** ** [_perform_group_delete], lines 865-878 *)

Definition delete_group_txn (owner : Z) (name : string) : proc outcome :=
  stmt message_ids <- read (select_group_message_ids owner name);
  stmt n <- delete_group owner name;
  match n with
  | O => Ret ONotFound
  | S _ => Ret (OGroupDeleted message_ids)
  end.

(** ** [_create_new_group], line 746 *)

Definition create_group (owner : Z) (name : string) : proc outcome :=
  stmt r <- insert_group name owner;
  match r with
  | Ok id => Ret (OGroupCreated id)
  | Raise UniqueViolationError => Ret ODuplicateName
  | Raise e => Ret (OError e)
  end.

(** ** [revoke_link_handler], lines 426-431 *)

Definition revoke_link (code : string) (owner : Z) : proc outcome :=
  stmt n <- delete_link code owner;
  match n with
  | 1%nat => Ret OLinkRevoked
  | _ => Ret ONotFound
  end.

(** ** [_handle_shared_link], lines 637-685: no transaction is opened, each
    statement commits on its own. *)

Definition resolve_link (code : string) : proc outcome :=
  stmt link_data <- read (select_active_link code);
  match link_data with
  | None => Ret ONotFound
  | Some l =>
    stmt u <- update_clicks (l_id l);
    match u with
    | Raise e => Ret (OError e)
    | Ok _ =>
      match link_type l with
      | LinkFile =>
        stmt file_info <- read (select_file_info (l_file_id l));
        match file_info with
        | Some (f, gname) => Ret (OFile f gname)
        | None => Ret OFileMissing
        end
      | LinkGroup =>
        stmt group_files <- read (select_files_ordered (l_group_id l));
        match group_files with
        | [] => Ret OGroupEmpty
        | _ :: _ =>
          stmt gname <- read (select_group_name (l_group_id l));
          Ret (OGroup gname group_files)
        end
      end
    end
  end.

(* ------------------------------------------------------------------ *)
(** * 5. Link codes: [generate_id], line 144 *)

Local Open Scope char_scope.

(** [int.from_bytes(b, 'big')] and [int.to_bytes(n, 'big')]. *)
Definition from_bytes (bs : list Z) : Z :=
  fold_left (fun acc b => acc * 256 + b) bs 0.

Fixpoint to_bytes (n : nat) (x : Z) : list Z :=
  match n with
  | O => []
  | S k => to_bytes k (x / 256) ++ [x mod 256]
  end.

(** [uuid.uuid4()] is [UUID(bytes=os.urandom(16), version=4)]: the 16 random
    bytes are read as an integer, the variant bits are forced to binary 10
    and the version nibble to 4. *)
Definition uuid4 (urandom16 : list Z) : Z :=
  let i := from_bytes urandom16 in
  let i := Z.land i (Z.lnot (Z.shiftl 49152 48)) in   (* int &= ~(0xc000 << 48) *)
  let i := Z.lor i (Z.shiftl 32768 48) in             (* int |= 0x8000 << 48 *)
  let i := Z.land i (Z.lnot (Z.shiftl 61440 64)) in   (* int &= ~(0xf000 << 64) *)
  Z.lor i (Z.shiftl 4 76).                            (* int |= version << 76 *)

Definition uuid_bytes (u : Z) : list Z := to_bytes 16 u.

(** The alphabet of [base64.urlsafe_b64encode]. *)
Definition urlsafe_alphabet : list ascii :=
  list_ascii_of_string
    "ABCDEFGHIJKLMNOPQRSTUVWXYZabcdefghijklmnopqrstuvwxyz0123456789-_".

Definition b64char (i : Z) : ascii := nth (Z.to_nat i) urlsafe_alphabet "A".

Fixpoint urlsafe_b64encode (bs : list Z) : list ascii :=
  match bs with
  | [] => []
  | [a] => [b64char (a / 4); b64char ((a mod 4) * 16); "="; "="]
  | [a; b] =>
      [b64char (a / 4); b64char ((a mod 4) * 16 + b / 16);
       b64char ((b mod 16) * 4); "="]
  | a :: b :: c :: rest =>
      b64char (a / 4) :: b64char ((a mod 4) * 16 + b / 16)
      :: b64char ((b mod 16) * 4 + c / 64) :: b64char (c mod 64)
      :: urlsafe_b64encode rest
  end.

(** [bytes.rstrip(b'=')] *)
Definition rstrip_eq (l : list ascii) : list ascii :=
  fold_right (fun c acc =>
                match acc with
                | [] => if Ascii.eqb c "=" then [] else [c]
                | _ :: _ => c :: acc
                end) [] l.

(** base64.urlsafe_b64encode(uuid.uuid4().bytes).rstrip(b'=')
      .decode('utf-8')[:12], as a function of what [os.urandom(16)] gave. *)
Definition generate_id (urandom16 : list Z) : string :=
  string_of_list_ascii
    (firstn 12 (rstrip_eq (urlsafe_b64encode (uuid_bytes (uuid4 urandom16))))).

Definition is_urlsafe_char (c : ascii) : bool :=
  let n := nat_of_ascii c in
  ((65 <=? n) && (n <=? 90) || (97 <=? n) && (n <=? 122)
   || (48 <=? n) && (n <=? 57) || (n =? 45) || (n =? 95))%nat.

Definition is_byte (b : Z) : Prop := 0 <= b < 256.

Local Close Scope char_scope.

(* ------------------------------------------------------------------ *)
(** * 6. Issuing links: [_create_link], lines 755-767

    The retry is the function calling itself from inside
    [async with DB_POOL.acquire()], so every attempt keeps its pooled
    connection while the next one asks for another.  [free] is the number of
    connections the pool can still hand out; at zero [acquire()] waits, and
    as the connections are held by the very frames below, it waits for
    good.  [urandom n] is what the n-th call of [os.urandom(16)] returns. *)

Fixpoint _create_link (free : nat) (urandom : nat -> list Z) (n : nat)
    (file_id group_id : option Z) (lt : ltype) (owner_id : Z)
    : proc outcome :=
  let code := generate_id (urandom n) in
  match free with
  | O => Ret OPoolWait
  | S free' =>
    stmt r <- insert_link code file_id group_id lt owner_id;
    match r with
    | Ok _ => Ret (OIssued code)
    | Raise UniqueViolationError =>
        _create_link free' urandom (S n) file_id group_id lt owner_id
    | Raise e => Ret (OError e)
    end
  end.

(** [getlink_handler], lines 337-348 *)
Definition getlink_handler (free : nat) (urandom : nat -> list Z) (n : nat)
    (user_id : Z) (group_name : string) (file_serial : Z) : proc outcome :=
  stmt file_record <- read (select_file_of user_id group_name file_serial);
  match file_record with
  | None => Ret ONotFound
  | Some (f, _) =>
      _create_link free urandom n (Some (f_id f)) None LinkFile user_id
  end.

(** [getgrouplink_handler], lines 366-373 *)
Definition getgrouplink_handler (free : nat) (urandom : nat -> list Z)
    (n : nat) (user_id : Z) (group_name : string) : proc outcome :=
  stmt group_id <- read (select_group_id user_id group_name);
  match group_id with
  | None => Ret ONotFound
  | Some gid =>
    if gid =? 0 then Ret ONotFound
    else _create_link free urandom n None (Some gid) LinkGroup user_id
  end.

(* ------------------------------------------------------------------ *)
(** * 7. Upload admission: [extract_file_data], [file_handler],
        [_process_file_upload] *)

Record file_obj := mkFileObj {
  fo_file_id : string;
  fo_file_unique_id : string;
  fo_file_name : option string;
  fo_file_size : option Z
}.

Record message := mkMessage {
  msg_text : option string;
  msg_document : option file_obj;
  msg_video : option file_obj;
  msg_audio : option file_obj;
  msg_photo : list file_obj;
  msg_voice : option file_obj;
  msg_video_note : option file_obj
}.

Record tg_user := mkUser {
  user_id : Z;
  username : option string
}.

(** The keys of [context.user_data] the upload path uses. *)
Record user_data := mkUserData {
  upload_group_id : option Z;
  upload_group_name : option string;
  is_bulk_upload : bool;
  awaiting_group_name : bool
}.

Definition ftype_str (t : ftype) : string :=
  match t with
  | document => "document" | video => "video" | audio => "audio"
  | photo => "photo" | voice => "voice" | video_note => "video_note"
  end.

(** [x or dflt] on an optional string / integer. *)
Definition str_or (o : option string) (dflt : string) : string :=
  match o with
  | Some s => if (s =? "")%string then dflt else s
  | None => dflt
  end.

Definition int_or (o : option Z) (dflt : Z) : Z :=
  match o with
  | Some z => if z =? 0 then dflt else z
  | None => dflt
  end.

Definition default_name (t : ftype) (fo : file_obj) (ext : string) : string :=
  (ftype_str t ++ "_" ++ substring 0 8 (fo_file_unique_id fo) ++ ext)%string.

Definition extract_file_data (m : message)
    : option file_obj * ftype * string * Z * string :=
  let pack fo t name :=
    (Some fo, t, name, int_or (fo_file_size fo) 0, fo_file_unique_id fo) in
  match msg_document m with
  | Some fo => pack fo document (str_or (fo_file_name fo) (default_name document fo ""))
  | None =>
  match msg_video m with
  | Some fo => pack fo video (str_or (fo_file_name fo) (default_name video fo ""))
  | None =>
  match msg_audio m with
  | Some fo => pack fo audio (str_or (fo_file_name fo) (default_name audio fo ""))
  | None =>
  match rev (msg_photo m) with
  | fo :: _ => pack fo photo (default_name photo fo ".jpg")
  | [] =>
  match msg_voice m with
  | Some fo => pack fo voice (default_name voice fo ".ogg")
  | None =>
  match msg_video_note m with
  | Some fo => pack fo video_note (default_name video_note fo ".mp4")
  | None => (None, document, "", 0, "")
  end end end end end end.

(** What the content store answers to [update.message.forward(storage_id)]. *)
Inductive forward_result :=
| Forwarded (message_id : Z)
| FloodWait (retry_after : Z)
| ForwardError.

Inductive status :=
| MsgUploading
| MsgSaved (serial : Z)
| MsgRateLimited (retry_after : Z)
| MsgFailed
| MsgTooLarge
| MsgUnsupported
| MsgSelectGroupFirst
| MsgInvalidGroupName
| MsgGroupCreated
| MsgGroupExists
| MsgError.

(** What a handler does, in order, apart from its statements. *)
Inductive event :=
| EvStatus (s : status)
| EvAcquire
| EvRelease
| EvForward
| EvSleep (seconds : Z).

Inductive upload_outcome :=
| UploadSaved (serial : Z)
| UploadFailed
| GateWait.

(** The [finally] clause of [_process_file_upload]. *)
Definition finally_clear (ud : user_data) : user_data :=
  if is_bulk_upload ud then ud
  else mkUserData None None (is_bulk_upload ud) (awaiting_group_name ud).

(** [_process_file_upload], lines 691-733.  [slots] is what the semaphore
    can still hand out; the retry after a rate limit is a call of the
    function itself made inside [async with self.upload_semaphore], after
    the sleep.  [store k] is the content store's answer to the k-th
    forward.  The replies to the user are taken to arrive; the function
    with the answers of Telegram to the edit of line 720, which stands
    inside the [try], is [_process_file_upload_edits] below. *)
Fixpoint _process_file_upload (slots : nat) (store : nat -> forward_result)
    (k : nat) (ud : user_data) (d : db) (user : tg_user) (group_id : Z)
    (fo : file_obj) (ft : ftype) (fname : string) (fsize : Z) (uid : string)
    : upload_outcome * list event * db * user_data * nat :=
  match slots with
  | O => (GateWait, [EvStatus MsgUploading], d, ud, k)
  | S slots' =>
    match store k with
    | Forwarded storage_msg_id =>
      let m := mkMeta uid fname ft fsize (fo_file_id fo) (user_id user)
                      (username user) storage_msg_id in
      match run (upload_txn group_id m) d with
      | (OSaved serial, d') =>
          (UploadSaved serial,
           [EvStatus MsgUploading; EvAcquire; EvForward;
            EvStatus (MsgSaved serial); EvRelease],
           d', finally_clear ud, S k)
      | (_, d') =>
          (UploadFailed,
           [EvStatus MsgUploading; EvAcquire; EvForward;
            EvStatus MsgFailed; EvRelease],
           d', finally_clear ud, S k)
      end
    | FloodWait retry_after =>
      match _process_file_upload slots' store (S k) ud d user group_id
                                 fo ft fname fsize uid with
      | (GateWait, evs, d', ud', k') =>
          (GateWait,
           [EvStatus MsgUploading; EvAcquire; EvForward;
            EvStatus (MsgRateLimited retry_after); EvSleep retry_after] ++ evs,
           d', ud', k')
      | (o, evs, d', ud', k') =>
          (o,
           [EvStatus MsgUploading; EvAcquire; EvForward;
            EvStatus (MsgRateLimited retry_after); EvSleep retry_after]
           ++ evs ++ [EvRelease],
           d', finally_clear ud', k')
      end
    | ForwardError =>
      (UploadFailed,
       [EvStatus MsgUploading; EvAcquire; EvForward;
        EvStatus MsgFailed; EvRelease],
       d, finally_clear ud, S k)
    end
  end.

(** What Telegram answers to [status_msg.edit_text("Saved ...")], line 720:
    the text is sent as Markdown with the name of the file between
    backquotes, so that a name with a backquote of its own is refused. *)
Inductive edit_result :=
| EditDone
| EditFlood (retry_after : Z)
| EditRefused.

(** [_process_file_upload], lines 691-733, with the answers to that edit:
    [edits k] is the answer to the edit of the attempt that made the k-th
    forward.  The edit comes after the commit and inside the [try]: a rate
    limit on it (RetryAfter, line 722) makes the function sleep and call
    itself again, on the store as the commit left it, and any other
    refusal ends in the reply "failed" (line 728).  The first reply and the
    edits of lines 724 and 728 are taken to arrive. *)
Fixpoint _process_file_upload_edits (slots : nat)
    (store : nat -> forward_result) (edits : nat -> edit_result)
    (k : nat) (ud : user_data) (d : db) (user : tg_user) (group_id : Z)
    (fo : file_obj) (ft : ftype) (fname : string) (fsize : Z) (uid : string)
    : upload_outcome * list event * db * user_data * nat :=
  match slots with
  | O => (GateWait, [EvStatus MsgUploading], d, ud, k)
  | S slots' =>
    match store k with
    | Forwarded storage_msg_id =>
      let m := mkMeta uid fname ft fsize (fo_file_id fo) (user_id user)
                      (username user) storage_msg_id in
      match run (upload_txn group_id m) d with
      | (OSaved serial, d') =>
        match edits k with
        | EditDone =>
            (UploadSaved serial,
             [EvStatus MsgUploading; EvAcquire; EvForward;
              EvStatus (MsgSaved serial); EvRelease],
             d', finally_clear ud, S k)
        | EditFlood retry_after =>
          match _process_file_upload_edits slots' store edits (S k) ud d'
                                           user group_id fo ft fname fsize
                                           uid with
          | (GateWait, evs, d'', ud', k') =>
              (GateWait,
               [EvStatus MsgUploading; EvAcquire; EvForward;
                EvStatus (MsgRateLimited retry_after); EvSleep retry_after]
               ++ evs,
               d'', ud', k')
          | (o, evs, d'', ud', k') =>
              (o,
               [EvStatus MsgUploading; EvAcquire; EvForward;
                EvStatus (MsgRateLimited retry_after); EvSleep retry_after]
               ++ evs ++ [EvRelease],
               d'', finally_clear ud', k')
          end
        | EditRefused =>
            (UploadFailed,
             [EvStatus MsgUploading; EvAcquire; EvForward;
              EvStatus MsgFailed; EvRelease],
             d', finally_clear ud, S k)
        end
      | (_, d') =>
          (UploadFailed,
           [EvStatus MsgUploading; EvAcquire; EvForward;
            EvStatus MsgFailed; EvRelease],
           d', finally_clear ud, S k)
      end
    | FloodWait retry_after =>
      match _process_file_upload_edits slots' store edits (S k) ud d user
                                       group_id fo ft fname fsize uid with
      | (GateWait, evs, d', ud', k') =>
          (GateWait,
           [EvStatus MsgUploading; EvAcquire; EvForward;
            EvStatus (MsgRateLimited retry_after); EvSleep retry_after] ++ evs,
           d', ud', k')
      | (o, evs, d', ud', k') =>
          (o,
           [EvStatus MsgUploading; EvAcquire; EvForward;
            EvStatus (MsgRateLimited retry_after); EvSleep retry_after]
           ++ evs ++ [EvRelease],
           d', finally_clear ud', k')
      end
    | ForwardError =>
      (UploadFailed,
       [EvStatus MsgUploading; EvAcquire; EvForward;
        EvStatus MsgFailed; EvRelease],
       d, finally_clear ud, S k)
    end
  end.

(** [str.strip()] and [len], on the UTF-8 bytes of the text.

    The whitespace of [str.isspace] is, in ASCII, tab to carriage return
    (9 to 13), the four separators 28 to 31 and the blank; beyond ASCII,
    U+0085 and U+00A0 (two bytes each), and U+1680, U+2000 to U+200A,
    U+2028, U+2029, U+202F, U+205F and U+3000 (three bytes each). *)
Definition is_space (c : ascii) : bool :=
  let n := nat_of_ascii c in
  ((9 <=? n) && (n <=? 13) || (28 <=? n) && (n <=? 32))%nat.

Definition byte_is (c : ascii) (n : nat) : bool := Nat.eqb (nat_of_ascii c) n.

Definition is_space2 (c1 c2 : ascii) : bool :=
  byte_is c1 194 && (byte_is c2 133 || byte_is c2 160).

Definition is_space3 (c1 c2 c3 : ascii) : bool :=
  let n3 := nat_of_ascii c3 in
  byte_is c1 225 && byte_is c2 154 && byte_is c3 128
  || byte_is c1 226 && byte_is c2 128
     && ((128 <=? n3)%nat && (n3 <=? 138)%nat
         || byte_is c3 168 || byte_is c3 169 || byte_is c3 175)
  || byte_is c1 226 && byte_is c2 129 && byte_is c3 159
  || byte_is c1 227 && byte_is c2 128 && byte_is c3 128.

(** One whitespace character at the head of the text, and what follows it. *)
Definition space_at_head (l : list ascii) : option (list ascii) :=
  match l with
  | [] => None
  | c1 :: r1 =>
    if is_space c1 then Some r1
    else
      match r1 with
      | [] => None
      | c2 :: r2 =>
        if is_space2 c1 c2 then Some r2
        else
          match r2 with
          | [] => None
          | c3 :: r3 => if is_space3 c1 c2 c3 then Some r3 else None
          end
      end
  end.

(** The same at the end of the text, which is given last byte first. *)
Definition space_at_tail (l : list ascii) : option (list ascii) :=
  match l with
  | [] => None
  | c1 :: r1 =>
    if is_space c1 then Some r1
    else
      match r1 with
      | [] => None
      | c2 :: r2 =>
        if is_space2 c2 c1 then Some r2
        else
          match r2 with
          | [] => None
          | c3 :: r3 => if is_space3 c3 c2 c1 then Some r3 else None
          end
      end
  end.

(** Whitespace is dropped for as long as there is some; a text has no
    more characters than bytes. *)
Fixpoint drop_spaces (space : list ascii -> option (list ascii)) (fuel : nat)
    (l : list ascii) : list ascii :=
  match fuel with
  | O => l
  | S fuel' =>
    match space l with
    | Some r => drop_spaces space fuel' r
    | None => l
    end
  end.

Definition lstrip (l : list ascii) : list ascii :=
  drop_spaces space_at_head (List.length l) l.

Definition rstrip (l : list ascii) : list ascii :=
  rev (drop_spaces space_at_tail (List.length l) (rev l)).

Definition strip (s : string) : string :=
  string_of_list_ascii (rstrip (lstrip (list_ascii_of_string s))).

(** [len(s)]: one character for every byte that does not continue another
    (the bytes 128 to 191 do). *)
Definition py_len (s : string) : nat :=
  List.length
    (filter (fun c => negb ((128 <=? nat_of_ascii c)%nat
                            && (nat_of_ascii c <=? 191)%nat))
            (list_ascii_of_string s)).

(** [_create_new_group], lines 735-753. *)
Definition _create_new_group (ud : user_data) (d : db) (owner : Z)
    (text : string) : list event * db * user_data :=
  let group_name := strip text in
  let ud' := mkUserData (upload_group_id ud) (upload_group_name ud)
                        (is_bulk_upload ud) false in
  if (group_name =? "")%string || (50 <? py_len group_name)%nat
  then ([EvStatus MsgInvalidGroupName], d, ud')
  else
    match run (create_group owner group_name) d with
    | (OGroupCreated _, d') => ([EvStatus MsgGroupCreated], d', ud')
    | (ODuplicateName, d') => ([EvStatus MsgGroupExists], d', ud')
    | (_, d') => ([EvStatus MsgError], d', ud')
    end.

Definition truthy_str (o : option string) : bool :=
  match o with
  | Some s => negb (s =? "")%string
  | None => false
  end.

(** [file_handler], lines 547-573.  [authorized] is the answer of
    [is_user_authorized]. *)
Definition file_handler (authorized : bool) (slots : nat)
    (store : nat -> forward_result) (k : nat) (ud : user_data) (d : db)
    (user : tg_user) (msg : message)
    : list event * db * user_data * nat :=
  if negb authorized then ([], d, ud, k)
  else if awaiting_group_name ud && truthy_str (msg_text msg) then
    let '(evs, d', ud') :=
      _create_new_group ud d (user_id user) (str_or (msg_text msg) "") in
    (evs, d', ud', k)
  else
    match upload_group_id ud with
    | Some gid =>
      if gid =? 0 then ([EvStatus MsgSelectGroupFirst], d, ud, k)
      else
        match extract_file_data msg with
        | (None, _, _, _, _) => ([EvStatus MsgUnsupported], d, ud, k)
        | (Some fo, ft, fname, fsize, uid) =>
          if fsize >? MAX_FILE_SIZE then ([EvStatus MsgTooLarge], d, ud, k)
          else
            let '(_, evs, d', ud', k') :=
              _process_file_upload slots store k ud d user gid fo ft fname
                                   fsize uid in
            (evs, d', ud', k')
        end
    | None => ([EvStatus MsgSelectGroupFirst], d, ud, k)
    end.

(** Slots of the semaphore held after a run of events, given those held
    before. *)
Fixpoint held_after (h : Z) (evs : list event) : Z :=
  match evs with
  | [] => h
  | EvAcquire :: r => held_after (h + 1) r
  | EvRelease :: r => held_after (h - 1) r
  | _ :: r => held_after h r
  end.

(** Slots held at the moment of each sleep. *)
Fixpoint held_at_sleeps (h : Z) (evs : list event) : list Z :=
  match evs with
  | [] => []
  | EvAcquire :: r => held_at_sleeps (h + 1) r
  | EvRelease :: r => held_at_sleeps (h - 1) r
  | EvSleep _ :: r => h :: held_at_sleeps h r
  | _ :: r => held_at_sleeps h r
  end.

Definition sleeps (evs : list event) : list Z :=
  flat_map (fun e => match e with EvSleep t => [t] | _ => [] end) evs.

Definition count_forwards (evs : list event) : nat :=
  List.length (filter (fun e => match e with EvForward => true | _ => false end) evs).

Definition is_transfer (e : event) : bool :=
  match e with EvForward | EvAcquire => true | _ => false end.

(* ------------------------------------------------------------------ *)
(** * 8. Search: [search_handler], lines 444-470 *)

Local Open Scope char_scope.

(** Strings are the bytes of the UTF-8 text.  A string is ASCII when every
    byte is below 128; then bytes and characters are the same thing. *)
Definition is_ascii (s : string) : bool :=
  forallb (fun c => (nat_of_ascii c <? 128)%nat) (list_ascii_of_string s).





Local Close Scope char_scope.






Definition join_args (args : list string) : string :=
  match args with
  | [] => ""
  | a :: r => fold_left (fun acc s => (acc ++ " " ++ s)%string) r a
  end.



(* ------------------------------------------------------------------ *)
(** * 9. Invariants, and the states the program can reach *)

(** What the schema promises: primary keys below their sequence, the
    declared UNIQUE constraints, the declared foreign keys. *)
Record schema_ok (d : db) : Prop := mkSchemaOk {
  groups_pk : NoDup (map g_id (groups d));
  groups_below : forall g, In g (groups d) -> g_id g < groups_seq d;
  groups_unique : NoDup (map (fun g => (g_name g, g_owner_id g)) (groups d));
  files_pk : NoDup (map f_id (files d));
  files_below : forall f, In f (files d) -> f_id f < files_seq d;
  files_unique_content : NoDup (map unique_id (files d));
  files_unique_serial :
    NoDup (map (fun f => (f_group_id f, serial_number f)) (files d));
  files_fk : forall f, In f (files d) -> In (f_group_id f) (map g_id (groups d));
  links_pk : NoDup (map l_id (file_links d));
  links_below : forall l, In l (file_links d) -> l_id l < links_seq d;
  links_unique : NoDup (map link_code (file_links d));
  links_fk_file : forall l x, In l (file_links d) -> l_file_id l = Some x ->
                              In x (map f_id (files d));
  links_fk_group : forall l x, In l (file_links d) -> l_group_id l = Some x ->
                               In x (map g_id (groups d))
}.

(** No link references a target that does not exist. *)
Definition links_valid (d : db) : Prop :=
  forall l, In l (file_links d) ->
    (forall fid, l_file_id l = Some fid -> exists f, In f (files d) /\ f_id f = fid)
    /\ (forall gid, l_group_id l = Some gid ->
                    exists g, In g (groups d) /\ g_id g = gid).

Definition sum_z (l : list Z) : Z := fold_right Z.add 0 l.

(** The counters of every group agree with its rows in [files]. *)
Definition aggregates_ok (d : db) : Prop :=
  forall g, In g (groups d) ->
    total_files g = Z.of_nat (List.length (group_files (g_id g) d))
    /\ total_size g = sum_z (map file_size (group_files (g_id g) d)).


(** The writes the program issues: each is one statement that commits by
    itself, or the commit of one [conn.transaction()] block. *)
Inductive action :=
| AInsertGroup (name : string) (owner : Z)
| AUploadCommit (gid serial : Z) (m : file_meta)
| ADeleteCommit (fid size gid : Z)
| ADeleteGroup (owner : Z) (name : string)
| AInsertLink (code : string) (fid gid : option Z) (lt : ltype) (owner : Z)
| ADeleteLink (code : string) (owner : Z)
| AUpdateClicks (lid : Z).

Definition perform (a : action) (d : db) : db :=
  match a with
  | AInsertGroup name owner => snd (insert_group name owner d)
  | AUploadCommit gid serial m => snd (upload_commit gid serial m d)
  | ADeleteCommit fid size gid => snd (delete_commit fid size gid d)
  | ADeleteGroup owner name => snd (delete_group owner name d)
  | AInsertLink code fid gid lt owner => snd (insert_link code fid gid lt owner d)
  | ADeleteLink code owner => snd (delete_link code owner d)
  | AUpdateClicks lid => snd (update_clicks lid d)
  end.

Definition perform_all (al : list action) (d : db) : db :=
  fold_left (fun d a => perform a d) al d.

(** Whatever the handlers did and however their statements interleaved, the
    store went through a sequence of such writes. *)
Definition reachable (d : db) : Prop :=
  exists al, d = perform_all al empty_db.

(** Every statement of the handler is a read or one of the writes above. *)
Fixpoint by_actions {R} (p : proc R) : Prop :=
  match p with
  | Ret _ => True
  | Atomic a k =>
      (forall d, snd (a d) = d \/ exists act, snd (a d) = perform act d)
      /\ forall x, by_actions (k x)
  end.

(** The operations a caller can ask for. *)
Inductive op :=
| OpCreateGroup (owner : Z) (name : string)
| OpUpload (gid : Z) (m : file_meta)
| OpDeleteFile (owner : Z) (name : string) (serial : Z)
| OpDeleteGroup (owner : Z) (name : string)
| OpGetLink (free : nat) (urandom : nat -> list Z) (n : nat)
            (user : Z) (group_name : string) (serial : Z)
| OpGetGroupLink (free : nat) (urandom : nat -> list Z) (n : nat)
                 (user : Z) (group_name : string)
| OpRevokeLink (code : string) (owner : Z)
| OpResolveLink (code : string).

Definition handler (o : op) : proc outcome :=
  match o with
  | OpCreateGroup owner name => create_group owner name
  | OpUpload gid m => upload_txn gid m
  | OpDeleteFile owner name serial => delete_file_txn owner name serial
  | OpDeleteGroup owner name => delete_group_txn owner name
  | OpGetLink free urandom n user gname serial =>
      getlink_handler free urandom n user gname serial
  | OpGetGroupLink free urandom n user gname =>
      getgrouplink_handler free urandom n user gname
  | OpRevokeLink code owner => revoke_link code owner
  | OpResolveLink code => resolve_link code
  end.

(** Operations one after another, none starting before the last is done. *)
Fixpoint run_ops (os : list op) (d : db) : list outcome * db :=
  match os with
  | [] => ([], d)
  | o :: rest =>
    let (r, d1) := run (handler o) d in
    let (rs, d2) := run_ops rest d1 in
    (r :: rs, d2)
  end.

Definition all_finished {R} (ts : list (proc R)) : bool :=
  forallb (fun p => match finished p with Some _ => true | None => false end) ts.

Definition serials_of (gid : Z) (d : db) : list Z :=
  map serial_number (group_files gid d).

Definition one_to (n : nat) : list Z := map Z.of_nat (seq 1 n).



(** A link reaches a group directly or through one of the group's files. *)
Definition targets_group (d : db) (l : link_row) (gid : Z) : Prop :=
  l_group_id l = Some gid
  \/ exists f, In f (files d) /\ f_group_id f = gid /\ l_file_id l = Some (f_id f).

Definition code_in_use (code : string) (d : db) : Prop :=
  exists l, In l (file_links d) /\ link_code l = code.

(** The rows the two counter updates and the file insert produce. *)
Definition add_stats (size gid : Z) (g : group_row) : group_row :=
  if g_id g =? gid
  then mkGroup (g_id g) (g_name g) (g_owner_id g)
               (total_files g + 1) (total_size g + size)
  else g.

Definition sub_stats (size gid : Z) (g : group_row) : group_row :=
  if g_id g =? gid
  then mkGroup (g_id g) (g_name g) (g_owner_id g)
               (total_files g - 1) (total_size g - size)
  else g.

Definition new_file (id gid serial : Z) (m : file_meta) : file_row :=
  mkFile id gid serial (m_unique_id m) (m_file_name m) (m_file_type m)
         (m_file_size m) (m_telegram_file_id m) (m_uploader_id m)
         (m_uploader_username m) (m_storage_message_id m).


(* ------------------------------------------------------------------ *)
(** * 10. A running example, and the statements put to the test *)

(** The scenario of the specification: group "Movies" of owner 1, fileA of
    2,000,000 bytes, fileB of 3,000,000 bytes. *)
Definition meta_a : file_meta :=
  mkMeta "AgADuniqueA" "fileA.mkv" video 2000000 "BQACfileA" 1 None 100.

Definition meta_b : file_meta :=
  mkMeta "AgADuniqueB" "fileB.mkv" video 3000000 "BQACfileB" 1 None 101.

Definition db_movies : db :=
  snd (run_ops [OpCreateGroup 1 "Movies"] empty_db).

Definition db_two_files : db :=
  snd (run_ops [OpUpload 1 meta_a; OpUpload 1 meta_b] db_movies).

(** "N concurrent uploads into an empty group get exactly the serials
    1..N, in whatever order they complete." *)
Definition concurrent_uploads_exact (d : db) (gid : Z) (ms : list file_meta)
    : Prop :=
  forall sched,
    all_finished (fst (run_sched sched (map (upload_txn gid) ms) d)) = true ->
    Permutation (serials_of gid (snd (run_sched sched (map (upload_txn gid) ms) d)))
                (one_to (List.length ms)).



(** The state of a group that has received its first [k] uploads. *)
Record filled (gid : Z) (k : nat) (d : db) : Prop := mkFilled {
  filled_schema : schema_ok d;
  filled_group : exists g, In g (groups d) /\ g_id g = gid;
  filled_serials : serials_of gid d = one_to k;
  filled_counters : forall g, In g (groups d) -> g_id g = gid ->
      total_files g = Z.of_nat k
      /\ 0 <= total_size g <= Z.of_nat k * MAX_FILE_SIZE
}.


(** Two answers of the random source, and a store in which the code of the
    first is already taken by a link to fileA. *)
Definition random_a : list Z := [0; 1; 2; 3; 4; 5; 6; 7; 8; 9; 10; 11; 12; 13; 14; 15].

Definition random_b : list Z := repeat 255 16.

Definition db_linked : db :=
  snd (run (getlink_handler POOL_MAX_SIZE (fun _ => random_a) 0 1 "Movies" 1)
           db_two_files).

(** The random source that repeats [random_a] [k] times, then gives
    [random_b]. *)
Definition stuck_then_free (k : nat) (n : nat) : list Z :=
  if (n <? k)%nat then random_a else random_b.

(** "A collision is retried at most [bound] times, after which issuance
    fails; issuance always comes to an end."  Every attempt draws one value
    from the sequence of [file_links]. *)
Definition issuance_bounded (bound : Z) : Prop :=
  forall urandom n fid gid lt owner d,
    let r := run (_create_link POOL_MAX_SIZE urandom n fid gid lt owner) d in
    links_seq (snd r) - links_seq d <= 1 + bound /\ fst r <> OPoolWait.

(** The store after [j] failed attempts: only the sequence has moved. *)
Definition after_attempts (j : Z) (d : db) : db :=
  mkDb (groups d) (files d) (file_links d)
       (groups_seq d) (files_seq d) (links_seq d + j).

(** The store after [j] failed attempts and the successful one. *)
Definition with_link (j : Z) (code : string) (fid gid : option Z) (lt : ltype)
    (owner : Z) (d : db) : db :=
  mkDb (groups d) (files d)
       (file_links d ++ [mkLink (links_seq d + j) code fid gid lt owner 0 true])
       (groups_seq d) (files_seq d) (links_seq d + j + 1).

Definition target_exists (fid gid : option Z) (d : db) : Prop :=
  (forall x, fid = Some x -> exists f, In f (files d) /\ f_id f = x)
  /\ (forall x, gid = Some x -> exists g, In g (groups d) /\ g_id g = x).


(** The waits announced by the rate limits the content store answers in a
    row from its [k]-th answer on, as far as the semaphore has slots. *)
Fixpoint flood_run (slots : nat) (store : nat -> forward_result) (k : nat)
    : list Z :=
  match slots with
  | O => []
  | S slots' =>
    match store k with
    | FloodWait t => t :: flood_run slots' store (S k)
    | _ => []
    end
  end.

(** A content store that is rate limiting for its first [n] answers (asking
    for 7 seconds each time), then accepts. *)
Definition limited_then_ok (n : nat) (k : nat) : forward_result :=
  if (k <? n)%nat then FloodWait 7 else Forwarded (100 + Z.of_nat k).

Definition user_one : tg_user := mkUser 1 None.

Definition file_a : file_obj :=
  mkFileObj "BQACfileA" "AgADuniqueA" (Some "fileA.mkv") (Some 2000000).

Definition selected_movies : user_data :=
  mkUserData (Some 1) (Some "Movies") false false.

Definition upload_a (slots : nat) (store : nat -> forward_result)
    : upload_outcome * list event * db * user_data * nat :=
  _process_file_upload slots store 0 selected_movies db_movies user_one 1
                       file_a video "fileA.mkv" 2000000 "AgADuniqueA".

Definition events_of (r : upload_outcome * list event * db * user_data * nat)
    : list event :=
  let '(_, evs, _, _, _) := r in evs.

Definition outcome_of (r : upload_outcome * list event * db * user_data * nat)
    : upload_outcome :=
  let '(o, _, _, _, _) := r in o.

(** "No slot of the semaphore is held while an upload sleeps on a rate limit, and
    a rate-limited upload is retried at most [bound] times." *)
Definition backoff_frees_gate (bound : nat) : Prop :=
  forall slots store k ud d user gid fo ft fname fsize uid,
    let evs := events_of (_process_file_upload slots store k ud d user gid
                                               fo ft fname fsize uid) in
    Forall (fun h => h = 0) (held_at_sleeps 0 evs)
    /\ (List.length (sleeps evs) <= bound)%nat.


(** Did the run end waiting for a slot of the semaphore? *)
Definition gate_wait (o : upload_outcome) : bool :=
  match o with GateWait => true | _ => false end.







(** What a successful resolution hands over, read off the store. *)
Definition descriptor_of (l : link_row) (d : db) (r : outcome) : Prop :=
  match link_type l with
  | LinkFile =>
    match l_file_id l with
    | Some fid =>
        exists f g, In f (files d) /\ f_id f = fid /\ In g (groups d)
                    /\ g_id g = f_group_id f /\ r = OFile f (g_name g)
    | None => r = OFileMissing
    end
  | LinkGroup =>
    match l_group_id l with
    | Some gid =>
        (group_files gid d = [] /\ r = OGroupEmpty)
        \/ (exists g fs,
              In g (groups d) /\ g_id g = gid
              /\ r = OGroup (Some (g_name g)) fs
              /\ fs <> []
              /\ Permutation fs (group_files gid d)
              /\ StronglySorted
                   (fun a b => serial_number a <= serial_number b) fs)
    | None => r = OGroupEmpty
    end
  end.


(** What an attempt does up to and including its sleep on a rate limit. *)
Definition backoff_prefix (t : Z) : list event :=
  [EvStatus MsgUploading; EvAcquire; EvForward;
   EvStatus (MsgRateLimited t); EvSleep t].





Definition meta_axb : file_meta :=
  mkMeta "AgADaxb" "axb.mkv" video 1000 "BQACaxb" 1 None 300.










(** A message carrying a document of 3,000,000,000 bytes. *)
Definition big_document : message :=
  mkMessage None
            (Some (mkFileObj "BQACbig" "AgADbig" (Some "big.iso")
                             (Some 3000000000)))
            None None [] None None.

(* ------------------------------------------------------------------ *)
(** * 11. The rest of the handlers

    What the statements above leave out of [fileshaare.py]: the session
    commands, the keyboards and their callbacks, the two deletions with
    their clean-up of the content store, the users and settings tables,
    captions and statistics. *)

(** A text that neither begins nor ends with a whitespace character. *)
Definition stripped (s : string) : Prop :=
  space_at_head (list_ascii_of_string s) = None
  /\ space_at_tail (rev (list_ascii_of_string s)) = None.

(** The row an upload of this file by this user into [gid] leaves in
    [files], lines 709-715. *)
Definition uploaded_row (id gid serial : Z) (user : tg_user) (fo : file_obj)
    (ft : ftype) (fname : string) (fsize : Z) (uid : string) (mid : Z)
    : file_row :=
  mkFile id gid serial uid fname ft fsize (fo_file_id fo) (user_id user)
         (username user) mid.

Definition says_saved (e : event) : bool :=
  match e with EvStatus (MsgSaved _) => true | _ => false end.

(** [clear_handler], lines 288-296: pops the three keys of the upload
    selection, and nothing else. *)
Definition clear_handler (authorized : bool) (ud : user_data) : user_data :=
  if negb authorized then ud
  else mkUserData None None false (awaiting_group_name ud).

(* ------------------------------------------------------------------ *)
(** * 12. Callback data: [str(int)], [int(str)], [str.isdigit], [str.split]

    Strings are the bytes of the UTF-8 text.  [isdigit] and [py_int] are
    [str.isdigit] and [int] on ASCII strings.  Python also takes the
    digits of other scripts for digits (and [str.isdigit] superscripts as
    well, which [int] then refuses); these are not modelled, and what is
    proved with the two functions is stated for ASCII strings or for the
    strings the program writes itself with [str(int)].  [py_split] cuts at
    a byte below 128, which in UTF-8 is always a character of its own. *)

Definition digit_char (v : Z) : ascii := ascii_of_nat (48 + Z.to_nat v).

Definition digit_val (c : ascii) : option Z :=
  let n := nat_of_ascii c in
  if ((48 <=? n) && (n <=? 57))%nat then Some (Z.of_nat n - 48) else None.

(** The decimal digits of a number that is not negative, the last digit
    first.  A number has no more decimal digits than binary ones. *)
Fixpoint le_digits (fuel : nat) (n : Z) : list Z :=
  match fuel with
  | O => []
  | S f => (n mod 10) :: (if n <? 10 then [] else le_digits f (n / 10))
  end.

Definition digits (n : Z) : list ascii :=
  map digit_char (rev (le_digits (S (Z.to_nat (Z.log2 n))) n)).

(** [str(z)], and [f"{z}"], of an int. *)
Definition py_str (z : Z) : string :=
  string_of_list_ascii (if z <? 0 then "-"%char :: digits (- z) else digits z).

(** [f"{z:03d}"]: zeros up to a width of three, the sign counted in. *)
Definition zfill (width : nat) (ds : list ascii) : list ascii :=
  repeat "0"%char (width - List.length ds) ++ ds.

Definition format_03d (z : Z) : string :=
  string_of_list_ascii
    (if z <? 0 then "-"%char :: zfill 2 (digits (- z)) else zfill 3 (digits z)).

(** [s.isdigit()], for an ASCII string. *)
Definition isdigit (s : string) : bool :=
  match list_ascii_of_string s with
  | [] => false
  | c :: r =>
      forallb (fun x => match digit_val x with Some _ => true | None => false end)
              (c :: r)
  end.

(** [int(s)], for an ASCII string: surrounding whitespace is dropped (for
    an ASCII string that is the whitespace of C: tab to carriage return,
    and the blank), one sign is allowed, then digits, with single
    underscores between digits.  [None] is ValueError.  (CPython refuses
    more than 4300 digits; a message of Telegram has at most 4096
    characters.) *)
Definition is_c_space (c : ascii) : bool :=
  let n := nat_of_ascii c in
  ((9 <=? n) && (n <=? 13) || (n =? 32))%nat.

Fixpoint lstrip_c (l : list ascii) : list ascii :=
  match l with
  | c :: r => if is_c_space c then lstrip_c r else l
  | [] => []
  end.

Fixpoint parse_digits (acc : Z) (after_digit : bool) (l : list ascii)
    : option Z :=
  match l with
  | [] => if after_digit then Some acc else None
  | c :: r =>
    if Ascii.eqb c "_"%char then
      if after_digit then parse_digits acc false r else None
    else
      match digit_val c with
      | Some v => parse_digits (acc * 10 + v) true r
      | None => None
      end
  end.

Definition py_int (s : string) : option Z :=
  match rev (lstrip_c (rev (lstrip_c (list_ascii_of_string s)))) with
  | [] => None
  | c :: r =>
    if Ascii.eqb c "-"%char then option_map Z.opp (parse_digits 0 false r)
    else if Ascii.eqb c "+"%char then parse_digits 0 false r
    else parse_digits 0 false (c :: r)
  end.

(** [s.split(sep)] for a separator of one character: one field more than
    there are separators. *)
Fixpoint split_on (sep : ascii) (l : list ascii) : list (list ascii) :=
  match l with
  | [] => [[]]
  | c :: r =>
    if Ascii.eqb c sep then [] :: split_on sep r
    else
      match split_on sep r with
      | w :: ws => (c :: w) :: ws
      | [] => [[c]]
      end
  end.

Definition py_split (sep : ascii) (s : string) : list string :=
  map string_of_list_ascii (split_on sep (list_ascii_of_string s)).

Definition has_char (c : ascii) (s : string) : bool :=
  existsb (Ascii.eqb c) (list_ascii_of_string s).

(* ------------------------------------------------------------------ *)
(** * 13. Keyboards, pages and the two deletions *)

Definition PAGINATION_LIMIT : nat := 5.

(** A button is what it shows and the callback data it sends back. *)
Inductive label :=
| LblGroup (name : string) (files_count : Z)
| LblBack
| LblNext
| LblCreateGroup
| LblBackToGroups
| LblYesDelete
| LblYesDeleteGroup
| LblCancel.

Record button := mkButton {
  btn_label : label;
  callback_data : string
}.

Definition keyboard := list (list button).

(** ORDER BY name: names compared byte by byte. *)
Definition group_name_leb (a b : group_row) : bool :=
  match String.compare (g_name a) (g_name b) with
  | Gt => false
  | _ => true
  end.

Definition owned_groups (owner : Z) (d : db) : list group_row :=
  filter (fun g => g_owner_id g =? owner) (groups d).

(** LIMIT 5 OFFSET $3.  [None]: PostgreSQL refuses a negative OFFSET, and
    the driver an offset that is no BIGINT. *)
Definition page {A} (offset : Z) (rows : list A) : option (list A) :=
  if (offset <? 0) || negb (in_int8 offset) then None
  else Some (firstn PAGINATION_LIMIT (skipn (Z.to_nat offset) rows)).

(** SELECT id, name, total_files FROM groups WHERE owner_id = $1
    ORDER BY name LIMIT $2 OFFSET $3 *)
Definition select_groups_page (owner offset : Z) (d : db)
    : option (list group_row) :=
  page offset (sort_by group_name_leb (owned_groups owner d)).

(** The pagination controls, written three times in the source with three
    prefixes: lines 788-792, 822-826 and 961-965. *)
Definition nav_buttons (prefix : string) (offset total : Z) : list button :=
  (if offset >? 0
   then [mkButton LblBack
                  (prefix ++ py_str (offset - Z.of_nat PAGINATION_LIMIT))]
   else [])
  ++ (if total >? offset + Z.of_nat PAGINATION_LIMIT
      then [mkButton LblNext
                     (prefix ++ py_str (offset + Z.of_nat PAGINATION_LIMIT))]
      else []).

Definition nav_row (nav : list button) : keyboard :=
  match nav with
  | [] => []
  | _ :: _ => [nav]
  end.

Definition group_button (callback_action : string) (g : group_row) : button :=
  mkButton (LblGroup (g_name g) (total_files g))
           (callback_action ++ ":" ++ py_str (g_id g)
            ++ (if (callback_action =? "select_group_upload")%string
                then ":" ++ g_name g
                else if (callback_action =? "view_group")%string then ":0"
                else ""))%string.

(** [_get_groups_keyboard], lines 769-797. *)
Definition _get_groups_keyboard (user_id : Z) (callback_action : string)
    (offset : Z) (d : db) : option keyboard :=
  match select_groups_page user_id offset d with
  | None => None
  | Some groups_page =>
    let total_groups := Z.of_nat (List.length (owned_groups user_id d)) in
    Some (map (fun g => [group_button callback_action g]) groups_page
          ++ nav_row (nav_buttons "list_groups:" offset total_groups)
          ++ [[mkButton LblCreateGroup "new_group"]])
  end.

(** [upload_handler], lines 298-309, and [bulkupload_handler]: the flag is
    set, the selection is left to the keyboard. *)
Definition upload_handler (authorized : bool) (bulk : bool) (user_id : Z)
    (ud : user_data) (d : db) : user_data * option keyboard :=
  if negb authorized then (ud, None)
  else (mkUserData (upload_group_id ud) (upload_group_name ud) bulk
                   (awaiting_group_name ud),
        _get_groups_keyboard user_id "select_group_upload" 0 d).

(** [_send_files_list], lines 799-831.  Both queries run before anything is
    looked at; "Next" goes by the counter of the group. *)
Inductive files_reply :=
| FilesGroupNotFound
| FilesEmpty (group_info : group_row) (kb : keyboard)
| FilesPage (group_info : group_row) (rows : list file_row) (kb : keyboard).

Definition _send_files_list (group_id offset : Z) (d : db)
    : option files_reply :=
  if negb (in_int4 group_id) then None
  else
    match page offset (select_files_ordered (Some group_id) d) with
    | None => None
    | Some rows =>
      match find (fun g => g_id g =? group_id) (groups d) with
      | None => Some FilesGroupNotFound
      | Some group_info =>
        let back := [[mkButton LblBackToGroups "list_groups:0"]] in
        match rows, offset =? 0 with
        | [], true => Some (FilesEmpty group_info back)
        | _, _ =>
          Some (FilesPage group_info rows
                  (nav_row (nav_buttons
                              ("view_group:" ++ py_str group_id ++ ":")
                              offset (total_files group_info))
                   ++ back))
        end
      end
    end.

(** What the two deletions answer. *)
Inductive delete_reply :=
| FileNotFound
| FileDeleted (serial : Z) (group_name : string)
| FileDeleteError
| GroupNotFound (group_name : string)
| GroupDeleted (group_name : string) (deleted_count total : nat).

(** [_perform_file_delete], lines 833-861.  The transaction first, then
    one [delete_message] on the content store, whose failure is logged and
    nothing more.  The list is what the content store was asked to delete;
    a serial that is no INTEGER is refused by the driver. *)
Definition _perform_file_delete (user_id : Z) (group_name : string)
    (serial : Z) (d : db) : delete_reply * list Z * db :=
  if negb (in_int4 serial) then (FileDeleteError, [], d)
  else
    match run (delete_file_txn user_id group_name serial) d with
    | (ONotFound, d') => (FileNotFound, [], d')
    | (OFileDeleted message_id, d') =>
        (FileDeleted serial group_name, [message_id], d')
    | (_, d') => (FileDeleteError, [], d')
    end.

(** [_perform_group_delete], lines 863-894.  [remote k] tells whether the
    k-th [delete_message] asked of the content store succeeds. *)
Definition _perform_group_delete (remote : nat -> bool) (k : nat)
    (user_id : Z) (group_name : string) (d : db)
    : delete_reply * list Z * db * nat :=
  match run (delete_group_txn user_id group_name) d with
  | (OGroupDeleted message_ids, d') =>
      let answers := map remote (seq k (List.length message_ids)) in
      (GroupDeleted group_name
                    (List.length (filter (fun ok : bool => ok) answers))
                    (List.length message_ids),
       message_ids, d', (k + List.length message_ids)%nat)
  | (_, d') => (GroupNotFound group_name, [], d', k)
  end.

(** [deletefile_handler], lines 381-398, and [deletegroup_handler], lines
    401-414: the confirmation keyboards.  [args] are the words after the
    command. *)
Inductive command_reply :=
| CmdSilent
| CmdUsage
| CmdNotInteger
| CmdConfirm (kb : keyboard).

Definition deletefile_handler (authorized : bool) (args : list string)
    : command_reply :=
  if negb authorized then CmdSilent
  else
    match args with
    | [group_name; file_serial_str] =>
      if negb (isdigit file_serial_str) then CmdNotInteger
      else
        CmdConfirm
          [[mkButton LblYesDelete
                     ("confirm_delete_file:" ++ group_name ++ ":"
                      ++ file_serial_str);
            mkButton LblCancel "cancel_action"]]
    | _ => CmdUsage
    end.

Definition deletegroup_handler (authorized : bool) (args : list string)
    : command_reply :=
  if negb authorized then CmdSilent
  else
    match args with
    | [group_name] =>
        CmdConfirm
          [[mkButton LblYesDeleteGroup ("confirm_delete_group:" ++ group_name);
            mkButton LblCancel "cancel_action"]]
    | _ => CmdUsage
    end.

(** [callback_handler], lines 575-631.  The data is cut at every colon; a
    field that is missing or no number raises, and every exception ends in
    the same reply.  What [_handle_admin_callbacks] does for the [admin_]
    actions is the business of section 14: it touches neither these three
    tables nor the upload keys of the session. *)
Inductive callback_reply :=
| CbNotAuthorized
| CbEnterGroupName
| CbGroups (kb : keyboard)
| CbFiles (r : files_reply)
| CbSelected (group_name : string) (is_bulk : bool)
| CbDelete (r : delete_reply) (asked_to_delete : list Z)
| CbCanceled
| CbAdmin (data : list string)
| CbNothing
| CbUnexpectedError.

Definition int_field (data : list string) (i : nat) : option Z :=
  match nth_error data i with
  | Some s => py_int s
  | None => None
  end.

Definition callback_handler (authorized : bool) (remote : nat -> bool)
    (k : nat) (user_id : Z) (query_data : string) (ud : user_data) (d : db)
    : callback_reply * db * user_data * nat :=
  if negb authorized then (CbNotAuthorized, d, ud, k)
  else
    let data := py_split ":"%char query_data in
    let action := nth 0 data "" in
    let failed := (CbUnexpectedError, d, ud, k) in
    if (action =? "new_group")%string then
      (CbEnterGroupName, d,
       mkUserData (upload_group_id ud) (upload_group_name ud)
                  (is_bulk_upload ud) true, k)
    else if (action =? "list_groups")%string then
      match int_field data 1 with
      | Some offset =>
        match _get_groups_keyboard user_id "view_group" offset d with
        | Some kb => (CbGroups kb, d, ud, k)
        | None => failed
        end
      | None => failed
      end
    else if (action =? "view_group")%string then
      match int_field data 1, int_field data 2 with
      | Some group_id, Some offset =>
        match _send_files_list group_id offset d with
        | Some r => (CbFiles r, d, ud, k)
        | None => failed
        end
      | _, _ => failed
      end
    else if (action =? "select_group_upload")%string then
      match int_field data 1, nth_error data 2 with
      | Some group_id, Some group_name =>
          (CbSelected group_name (is_bulk_upload ud), d,
           mkUserData (Some group_id) (Some group_name) (is_bulk_upload ud)
                      (awaiting_group_name ud), k)
      | _, _ => failed
      end
    else if (action =? "confirm_delete_file")%string then
      match nth_error data 1, int_field data 2 with
      | Some group_name, Some serial =>
        let '(r, asked, d') :=
          _perform_file_delete user_id group_name serial d in
        (CbDelete r asked, d', ud, k)
      | _, _ => failed
      end
    else if (action =? "confirm_delete_group")%string then
      match nth_error data 1 with
      | Some group_name =>
        let '(r, asked, d', k') :=
          _perform_group_delete remote k user_id group_name d in
        (CbDelete r asked, d', ud, k')
      | None => failed
      end
    else if (action =? "cancel_action")%string then (CbCanceled, d, ud, k)
    else if String.prefix "admin_" action then (CbAdmin data, d, ud, k)
    else (CbNothing, d, ud, k).

(** The data of the "Next" button of a keyboard, and the groups it lists. *)
Definition is_next (b : button) : bool :=
  match btn_label b with LblNext => true | _ => false end.

Definition next_data (kb : keyboard) : option string :=
  option_map callback_data (find is_next (List.concat kb)).

Definition shown_groups (kb : keyboard) : list (string * Z) :=
  flat_map (fun b => match btn_label b with
                     | LblGroup name n => [(name, n)]
                     | _ => []
                     end)
           (List.concat kb).

(** Pressing "Next" for as long as the keyboard has one: the groups seen
    on the way. *)
Fixpoint browse_groups (presses : nat) (remote : nat -> bool) (k : nat)
    (user_id : Z) (ud : user_data) (d : db) (kb : keyboard)
    : list (string * Z) :=
  shown_groups kb
  ++ match presses, next_data kb with
     | S n, Some data =>
       match callback_handler true remote k user_id data ud d with
       | (CbGroups kb', _, _, _) => browse_groups n remote k user_id ud d kb'
       | _ => []
       end
     | _, _ => []
     end.

Definition group_line (g : group_row) : string * Z :=
  (g_name g, total_files g).

(** The part of a name before its first colon. *)
Definition first_field (s : string) : string :=
  nth 0 (py_split ":"%char s) "".

(** Seven groups of user 1, created in no particular order. *)
Definition db_shelves : db :=
  snd (run_ops (map (OpCreateGroup 1)
                    ["Gamma"; "Alpha"; "Eta"; "Beta"; "Zeta"; "Delta";
                     "Epsilon"]) empty_db).

(** User 1 also has a group named "Movies:2", with one file in it. *)
Definition db_colon : db :=
  snd (run_ops [OpCreateGroup 1 "Movies:2"; OpUpload 2 meta_axb] db_two_files).

Definition count_true (l : list bool) : nat :=
  List.length (filter (fun ok : bool => ok) l).

(* ------------------------------------------------------------------ *)
(** * 14. Users, settings, captions and statistics

    The two other tables of [init_database].  [admin_ids] is ADMIN_IDS and
    [custom_caption_env] is CUSTOM_CAPTION, both read from the environment
    when the program starts. *)

(** [authorized_users]: user_id UNIQUE. *)
Record user_row := mkUserRow {
  u_id : Z;
  u_user_id : Z;
  u_username : option string;
  u_first_name : option string;
  u_added_by : Z;
  u_is_active : bool;
  u_caption_disabled : bool
}.

(** [bot_settings]: key PRIMARY KEY. *)
Record setting_row := mkSetting {
  s_key : string;
  s_value : string
}.

Record admin_db := mkAdminDb {
  authorized_users : list user_row;
  bot_settings : list setting_row;
  users_seq : Z
}.

Definition empty_admin_db : admin_db := mkAdminDb [] [] 1.

(** INSERT INTO bot_settings (key, value) VALUES ($1, $2)
    ON CONFLICT (key) DO NOTHING *)
Definition insert_setting (key value : string) (a : admin_db) : admin_db :=
  if existsb (fun s => (s_key s =? key)%string) (bot_settings a) then a
  else mkAdminDb (authorized_users a)
                 (bot_settings a ++ [mkSetting key value]) (users_seq a).

(** INSERT INTO authorized_users (user_id, username, first_name, added_by,
    is_active) VALUES ($1, $2, $3, $4, TRUE) ON CONFLICT (user_id) DO
    NOTHING.  The default of [id] is drawn from the sequence before the
    conflict is seen.  [None]: the statement raised. *)
Definition insert_admin (admin_id : Z) (a : admin_db) : option admin_db :=
  if negb (in_int8 admin_id) then None
  else
    match nextval (users_seq a) with
    | None => None
    | Some id =>
      Some (mkAdminDb
              (if existsb (fun u => u_user_id u =? admin_id)
                          (authorized_users a)
               then authorized_users a
               else authorized_users a
                    ++ [mkUserRow id admin_id
                                  (Some ("admin_" ++ py_str admin_id)%string)
                                  (Some ("Admin " ++ py_str admin_id)%string)
                                  admin_id true false])
              (bot_settings a) (users_seq a + 1))
    end.

(** [init_database], lines 128-134: the seeding.  Every statement commits
    by itself; the flag tells whether all of them went through (if not,
    [main_async] gives up). *)
Fixpoint seed_admins (ids : list Z) (a : admin_db) : bool * admin_db :=
  match ids with
  | [] => (true, a)
  | admin_id :: rest =>
    match insert_admin admin_id a with
    | Some a' => seed_admins rest a'
    | None => (false, a)
    end
  end.

Definition init_database (admin_ids : list Z) (custom_caption_env : string)
    (a : admin_db) : bool * admin_db :=
  seed_admins admin_ids
    (insert_setting "custom_caption" custom_caption_env
       (insert_setting "caption_enabled" "1" a)).

(** [is_admin], line 141, and [is_user_authorized], lines 213-221. *)
Definition is_admin (admin_ids : list Z) (user_id : Z) : bool :=
  mem_z user_id admin_ids.

Definition is_user_authorized (admin_ids : list Z) (a : admin_db)
    (user_id : Z) : bool :=
  if is_admin admin_ids user_id then true
  else if negb (in_int8 user_id) then false
  else existsb (fun u => (u_user_id u =? user_id) && u_is_active u)
               (authorized_users a).

(** INSERT INTO authorized_users (user_id, first_name, added_by, is_active)
    VALUES ($1, $2, $3, TRUE)
    ON CONFLICT (user_id) DO UPDATE SET is_active = TRUE, first_name = $2 *)
Definition activate (first_name : string) (u : user_row) : user_row :=
  mkUserRow (u_id u) (u_user_id u) (u_username u) (Some first_name)
            (u_added_by u) true (u_caption_disabled u).

Definition upsert_user (user_id : Z) (first_name : string) (added_by : Z)
    (a : admin_db) : option admin_db :=
  if negb (in_int8 user_id) || negb (in_int8 added_by) then None
  else
    match nextval (users_seq a) with
    | None => None
    | Some id =>
      Some (mkAdminDb
              (if existsb (fun u => u_user_id u =? user_id)
                          (authorized_users a)
               then map (fun u => if u_user_id u =? user_id
                                  then activate first_name u else u)
                        (authorized_users a)
               else authorized_users a
                    ++ [mkUserRow id user_id None (Some first_name) added_by
                                  true false])
              (bot_settings a) (users_seq a + 1))
    end.

Inductive admin_reply :=
| AdSilent
| AdUsage
| AdNotNumber
| AdAuthorized (first_name : string) (user_id : Z)
| AdCannotRemoveAdmin
| AdDeauthorized (user_id : Z)
| AdUserNotFound (user_id : Z)
| AdError.

(** [add_user_handler], lines 487-511. *)
Definition add_user_handler (admin_ids : list Z) (admin_id : Z)
    (args : list string) (a : admin_db) : admin_reply * admin_db :=
  if negb (is_admin admin_ids admin_id) then (AdSilent, a)
  else
    match args with
    | user_id_str :: name1 :: names =>
      let first_name := join_args (name1 :: names) in
      if negb (isdigit user_id_str) then (AdNotNumber, a)
      else
        match py_int user_id_str with
        | None => (AdSilent, a)
        | Some user_id =>
          match upsert_user user_id first_name admin_id a with
          | Some a' => (AdAuthorized first_name user_id, a')
          | None => (AdError, a)
          end
        end
    | _ => (AdUsage, a)
    end.

(** UPDATE authorized_users SET is_active = FALSE WHERE user_id = $1 *)
Definition deactivate (user_id : Z) (u : user_row) : user_row :=
  if u_user_id u =? user_id
  then mkUserRow (u_id u) (u_user_id u) (u_username u) (u_first_name u)
                 (u_added_by u) false (u_caption_disabled u)
  else u.

(** [remove_user_handler], lines 513-536. *)
Definition remove_user_handler (admin_ids : list Z) (admin_id : Z)
    (args : list string) (a : admin_db) : admin_reply * admin_db :=
  if negb (is_admin admin_ids admin_id) then (AdSilent, a)
  else
    match args with
    | [user_id_str] =>
      if negb (isdigit user_id_str) then (AdUsage, a)
      else
        match py_int user_id_str with
        | None => (AdSilent, a)
        | Some user_id =>
          if mem_z user_id admin_ids then (AdCannotRemoveAdmin, a)
          else if negb (in_int8 user_id) then (AdError, a)
          else
            let hit :=
              List.length (filter (fun u => u_user_id u =? user_id)
                                  (authorized_users a)) in
            (if Nat.eqb hit 1 then AdDeauthorized user_id
             else AdUserNotFound user_id,
             mkAdminDb (map (deactivate user_id) (authorized_users a))
                       (bot_settings a) (users_seq a))
        end
    | _ => (AdUsage, a)
    end.

(** [get_caption_setting], lines 182-193: the rows become a dict (a later
    row of the same key would win), then [.get(key, default)]. *)
Definition settings_get (key : string) (rows : list setting_row)
    (dflt : string) : string :=
  fold_left (fun acc r => if (s_key r =? key)%string then s_value r else acc)
            rows dflt.

Definition get_caption_setting (custom_caption_env : string) (a : admin_db)
    : bool * string :=
  let settings :=
    filter (fun r => (s_key r =? "caption_enabled")%string
                     || (s_key r =? "custom_caption")%string)
           (bot_settings a) in
  ((settings_get "caption_enabled" settings "1" =? "1")%string,
   settings_get "custom_caption" settings custom_caption_env).

(** [admin_toggle_caption], lines 913-916: the new value and the store. *)
Definition toggle_caption (a : admin_db) : string * admin_db :=
  let current_val :=
    option_map s_value
      (find (fun r => (s_key r =? "caption_enabled")%string) (bot_settings a)) in
  let new_val :=
    match current_val with
    | Some v => if (v =? "1")%string then "0" else "1"
    | None => "1"
    end in
  (new_val,
   mkAdminDb (authorized_users a)
             (map (fun r => if (s_key r =? "caption_enabled")%string
                            then mkSetting (s_key r) new_val else r)
                  (bot_settings a))
             (users_seq a)).

Definition two_newlines : string :=
  String (ascii_of_nat 10) (String (ascii_of_nat 10) "").

(** [get_file_caption], lines 195-211.  Any exception gives the bare
    name. *)
Definition get_file_caption (admin_ids : list Z) (custom_caption_env : string)
    (a : admin_db) (file_name : string) (serial_number user_id : option Z)
    : string :=
  let user_caption_disabled :=
    match user_id with
    | None => Some false
    | Some uid =>
      if (uid =? 0) || is_admin admin_ids uid then Some false
      else if negb (in_int8 uid) then None
      else
        Some match find (fun u => u_user_id u =? uid) (authorized_users a) with
             | Some u => u_caption_disabled u
             | None => false
             end
    end in
  match user_caption_disabled with
  | None => file_name
  | Some true => file_name
  | Some false =>
    let (caption_enabled, custom_caption) :=
      get_caption_setting custom_caption_env a in
    if negb caption_enabled then file_name
    else
      let caption := ("`" ++ file_name ++ "`")%string in
      let caption :=
        match serial_number with
        | Some s =>
          if s =? 0 then caption
          else ("`#" ++ format_03d s ++ "` " ++ caption)%string
        | None => caption
        end in
      (caption ++ two_newlines ++ custom_caption)%string
  end.

(** What a query hands to Python for a number: an [int] for INTEGER, BIGINT
    and COUNT, a [decimal.Decimal] for NUMERIC.  SUM over an INTEGER column
    is BIGINT; SUM over a BIGINT column is NUMERIC. *)
Inductive py_number :=
| PyInt (z : Z)
| PyDecimal (z : Z).

(** [format_size], lines 146-152.  A [Decimal] is none of [int], [float]
    and [complex], so the first test answers "0 B" for it.  From 1024 bytes
    on the text is a float printed with one decimal, which is left outside:
    [one_decimal] stands for what lines 150-152 print. *)
Definition format_size (one_decimal : Z -> string) (size_bytes : py_number)
    : string :=
  match size_bytes with
  | PyDecimal _ => "0 B"
  | PyInt n =>
      if n <=? 0 then "0 B"
      else if n <? 1024 then (py_str n ++ " B")%string
      else one_decimal n
  end.

(** [_send_bot_stats], lines 925-938: what the four queries return, and the
    text the reply shows for the size.  [total_files] is INTEGER and
    [total_size] BIGINT (lines 100-101). *)
Record bot_stats := mkStats {
  stat_users : Z;
  stat_groups : Z;
  stat_files : Z;
  stat_size : py_number;
  stat_size_shown : string
}.

Definition _send_bot_stats (one_decimal : Z -> string) (a : admin_db) (d : db)
    : bot_stats :=
  let users :=
    Z.of_nat (List.length (filter u_is_active (authorized_users a))) in
  let all_files :=
    coalesce (match groups d with
              | [] => None
              | _ :: _ => Some (sum_z (map total_files (groups d)))
              end) 0 in
  let all_sizes :=
    PyDecimal (coalesce (match groups d with
                         | [] => None
                         | _ :: _ => Some (sum_z (map total_size (groups d)))
                         end) 0) in
  let all_groups := Z.of_nat (List.length (groups d)) in
  mkStats users all_groups all_files all_sizes
          (format_size one_decimal all_sizes).

(** What the admins can make the program do to these two tables. *)
Inductive admin_op :=
| AopStart (admin_ids : list Z) (custom_caption_env : string)
| AopAddUser (admin_ids : list Z) (admin_id : Z) (args : list string)
| AopRemoveUser (admin_ids : list Z) (admin_id : Z) (args : list string)
| AopToggleCaption.

Definition admin_step (a : admin_db) (o : admin_op) : admin_db :=
  match o with
  | AopStart ids caption => snd (init_database ids caption a)
  | AopAddUser ids admin_id args => snd (add_user_handler ids admin_id args a)
  | AopRemoveUser ids admin_id args =>
      snd (remove_user_handler ids admin_id args a)
  | AopToggleCaption => snd (toggle_caption a)
  end.

Definition admin_run (os : list admin_op) (a : admin_db) : admin_db :=
  fold_left admin_step os a.

(** Unique keys, and keys below the sequence. *)
Record admin_ok (a : admin_db) : Prop := mkAdminOk {
  users_unique : NoDup (map u_user_id (authorized_users a));
  users_pk : NoDup (map u_id (authorized_users a));
  users_below : forall u, In u (authorized_users a) -> u_id u < users_seq a;
  settings_pk : NoDup (map s_key (bot_settings a))
}.

Definition setting_of (key : string) (a : admin_db) : option string :=
  option_map s_value
    (find (fun r => (s_key r =? key)%string) (bot_settings a)).

(** The tables after a first start with one admin, user 1. *)
Definition admin_started : admin_db :=
  snd (init_database [1] "t.me/channel" empty_admin_db).

(** Is the caller one whose captions are switched off in
    [authorized_users]?  Admins and user id 0 are never looked up. *)
Definition caption_off_for (admin_ids : list Z) (a : admin_db)
    (user_id : option Z) : bool :=
  match user_id with
  | Some uid =>
      negb (uid =? 0) && negb (is_admin admin_ids uid)
      && (negb (in_int8 uid)
          || match find (fun u => u_user_id u =? uid) (authorized_users a) with
             | Some u => u_caption_disabled u
             | None => false
             end)
  | None => false
  end.

(** The serial in front of a caption. *)
Definition serial_tag (serial_number : option Z) : string :=
  match serial_number with
  | Some s => if s =? 0 then "" else ("`#" ++ format_03d s ++ "` ")%string
  | None => ""
  end.

(* ------------------------------------------------------------------ *)
(** * 15. Opening a link: [start_handler], lines 232-253, around
        [_handle_shared_link] *)

(** One [copy_message] asked of the content store for the caller. *)
Record delivery := mkDelivery {
  dl_message_id : Z;
  dl_caption : string
}.

Definition deliver (admin_ids : list Z) (custom_caption_env : string)
    (a : admin_db) (user_id : Z) (f : file_row) : delivery :=
  mkDelivery (storage_message_id f)
             (get_file_caption admin_ids custom_caption_env a (file_name f)
                               (Some (serial_number f)) (Some user_id)).

(** Lines 653-661 and 670-680: the file of a file link, the files of a
    group link one after the other. *)
Definition deliveries_of (admin_ids : list Z) (custom_caption_env : string)
    (a : admin_db) (user_id : Z) (r : outcome) : list delivery :=
  match r with
  | OFile f _ => [deliver admin_ids custom_caption_env a user_id f]
  | OGroup _ fs => map (deliver admin_ids custom_caption_env a user_id) fs
  | _ => []
  end.

Inductive start_reply :=
| StartNotAuthorized
| StartWelcome
| StartLink (r : outcome) (asked : list delivery).

Definition start_handler (admin_ids : list Z) (custom_caption_env : string)
    (a : admin_db) (user_id : Z) (args : list string) (d : db)
    : start_reply * db :=
  if negb (is_user_authorized admin_ids a user_id) then (StartNotAuthorized, d)
  else
    match args with
    | link_code :: _ =>
      let (r, d') := run (resolve_link link_code) d in
      (StartLink r (deliveries_of admin_ids custom_caption_env a user_id r), d')
    | [] => (StartWelcome, d)
    end.

(* ------------------------------------------------------------------ *)
(** * 16. The random bits of a link code *)

(** What [uuid4] makes of its sixteen random bytes: byte 6 gets the version
    in its high half, byte 8 the variant in its two high bits. *)
Definition uuid4_bytes (urandom16 : list Z) : list Z :=
  set_nth 8 (128 + nth 8 urandom16 0 mod 64)
          (set_nth 6 (64 + nth 6 urandom16 0 mod 16) urandom16).

(** The place of a character in the alphabet of [urlsafe_b64encode]. *)
Definition sextet_of (c : ascii) : Z :=
  let n := Z.of_nat (nat_of_ascii c) in
  if (65 <=? n) && (n <=? 90) then n - 65
  else if (97 <=? n) && (n <=? 122) then n - 71
  else if (48 <=? n) && (n <=? 57) then n + 4
  else if n =? 45 then 62
  else 63.

(* ================================================================== *)
(** * Part II. Properties *)

Unset Implicit Arguments.

(** ** Lists *)

Lemma Forall_firstn {A} (P : A -> Prop) (n : nat) (l : list A) :
  Forall P l -> Forall P (firstn n l).
Proof.
  intros H. rewrite <- (firstn_skipn n l) in H.
  apply Forall_app in H. apply H.
Qed.

(** ** Link codes *)

Lemma to_bytes_length (n : nat) (x : Z) : List.length (to_bytes n x) = n.
Proof.
  revert x; induction n as [|n IH]; intros x; simpl; [reflexivity|].
  rewrite length_app, IH; simpl; lia.
Qed.

Lemma to_bytes_bytes (n : nat) (x : Z) : Forall is_byte (to_bytes n x).
Proof.
  revert x; induction n as [|n IH]; intros x; simpl; [constructor|].
  apply Forall_app; split; [apply IH|].
  constructor; [|constructor].
  unfold is_byte. apply Z.mod_pos_bound. lia.
Qed.

Lemma alphabet_urlsafe :
  forall c, In c urlsafe_alphabet -> is_urlsafe_char c = true.
Proof.
  apply forallb_forall. reflexivity.
Qed.

Lemma b64char_urlsafe (i : Z) :
  0 <= i < 64 -> is_urlsafe_char (b64char i) = true.
Proof.
  intros Hi. apply alphabet_urlsafe. unfold b64char.
  apply nth_In.
  change (List.length urlsafe_alphabet) with 64%nat. lia.
Qed.

Lemma urlsafe_not_pad (c : ascii) :
  is_urlsafe_char c = true -> Ascii.eqb c "="%char = false.
Proof.
  intros H. destruct (Ascii.eqb c "="%char) eqn:E; [|reflexivity].
  apply Ascii.eqb_eq in E. subst c. discriminate H.
Qed.

Lemma sextets_in_range (a b c : Z) :
  is_byte a -> is_byte b -> is_byte c ->
  0 <= a / 4 < 64 /\ 0 <= (a mod 4) * 16 + b / 16 < 64
  /\ 0 <= (b mod 16) * 4 + c / 64 < 64 /\ 0 <= c mod 64 < 64.
Proof.
  unfold is_byte; intros. Z.to_euclidean_division_equations. lia.
Qed.

(** Whole groups of three bytes encode to four alphabet characters each,
    whatever follows them. *)
Lemma encode_whole_groups (k : nat) :
  forall bs rest,
    List.length bs = (3 * k)%nat -> Forall is_byte bs ->
    urlsafe_b64encode (bs ++ rest)
    = urlsafe_b64encode bs ++ urlsafe_b64encode rest
    /\ List.length (urlsafe_b64encode bs) = (4 * k)%nat
    /\ Forall (fun c => is_urlsafe_char c = true) (urlsafe_b64encode bs).
Proof.
  induction k as [|k IH]; intros bs rest Hlen Hb.
  - destruct bs; [|discriminate]. simpl. auto.
  - destruct bs as [|a [|b [|c bs]]]; try (simpl in Hlen; lia).
    inversion Hb as [|? ? Ha Hb1]; subst.
    inversion Hb1 as [|? ? Hb' Hb2]; subst.
    inversion Hb2 as [|? ? Hc Hb3]; subst.
    destruct (IH bs rest) as (E & L & F); [simpl in Hlen; lia|assumption|].
    destruct (sextets_in_range _ _ _ Ha Hb' Hc) as (S1 & S2 & S3 & S4).
    change (urlsafe_b64encode ((a :: b :: c :: bs) ++ rest))
      with (b64char (a / 4) :: b64char ((a mod 4) * 16 + b / 16)
            :: b64char ((b mod 16) * 4 + c / 64) :: b64char (c mod 64)
            :: urlsafe_b64encode (bs ++ rest)).
    change (urlsafe_b64encode (a :: b :: c :: bs))
      with (b64char (a / 4) :: b64char ((a mod 4) * 16 + b / 16)
            :: b64char ((b mod 16) * 4 + c / 64) :: b64char (c mod 64)
            :: urlsafe_b64encode bs).
    rewrite E. split; [reflexivity|]. split.
    + simpl. rewrite L. lia.
    + repeat (constructor; [apply b64char_urlsafe; assumption|]). exact F.
Qed.

(** Stripping the padding never touches a prefix free of padding signs. *)
Lemma rstrip_keeps_prefix (l1 l2 : list ascii) :
  Forall (fun c => is_urlsafe_char c = true) l1 ->
  exists t, rstrip_eq (l1 ++ l2) = l1 ++ t.
Proof.
  induction 1 as [|c l1 Hc _ IH].
  - exists (rstrip_eq l2). reflexivity.
  - destruct IH as [t Ht].
    exists t. simpl. unfold rstrip_eq in *. simpl. rewrite Ht.
    destruct (l1 ++ t); [|reflexivity].
    rewrite (urlsafe_not_pad _ Hc). reflexivity.
Qed.

(** ** The bytes of [uuid4], and the code read back *)

Lemma testbit_low_high (y c w m : Z) :
  0 <= w -> 0 <= c < 2 ^ w -> 0 <= m ->
  Z.testbit (y * 2 ^ w + c) m
  = if m <? w then Z.testbit c m else Z.testbit y (m - w).
Proof.
  intros Hw Hc Hm. destruct (Z.ltb_spec m w) as [Hlt|Hge].
  - rewrite <- (Z.mod_pow2_bits_low (y * 2 ^ w + c) w m) by lia.
    rewrite Z.add_comm, Z.mod_add by lia.
    rewrite Z.mod_small by lia. reflexivity.
  - replace m with ((m - w) + w) at 1 by lia.
    rewrite <- Z.div_pow2_bits by lia.
    rewrite Z.add_comm, Z.div_add by lia.
    rewrite Z.div_small by lia. reflexivity.
Qed.

Lemma from_bytes_snoc (l : list Z) (b : Z) :
  from_bytes (l ++ [b]) = from_bytes l * 256 + b.
Proof. unfold from_bytes. rewrite fold_left_app. reflexivity. Qed.

Lemma from_bytes_bits (l : list Z) :
  Forall is_byte l ->
  forall m, 0 <= m ->
    Z.testbit (from_bytes l) m
    = Z.testbit (nth (Z.to_nat (m / 8)) (rev l) 0) (m mod 8).
Proof.
  induction l as [|b l IH] using rev_ind; intros Hb m Hm.
  - cbn [rev from_bytes fold_left]. destruct (Z.to_nat (m / 8));
      rewrite !Z.bits_0; reflexivity.
  - apply Forall_app in Hb. destruct Hb as [Hl Hb].
    inversion Hb as [|? ? Hb0 _]; subst. unfold is_byte in Hb0.
    rewrite from_bytes_snoc, rev_app_distr. cbn [rev app].
    change 256 with (2 ^ 8).
    rewrite (testbit_low_high (from_bytes l) b 8 m) by lia.
    destruct (Z.ltb_spec m 8) as [Hlt|Hge].
    + rewrite Z.div_small, Z.mod_small by lia. reflexivity.
    + rewrite (IH Hl (m - 8)) by lia.
      assert (E1 : m / 8 = (m - 8) / 8 + 1).
      { replace m with ((m - 8) + 1 * 8) at 1 by lia.
        rewrite Z.div_add by lia. reflexivity. }
      assert (E2 : m mod 8 = (m - 8) mod 8).
      { replace m with ((m - 8) + 1 * 8) at 1 by lia.
        rewrite Z.mod_add by lia. reflexivity. }
      assert (E3 : 0 <= (m - 8) / 8) by (apply Z.div_pos; lia).
      rewrite E1, E2, Z2Nat.inj_add by lia.
      rewrite Nat.add_comm. reflexivity.
Qed.

Lemma to_from_bytes (l : list Z) :
  Forall is_byte l -> to_bytes (List.length l) (from_bytes l) = l.
Proof.
  induction l as [|b l IH] using rev_ind; intros Hb; [reflexivity|].
  apply Forall_app in Hb. destruct Hb as [Hl Hb].
  inversion Hb as [|? ? Hb0 _]; subst. unfold is_byte in Hb0.
  rewrite length_app, Nat.add_comm. cbn [List.length Nat.add to_bytes].
  rewrite from_bytes_snoc.
  rewrite Z.div_add_l, Z.div_small, Z.add_0_r by lia.
  rewrite Z.add_comm, Z.mod_add, Z.mod_small by lia.
  rewrite (IH Hl). reflexivity.
Qed.

Lemma testbit_small (c k : Z) (bits : list Z) :
  0 <= c -> Z.log2 c < Z.of_nat (List.length bits) ->
  (forall i, (i < List.length bits)%nat ->
             Z.b2z (Z.testbit c (Z.of_nat i)) = nth i bits 0) ->
  Z.b2z (Z.testbit c k)
  = if (0 <=? k) && (k <? Z.of_nat (List.length bits))
    then nth (Z.to_nat k) bits 0 else 0.
Proof.
  intros Hc Hlog Hbits.
  destruct (Z.leb_spec 0 k) as [Hk|Hk]; cbn [andb].
  - destruct (Z.ltb_spec k (Z.of_nat (List.length bits))) as [Hlt|Hge].
    + rewrite <- (Hbits (Z.to_nat k)) by lia. rewrite Z2Nat.id by lia.
      reflexivity.
    + rewrite Z.bits_above_log2 by lia. reflexivity.
  - rewrite Z.testbit_neg_r by lia. reflexivity.
Qed.

Lemma uuid4_bits (r : list Z) (m : Z) :
  0 <= m ->
  Z.testbit (uuid4 r) m
  = if (m =? 62) then false
    else if (m =? 63) then true
    else if (76 <=? m) && (m <=? 79) then (m =? 78)
    else Z.testbit (from_bytes r) m.
Proof.
  intros Hm. unfold uuid4. cbv zeta.
  change (Z.shiftl 49152 48) with (Z.shiftl 3 62).
  change (Z.shiftl 32768 48) with (Z.shiftl 1 63).
  change (Z.shiftl 61440 64) with (Z.shiftl 15 76).
  change (Z.shiftl 4 76) with (Z.shiftl 1 78).
  repeat first [ rewrite Z.lor_spec | rewrite Z.land_spec
               | rewrite Z.lnot_spec by lia | rewrite Z.shiftl_spec by lia ].
  assert (B3 : Z.b2z (Z.testbit 3 (m - 62))
               = if (0 <=? m - 62) && (m - 62 <? 2)
                 then nth (Z.to_nat (m - 62)) [1; 1] 0 else 0).
  { apply (testbit_small 3 (m - 62) [1; 1]); [lia|reflexivity|].
    intros [|[|i]] Hi; try reflexivity. cbn [List.length] in Hi. lia. }
  assert (B1 : forall s, Z.b2z (Z.testbit 1 (m - s))
                         = if (0 <=? m - s) && (m - s <? 1)
                           then nth (Z.to_nat (m - s)) [1] 0 else 0).
  { intros s. apply (testbit_small 1 (m - s) [1]); [lia|reflexivity|].
    intros [|i] Hi; try reflexivity. cbn [List.length] in Hi. lia. }
  assert (B15 : Z.b2z (Z.testbit 15 (m - 76))
                = if (0 <=? m - 76) && (m - 76 <? 4)
                  then nth (Z.to_nat (m - 76)) [1; 1; 1; 1] 0 else 0).
  { apply (testbit_small 15 (m - 76) [1; 1; 1; 1]); [lia|reflexivity|].
    intros [|[|[|[|i]]]] Hi; try reflexivity. cbn [List.length] in Hi. lia. }
  pose proof (B1 63) as B63. pose proof (B1 78) as B78. clear B1.
  destruct (Z.eqb_spec m 62) as [E62|N62].
  { subst m. destruct (Z.testbit (from_bytes r) 62); reflexivity. }
  destruct (Z.eqb_spec m 63) as [E63|N63].
  { subst m. destruct (Z.testbit (from_bytes r) 63); reflexivity. }
  destruct (Z.leb_spec 76 m) as [H76|H76]; cbn [andb].
  - destruct (Z.leb_spec m 79) as [H79|H79].
    + assert (Hc : m = 76 \/ m = 77 \/ m = 78 \/ m = 79) by lia.
      destruct Hc as [-> | [-> | [-> | ->]]];
        match goal with
        | |- context [Z.testbit (from_bytes r) ?n] =>
            destruct (Z.testbit (from_bytes r) n); reflexivity
        end.
    + assert (E3 : Z.testbit 3 (m - 62) = false).
      { destruct (Z.testbit 3 (m - 62)); [|reflexivity].
        destruct (Z.leb_spec 0 (m - 62)); destruct (Z.ltb_spec (m - 62) 2);
          cbn [andb Z.b2z] in B3; try discriminate B3; lia. }
      assert (E1 : Z.testbit 1 (m - 63) = false).
      { destruct (Z.testbit 1 (m - 63)); [|reflexivity].
        destruct (Z.leb_spec 0 (m - 63)); destruct (Z.ltb_spec (m - 63) 1);
          cbn [andb Z.b2z] in B63; try discriminate B63; lia. }
      assert (E15 : Z.testbit 15 (m - 76) = false).
      { destruct (Z.testbit 15 (m - 76)); [|reflexivity].
        destruct (Z.leb_spec 0 (m - 76)); destruct (Z.ltb_spec (m - 76) 4);
          cbn [andb Z.b2z] in B15; try discriminate B15; lia. }
      assert (E78 : Z.testbit 1 (m - 78) = false).
      { destruct (Z.testbit 1 (m - 78)); [|reflexivity].
        destruct (Z.leb_spec 0 (m - 78)); destruct (Z.ltb_spec (m - 78) 1);
          cbn [andb Z.b2z] in B78; try discriminate B78; lia. }
      rewrite E3, E1, E15, E78.
      destruct (Z.testbit (from_bytes r) m); reflexivity.
  - assert (E3 : Z.testbit 3 (m - 62) = false).
    { destruct (Z.testbit 3 (m - 62)); [|reflexivity].
      destruct (Z.leb_spec 0 (m - 62)); destruct (Z.ltb_spec (m - 62) 2);
        cbn [andb Z.b2z] in B3; try discriminate B3; lia. }
    assert (E1 : Z.testbit 1 (m - 63) = false).
    { destruct (Z.testbit 1 (m - 63)); [|reflexivity].
      destruct (Z.leb_spec 0 (m - 63)); destruct (Z.ltb_spec (m - 63) 1);
        cbn [andb Z.b2z] in B63; try discriminate B63; lia. }
    assert (E15 : Z.testbit 15 (m - 76) = false).
    { rewrite Z.testbit_neg_r by lia. reflexivity. }
    assert (E78 : Z.testbit 1 (m - 78) = false).
    { rewrite Z.testbit_neg_r by lia. reflexivity. }
    rewrite E3, E1, E15, E78.
    destruct (Z.testbit (from_bytes r) m); reflexivity.
Qed.

Lemma version_byte_bits (b j : Z) :
  0 <= j < 8 ->
  Z.testbit (64 + b mod 16) j = if j <? 4 then Z.testbit b j else (j =? 6).
Proof.
  intros Hj. replace (64 + b mod 16) with (4 * 2 ^ 4 + b mod 16) by lia.
  pose proof (Z.mod_pos_bound b 16 ltac:(lia)) as Hb.
  rewrite (testbit_low_high 4 (b mod 16) 4 j) by (cbn; lia).
  destruct (Z.ltb_spec j 4) as [Hlt|Hge].
  - change 16 with (2 ^ 4). apply Z.mod_pow2_bits_low. lia.
  - assert (Hc : j = 4 \/ j = 5 \/ j = 6 \/ j = 7) by lia.
    destruct Hc as [-> | [-> | [-> | ->]]]; reflexivity.
Qed.

Lemma variant_byte_bits (b j : Z) :
  0 <= j < 8 ->
  Z.testbit (128 + b mod 64) j = if j <? 6 then Z.testbit b j else (j =? 7).
Proof.
  intros Hj. replace (128 + b mod 64) with (2 * 2 ^ 6 + b mod 64) by lia.
  pose proof (Z.mod_pos_bound b 64 ltac:(lia)) as Hb.
  rewrite (testbit_low_high 2 (b mod 64) 6 j) by (cbn; lia).
  destruct (Z.ltb_spec j 6) as [Hlt|Hge].
  - change 64 with (2 ^ 6). apply Z.mod_pow2_bits_low. lia.
  - assert (Hc : j = 6 \/ j = 7) by lia.
    destruct Hc as [-> | ->]; reflexivity.
Qed.

Ltac split_tests :=
  repeat match goal with
         | |- context [Z.eqb ?a ?b] => destruct (Z.eqb_spec a b)
         | |- context [Z.leb ?a ?b] => destruct (Z.leb_spec a b)
         | |- context [Z.ltb ?a ?b] => destruct (Z.ltb_spec a b)
         end;
  cbn [andb]; try reflexivity; try (exfalso; lia).

Lemma uuid4_bytes_ok (r : list Z) :
  List.length r = 16%nat -> Forall is_byte r ->
  List.length (uuid4_bytes r) = 16%nat /\ Forall is_byte (uuid4_bytes r).
Proof.
  intros Hlen Hb.
  do 16 (destruct r as [|? r]; [discriminate Hlen|]).
  destruct r; [|discriminate Hlen].
  cbn [uuid4_bytes set_nth nth]. split; [reflexivity|].
  repeat match goal with
         | H : Forall is_byte (_ :: _) |- _ =>
             let H1 := fresh "Hb" in
             inversion H as [|? ? H1 ?]; subst; clear H
         end.
  repeat (apply Forall_cons; [try assumption|]); try apply Forall_nil.
  - unfold is_byte. pose proof (Z.mod_pos_bound z5 16 ltac:(lia)). lia.
  - unfold is_byte. pose proof (Z.mod_pos_bound z7 64 ltac:(lia)). lia.
Qed.

Lemma uuid4_is_masked (r : list Z) :
  List.length r = 16%nat -> Forall is_byte r ->
  uuid4 r = from_bytes (uuid4_bytes r).
Proof.
  intros Hlen Hb.
  destruct (uuid4_bytes_ok r Hlen Hb) as [_ Hb'].
  apply Z.bits_inj'. intros m Hm.
  rewrite (uuid4_bits r m Hm), (from_bytes_bits _ Hb' m Hm),
          (from_bytes_bits _ Hb m Hm).
  do 16 (destruct r as [|? r]; [discriminate Hlen|]).
  destruct r; [|discriminate Hlen].
  cbn [uuid4_bytes set_nth nth rev app].
  pose proof (Z.div_mod m 8 ltac:(lia)) as Hdm.
  pose proof (Z.mod_pos_bound m 8 ltac:(lia)) as Hmod.
  assert (Hdiv : 0 <= m / 8) by (apply Z.div_pos; lia).
  destruct (Z.to_nat (m / 8))
    as [|[|[|[|[|[|[|[|[|[|[|[|[|[|[|[|k]]]]]]]]]]]]]]]] eqn:Ek;
    cbn [nth].
  10:{ rewrite (version_byte_bits z5 (m mod 8) Hmod). split_tests. }
  8:{ rewrite (variant_byte_bits z7 (m mod 8) Hmod). split_tests. }
  all: split_tests.
Qed.

Lemma uuid_bytes_masked (r : list Z) :
  List.length r = 16%nat -> Forall is_byte r ->
  uuid_bytes (uuid4 r) = uuid4_bytes r.
Proof.
  intros Hlen Hb. destruct (uuid4_bytes_ok r Hlen Hb) as [Hl' Hb'].
  unfold uuid_bytes. rewrite (uuid4_is_masked r Hlen Hb), <- Hl'.
  apply to_from_bytes. exact Hb'.
Qed.

Lemma generate_id_nine (r : list Z) :
  generate_id r
  = string_of_list_ascii
      (urlsafe_b64encode (firstn 9 (uuid_bytes (uuid4 r)))).
Proof.
  unfold generate_id, uuid_bytes.
  pose proof (to_bytes_length 16 (uuid4 r)) as Hlen.
  pose proof (to_bytes_bytes 16 (uuid4 r)) as Hb.
  set (bs := to_bytes 16 (uuid4 r)) in *.
  destruct (encode_whole_groups 3 (firstn 9 bs) (skipn 9 bs)) as (E & L & F).
  { rewrite length_firstn, Hlen. reflexivity. }
  { apply Forall_firstn. exact Hb. }
  rewrite firstn_skipn in E.
  destruct (rstrip_keeps_prefix _ (urlsafe_b64encode (skipn 9 bs)) F)
    as [t Ht].
  rewrite <- E in Ht.
  assert (Hcode : firstn 12 (rstrip_eq (urlsafe_b64encode bs))
                  = urlsafe_b64encode (firstn 9 bs)).
  { rewrite Ht, firstn_app, L. simpl (12 - 4 * 3)%nat. simpl (firstn 0 t).
    rewrite app_nil_r. apply firstn_all2. lia. }
  rewrite Hcode. reflexivity.
Qed.

Lemma sextet_of_b64char (i : Z) : 0 <= i < 64 -> sextet_of (b64char i) = i.
Proof.
  intros Hi.
  assert (H : forallb (fun n => sextet_of (b64char (Z.of_nat n))
                                =? Z.of_nat n) (seq 0 64) = true)
    by (vm_compute; reflexivity).
  rewrite forallb_forall in H.
  specialize (H (Z.to_nat i)). rewrite Z2Nat.id in H by lia.
  apply Z.eqb_eq. apply H. apply in_seq. lia.
Qed.

Lemma b64char_inj (i j : Z) :
  0 <= i < 64 -> 0 <= j < 64 -> b64char i = b64char j -> i = j.
Proof.
  intros Hi Hj E. rewrite <- (sextet_of_b64char i Hi), E.
  apply sextet_of_b64char. exact Hj.
Qed.

Lemma group_of_three_inj (a b c a' b' c' : Z) :
  is_byte a -> is_byte b -> is_byte c ->
  is_byte a' -> is_byte b' -> is_byte c' ->
  a / 4 = a' / 4 ->
  (a mod 4) * 16 + b / 16 = (a' mod 4) * 16 + b' / 16 ->
  (b mod 16) * 4 + c / 64 = (b' mod 16) * 4 + c' / 64 ->
  c mod 64 = c' mod 64 ->
  a = a' /\ b = b' /\ c = c'.
Proof.
  unfold is_byte. intros. Z.to_euclidean_division_equations. lia.
Qed.

Lemma encode_inj (k : nat) :
  forall l l',
    List.length l = (3 * k)%nat -> List.length l' = (3 * k)%nat ->
    Forall is_byte l -> Forall is_byte l' ->
    urlsafe_b64encode l = urlsafe_b64encode l' -> l = l'.
Proof.
  induction k as [|k IH]; intros l l' Hl Hl' Hb Hb' E.
  - destruct l; [|discriminate Hl]. destruct l'; [|discriminate Hl'].
    reflexivity.
  - replace (3 * S k)%nat with (S (S (S (3 * k)))) in Hl, Hl' by lia.
    destruct l as [|a [|b [|c l]]]; try discriminate Hl.
    destruct l' as [|a' [|b' [|c' l']]]; try discriminate Hl'.
    inversion Hb as [|? ? Ha Hb1]; subst.
    inversion Hb1 as [|? ? Hbb Hb2]; subst.
    inversion Hb2 as [|? ? Hc Hb3]; subst.
    inversion Hb' as [|? ? Ha' Hb1']; subst.
    inversion Hb1' as [|? ? Hbb' Hb2']; subst.
    inversion Hb2' as [|? ? Hc' Hb3']; subst.
    cbn [urlsafe_b64encode] in E.
    injection E as E1 E2 E3 E4 E5.
    destruct (sextets_in_range a b c Ha Hbb Hc) as (R1 & R2 & R3 & R4).
    destruct (sextets_in_range a' b' c' Ha' Hbb' Hc') as (R1' & R2' & R3' & R4').
    apply b64char_inj in E1; [|assumption|assumption].
    apply b64char_inj in E2; [|assumption|assumption].
    apply b64char_inj in E3; [|assumption|assumption].
    apply b64char_inj in E4; [|assumption|assumption].
    destruct (group_of_three_inj a b c a' b' c' Ha Hbb Hc Ha' Hbb' Hc'
                E1 E2 E3 E4) as (-> & -> & ->).
    f_equal. f_equal. f_equal.
    apply IH; try assumption.
    + cbn [List.length] in Hl. lia.
    + cbn [List.length] in Hl'. lia.
Qed.

Lemma same_code_same_bytes (r r' : list Z) :
  List.length r = 16%nat -> Forall is_byte r ->
  List.length r' = 16%nat -> Forall is_byte r' ->
  generate_id r = generate_id r' ->
  firstn 9 (uuid4_bytes r) = firstn 9 (uuid4_bytes r').
Proof.
  intros Hl Hb Hl' Hb' H.
  destruct (uuid4_bytes_ok r Hl Hb) as [Ml Mb].
  destruct (uuid4_bytes_ok r' Hl' Hb') as [Ml' Mb'].
  rewrite !generate_id_nine in H.
  rewrite (uuid_bytes_masked r Hl Hb), (uuid_bytes_masked r' Hl' Hb') in H.
  apply (f_equal list_ascii_of_string) in H.
  rewrite !list_ascii_of_string_of_list_ascii in H.
  apply (encode_inj 3); try exact H.
  - rewrite length_firstn, Ml. reflexivity.
  - rewrite length_firstn, Ml'. reflexivity.
  - apply Forall_firstn. exact Mb.
  - apply Forall_firstn. exact Mb'.
Qed.

(** C7: whatever sixteen bytes the random source gives, the code is twelve
    characters long, each of them from the URL-safe base64 alphabet and none
    the padding sign.  It is derived from the random value: [uuid4] keeps
    the sixteen random bytes but for the six bits of version and variant
    (byte 6 becomes 64 plus its low half, byte 8 becomes 128 plus its six
    low bits), the code is the base64url text of the first nine bytes of
    that 128-bit value, and the code tells these nine bytes: two random
    values give the same code only if they agree there. *)
Theorem generate_id_shape (urandom16 : list Z) :
  List.length urandom16 = 16%nat ->
  Forall is_byte urandom16 ->
  String.length (generate_id urandom16) = 12%nat
  /\ Forall (fun c => is_urlsafe_char c = true)
            (list_ascii_of_string (generate_id urandom16))
  /\ generate_id urandom16
     = string_of_list_ascii
         (urlsafe_b64encode (firstn 9 (uuid_bytes (uuid4 urandom16))))
  /\ uuid_bytes (uuid4 urandom16) = uuid4_bytes urandom16
  /\ (forall other,
        List.length other = 16%nat -> Forall is_byte other ->
        generate_id urandom16 = generate_id other ->
        firstn 9 (uuid4_bytes urandom16) = firstn 9 (uuid4_bytes other)).
Proof.
  intros Hlen16 Hbytes.
  split; [|split; [|split; [|split]]].
  - rewrite generate_id_nine, (uuid_bytes_masked urandom16 Hlen16 Hbytes).
    destruct (uuid4_bytes_ok urandom16 Hlen16 Hbytes) as [Ml Mb].
    destruct (encode_whole_groups 3 (firstn 9 (uuid4_bytes urandom16)) [])
      as (_ & L & _).
    + rewrite length_firstn, Ml. reflexivity.
    + apply Forall_firstn. exact Mb.
    + change 12%nat with (4 * 3)%nat. rewrite <- L. clear.
      induction (urlsafe_b64encode (firstn 9 (uuid4_bytes urandom16)));
        simpl; congruence.
  - rewrite generate_id_nine, (uuid_bytes_masked urandom16 Hlen16 Hbytes).
    rewrite list_ascii_of_string_of_list_ascii.
    destruct (uuid4_bytes_ok urandom16 Hlen16 Hbytes) as [Ml Mb].
    destruct (encode_whole_groups 3 (firstn 9 (uuid4_bytes urandom16)) [])
      as (_ & _ & F).
    + rewrite length_firstn, Ml. reflexivity.
    + apply Forall_firstn. exact Mb.
    + exact F.
  - apply generate_id_nine.
  - apply uuid_bytes_masked; assumption.
  - intros other Hl' Hb' E.
    apply same_code_same_bytes; assumption.
Qed.

(** ** Facts on tables *)

Lemma NoDup_map_filter {Row Key} (key : Row -> Key) (keep : Row -> bool)
    (rows : list Row) :
  NoDup (map key rows) -> NoDup (map key (filter keep rows)).
Proof.
  induction rows as [|r rows IH]; simpl; intros H; [constructor|].
  inversion H as [|? ? Hr Hrows]; subst.
  destruct (keep r); simpl; auto.
  constructor; auto.
  intros Hin. apply Hr.
  apply in_map_iff in Hin. destruct Hin as (y & Ey & Hy).
  apply filter_In in Hy. apply in_map_iff. exists y. tauto.
Qed.

Lemma NoDup_map_snoc {A B} (f : A -> B) (l : list A) (x : A) :
  NoDup (map f l) -> ~ In (f x) (map f l) -> NoDup (map f (l ++ [x])).
Proof.
  intros H Hx. rewrite map_app. simpl.
  apply NoDup_app; [assumption|repeat constructor; auto|].
  intros a Ha [E|[]]. subst. contradiction.
Qed.

Lemma map_key_update {A B} (f : A -> B) (u : A -> A) (l : list A) :
  (forall x, f (u x) = f x) -> map f (map u l) = map f l.
Proof.
  intros H. rewrite map_map. apply map_ext. exact H.
Qed.

Lemma existsb_false {A} (p : A -> bool) (l : list A) :
  existsb p l = false -> forall x, In x l -> p x = false.
Proof.
  intros H x Hx. destruct (p x) eqn:E; [|reflexivity].
  assert (existsb p l = true) by (apply existsb_exists; eauto). congruence.
Qed.

Lemma mem_z_In (x : Z) (l : list Z) : mem_z x l = true <-> In x l.
Proof.
  unfold mem_z. rewrite existsb_exists. split.
  - intros (y & Hy & E). apply Z.eqb_eq in E. subst. exact Hy.
  - intros H. exists x. split; [exact H|apply Z.eqb_refl].
Qed.

Lemma in_map_key {A B} (f : A -> B) (l : list A) (x : A) :
  In x l -> In (f x) (map f l).
Proof. apply in_map. Qed.

(** ** The schema invariant is kept by every write *)

Lemma insert_group_schema (name : string) (owner : Z) (d : db) :
  schema_ok d -> schema_ok (snd (insert_group name owner d)).
Proof.
  intros [].
  unfold insert_group, nextval.
  destruct (groups_seq d <=? INT4_MAX); [|constructor; assumption].
  destruct (existsb _ (groups d)) eqn:E; simpl.
  - constructor; simpl; auto. intros g Hg. specialize (groups_below0 g Hg). lia.
  - pose proof (existsb_false _ _ E) as Hfresh.
    constructor; simpl; auto.
    + apply NoDup_map_snoc; auto. simpl. intros Hin.
      apply in_map_iff in Hin. destruct Hin as (g & Eg & Hg).
      specialize (groups_below0 g Hg). lia.
    + intros g Hg. apply in_app_or in Hg. destruct Hg as [Hg|[<-|[]]]; simpl.
      * specialize (groups_below0 g Hg). lia.
      * lia.
    + apply NoDup_map_snoc; auto. simpl. intros Hin.
      apply in_map_iff in Hin. destruct Hin as (g & Eg & Hg).
      specialize (Hfresh g Hg). simpl in Hfresh.
      inversion Eg as [[E1 E2]].
      rewrite E1, E2, String.eqb_refl, Z.eqb_refl in Hfresh. discriminate.
    + intros f Hf. rewrite map_app. apply in_or_app. left. auto.
    + intros l x Hl Hx. rewrite map_app. apply in_or_app. left. eauto.
Qed.

Lemma update_groups_schema (gid : Z) (upd : group_row -> group_row) (d : db) :
  (forall g, g_id (upd g) = g_id g /\ g_name (upd g) = g_name g
             /\ g_owner_id (upd g) = g_owner_id g) ->
  schema_ok d -> schema_ok (snd (update_groups_where_id gid upd d)).
Proof.
  intros Hk [].
  unfold update_groups_where_id.
  destruct (forallb _ (groups d)); [|constructor; assumption].
  assert (Hid : map g_id (map (fun g => if g_id g =? gid then upd g else g) (groups d))
                = map g_id (groups d)).
  { apply map_key_update. intros g. destruct (g_id g =? gid); auto. apply Hk. }
  constructor; simpl; auto; try (rewrite Hid; auto).
  - intros g Hg. apply in_map_iff in Hg. destruct Hg as (g0 & <- & Hg0).
    specialize (groups_below0 g0 Hg0).
    destruct (g_id g0 =? gid); auto. destruct (Hk g0) as (-> & _). lia.
  - rewrite map_key_update; auto.
    intros g. destruct (g_id g =? gid); auto.
    destruct (Hk g) as (_ & -> & ->). reflexivity.
Qed.

Lemma rollback_schema (d d' : db) :
  schema_ok d ->
  groups_seq d <= groups_seq d' -> files_seq d <= files_seq d' ->
  links_seq d <= links_seq d' ->
  schema_ok (rollback d d').
Proof.
  intros [] H1 H2 H3. constructor; simpl; auto.
  - intros g Hg. specialize (groups_below0 g Hg). lia.
  - intros f Hf. specialize (files_below0 f Hf). lia.
  - intros l Hl. specialize (links_below0 l Hl). lia.
Qed.

Lemma update_groups_seqs (gid : Z) (upd : group_row -> group_row) (d : db) :
  let d' := snd (update_groups_where_id gid upd d) in
  groups_seq d' = groups_seq d /\ files_seq d' = files_seq d
  /\ links_seq d' = links_seq d /\ files d' = files d
  /\ file_links d' = file_links d.
Proof.
  unfold update_groups_where_id. destruct (forallb _ _); simpl; auto.
Qed.

Lemma insert_file_schema (gid serial : Z) (m : file_meta) (d : db) :
  schema_ok d -> schema_ok (snd (insert_file gid serial m d)).
Proof.
  intros [].
  unfold insert_file, nextval.
  destruct (negb (in_int4 serial)); [constructor; assumption|].
  destruct (files_seq d <=? INT4_MAX); [|constructor; assumption].
  assert (Hbump : schema_ok (mkDb (groups d) (files d) (file_links d)
                     (groups_seq d) (files_seq d + 1) (links_seq d))).
  { constructor; simpl; auto. intros f Hf. specialize (files_below0 f Hf). lia. }
  destruct (existsb _ (files d)) eqn:E1; [exact Hbump|].
  destruct (existsb _ (files d)) eqn:E2 in |- *; [exact Hbump|].
  destruct (negb (existsb _ (groups d))) eqn:E3; [exact Hbump|].
  pose proof (existsb_false _ _ E1) as F1.
  pose proof (existsb_false _ _ E2) as F2.
  apply negb_false_iff, existsb_exists in E3. destruct E3 as (g & Hg & Eg).
  apply Z.eqb_eq in Eg.
  constructor; simpl; auto.
  - apply NoDup_map_snoc; auto. simpl. intros Hin.
    apply in_map_iff in Hin. destruct Hin as (f & Ef & Hf).
    specialize (files_below0 f Hf). lia.
  - intros f Hf. apply in_app_or in Hf. destruct Hf as [Hf|[<-|[]]]; simpl.
    + specialize (files_below0 f Hf). lia.
    + lia.
  - apply NoDup_map_snoc; auto. simpl. intros Hin.
    apply in_map_iff in Hin. destruct Hin as (f & Ef & Hf).
    specialize (F1 f Hf). simpl in F1. rewrite Ef, String.eqb_refl in F1.
    discriminate.
  - apply NoDup_map_snoc; auto. simpl. intros Hin.
    apply in_map_iff in Hin. destruct Hin as (f & Ef & Hf).
    specialize (F2 f Hf). simpl in F2. inversion Ef as [[A1 A2]].
    rewrite A1, A2, !Z.eqb_refl in F2. discriminate.
  - intros f Hf. apply in_app_or in Hf. destruct Hf as [Hf|[<-|[]]]; simpl; auto.
    apply in_map_iff. exists g. auto.
  - intros l x Hl Hx. rewrite map_app. apply in_or_app. left. eauto.
Qed.

Lemma insert_file_seqs (gid serial : Z) (m : file_meta) (d : db) :
  let d' := snd (insert_file gid serial m d) in
  groups_seq d <= groups_seq d' /\ files_seq d <= files_seq d'
  /\ links_seq d <= links_seq d'.
Proof.
  unfold insert_file, nextval.
  repeat match goal with
         | |- context [if ?c then _ else _] => destruct c
         end; simpl; lia.
Qed.

Lemma upload_commit_schema (gid serial : Z) (m : file_meta) (d : db) :
  schema_ok d -> schema_ok (snd (upload_commit gid serial m d)).
Proof.
  intros H. unfold upload_commit.
  pose proof (insert_file_schema gid serial m d H) as H1.
  pose proof (insert_file_seqs gid serial m d) as S1.
  destruct (insert_file gid serial m d) as [[id|e] d1]; simpl in *.
  - pose proof (@update_groups_schema gid
        (fun g => mkGroup (g_id g) (g_name g) (g_owner_id g)
                          (total_files g + 1) (total_size g + m_file_size m))
        d1 (fun g => conj eq_refl (conj eq_refl eq_refl)) H1) as H2.
    pose proof (update_groups_seqs gid
        (fun g => mkGroup (g_id g) (g_name g) (g_owner_id g)
                          (total_files g + 1) (total_size g + m_file_size m))
        d1) as S2.
    unfold update_stats_add.
    destruct (update_groups_where_id _ _ d1) as [[u|e] d2]; simpl in *; auto.
    apply rollback_schema; auto; lia.
  - apply rollback_schema; auto; lia.
Qed.

Lemma delete_file_schema (fid : Z) (d : db) :
  schema_ok d -> schema_ok (snd (delete_file_by_id fid d)).
Proof.
  intros []. unfold delete_file_by_id. constructor; simpl; auto.
  - apply NoDup_map_filter; assumption.
  - intros f Hf. apply filter_In in Hf. apply files_below0, Hf.
  - apply NoDup_map_filter; assumption.
  - apply NoDup_map_filter; assumption.
  - intros f Hf. apply filter_In in Hf. apply files_fk0, Hf.
  - apply NoDup_map_filter; assumption.
  - intros l Hl. apply filter_In in Hl. apply links_below0, Hl.
  - apply NoDup_map_filter; assumption.
  - intros l x Hl Hx. apply filter_In in Hl. destruct Hl as [Hl Hn].
    specialize (links_fk_file0 l x Hl Hx).
    apply in_map_iff in links_fk_file0. destruct links_fk_file0 as (f & Ef & Hf).
    apply in_map_iff. exists f. split; [assumption|].
    apply filter_In. split; [assumption|].
    rewrite Hx in Hn. simpl in Hn. rewrite Ef. exact Hn.
  - intros l x Hl Hx. apply filter_In in Hl. eapply links_fk_group0; [apply Hl|exact Hx].
Qed.

Lemma delete_commit_schema (fid size gid : Z) (d : db) :
  schema_ok d -> schema_ok (snd (delete_commit fid size gid d)).
Proof.
  intros H. unfold delete_commit.
  pose proof (delete_file_schema fid d H) as H1.
  destruct (delete_file_by_id fid d) as [n d1] eqn:E1. simpl in H1.
  assert (S1 : groups_seq d1 = groups_seq d /\ files_seq d1 = files_seq d
               /\ links_seq d1 = links_seq d).
  { unfold delete_file_by_id in E1. inversion E1. simpl. auto. }
  pose proof (@update_groups_schema gid
      (fun g => mkGroup (g_id g) (g_name g) (g_owner_id g)
                        (total_files g - 1) (total_size g - size))
      d1 (fun g => conj eq_refl (conj eq_refl eq_refl)) H1) as H2.
  pose proof (update_groups_seqs gid
      (fun g => mkGroup (g_id g) (g_name g) (g_owner_id g)
                        (total_files g - 1) (total_size g - size))
      d1) as S2.
  unfold update_stats_sub.
  destruct (update_groups_where_id _ _ d1) as [[u|e] d2]; simpl in *; auto.
  apply rollback_schema; auto; lia.
Qed.

Lemma delete_group_schema (owner : Z) (name : string) (d : db) :
  schema_ok d -> schema_ok (snd (delete_group owner name d)).
Proof.
  intros []. unfold delete_group. cbv zeta.
  set (doomed := fun g => (g_owner_id g =? owner) && (g_name g =? name)%string).
  set (gids := map g_id (filter doomed (groups d))).
  set (fids := map f_id (filter (fun f => mem_z (f_group_id f) gids) (files d))).
  assert (Hkeep : forall x, In x (map g_id (groups d)) -> mem_z x gids = false ->
                  In x (map g_id (filter (fun g => negb (doomed g)) (groups d)))).
  { intros x Hx Hm. apply in_map_iff in Hx. destruct Hx as (g & Eg & Hg).
    apply in_map_iff. exists g. split; [assumption|].
    apply filter_In. split; [assumption|].
    destruct (doomed g) eqn:Ed; [|reflexivity].
    assert (In x gids).
    { unfold gids. apply in_map_iff. exists g. split; [assumption|].
      apply filter_In. auto. }
    apply mem_z_In in H. congruence. }
  constructor; simpl; auto.
  - apply NoDup_map_filter; assumption.
  - intros g Hg. apply filter_In in Hg. apply groups_below0, Hg.
  - apply NoDup_map_filter; assumption.
  - apply NoDup_map_filter; assumption.
  - intros f Hf. apply filter_In in Hf. apply files_below0, Hf.
  - apply NoDup_map_filter; assumption.
  - apply NoDup_map_filter; assumption.
  - intros f Hf. apply filter_In in Hf. destruct Hf as [Hf Hn].
    apply Hkeep; [auto|]. apply negb_true_iff in Hn. exact Hn.
  - apply NoDup_map_filter; assumption.
  - intros l Hl. apply filter_In in Hl. apply links_below0, Hl.
  - apply NoDup_map_filter; assumption.
  - intros l x Hl Hx. apply filter_In in Hl. destruct Hl as [Hl Hn].
    apply andb_true_iff in Hn. destruct Hn as [_ Hn].
    rewrite Hx in Hn. simpl in Hn. apply negb_true_iff in Hn.
    specialize (links_fk_file0 l x Hl Hx).
    apply in_map_iff in links_fk_file0. destruct links_fk_file0 as (f & Ef & Hf).
    apply in_map_iff. exists f. split; [assumption|].
    apply filter_In. split; [assumption|].
    destruct (mem_z (f_group_id f) gids) eqn:Em; [|reflexivity].
    assert (In x fids).
    { unfold fids. apply in_map_iff. exists f. split; [assumption|].
      apply filter_In. auto. }
    apply mem_z_In in H. congruence.
  - intros l x Hl Hx. apply filter_In in Hl. destruct Hl as [Hl Hn].
    apply andb_true_iff in Hn. destruct Hn as [Hn _].
    rewrite Hx in Hn. simpl in Hn. apply negb_true_iff in Hn.
    apply Hkeep; eauto.
Qed.

Lemma insert_link_schema (code : string) (fid gid : option Z) (lt : ltype)
    (owner : Z) (d : db) :
  schema_ok d -> schema_ok (snd (insert_link code fid gid lt owner d)).
Proof.
  intros [].
  unfold insert_link, nextval.
  destruct (links_seq d <=? INT4_MAX); [|constructor; assumption].
  assert (Hbump : schema_ok (mkDb (groups d) (files d) (file_links d)
                     (groups_seq d) (files_seq d) (links_seq d + 1))).
  { constructor; simpl; auto. intros l Hl. specialize (links_below0 l Hl). lia. }
  destruct (existsb _ (file_links d)) eqn:E1; [exact Hbump|].
  match goal with |- context [if ?c then _ else _] => destruct c eqn:E2 end;
    [exact Hbump|].
  match goal with |- context [if ?c then _ else _] => destruct c eqn:E3 end;
    [exact Hbump|].
  pose proof (existsb_false _ _ E1) as F1.
  constructor; simpl; auto.
  - apply NoDup_map_snoc; auto. simpl. intros Hin.
    apply in_map_iff in Hin. destruct Hin as (l & El & Hl).
    specialize (links_below0 l Hl). lia.
  - intros l Hl. apply in_app_or in Hl. destruct Hl as [Hl|[<-|[]]]; simpl.
    + specialize (links_below0 l Hl). lia.
    + lia.
  - apply NoDup_map_snoc; auto. simpl. intros Hin.
    apply in_map_iff in Hin. destruct Hin as (l & El & Hl).
    specialize (F1 l Hl). simpl in F1. rewrite El, String.eqb_refl in F1.
    discriminate.
  - intros l x Hl Hx. apply in_app_or in Hl. destruct Hl as [Hl|[<-|[]]]; eauto.
    simpl in Hx. subst fid.
    apply negb_false_iff, existsb_exists in E2. destruct E2 as (f & Hf & Ef).
    apply Z.eqb_eq in Ef. apply in_map_iff. exists f. auto.
  - intros l x Hl Hx. apply in_app_or in Hl. destruct Hl as [Hl|[<-|[]]]; eauto.
    simpl in Hx. subst gid.
    apply negb_false_iff, existsb_exists in E3. destruct E3 as (g & Hg & Eg).
    apply Z.eqb_eq in Eg. apply in_map_iff. exists g. auto.
Qed.

Lemma delete_link_schema (code : string) (owner : Z) (d : db) :
  schema_ok d -> schema_ok (snd (delete_link code owner d)).
Proof.
  intros []. unfold delete_link. constructor; simpl; auto.
  - apply NoDup_map_filter; assumption.
  - intros l Hl. apply filter_In in Hl. apply links_below0, Hl.
  - apply NoDup_map_filter; assumption.
  - intros l x Hl Hx. apply filter_In in Hl. eapply links_fk_file0; [apply Hl|exact Hx].
  - intros l x Hl Hx. apply filter_In in Hl. eapply links_fk_group0; [apply Hl|exact Hx].
Qed.

Lemma update_clicks_schema (lid : Z) (d : db) :
  schema_ok d -> schema_ok (snd (update_clicks lid d)).
Proof.
  intros []. unfold update_clicks.
  destruct (forallb _ (file_links d)); [|constructor; assumption].
  assert (K : forall l, l_id (click lid l) = l_id l
                        /\ link_code (click lid l) = link_code l
                        /\ l_file_id (click lid l) = l_file_id l
                        /\ l_group_id (click lid l) = l_group_id l).
  { intros l. unfold click. destruct (l_id l =? lid); simpl; auto. }
  constructor; simpl; auto.
  - rewrite map_key_update; auto. apply K.
  - intros l Hl. apply in_map_iff in Hl. destruct Hl as (l0 & <- & Hl0).
    destruct (K l0) as (-> & _). auto.
  - rewrite map_key_update; auto. apply K.
  - intros l x Hl Hx. apply in_map_iff in Hl. destruct Hl as (l0 & <- & Hl0).
    destruct (K l0) as (_ & _ & E & _). rewrite E in Hx. eauto.
  - intros l x Hl Hx. apply in_map_iff in Hl. destruct Hl as (l0 & <- & Hl0).
    destruct (K l0) as (_ & _ & _ & E). rewrite E in Hx. eauto.
Qed.

Lemma perform_schema (a : action) (d : db) :
  schema_ok d -> schema_ok (perform a d).
Proof.
  destruct a; simpl.
  - apply insert_group_schema.
  - apply upload_commit_schema.
  - apply delete_commit_schema.
  - apply delete_group_schema.
  - apply insert_link_schema.
  - apply delete_link_schema.
  - apply update_clicks_schema.
Qed.

Lemma empty_schema : schema_ok empty_db.
Proof. constructor; simpl; try constructor; intros; contradiction. Qed.

Lemma perform_all_schema (al : list action) (d : db) :
  schema_ok d -> schema_ok (perform_all al d).
Proof.
  revert d. induction al as [|a al IH]; intros d H; simpl; auto.
  apply IH. apply perform_schema. exact H.
Qed.

Lemma reachable_schema (d : db) : reachable d -> schema_ok d.
Proof.
  intros [al ->]. apply perform_all_schema, empty_schema.
Qed.

Lemma schema_links_valid (d : db) : schema_ok d -> links_valid d.
Proof.
  intros [] l Hl. split.
  - intros fid Hf. specialize (links_fk_file0 l fid Hl Hf).
    apply in_map_iff in links_fk_file0. destruct links_fk_file0 as (f & E & H).
    exists f. auto.
  - intros gid Hg. specialize (links_fk_group0 l gid Hl Hg).
    apply in_map_iff in links_fk_group0. destruct links_fk_group0 as (g & E & H).
    exists g. auto.
Qed.

(** ** Cascading deletion *)

Lemma NoDup_map_inj {A B} (f : A -> B) (l : list A) (x y : A) :
  NoDup (map f l) -> In x l -> In y l -> f x = f y -> x = y.
Proof.
  induction l as [|a l IH]; simpl; intros H Hx Hy E; [contradiction|].
  inversion H as [|? ? Ha Hl]; subst.
  destruct Hx as [->|Hx], Hy as [->|Hy]; auto.
  - exfalso. apply Ha. rewrite E. apply in_map. exact Hy.
  - exfalso. apply Ha. rewrite <- E. apply in_map. exact Hx.
Qed.

Lemma find_all_false {A} (p : A -> bool) (l : list A) :
  (forall x, In x l -> p x = false) -> find p l = None.
Proof.
  induction l as [|a l IH]; simpl; intros H; [reflexivity|].
  rewrite (H a (or_introl eq_refl)). apply IH. intros x Hx. apply H. auto.
Qed.

Lemma resolve_unused_code (code : string) (d : db) :
  ~ code_in_use code d -> run (resolve_link code) d = (ONotFound, d).
Proof.
  intros H. unfold resolve_link, read. simpl.
  unfold select_active_link. rewrite find_all_false; [reflexivity|].
  intros l Hl. destruct (link_code l =? code)%string eqn:E; [|reflexivity].
  exfalso. apply H. exists l. split; [exact Hl|]. apply String.eqb_eq. exact E.
Qed.

Lemma delete_group_links (owner : Z) (name : string) (d : db) (g : group_row)
    (l : link_row) :
  In g (groups d) -> g_owner_id g = owner -> g_name g = name ->
  In l (file_links (snd (delete_group owner name d))) ->
  In l (file_links d) /\ ~ targets_group d l (g_id g).
Proof.
  intros Hg Ho Hn Hl. unfold delete_group in Hl. simpl in Hl.
  apply filter_In in Hl. destruct Hl as [Hl Hk]. split; [exact Hl|].
  apply andb_true_iff in Hk. destruct Hk as [K1 K2].
  apply negb_true_iff in K1. apply negb_true_iff in K2.
  assert (Hgid : In (g_id g)
                    (map g_id (filter (fun g0 => (g_owner_id g0 =? owner)
                                                 && (g_name g0 =? name)%string)
                                      (groups d)))).
  { apply in_map. apply filter_In. split; [exact Hg|].
    rewrite Ho, Hn, Z.eqb_refl, String.eqb_refl. reflexivity. }
  intros [T|(f & Hf & Ef & T)].
  - rewrite T in K1. simpl in K1. apply mem_z_In in Hgid. congruence.
  - rewrite T in K2. simpl in K2.
    assert (mem_z (f_id f)
              (map f_id (filter (fun f0 => mem_z (f_group_id f0)
                   (map g_id (filter (fun g0 => (g_owner_id g0 =? owner)
                                                && (g_name g0 =? name)%string)
                                     (groups d)))) (files d))) = true).
    { apply mem_z_In. apply in_map. apply filter_In. split; [exact Hf|].
      rewrite Ef. apply mem_z_In. exact Hgid. }
    congruence.
Qed.

Lemma delete_commit_links (fid size gid : Z) (d d' : db) (l : link_row) :
  delete_commit fid size gid d = (Ok tt, d') ->
  In l (file_links d') -> In l (file_links d) /\ l_file_id l <> Some fid.
Proof.
  unfold delete_commit, delete_file_by_id, update_stats_sub,
         update_groups_where_id. simpl.
  destruct (forallb _ _); intros E Hl; [|discriminate].
  inversion E; subst; clear E. simpl in Hl.
  apply filter_In in Hl. destruct Hl as [Hl Hk]. split; [exact Hl|].
  intros T. rewrite T in Hk. simpl in Hk. rewrite Z.eqb_refl in Hk. discriminate.
Qed.

Lemma delete_commit_files (fid size gid : Z) (d d' : db) (f : file_row) :
  delete_commit fid size gid d = (Ok tt, d') ->
  In f (files d') -> In f (files d) /\ f_id f <> fid.
Proof.
  unfold delete_commit, delete_file_by_id, update_stats_sub,
         update_groups_where_id. simpl.
  destruct (forallb _ _); intros E Hl; [|discriminate].
  inversion E; subst; clear E. simpl in Hl.
  apply filter_In in Hl. destruct Hl as [Hl Hk]. split; [exact Hl|].
  intros T. rewrite T, Z.eqb_refl in Hk. discriminate.
Qed.

Lemma run_delete_file (owner : Z) (name : string) (serial mid : Z) (d d' : db) :
  run (delete_file_txn owner name serial) d = (OFileDeleted mid, d') ->
  exists f g, select_file_of owner name serial d = Some (f, g)
              /\ delete_commit (f_id f) (file_size f) (g_id g) d = (Ok tt, d')
              /\ mid = storage_message_id f.
Proof.
  unfold delete_file_txn, read. simpl.
  destruct (select_file_of owner name serial d) as [[f g]|]; [|discriminate].
  simpl. destruct (delete_commit _ _ _ d) as [[[]|e] d1] eqn:E; simpl;
    intros H; inversion H; subst.
  exists f, g. auto.
Qed.

Lemma run_delete_group (owner : Z) (name : string) (d : db) :
  snd (run (delete_group_txn owner name) d) = snd (delete_group owner name d).
Proof.
  unfold delete_group_txn, read. cbn [run].
  destruct (delete_group owner name d) as [n d1]. cbn [run snd].
  destruct n; reflexivity.
Qed.

(** C8: in every state the program can reach, every link points at a file
    and a group that exist.  Deleting a group leaves no link that reached
    it, directly or through one of its files, and keeps the invariant; a
    code that led to the group then resolves to "not found".  The same holds
    for the links of a deleted file. *)
Theorem cascade_integrity (d : db) :
  reachable d ->
  links_valid d
  /\ (forall owner name g,
        In g (groups d) -> g_owner_id g = owner -> g_name g = name ->
        let d' := snd (run (delete_group_txn owner name) d) in
        links_valid d'
        /\ (forall l, In l (file_links d') -> ~ targets_group d l (g_id g))
        /\ (forall l, In l (file_links d) -> targets_group d l (g_id g) ->
                      ~ code_in_use (link_code l) d'
                      /\ run (resolve_link (link_code l)) d' = (ONotFound, d')))
  /\ (forall owner name serial mid d',
        run (delete_file_txn owner name serial) d = (OFileDeleted mid, d') ->
        exists f g,
          select_file_of owner name serial d = Some (f, g)
          /\ links_valid d'
          /\ (forall f', In f' (files d') -> f_id f' <> f_id f)
          /\ (forall l, In l (file_links d') -> l_file_id l <> Some (f_id f))
          /\ (forall l, In l (file_links d) -> l_file_id l = Some (f_id f) ->
                        ~ code_in_use (link_code l) d'
                        /\ run (resolve_link (link_code l)) d' = (ONotFound, d'))).
Proof.
  intros Hr. pose proof (reachable_schema d Hr) as Hs.
  split; [apply schema_links_valid; exact Hs|]. split.
  - intros owner name g Hg Ho Hn d'.
    assert (Ed : d' = snd (delete_group owner name d)).
    { apply run_delete_group. }
    split; [|split].
    + rewrite Ed. apply schema_links_valid, delete_group_schema, Hs.
    + intros l Hl. rewrite Ed in Hl.
      eapply delete_group_links; eauto.
    + intros l Hl Ht.
      assert (Hfree : ~ code_in_use (link_code l) d').
      { intros (l' & Hl' & E). rewrite Ed in Hl'.
        destruct (@delete_group_links owner name d g l' Hg Ho Hn Hl') as [Hin Hnt].
        assert (l' = l)
          by (eapply NoDup_map_inj; [apply (links_unique Hs)| | |]; eauto).
        subst l'. contradiction. }
      split; [exact Hfree|]. apply resolve_unused_code. exact Hfree.
  - intros owner name serial mid d' Hrun.
    destruct (@run_delete_file _ _ _ _ _ _ Hrun) as (f & g & Hsel & Hc & _).
    exists f, g. split; [exact Hsel|].
    assert (Hs' : schema_ok d').
    { pose proof (delete_commit_schema (f_id f) (file_size f) (g_id g) d Hs) as H.
      rewrite Hc in H. exact H. }
    split; [apply schema_links_valid; exact Hs'|]. split; [|split].
    + intros f' Hf'. eapply delete_commit_files; eauto.
    + intros l Hl. eapply delete_commit_links; eauto.
    + intros l Hl Ht.
      assert (Hfree : ~ code_in_use (link_code l) d').
      { intros (l' & Hl' & E).
        destruct (@delete_commit_links _ _ _ _ _ l' Hc Hl') as [Hin Hnt].
        assert (l' = l)
          by (eapply NoDup_map_inj; [apply (links_unique Hs)| | |]; eauto).
        subst l'. contradiction. }
      split; [exact Hfree|]. apply resolve_unused_code. exact Hfree.
Qed.

(** ** Handlers move the store by the writes of [action] only *)

Lemma read_by_actions {X R} (q : db -> X) (k : X -> proc R) :
  (forall x, by_actions (k x)) -> by_actions (Atomic (read q) k).
Proof.
  intros H. split; [|exact H]. intros d. left. reflexivity.
Qed.

Lemma write_by_actions {X R} (a : db -> X * db) (act : action)
    (k : X -> proc R) :
  (forall d, snd (a d) = perform act d) ->
  (forall x, by_actions (k x)) -> by_actions (Atomic a k).
Proof.
  intros Ha H. split; [|exact H]. intros d. right. exists act. apply Ha.
Qed.

Lemma create_link_by_actions (free : nat) (urandom : nat -> list Z) (n : nat)
    (fid gid : option Z) (lt : ltype) (owner : Z) :
  by_actions (_create_link free urandom n fid gid lt owner).
Proof.
  revert n. induction free as [|free IH]; intros n; simpl; [exact I|].
  split.
  - intros d. right.
    exists (AInsertLink (generate_id (urandom n)) fid gid lt owner).
    reflexivity.
  - intros [id|[]]; simpl; auto.
Qed.

Lemma handler_by_actions (o : op) : by_actions (handler o).
Proof.
  destruct o; cbn [handler];
    unfold create_group, upload_txn, delete_file_txn, delete_group_txn,
           getlink_handler, getgrouplink_handler, revoke_link, resolve_link.
  - apply write_by_actions with (act := AInsertGroup name owner);
      [reflexivity|]. intros [id|[]]; exact I.
  - apply read_by_actions. intros [s|e]; [|exact I].
    apply write_by_actions with (act := AUploadCommit gid s m);
      [reflexivity|]. intros [u|e]; exact I.
  - apply read_by_actions. intros [[f g]|]; [|exact I].
    apply write_by_actions
      with (act := ADeleteCommit (f_id f) (file_size f) (g_id g));
      [reflexivity|]. intros [u|e]; exact I.
  - apply read_by_actions. intros ids.
    apply write_by_actions with (act := ADeleteGroup owner name);
      [reflexivity|]. intros [|k]; exact I.
  - apply read_by_actions. intros [[f g]|]; [|exact I].
    apply create_link_by_actions.
  - apply read_by_actions. intros [gid|]; [|exact I].
    destruct (gid =? 0); [exact I|]. apply create_link_by_actions.
  - apply write_by_actions with (act := ADeleteLink code owner);
      [reflexivity|]. intros [|[|k]]; exact I.
  - apply read_by_actions. intros [l|]; [|exact I].
    apply write_by_actions with (act := AUpdateClicks (l_id l));
      [reflexivity|]. intros [u|e]; [|exact I].
    destruct (link_type l).
    + apply read_by_actions. intros [[f gname]|]; exact I.
    + apply read_by_actions. intros [|f fs]; [exact I|].
      apply read_by_actions. intros gname. exact I.
Qed.

Lemma perform_all_app (al bl : list action) (d : db) :
  perform_all (al ++ bl) d = perform_all bl (perform_all al d).
Proof. unfold perform_all. apply fold_left_app. Qed.

Lemma step_by_actions {R} (p : proc R) (d : db) :
  by_actions p ->
  by_actions (fst (step p d))
  /\ exists al, snd (step p d) = perform_all al d.
Proof.
  destruct p as [r|X a k]; simpl.
  - intros _. split; [exact I|]. exists []. reflexivity.
  - intros [Ha Hk]. specialize (Ha d).
    destruct (a d) as [x d'] eqn:E. simpl in *. split; [apply Hk|].
    destruct Ha as [->|[act ->]]; [exists []|exists [act]]; reflexivity.
Qed.

Lemma run_by_actions {R} (p : proc R) (d : db) :
  by_actions p -> exists al, snd (run p d) = perform_all al d.
Proof.
  revert d. induction p as [r|X a k IH]; intros d; simpl.
  - intros _. exists []. reflexivity.
  - intros [Ha Hk]. specialize (Ha d).
    destruct (a d) as [x d'] eqn:E. simpl in Ha.
    destruct (IH x d' (Hk x)) as [al Hal].
    destruct Ha as [->|[act ->]].
    + exists al. exact Hal.
    + exists (act :: al). exact Hal.
Qed.

Lemma set_nth_Forall {A} (P : A -> Prop) (i : nat) (x : A) (l : list A) :
  Forall P l -> P x -> Forall P (set_nth i x l).
Proof.
  revert i. induction l as [|y l IH]; intros i Hl Hx; simpl.
  - destruct i; constructor.
  - inversion Hl; subst. destruct i; constructor; auto.
Qed.

Lemma run_sched_by_actions {R} (sched : list nat) (ts : list (proc R))
    (d : db) :
  Forall by_actions ts ->
  exists al, snd (run_sched sched ts d) = perform_all al d.
Proof.
  revert ts d. induction sched as [|i sched IH]; intros ts d Hts; simpl.
  - exists []. reflexivity.
  - destruct (nth_error ts i) as [p|] eqn:E; [|apply IH; exact Hts].
    assert (Hp : by_actions p).
    { apply nth_error_In in E. rewrite Forall_forall in Hts. auto. }
    destruct (@step_by_actions R p d Hp) as [Hp' [al Hal]].
    destruct (step p d) as [p' d'] eqn:Es. simpl in *.
    destruct (IH (set_nth i p' ts) d') as [bl Hbl].
    { apply set_nth_Forall; assumption. }
    exists (al ++ bl). rewrite perform_all_app, <- Hal. exact Hbl.
Qed.

Lemma reachable_perform_all (al : list action) (d : db) :
  reachable d -> reachable (perform_all al d).
Proof.
  intros [bl ->]. exists (bl ++ al). symmetry. apply perform_all_app.
Qed.

(** However the statements of any handlers interleave, the store stays
    among the reachable states. *)
Lemma interleaving_reachable (sched : list nat) (os : list op) (d : db) :
  reachable d -> reachable (snd (run_sched sched (map handler os) d)).
Proof.
  intros Hr.
  destruct (@run_sched_by_actions outcome sched (map handler os) d) as [al ->].
  - apply Forall_forall. intros p Hp. apply in_map_iff in Hp.
    destruct Hp as (o & <- & _). apply handler_by_actions.
  - apply reachable_perform_all. exact Hr.
Qed.

Lemma run_ops_reachable (os : list op) (d : db) :
  reachable d -> reachable (snd (run_ops os d)).
Proof.
  revert d. induction os as [|o os IH]; intros d Hr; simpl; [exact Hr|].
  destruct (@run_by_actions _ (handler o) d (handler_by_actions o)) as [al Hal].
  destruct (run (handler o) d) as [r d1]. simpl in Hal.
  specialize (IH d1). destruct (run_ops os d1) as [rs d2]. simpl in *.
  apply IH. rewrite Hal. apply reachable_perform_all. exact Hr.
Qed.

(** ** Registering an upload *)

Lemma fold_max_spec (l : list Z) (acc : Z) :
  let r := fold_left Z.max l acc in
  (r = acc \/ In r l) /\ acc <= r /\ forall x, In x l -> x <= r.
Proof.
  revert acc. induction l as [|y l IH]; intros acc; simpl.
  - split; [auto|]. split; [lia|]. intros x [].
  - destruct (IH (Z.max acc y)) as (H1 & H2 & H3).
    remember (fold_left Z.max l (Z.max acc y)) as r.
    split; [|split].
    + destruct H1 as [H1|H1]; [|auto].
      assert (r = acc \/ y = r) by lia. tauto.
    + lia.
    + intros x [<-|Hx]; [lia|auto].
Qed.

Lemma sql_max_spec (l : list Z) :
  match sql_max l with
  | None => l = []
  | Some m => In m l /\ forall x, In x l -> x <= m
  end.
Proof.
  destruct l as [|x l]; simpl; [reflexivity|].
  destruct (fold_max_spec l x) as (H1 & H2 & H3).
  split.
  - destruct H1 as [->|H1]; auto.
  - intros y [<-|Hy]; auto.
Qed.

(** The commit of an upload either changes nothing in the tables or adds
    the row and bumps the counters of its group together. *)
Lemma upload_commit_cases (gid serial : Z) (m : file_meta) (d : db) :
  let (r, d') := upload_commit gid serial m d in
  match r with
  | Raise _ =>
      groups d' = groups d /\ files d' = files d
      /\ file_links d' = file_links d
  | Ok _ =>
      files d' = files d ++ [new_file (files_seq d) gid serial m]
      /\ groups d' = map (add_stats (m_file_size m) gid) (groups d)
      /\ file_links d' = file_links d
      /\ (exists g, In g (groups d) /\ g_id g = gid)
      /\ in_int4 serial = true
      /\ (forall f, In f (files d) ->
                    unique_id f <> m_unique_id m
                    /\ ~ (f_group_id f = gid /\ serial_number f = serial))
  end.
Proof.
  unfold upload_commit, insert_file, nextval, update_stats_add,
         update_groups_where_id.
  destruct (in_int4 serial) eqn:E0; simpl; [|auto].
  destruct (files_seq d <=? INT4_MAX); simpl; [|auto].
  destruct (existsb _ (files d)) eqn:E1; simpl; [auto|].
  destruct (existsb _ (files d)) eqn:E2 in |- *; simpl; [auto|].
  destruct (existsb _ (groups d)) eqn:E3; simpl; [|auto].
  destruct (forallb _ (groups d)); simpl; [|auto].
  split; [reflexivity|]. split; [reflexivity|]. split; [reflexivity|].
  split.
  { apply existsb_exists in E3. destruct E3 as (g & Hg & Eg).
    exists g. split; [exact Hg|]. apply Z.eqb_eq. exact Eg. }
  split; [reflexivity|].
  intros f Hf. split.
  - intros E. pose proof (existsb_false _ _ E1 f Hf) as F. simpl in F.
    rewrite E, String.eqb_refl in F. discriminate.
  - intros [A B]. pose proof (existsb_false _ _ E2 f Hf) as F. simpl in F.
    rewrite A, B, !Z.eqb_refl in F. discriminate.
Qed.

Lemma run_upload (gid : Z) (m : file_meta) (d d' : db) (s : Z) :
  run (upload_txn gid m) d = (OSaved s, d') ->
  select_next_serial gid d = Ok s /\ upload_commit gid s m d = (Ok tt, d').
Proof.
  unfold upload_txn, read. cbn [run].
  destruct (select_next_serial gid d) as [n|e]; cbn [run]; [|discriminate].
  destruct (upload_commit gid n m d) as [[[]|e] d1] eqn:E; cbn [run];
    intros H; inversion H; subst. split; [reflexivity|exact E].
Qed.

(** C5: when the registering transaction succeeds, the serial it assigned
    is 1 for a group without files and otherwise one more than the largest
    serial of the group; the same commit appends the row, adds one to
    [total_files] and the file's size to [total_size] of that group, and
    touches no other group. *)
Theorem upload_assigns_next_serial (gid : Z) (m : file_meta) (d d' : db)
    (s : Z) :
  run (upload_txn gid m) d = (OSaved s, d') ->
  ((group_files gid d = [] /\ s = 1)
   \/ (exists f, In f (group_files gid d) /\ s = serial_number f + 1
                 /\ forall f', In f' (group_files gid d) ->
                               serial_number f' <= serial_number f))
  /\ (exists id, files d' = files d ++ [new_file id gid s m])
  /\ (exists g, In g (groups d) /\ g_id g = gid)
  /\ groups d' = map (add_stats (m_file_size m) gid) (groups d)
  /\ file_links d' = file_links d.
Proof.
  intros Hrun. apply run_upload in Hrun. destruct Hrun as [Hs Hc].
  pose proof (upload_commit_cases gid s m d) as Hcase.
  rewrite Hc in Hcase. destruct Hcase as (Hf & Hg & Hl & Hex & _).
  split; [|split; [exists (files_seq d); exact Hf
                  |split; [exact Hex|split; assumption]]].
  unfold select_next_serial in Hs.
  pose proof (sql_max_spec (map serial_number (group_files gid d))) as Hm.
  destruct (sql_max (map serial_number (group_files gid d))) as [mx|];
    simpl in Hs.
  - right. destruct Hm as [Hin Hmax].
    apply in_map_iff in Hin. destruct Hin as (f & Ef & Hf').
    exists f. split; [exact Hf'|]. split.
    + destruct (in_int4 (mx + 1)); inversion Hs; lia.
    + intros f' Hf''. rewrite Ef. apply Hmax. apply in_map. exact Hf''.
  - left. split.
    + destruct (group_files gid d); [reflexivity|discriminate].
    + destruct (in_int4 (0 + 1)); inversion Hs; reflexivity.
Qed.

(** ** Group counters *)

Lemma sum_z_app (l1 l2 : list Z) : sum_z (l1 ++ l2) = sum_z l1 + sum_z l2.
Proof. induction l1; simpl; lia. Qed.

Lemma filter_comm {A} (p q : A -> bool) (l : list A) :
  filter p (filter q l) = filter q (filter p l).
Proof.
  induction l as [|x l IH]; simpl; [reflexivity|].
  destruct (q x) eqn:Eq, (p x) eqn:Ep; simpl; rewrite ?Eq, ?Ep, IH; reflexivity.
Qed.

Lemma filter_all {A} (p : A -> bool) (l : list A) :
  (forall x, In x l -> p x = true) -> filter p l = l.
Proof.
  induction l as [|x l IH]; simpl; intros H; [reflexivity|].
  rewrite (H x (or_introl eq_refl)), IH; auto.
Qed.

Lemma filter_none {A} (p : A -> bool) (l : list A) :
  (forall x, In x l -> p x = false) -> filter p l = [].
Proof.
  induction l as [|x l IH]; simpl; intros H; [reflexivity|].
  rewrite (H x (or_introl eq_refl)). apply IH. auto.
Qed.

(** Taking one row out of a table with distinct keys. *)
Lemma remove_row (l : list file_row) (f : file_row) :
  NoDup (map f_id l) -> In f l ->
  let l' := filter (fun x => negb (f_id x =? f_id f)) l in
  List.length l = S (List.length l')
  /\ sum_z (map file_size l') = sum_z (map file_size l) - file_size f.
Proof.
  induction l as [|x l IH]; intros Hnd Hin; [contradiction|].
  inversion Hnd as [|? ? Hx Hl]; subst.
  cbn [filter map sum_z fold_right List.length].
  destruct Hin as [->|Hin].
  - rewrite Z.eqb_refl. cbn [negb].
    rewrite filter_all.
    + split; [reflexivity|]. fold (sum_z (map file_size l)). lia.
    + intros y Hy. apply negb_true_iff, Z.eqb_neq. intros E.
      apply Hx. rewrite <- E. apply in_map. exact Hy.
  - destruct (f_id x =? f_id f) eqn:E; cbn [negb].
    + exfalso. apply Z.eqb_eq in E. apply Hx. rewrite E. apply in_map. exact Hin.
    + destruct (IH Hl Hin) as [I1 I2].
      cbn [map sum_z fold_right List.length].
      fold (sum_z (map file_size l)).
      fold (sum_z (map file_size
                       (filter (fun x0 => negb (f_id x0 =? f_id f)) l))).
      split; [congruence|lia].
Qed.

Lemma group_files_app (gid : Z) (d : db) (f : file_row) (gs : list group_row)
    (ls : list link_row) (a b c : Z) :
  group_files gid (mkDb gs (files d ++ [f]) ls a b c)
  = group_files gid d ++ (if f_group_id f =? gid then [f] else []).
Proof.
  unfold group_files. simpl. rewrite filter_app. simpl.
  destruct (f_group_id f =? gid); reflexivity.
Qed.

Lemma upload_commit_aggregates (gid serial : Z) (m : file_meta) (d : db) :
  aggregates_ok d -> aggregates_ok (snd (upload_commit gid serial m d)).
Proof.
  intros Hagg.
  pose proof (upload_commit_cases gid serial m d) as Hc.
  destruct (upload_commit gid serial m d) as [[u|e] d']; simpl.
  - destruct Hc as (Hf & Hg & _).
    intros g' Hg'. rewrite Hg in Hg'. apply in_map_iff in Hg'.
    destruct Hg' as (g & <- & Hin). specialize (Hagg g Hin).
    assert (Hgf : forall x, group_files x d'
                  = group_files x d
                    ++ (if gid =? x then [new_file (files_seq d) gid serial m]
                        else [])).
    { intros x. unfold group_files. rewrite Hf, filter_app. simpl.
      destruct (gid =? x); reflexivity. }
    unfold add_stats. destruct (g_id g =? gid) eqn:E; simpl; rewrite Hgf.
    + apply Z.eqb_eq in E. rewrite E, Z.eqb_refl.
      rewrite length_app, map_app, sum_z_app. simpl.
      rewrite E in Hagg. destruct Hagg as [-> ->]. lia.
    + rewrite Z.eqb_sym, E, app_nil_r. exact Hagg.
  - destruct Hc as (Hg & Hf & _).
    intros g Hin. rewrite Hg in Hin. unfold group_files. rewrite Hf.
    apply Hagg. exact Hin.
Qed.

Lemma select_file_of_spec (owner : Z) (name : string) (serial : Z) (d : db)
    (f : file_row) (g : group_row) :
  select_file_of owner name serial d = Some (f, g) ->
  In f (files d) /\ In g (groups d) /\ g_id g = f_group_id f
  /\ g_owner_id g = owner /\ g_name g = name /\ serial_number f = serial.
Proof.
  unfold select_file_of. intros H. apply find_some in H.
  destruct H as [Hin Hp]. simpl in Hp.
  apply andb_true_iff in Hp. destruct Hp as [Hp P3].
  apply andb_true_iff in Hp. destruct Hp as [P1 P2].
  unfold files_join_groups in Hin. apply in_flat_map in Hin.
  destruct Hin as (f0 & Hf0 & Hin). apply in_map_iff in Hin.
  destruct Hin as (g0 & E & Hg0). inversion E; subst.
  apply filter_In in Hg0. destruct Hg0 as [Hg Eg].
  repeat split; auto.
  - apply Z.eqb_eq. exact Eg.
  - apply Z.eqb_eq. exact P1.
  - apply String.eqb_eq. exact P2.
  - apply Z.eqb_eq. exact P3.
Qed.

(** The commit of a delete either changes nothing in the tables or drops
    the row, its links, and lowers the counters of the group together. *)
Lemma delete_commit_cases (fid size gid : Z) (d : db) :
  let (r, d') := delete_commit fid size gid d in
  match r with
  | Raise _ =>
      groups d' = groups d /\ files d' = files d
      /\ file_links d' = file_links d
  | Ok _ =>
      files d' = filter (fun f => negb (f_id f =? fid)) (files d)
      /\ groups d' = map (sub_stats size gid) (groups d)
      /\ file_links d'
         = filter (fun l => negb (opt_eqb (l_file_id l) fid)) (file_links d)
  end.
Proof.
  unfold delete_commit, delete_file_by_id, update_stats_sub,
         update_groups_where_id. simpl.
  destruct (forallb _ (groups d)); simpl; auto.
Qed.

Lemma delete_commit_aggregates (d : db) (f : file_row) :
  schema_ok d -> aggregates_ok d -> In f (files d) ->
  aggregates_ok
    (snd (delete_commit (f_id f) (file_size f) (f_group_id f) d)).
Proof.
  intros Hs Hagg Hf.
  pose proof (delete_commit_cases (f_id f) (file_size f) (f_group_id f) d) as Hc.
  destruct (delete_commit _ _ _ d) as [[u|e] d']; simpl.
  - destruct Hc as (Hfs & Hg & _).
    intros g' Hg'. rewrite Hg in Hg'. apply in_map_iff in Hg'.
    destruct Hg' as (g & <- & Hin). specialize (Hagg g Hin).
    assert (Hgf : forall x, group_files x d'
                  = filter (fun y => negb (f_id y =? f_id f)) (group_files x d)).
    { intros x. unfold group_files. rewrite Hfs. apply filter_comm. }
    unfold sub_stats. destruct (g_id g =? f_group_id f) eqn:E; simpl;
      rewrite Hgf.
    + apply Z.eqb_eq in E.
      destruct (@remove_row (group_files (g_id g) d) f) as [R1 R2].
      * apply NoDup_map_filter. apply (files_pk Hs).
      * apply filter_In. split; [exact Hf|]. apply Z.eqb_eq. auto.
      * rewrite R2. destruct Hagg as [-> ->]. split; [lia|reflexivity].
    + rewrite filter_all; [exact Hagg|].
      intros y Hy. apply filter_In in Hy. destruct Hy as [Hy Ey].
      apply negb_true_iff, Z.eqb_neq. intros Eid.
      assert (y = f)
        by (eapply NoDup_map_inj; [apply (files_pk Hs)| | |]; eauto).
      subst y. rewrite Z.eqb_sym in E. congruence.
  - destruct Hc as (Hg & Hfs & _).
    intros g Hin. rewrite Hg in Hin. unfold group_files. rewrite Hfs.
    apply Hagg. exact Hin.
Qed.

Lemma delete_group_aggregates (owner : Z) (name : string) (d : db) :
  schema_ok d -> aggregates_ok d ->
  aggregates_ok (snd (delete_group owner name d)).
Proof.
  intros Hs Hagg g Hg. unfold delete_group in *. simpl in *.
  apply filter_In in Hg. destruct Hg as [Hg Hk].
  unfold group_files. simpl. rewrite filter_comm, filter_all.
  - apply Hagg. exact Hg.
  - intros f Hf. apply filter_In in Hf. destruct Hf as [Hf Ef].
    apply Z.eqb_eq in Ef. rewrite Ef.
    apply negb_true_iff.
    destruct (mem_z (g_id g) _) eqn:Em; [|reflexivity].
    apply mem_z_In, in_map_iff in Em. destruct Em as (g0 & E0 & H0).
    apply filter_In in H0. destruct H0 as [H0 D0].
    assert (g0 = g)
      by (eapply NoDup_map_inj; [apply (groups_pk Hs)| | |]; eauto).
    subst g0. rewrite D0 in Hk. discriminate.
Qed.

Lemma insert_group_aggregates (name : string) (owner : Z) (d : db) :
  schema_ok d -> aggregates_ok d ->
  aggregates_ok (snd (insert_group name owner d)).
Proof.
  intros Hs Hagg. unfold insert_group, nextval.
  destruct (groups_seq d <=? INT4_MAX); [|exact Hagg].
  destruct (existsb _ (groups d)); simpl; [exact Hagg|].
  intros g Hg. simpl in Hg. apply in_app_or in Hg.
  destruct Hg as [Hg|[<-|[]]]; [apply Hagg; exact Hg|].
  unfold group_files. simpl.
  assert (E : filter (fun f => f_group_id f =? groups_seq d) (files d) = []).
  { apply filter_none. intros f Hf. apply Z.eqb_neq. intros E.
    pose proof (files_fk Hs f Hf) as Hin. apply in_map_iff in Hin.
    destruct Hin as (g & Eg & Hg). pose proof (groups_below Hs g Hg). lia. }
  rewrite E. simpl. auto.
Qed.

(** Writes on [file_links] leave the counters and the files alone. *)
Lemma links_only_aggregates (d d' : db) :
  groups d' = groups d -> files d' = files d ->
  aggregates_ok d -> aggregates_ok d'.
Proof.
  intros Hg Hf Hagg g Hin. rewrite Hg in Hin. unfold group_files. rewrite Hf.
  apply Hagg. exact Hin.
Qed.

Lemma create_link_tables (free : nat) (urandom : nat -> list Z) (n : nat)
    (fid gid : option Z) (lt : ltype) (owner : Z) (d : db) :
  let d' := snd (run (_create_link free urandom n fid gid lt owner) d) in
  groups d' = groups d /\ files d' = files d.
Proof.
  revert n d. induction free as [|free IH]; intros n d; simpl; [auto|].
  unfold insert_link, nextval.
  destruct (links_seq d <=? INT4_MAX); simpl; [|auto].
  destruct (existsb _ (file_links d)); simpl.
  { match goal with |- context [run (_create_link free urandom (S n) fid gid lt owner) ?x] =>
      destruct (IH (S n) x) as [I1 I2] end.
    simpl in *. auto. }
  repeat match goal with
         | |- context [if ?c then _ else _] => destruct c; simpl; auto
         end.
Qed.

Lemma handler_schema (o : op) (d : db) :
  schema_ok d -> schema_ok (snd (run (handler o) d)).
Proof.
  intros Hs.
  destruct (@run_by_actions _ (handler o) d (handler_by_actions o)) as [al ->].
  apply perform_all_schema. exact Hs.
Qed.

Lemma handler_aggregates (o : op) (d : db) :
  schema_ok d -> aggregates_ok d -> aggregates_ok (snd (run (handler o) d)).
Proof.
  intros Hs Hagg. destruct o; cbn [handler].
  - unfold create_group. cbn [run].
    pose proof (@insert_group_aggregates name owner d Hs Hagg) as H.
    destruct (insert_group name owner d) as [[id|[]] d']; exact H.
  - unfold upload_txn, read. cbn [run].
    destruct (select_next_serial gid d) as [s|e]; cbn [run snd]; [|exact Hagg].
    pose proof (@upload_commit_aggregates gid s m d Hagg) as H.
    destruct (upload_commit gid s m d) as [[u|e] d']; exact H.
  - unfold delete_file_txn, read. cbn [run].
    destruct (select_file_of owner name serial d) as [[f g]|] eqn:E;
      cbn [run snd]; [|exact Hagg].
    destruct (@select_file_of_spec _ _ _ _ _ _ E) as (Hf & Hg & Eg & _).
    rewrite Eg.
    pose proof (@delete_commit_aggregates d f Hs Hagg Hf) as H.
    destruct (delete_commit _ _ _ d) as [[u|e] d']; exact H.
  - rewrite run_delete_group. apply delete_group_aggregates; assumption.
  - unfold getlink_handler, read. cbn [run].
    destruct (select_file_of user group_name serial d) as [[f g]|];
      cbn [run snd]; [|exact Hagg].
    destruct (create_link_tables free urandom n (Some (f_id f)) None LinkFile
                                 user d) as [E1 E2].
    eapply links_only_aggregates; eauto.
  - unfold getgrouplink_handler, read. cbn [run].
    destruct (select_group_id user group_name d) as [gid|];
      cbn [run snd]; [|exact Hagg].
    destruct (gid =? 0); [exact Hagg|].
    destruct (create_link_tables free urandom n None (Some gid) LinkGroup
                                 user d) as [E1 E2].
    eapply links_only_aggregates; eauto.
  - unfold revoke_link. cbn [run]. unfold delete_link.
    match goal with |- context [List.length ?l] => destruct (List.length l) as [|[|k]] end;
      cbn [run snd]; eapply links_only_aggregates; eauto; reflexivity.
  - unfold resolve_link, read. cbn [run].
    destruct (select_active_link code d) as [l|]; cbn [run snd]; [|exact Hagg].
    unfold update_clicks.
    destruct (forallb _ (file_links d)); cbn [run snd]; [|exact Hagg].
    destruct (link_type l); cbn [run].
    + match goal with |- context [select_file_info ?a ?b] =>
        destruct (select_file_info a b) as [[f gname]|] end; cbn [run snd];
        eapply links_only_aggregates; eauto; reflexivity.
    + match goal with |- context [select_files_ordered ?a ?b] =>
        destruct (select_files_ordered a b) as [|f fs] end; cbn [run snd];
        eapply links_only_aggregates; eauto; reflexivity.
Qed.

Lemma run_ops_invariants (os : list op) (d : db) :
  schema_ok d -> aggregates_ok d ->
  schema_ok (snd (run_ops os d)) /\ aggregates_ok (snd (run_ops os d)).
Proof.
  revert d. induction os as [|o os IH]; intros d Hs Hagg; simpl; [auto|].
  pose proof (@handler_schema o d Hs) as H1.
  pose proof (@handler_aggregates o d Hs Hagg) as H2.
  destruct (run (handler o) d) as [r d1]. simpl in H1, H2.
  specialize (IH d1 H1 H2). destruct (run_ops os d1) as [rs d2]. exact IH.
Qed.

Lemma empty_aggregates : aggregates_ok empty_db.
Proof. intros g []. Qed.



(** The counters after whole operations: after any sequence of operations,
    each run to its end before the next one starts (which is how the
    application of line 1007 runs its handlers), the counters of every
    group equal the number and the total size of its rows in [files]; and
    the commit of an upload or of a deletion changes the rows and the
    counters together or not at all. *)
Theorem aggregates_hold_after_any_sequence (os : list op) :
  aggregates_ok (snd (run_ops os empty_db))
  /\ (forall gid serial m d,
        let d' := snd (upload_commit gid serial m d) in
        (files d' = files d /\ groups d' = groups d)
        \/ (files d' = files d ++ [new_file (files_seq d) gid serial m]
            /\ groups d' = map (add_stats (m_file_size m) gid) (groups d)))
  /\ (forall fid size gid d,
        let d' := snd (delete_commit fid size gid d) in
        (files d' = files d /\ groups d' = groups d)
        \/ (files d' = filter (fun f => negb (f_id f =? fid)) (files d)
            /\ groups d' = map (sub_stats size gid) (groups d))).
Proof.
  split; [|split].
  - apply run_ops_invariants; [apply empty_schema|apply empty_aggregates].
  - intros gid serial m d.
    pose proof (upload_commit_cases gid serial m d) as H.
    destruct (upload_commit gid serial m d) as [[u|e] d']; simpl.
    + right. tauto.
    + left. tauto.
  - intros fid size gid d.
    pose proof (delete_commit_cases fid size gid d) as H.
    destruct (delete_commit fid size gid d) as [[u|e] d']; simpl.
    + right. tauto.
    + left. tauto.
Qed.

(** ** Serial numbers *)

(** C1, as stated, fails: two uploads into the empty group "Movies" that
    both read the next serial before either commits both compute 1; the
    second insert violates UNIQUE(group_id, serial_number) and its
    transaction is rolled back.  Serial 2 is never assigned. *)
Lemma concurrent_uploads_collide :
  let run2 := run_sched [0; 1; 0; 1]%nat
                (map (upload_txn 1) [meta_a; meta_b]) db_movies in
  group_files 1 db_movies = []
  /\ map finished (fst run2)
     = [Some (OSaved 1); Some (OError UniqueViolationError)]
  /\ serials_of 1 (snd run2) = [1]
  /\ ~ concurrent_uploads_exact db_movies 1 [meta_a; meta_b].
Proof.
  cbv zeta. repeat (split; [vm_compute; reflexivity|]).
  intros H. specialize (H [0; 1; 0; 1]%nat).
  assert (E : serials_of 1 (snd (run_sched [0; 1; 0; 1]%nat
                (map (upload_txn 1) [meta_a; meta_b]) db_movies)) = [1])
    by (vm_compute; reflexivity).
  rewrite E in H.
  assert (F : all_finished (fst (run_sched [0; 1; 0; 1]%nat
                (map (upload_txn 1) [meta_a; meta_b]) db_movies)) = true)
    by (vm_compute; reflexivity).
  specialize (H F). apply Permutation_length in H. discriminate H.
Qed.


Lemma one_to_S (n : nat) : one_to (S n) = one_to n ++ [Z.of_nat n + 1].
Proof.
  unfold one_to. rewrite seq_S, map_app. cbn [map].
  f_equal. f_equal. lia.
Qed.

Lemma one_to_bound (n : nat) (x : Z) : In x (one_to n) -> 1 <= x <= Z.of_nat n.
Proof.
  unfold one_to. rewrite in_map_iff. intros (k & <- & Hk).
  apply in_seq in Hk. lia.
Qed.

Lemma next_after_one_to (n : nat) :
  coalesce (sql_max (one_to n)) 0 = Z.of_nat n.
Proof.
  pose proof (sql_max_spec (one_to n)) as H.
  destruct (sql_max (one_to n)) as [m|]; simpl.
  - destruct H as [Hin Hmax]. apply one_to_bound in Hin.
    destruct n as [|n]; [simpl in *; lia|].
    assert (In (Z.of_nat (S n)) (one_to (S n))).
    { rewrite one_to_S. apply in_or_app. right. left. lia. }
    specialize (Hmax _ H). lia.
  - destruct n; [reflexivity|]. rewrite one_to_S in H.
    destruct (one_to n); discriminate.
Qed.

Lemma existsb_none {A} (p : A -> bool) (l : list A) :
  (forall x, In x l -> p x = false) -> existsb p l = false.
Proof.
  induction l as [|x l IH]; simpl; intros H; [reflexivity|].
  rewrite (H x (or_introl eq_refl)). apply IH. auto.
Qed.

(** What the registering transaction needs in order to commit. *)
Lemma upload_commit_ok (gid serial : Z) (m : file_meta) (d : db) :
  in_int4 serial = true ->
  files_seq d <= INT4_MAX ->
  (forall f, In f (files d) -> unique_id f <> m_unique_id m) ->
  (forall f, In f (files d) -> f_group_id f = gid -> serial_number f <> serial) ->
  (exists g, In g (groups d) /\ g_id g = gid) ->
  (forall g, In g (groups d) -> g_id g = gid ->
             in_int4 (total_files g + 1) = true
             /\ in_int8 (total_size g + m_file_size m) = true) ->
  upload_commit gid serial m d
  = (Ok tt,
     mkDb (map (add_stats (m_file_size m) gid) (groups d))
          (files d ++ [new_file (files_seq d) gid serial m])
          (file_links d)
          (groups_seq d) (files_seq d + 1) (links_seq d)).
Proof.
  intros H0 H1 H2 H3 H4 H5.
  unfold upload_commit, insert_file, nextval, update_stats_add,
         update_groups_where_id.
  rewrite H0. simpl negb. cbv iota.
  apply Z.leb_le in H1. rewrite H1.
  assert (E1 : existsb (fun f => (unique_id f =? m_unique_id m)%string)
                       (files d) = false).
  { apply existsb_none. intros f Hf. apply String.eqb_neq. auto. }
  rewrite E1.
  assert (E2 : existsb (fun f => (f_group_id f =? gid)
                                 && (serial_number f =? serial))
                       (files d) = false).
  { apply existsb_none. intros f Hf.
    destruct (f_group_id f =? gid) eqn:A; [|reflexivity].
    apply Z.eqb_eq in A. simpl. apply Z.eqb_neq. auto. }
  rewrite E2.
  assert (E3 : existsb (fun g => g_id g =? gid) (groups d) = true).
  { apply existsb_exists. destruct H4 as (g & Hg & Eg).
    exists g. split; [exact Hg|]. apply Z.eqb_eq. exact Eg. }
  rewrite E3. simpl negb. cbv iota. cbn [groups files file_links].
  assert (E4 : forallb
            (fun g => negb (g_id g =? gid)
               || in_int4 (total_files
                     (mkGroup (g_id g) (g_name g) (g_owner_id g)
                        (total_files g + 1) (total_size g + m_file_size m)))
                  && in_int8 (total_size
                     (mkGroup (g_id g) (g_name g) (g_owner_id g)
                        (total_files g + 1) (total_size g + m_file_size m))))
            (groups d) = true).
  { apply forallb_forall. intros g Hg. simpl.
    destruct (g_id g =? gid) eqn:E; [|reflexivity].
    apply Z.eqb_eq in E. destruct (H5 g Hg E) as [-> ->]. reflexivity. }
  rewrite E4. reflexivity.
Qed.

Lemma in_int4_true (z : Z) : INT4_MIN <= z <= INT4_MAX -> in_int4 z = true.
Proof.
  intros H. unfold in_int4. apply andb_true_iff. split; apply Z.leb_le; lia.
Qed.

Lemma in_int8_true (z : Z) : INT8_MIN <= z <= INT8_MAX -> in_int8 z = true.
Proof.
  intros H. unfold in_int8. apply andb_true_iff. split; apply Z.leb_le; lia.
Qed.

Lemma upload_next (gid : Z) (k : nat) (m : file_meta) (d : db) :
  filled gid k d ->
  Z.of_nat k + 1 <= INT4_MAX ->
  files_seq d <= INT4_MAX ->
  (forall f, In f (files d) -> unique_id f <> m_unique_id m) ->
  0 <= m_file_size m <= MAX_FILE_SIZE ->
  exists d',
    run (upload_txn gid m) d = (OSaved (Z.of_nat k + 1), d')
    /\ filled gid (S k) d'
    /\ files_seq d' = files_seq d + 1
    /\ files d' = files d ++ [new_file (files_seq d) gid (Z.of_nat k + 1) m].
Proof.
  intros [Hs Hg Hser Hcnt] Hk Hseq Hfresh Hsize.
  assert (Hnext : select_next_serial gid d = Ok (Z.of_nat k + 1)).
  { unfold select_next_serial. fold (serials_of gid d).
    rewrite Hser, next_after_one_to, in_int4_true; [reflexivity|].
    unfold INT4_MIN. lia. }
  assert (Hc : upload_commit gid (Z.of_nat k + 1) m d
               = (Ok tt,
                  mkDb (map (add_stats (m_file_size m) gid) (groups d))
                       (files d ++ [new_file (files_seq d) gid (Z.of_nat k + 1) m])
                       (file_links d)
                       (groups_seq d) (files_seq d + 1) (links_seq d))).
  { apply upload_commit_ok.
    - apply in_int4_true. unfold INT4_MIN. lia.
    - exact Hseq.
    - exact Hfresh.
    - intros f Hf Eg Es.
      assert (Hin : In (serial_number f) (serials_of gid d)).
      { unfold serials_of, group_files. apply in_map. apply filter_In.
        split; [exact Hf|]. apply Z.eqb_eq. exact Eg. }
      rewrite Hser in Hin. apply one_to_bound in Hin. lia.
    - exact Hg.
    - intros g Hin Eg. destruct (Hcnt g Hin Eg) as [-> Hts].
      split; [apply in_int4_true|apply in_int8_true];
        unfold INT4_MIN, INT4_MAX, INT8_MIN, INT8_MAX, MAX_FILE_SIZE in *; nia. }
  eexists. split; [|split; [|split]].
  - unfold upload_txn, read. cbn [run]. rewrite Hnext. cbn [run].
    rewrite Hc. reflexivity.
  - pose proof (@upload_commit_schema gid (Z.of_nat k + 1) m d Hs) as Hs'.
    rewrite Hc in Hs'. cbn [snd] in Hs'.
    constructor.
    + exact Hs'.
    + cbn [groups]. destruct Hg as (g & Hin & Eg).
      exists (add_stats (m_file_size m) gid g). split.
      * apply in_map. exact Hin.
      * unfold add_stats. destruct (g_id g =? gid); exact Eg.
    + unfold serials_of, group_files. cbn [files].
      rewrite filter_app, map_app. cbn [filter new_file f_group_id].
      rewrite Z.eqb_refl. cbn [map serial_number].
      fold (group_files gid d). fold (serials_of gid d).
      rewrite Hser, one_to_S. reflexivity.
    + cbn [groups]. intros g' Hin' Eg'. apply in_map_iff in Hin'.
      destruct Hin' as (g & <- & Hin).
      unfold add_stats in *. destruct (g_id g =? gid) eqn:E.
      * cbn [g_id total_files total_size] in *.
        destruct (Hcnt g Hin Eg') as [-> Hts].
        unfold MAX_FILE_SIZE in *. split; nia.
      * apply Z.eqb_neq in E. contradiction.
  - reflexivity.
  - reflexivity.
Qed.

Lemma one_to_shift (n : nat) (k : Z) :
  map (fun x => k + x) (one_to (S n))
  = (k + 1) :: map (fun x => (k + 1) + x) (one_to n).
Proof.
  unfold one_to. cbn [seq map]. f_equal.
  rewrite <- seq_shift, !map_map. apply map_ext. intros a. lia.
Qed.

Lemma sequential_uploads_from (gid : Z) (ms : list file_meta) :
  forall (k : nat) (d : db),
    filled gid k d ->
    NoDup (map m_unique_id ms) ->
    (forall m f, In m ms -> In f (files d) -> unique_id f <> m_unique_id m) ->
    (forall m, In m ms -> 0 <= m_file_size m <= MAX_FILE_SIZE) ->
    files_seq d + Z.of_nat (List.length ms) <= INT4_MAX + 1 ->
    Z.of_nat k + Z.of_nat (List.length ms) <= INT4_MAX ->
    fst (run_ops (map (OpUpload gid) ms) d)
    = map OSaved (map (fun x => Z.of_nat k + x) (one_to (List.length ms)))
    /\ filled gid (k + List.length ms) (snd (run_ops (map (OpUpload gid) ms) d)).
Proof.
  induction ms as [|m ms IH]; intros k d Hfill Hnd Hfresh Hsz Hseq Hk.
  - simpl. rewrite Nat.add_0_r. auto.
  - cbn [List.length] in *. rewrite Nat2Z.inj_succ in *.
    inversion Hnd as [|? ? Hm Hnd']; subst.
    destruct (@upload_next gid k m d Hfill) as (d1 & Hrun & Hfill1 & Hseq1 & Hf1).
    + lia.
    + lia.
    + intros f Hf. apply Hfresh; [left; reflexivity|exact Hf].
    + apply Hsz. left. reflexivity.
    + destruct (IH (S k) d1 Hfill1 Hnd') as [Hres Hfin].
      * intros m' f Hm' Hf. rewrite Hf1 in Hf. apply in_app_or in Hf.
        destruct Hf as [Hf|[<-|[]]].
        -- apply Hfresh; [right; exact Hm'|exact Hf].
        -- simpl. intros E. apply Hm. rewrite E. apply in_map. exact Hm'.
      * intros m' Hm'. apply Hsz. right. exact Hm'.
      * lia.
      * lia.
      * cbn [map run_ops handler]. rewrite Hrun.
        destruct (run_ops (map (OpUpload gid) ms) d1) as [rs d2].
        cbn [fst snd] in *. split.
        -- rewrite one_to_shift. cbn [map]. rewrite Hres.
           rewrite Nat2Z.inj_succ.
           f_equal; try (f_equal; apply map_ext; intros a; lia).
        -- replace (k + S (List.length ms))%nat
             with (S k + List.length ms)%nat by lia.
           exact Hfin.
Qed.

Lemma serials_NoDup (gid : Z) (d : db) :
  schema_ok d -> NoDup (serials_of gid d).
Proof.
  intros Hs. pose proof (files_unique_serial Hs) as H.
  unfold serials_of, group_files.
  induction (files d) as [|f l IH]; simpl; [constructor|].
  inversion H as [|? ? Hf Hl]; subst.
  destruct (f_group_id f =? gid) eqn:E; simpl; [|auto].
  constructor; [|auto].
  intros Hin. apply in_map_iff in Hin. destruct Hin as (f' & Es & Hf').
  apply filter_In in Hf'. destruct Hf' as [Hf' Eg].
  apply Hf. apply in_map_iff. exists f'. split; [|exact Hf'].
  apply Z.eqb_eq in E. apply Z.eqb_eq in Eg. congruence.
Qed.

(** C1: no lock serialises the computation of the next serial, yet run
    one after the other, N uploads into a group without files all commit
    and receive the serials 1, 2, ..., N in that order; and however their
    statements interleave, UNIQUE(group_id, serial_number) keeps the serials
    of the group free of duplicates. *)
Theorem sequential_uploads_serials (gid : Z) (ms : list file_meta) (d : db) :
  schema_ok d -> aggregates_ok d ->
  (exists g, In g (groups d) /\ g_id g = gid) ->
  group_files gid d = [] ->
  NoDup (map m_unique_id ms) ->
  (forall m f, In m ms -> In f (files d) -> unique_id f <> m_unique_id m) ->
  (forall m, In m ms -> 0 <= m_file_size m <= MAX_FILE_SIZE) ->
  files_seq d + Z.of_nat (List.length ms) <= INT4_MAX + 1 ->
  Z.of_nat (List.length ms) <= INT4_MAX ->
  fst (run_ops (map (OpUpload gid) ms) d)
  = map OSaved (one_to (List.length ms))
  /\ serials_of gid (snd (run_ops (map (OpUpload gid) ms) d))
     = one_to (List.length ms)
  /\ forall sched,
       NoDup (serials_of gid
                (snd (run_sched sched (map (upload_txn gid) ms) d))).
Proof.
  intros Hs Hagg Hg Hempty Hnd Hfresh Hsz Hseq Hn.
  assert (Hfill : filled gid 0 d).
  { constructor; auto.
    - unfold serials_of. rewrite Hempty. reflexivity.
    - intros g Hin Eg. destruct (Hagg g Hin) as [H1 H2].
      rewrite Eg, Hempty in H1, H2. simpl in *. lia. }
  destruct (@sequential_uploads_from gid ms 0%nat d Hfill Hnd Hfresh Hsz Hseq)
    as [Hres Hfin]; [simpl; lia|].
  split; [|split].
  - rewrite Hres. f_equal. rewrite <- (map_id (one_to _)) at 2.
    apply map_ext. intros a. simpl. reflexivity.
  - apply (filled_serials Hfin).
  - intros sched. apply serials_NoDup.
    destruct (@run_sched_by_actions outcome sched (map (upload_txn gid) ms) d)
      as [al ->].
    + apply Forall_forall. intros p Hp. apply in_map_iff in Hp.
      destruct Hp as (m & <- & _). apply (handler_by_actions (OpUpload gid m)).
    + apply perform_all_schema. exact Hs.
Qed.

(** ** Issuing links *)

Lemma insert_link_collides (code : string) (fid gid : option Z) (lt : ltype)
    (owner : Z) (d : db) :
  code_in_use code d -> links_seq d <= INT4_MAX ->
  insert_link code fid gid lt owner d
  = (Raise UniqueViolationError, after_attempts 1 d).
Proof.
  intros (l & Hl & E) Hseq. unfold insert_link, nextval.
  apply Z.leb_le in Hseq. rewrite Hseq.
  replace (existsb _ (file_links d)) with true; [reflexivity|].
  symmetry. apply existsb_exists. exists l. split; [exact Hl|].
  apply String.eqb_eq. exact E.
Qed.

Lemma insert_link_fresh (code : string) (fid gid : option Z) (lt : ltype)
    (owner : Z) (d : db) :
  ~ code_in_use code d -> links_seq d <= INT4_MAX -> target_exists fid gid d ->
  insert_link code fid gid lt owner d
  = (Ok (links_seq d), with_link 0 code fid gid lt owner d).
Proof.
  intros Hfree Hseq [Hf Hg]. unfold insert_link, nextval.
  apply Z.leb_le in Hseq. rewrite Hseq.
  assert (E1 : existsb (fun l => (link_code l =? code)%string) (file_links d)
               = false).
  { destruct (existsb _ (file_links d)) eqn:E; [|reflexivity].
    apply existsb_exists in E. destruct E as (l & Hl & E).
    exfalso. apply Hfree. exists l. split; [exact Hl|].
    apply String.eqb_eq. exact E. }
  rewrite E1.
  assert (E2 : match fid with
               | Some f => negb (existsb (fun r => f_id r =? f) (files d))
               | None => false
               end = false).
  { destruct fid as [x|]; [|reflexivity].
    destruct (Hf x eq_refl) as (f & Hin & Ef).
    apply negb_false_iff, existsb_exists. exists f.
    split; [exact Hin|]. apply Z.eqb_eq. exact Ef. }
  rewrite E2.
  assert (E3 : match gid with
               | Some g => negb (existsb (fun r => g_id r =? g) (groups d))
               | None => false
               end = false).
  { destruct gid as [x|]; [|reflexivity].
    destruct (Hg x eq_refl) as (g & Hin & Eg).
    apply negb_false_iff, existsb_exists. exists g.
    split; [exact Hin|]. apply Z.eqb_eq. exact Eg. }
  rewrite E3. unfold with_link. rewrite Z.add_0_r. reflexivity.
Qed.

Lemma with_link_after (i j : Z) (code : string) (fid gid : option Z)
    (lt : ltype) (owner : Z) (d : db) :
  with_link j code fid gid lt owner (after_attempts i d)
  = with_link (i + j) code fid gid lt owner d.
Proof.
  unfold with_link, after_attempts. cbn [groups files file_links groups_seq
                                         files_seq links_seq].
  rewrite !Z.add_assoc. reflexivity.
Qed.

Lemma after_attempts_after (i j : Z) (d : db) :
  after_attempts j (after_attempts i d) = after_attempts (i + j) d.
Proof.
  unfold after_attempts. cbn [groups files file_links groups_seq files_seq
                              links_seq].
  rewrite !Z.add_assoc. reflexivity.
Qed.

Lemma code_in_use_after (code : string) (i : Z) (d : db) :
  code_in_use code (after_attempts i d) <-> code_in_use code d.
Proof. unfold code_in_use, after_attempts. simpl. tauto. Qed.

Lemma create_link_after_collisions (urandom : nat -> list Z)
    (fid gid : option Z) (lt : ltype) (owner : Z) (k : nat) :
  forall (free n : nat) (d : db),
    (k < free)%nat ->
    (forall i, (i < k)%nat -> code_in_use (generate_id (urandom (n + i)%nat)) d) ->
    ~ code_in_use (generate_id (urandom (n + k)%nat)) d ->
    links_seq d + Z.of_nat k <= INT4_MAX ->
    target_exists fid gid d ->
    run (_create_link free urandom n fid gid lt owner) d
    = (OIssued (generate_id (urandom (n + k)%nat)),
       with_link (Z.of_nat k) (generate_id (urandom (n + k)%nat))
                 fid gid lt owner d).
Proof.
  induction k as [|k IH]; intros free n d Hk Hused Hfresh Hseq Ht;
    (destruct free as [|free]; [lia|]); cbn [_create_link run].
  - rewrite Nat.add_0_r in *.
    assert (Hs0 : links_seq d <= INT4_MAX) by (simpl in Hseq; lia).
    rewrite (@insert_link_fresh (generate_id (urandom n)) fid gid lt owner d
                                Hfresh Hs0 Ht).
    reflexivity.
  - assert (Hs0 : links_seq d <= INT4_MAX) by lia.
    assert (Hu0 : code_in_use (generate_id (urandom n)) d).
    { specialize (Hused 0%nat). rewrite Nat.add_0_r in Hused.
      apply Hused. lia. }
    rewrite (@insert_link_collides (generate_id (urandom n)) fid gid lt owner
                                   d Hu0 Hs0).
    cbn [run].
    replace (n + S k)%nat with (S n + k)%nat by lia.
    rewrite (IH free (S n) (after_attempts 1 d)).
    + rewrite with_link_after.
      replace (1 + Z.of_nat k) with (Z.of_nat (S k)) by lia. reflexivity.
    + lia.
    + intros i Hi. apply code_in_use_after.
      replace (S n + i)%nat with (n + S i)%nat by lia.
      apply Hused. lia.
    + intros Hin. apply code_in_use_after in Hin. apply Hfresh.
      replace (n + S k)%nat with (S n + k)%nat by lia. exact Hin.
    + unfold after_attempts. cbn [links_seq]. lia.
    + exact Ht.
Qed.

Lemma create_link_pool_exhausted (urandom : nat -> list Z)
    (fid gid : option Z) (lt : ltype) (owner : Z) (free : nat) :
  forall (n : nat) (d : db),
    (forall i, (i < free)%nat ->
               code_in_use (generate_id (urandom (n + i)%nat)) d) ->
    links_seq d + Z.of_nat free <= INT4_MAX + 1 ->
    run (_create_link free urandom n fid gid lt owner) d
    = (OPoolWait, after_attempts (Z.of_nat free) d).
Proof.
  induction free as [|free IH]; intros n d Hused Hseq; cbn [_create_link run].
  - unfold after_attempts. cbn [Z.of_nat]. rewrite Z.add_0_r.
    destruct d; reflexivity.
  - assert (Hs0 : links_seq d <= INT4_MAX) by lia.
    assert (Hu0 : code_in_use (generate_id (urandom n)) d).
    { specialize (Hused 0%nat). rewrite Nat.add_0_r in Hused.
      apply Hused. lia. }
    rewrite (@insert_link_collides (generate_id (urandom n)) fid gid lt owner
                                   d Hu0 Hs0).
    cbn [run]. rewrite IH.
    + rewrite after_attempts_after.
      replace (1 + Z.of_nat free) with (Z.of_nat (S free)) by lia. reflexivity.
    + intros i Hi. apply code_in_use_after.
      replace (S n + i)%nat with (n + S i)%nat by lia.
      apply Hused. lia.
    + unfold after_attempts. cbn [links_seq]. lia.
Qed.

(** C3, as stated, fails: with six collisions in a row the issuer makes a
    seventh attempt and returns its code; and when every code collides it
    neither fails nor ends: after ten attempts, each holding a pooled
    connection, it waits for an eleventh connection. *)
Lemma seven_attempts_then_issued :
  let r := run (_create_link POOL_MAX_SIZE (stuck_then_free 6) 0
                             (Some 1) None LinkFile 1) db_linked in
  map link_code (file_links db_linked) = [generate_id random_a]
  /\ fst r = OIssued (generate_id random_b)
  /\ links_seq (snd r) - links_seq db_linked = 7
  /\ fst (run (_create_link POOL_MAX_SIZE (fun _ => random_a) 0
                            (Some 1) None LinkFile 1) db_linked) = OPoolWait
  /\ ~ issuance_bounded 5.
Proof.
  cbv zeta. repeat (split; [vm_compute; reflexivity|]).
  intros H.
  destruct (H (stuck_then_free 6) 0%nat (Some 1) None LinkFile 1 db_linked)
    as [Hb _].
  vm_compute in Hb. apply Hb. reflexivity.
Qed.

(** C3: a collision makes the issuer call itself again with a new code;
    there is no retry counter and no failure for "too many collisions".
    When the first [k] codes collide and the next one is free, the issuer
    returns that code after [k] retries and the store holds the new link
    (no clicks, active), provided a pooled connection is left for each
    nested attempt.  When all the codes collide, the attempt for which no
    connection is left waits; nothing is issued. *)
Theorem create_link_retries_until_fresh (free : nat) (urandom : nat -> list Z)
    (n : nat) (fid gid : option Z) (lt : ltype) (owner : Z) (d : db) :
  links_seq d + Z.of_nat free <= INT4_MAX + 1 ->
  target_exists fid gid d ->
  (forall k,
     (k < free)%nat ->
     (forall i, (i < k)%nat -> code_in_use (generate_id (urandom (n + i)%nat)) d) ->
     ~ code_in_use (generate_id (urandom (n + k)%nat)) d ->
     run (_create_link free urandom n fid gid lt owner) d
     = (OIssued (generate_id (urandom (n + k)%nat)),
        with_link (Z.of_nat k) (generate_id (urandom (n + k)%nat))
                  fid gid lt owner d))
  /\ ((forall i, (i < free)%nat ->
                 code_in_use (generate_id (urandom (n + i)%nat)) d) ->
      run (_create_link free urandom n fid gid lt owner) d
      = (OPoolWait, after_attempts (Z.of_nat free) d)).
Proof.
  intros Hseq Ht. split.
  - intros k Hk Hused Hfresh.
    apply create_link_after_collisions; auto. lia.
  - intros Hused. apply create_link_pool_exhausted; auto.
Qed.

(** ** Upload admission *)

Lemma held_after_app (h : Z) (l1 l2 : list event) :
  held_after h (l1 ++ l2) = held_after (held_after h l1) l2.
Proof.
  revert h. induction l1 as [|e l1 IH]; intros h; simpl; [reflexivity|].
  destruct e; apply IH.
Qed.

Lemma held_at_sleeps_app (h : Z) (l1 l2 : list event) :
  held_at_sleeps h (l1 ++ l2)
  = held_at_sleeps h l1 ++ held_at_sleeps (held_after h l1) l2.
Proof.
  revert h. induction l1 as [|e l1 IH]; intros h; simpl; [reflexivity|].
  destruct e; simpl; rewrite ?IH; reflexivity.
Qed.

Lemma sleeps_app (l1 l2 : list event) : sleeps (l1 ++ l2) = sleeps l1 ++ sleeps l2.
Proof. unfold sleeps. apply flat_map_app. Qed.

Lemma count_forwards_app (l1 l2 : list event) :
  count_forwards (l1 ++ l2) = (count_forwards l1 + count_forwards l2)%nat.
Proof. unfold count_forwards. rewrite filter_app, length_app. reflexivity. Qed.

Lemma backoff_prefix_effects (t h : Z) :
  sleeps (backoff_prefix t) = [t]
  /\ held_after h (backoff_prefix t) = h + 1
  /\ held_at_sleeps h (backoff_prefix t) = [h + 1]
  /\ count_forwards (backoff_prefix t) = 1%nat.
Proof. repeat split. Qed.

(** What one run of the upload does to the semaphore, for any number [h] of
    slots held when it starts. *)
Lemma upload_gate_discipline (slots : nat) (store : nat -> forward_result)
    (user : tg_user) (gid : Z) (fo : file_obj) (ft : ftype) (fname : string)
    (fsize : Z) (uid : string) :
  forall (k : nat) (ud : user_data) (d : db) (h : Z),
    let r := _process_file_upload slots store k ud d user gid fo ft fname
                                  fsize uid in
    sleeps (events_of r) = flood_run slots store k
    /\ gate_wait (outcome_of r)
       = Nat.eqb (List.length (flood_run slots store k)) slots
    /\ held_at_sleeps h (events_of r)
       = map (fun j => h + j) (one_to (List.length (flood_run slots store k)))
    /\ held_after h (events_of r)
       = (if gate_wait (outcome_of r) then h + Z.of_nat slots else h)
    /\ count_forwards (events_of r)
       = (List.length (flood_run slots store k)
          + (if gate_wait (outcome_of r) then 0 else 1))%nat.
Proof.
  induction slots as [|slots IH]; intros k ud d h.
  - simpl. repeat split; try reflexivity. lia.
  - cbn [_process_file_upload flood_run].
    destruct (store k) as [mid|t|].
    + destruct (run (upload_txn gid _) d) as [[] d'];
        simpl; repeat split; try reflexivity; lia.
    + specialize (IH (S k) ud d (h + 1)). cbv zeta in IH.
      destruct (_process_file_upload slots store (S k) ud d user gid fo ft
                                     fname fsize uid)
        as [[[[o evs] d'] ud'] k'].
      cbn [events_of outcome_of] in IH.
      destruct IH as (I1 & I2 & I3 & I4 & I5).
      destruct (backoff_prefix_effects t h) as (P1 & P2 & P3 & P4).
      cbv zeta. cbn [List.length]. rewrite one_to_shift.
      fold (backoff_prefix t).
      destruct o; cbn [events_of outcome_of gate_wait] in *;
        rewrite ?sleeps_app, ?held_at_sleeps_app, ?held_after_app,
                ?count_forwards_app, ?P1, ?P2, ?P3, ?P4, ?I1, ?I3, ?I4, ?I5;
        cbn [Nat.eqb]; rewrite <- ?I2;
        cbn [sleeps flat_map held_at_sleeps held_after count_forwards filter
             List.length app];
        rewrite ?app_nil_r;
        (split; [reflexivity|]); (split; [reflexivity|]);
        (split; [reflexivity|]); split; lia.
    + simpl. repeat split; try reflexivity; lia.
Qed.

(** C4, as stated, fails: on a rate limit the upload sleeps inside
    [async with self.upload_semaphore] and retries by calling itself there,
    so one slot is held during the first sleep, two during the second, and
    so on; four rate limits in a row are followed by a fifth transfer that
    succeeds, and five in a row leave the upload waiting for a sixth slot
    with all five in its hands. *)
Lemma sleeps_while_holding_slot :
  events_of (upload_a UPLOAD_CONCURRENCY (limited_then_ok 1))
  = [EvStatus MsgUploading; EvAcquire; EvForward;
     EvStatus (MsgRateLimited 7); EvSleep 7;
     EvStatus MsgUploading; EvAcquire; EvForward;
     EvStatus (MsgSaved 1); EvRelease; EvRelease]
  /\ held_at_sleeps 0 (events_of (upload_a UPLOAD_CONCURRENCY (limited_then_ok 1)))
     = [1]
  /\ outcome_of (upload_a UPLOAD_CONCURRENCY (limited_then_ok 4)) = UploadSaved 1
  /\ sleeps (events_of (upload_a UPLOAD_CONCURRENCY (limited_then_ok 4)))
     = [7; 7; 7; 7]
  /\ outcome_of (upload_a UPLOAD_CONCURRENCY (limited_then_ok 5)) = GateWait
  /\ held_after 0 (events_of (upload_a UPLOAD_CONCURRENCY (limited_then_ok 5)))
     = 5
  /\ ~ backoff_frees_gate 3.
Proof.
  repeat (split; [vm_compute; reflexivity|]).
  intros H.
  destruct (H UPLOAD_CONCURRENCY (limited_then_ok 1) 0%nat selected_movies
              db_movies user_one 1 file_a video "fileA.mkv" 2000000
              "AgADuniqueA") as [Hh _].
  change (_process_file_upload UPLOAD_CONCURRENCY (limited_then_ok 1) 0
            selected_movies db_movies user_one 1 file_a video "fileA.mkv"
            2000000 "AgADuniqueA")
    with (upload_a UPLOAD_CONCURRENCY (limited_then_ok 1)) in Hh.
  assert (E : held_at_sleeps 0
                (events_of (upload_a UPLOAD_CONCURRENCY (limited_then_ok 1)))
              = [1]) by (vm_compute; reflexivity).
  rewrite E in Hh. inversion Hh. discriminate.
Qed.

(** C4: the upload sleeps exactly the waits of the rate limits the content
    store answers in a row; it does so holding the semaphore (one slot
    during the first sleep, one more for every further one), because the
    retry is a nested call made before the slot is given back.  There is no
    retry counter and no failure for "too many rate limits": the run ends
    with every slot returned when an answer other than a rate limit comes
    while a slot is left, and otherwise waits for a slot holding all of
    them.  Every attempt forwards once. *)
Theorem upload_backoff_holds_gate (slots : nat) (store : nat -> forward_result)
    (k : nat) (ud : user_data) (d : db) (user : tg_user) (gid : Z)
    (fo : file_obj) (ft : ftype) (fname : string) (fsize : Z) (uid : string) :
  let r := _process_file_upload slots store k ud d user gid fo ft fname
                                fsize uid in
  sleeps (events_of r) = flood_run slots store k
  /\ gate_wait (outcome_of r)
     = Nat.eqb (List.length (flood_run slots store k)) slots
  /\ held_at_sleeps 0 (events_of r)
     = one_to (List.length (flood_run slots store k))
  /\ held_after 0 (events_of r)
     = (if gate_wait (outcome_of r) then Z.of_nat slots else 0)
  /\ count_forwards (events_of r)
     = (List.length (flood_run slots store k)
        + (if gate_wait (outcome_of r) then 0 else 1))%nat.
Proof.
  cbv zeta.
  destruct (upload_gate_discipline slots store user gid fo ft fname fsize uid
                                   k ud d 0) as (H1 & H2 & H3 & H4 & H5).
  repeat split; auto.
  - rewrite H3. rewrite <- (map_id (one_to _)) at 2. apply map_ext.
    intros a. reflexivity.
Qed.

(** ** Size limit *)

Lemma create_new_group_effect (ud : user_data) (d : db) (owner : Z)
    (text : string) :
  let '(evs, d', ud') := _create_new_group ud d owner text in
  Forall (fun e => is_transfer e = false) evs
  /\ files d' = files d /\ file_links d' = file_links d
  /\ (forall g, In g (groups d) -> In g (groups d')).
Proof.
  unfold _create_new_group.
  destruct (_ || _); [simpl; repeat split; auto|].
  unfold create_group. cbn [run]. unfold insert_group, nextval.
  destruct (groups_seq d <=? INT4_MAX); [|simpl; repeat split; auto].
  destruct (existsb _ (groups d)); simpl; repeat split; auto.
  intros g Hg. apply in_or_app. left. exact Hg.
Qed.

(** C10: a message whose file is larger than MAX_FILE_SIZE (2000 * 1024 *
    1024 bytes) never reaches the content store and never reaches [files]:
    the handler takes no slot of the semaphore, forwards nothing, leaves the
    rows of [files] and [file_links] and every existing group with its
    counters as they were.  Unless the message also answers a pending
    "name of the new group" question with a text, the whole store and the
    session are unchanged; and an authorized sender who has selected a
    group is told that the file is too large. *)
Theorem oversize_upload_rejected (authorized : bool) (slots : nat)
    (store : nat -> forward_result) (k : nat) (ud : user_data) (d : db)
    (user : tg_user) (msg : message) (fo : file_obj) (ft : ftype)
    (fname : string) (fsize : Z) (uid : string) :
  extract_file_data msg = (Some fo, ft, fname, fsize, uid) ->
  fsize > MAX_FILE_SIZE ->
  let '(evs, d', ud', k') :=
    file_handler authorized slots store k ud d user msg in
  Forall (fun e => is_transfer e = false) evs
  /\ k' = k
  /\ files d' = files d
  /\ file_links d' = file_links d
  /\ (forall g, In g (groups d) -> In g (groups d'))
  /\ ((awaiting_group_name ud && truthy_str (msg_text msg)) = false ->
      d' = d /\ ud' = ud)
  /\ (authorized = true ->
      (awaiting_group_name ud && truthy_str (msg_text msg)) = false ->
      forall gid, upload_group_id ud = Some gid -> gid <> 0 ->
                  evs = [EvStatus MsgTooLarge]).
Proof.
  intros Hx Hbig. unfold file_handler.
  destruct authorized; cbn [negb].
  2:{ repeat split; auto. intros H; discriminate H. }
  destruct (awaiting_group_name ud && truthy_str (msg_text msg)) eqn:Ea.
  - pose proof (create_new_group_effect ud d (user_id user)
                  (str_or (msg_text msg) "")) as H.
    destruct (_create_new_group ud d (user_id user) (str_or (msg_text msg) ""))
      as [[evs d'] ud'].
    destruct H as (H1 & H2 & H3 & H4).
    repeat split; auto; intros; discriminate.
  - assert (Hgt : (fsize >? MAX_FILE_SIZE) = true) by (apply Z.gtb_lt; lia).
    destruct (upload_group_id ud) as [gid|] eqn:Eg.
    + destruct (gid =? 0) eqn:E0.
      * repeat split; auto.
        intros _ _ g' Hg' Hn. inversion Hg'; subst.
        apply Z.eqb_eq in E0. contradiction.
      * rewrite Hx, Hgt. repeat split; auto.
    + repeat split; auto. intros _ _ g' Hg'. discriminate.
Qed.

(** ** Sorting (ORDER BY) *)

Section SortBy.
Variable A : Type.
Variable leb : A -> A -> bool.
Hypothesis leb_total : forall a b, leb a b = true \/ leb b a = true.
Hypothesis leb_trans :
  forall a b c, leb a b = true -> leb b c = true -> leb a c = true.

Lemma insert_by_perm (x : A) (l : list A) :
  Permutation (insert_by leb x l) (x :: l).
Proof.
  induction l as [|y l IH]; simpl; [reflexivity|].
  destruct (leb x y); [reflexivity|].
  rewrite IH. apply perm_swap.
Qed.

Lemma sort_by_perm (l : list A) : Permutation (sort_by leb l) l.
Proof.
  induction l as [|x l IH]; simpl; [reflexivity|].
  unfold sort_by in *. simpl. rewrite insert_by_perm. constructor. exact IH.
Qed.

Lemma insert_by_sorted (x : A) (l : list A) :
  StronglySorted (fun a b => leb a b = true) l ->
  StronglySorted (fun a b => leb a b = true) (insert_by leb x l).
Proof.
  induction 1 as [|y l Hl IH Hy]; simpl.
  - constructor; constructor.
  - destruct (leb x y) eqn:E.
    + constructor; [constructor; assumption|].
      constructor; [exact E|].
      rewrite Forall_forall in *. intros z Hz. eauto.
    + constructor; [exact IH|].
      rewrite Forall_forall in *. intros z Hz.
      apply (Permutation_in _ (insert_by_perm x l)) in Hz.
      destruct Hz as [<-|Hz]; [|auto].
      destruct (leb_total x y) as [H|H]; [congruence|exact H].
Qed.

Lemma sort_by_sorted (l : list A) :
  StronglySorted (fun a b => leb a b = true) (sort_by leb l).
Proof.
  induction l as [|x l IH]; [constructor|].
  unfold sort_by in *. simpl. apply insert_by_sorted. exact IH.
Qed.
End SortBy.



(** ** Resolving links *)

Lemma find_the_one {A B} (key : A -> B) (p : A -> bool) (l : list A) (x : A) :
  NoDup (map key l) -> In x l -> p x = true ->
  (forall y, In y l -> p y = true -> key y = key x) ->
  find p l = Some x.
Proof.
  intros Hnd Hx Hp Hu.
  destruct (find p l) as [y|] eqn:E.
  - apply find_some in E. destruct E as [Hy Hpy].
    f_equal. eapply NoDup_map_inj; eauto.
  - pose proof (find_none _ _ E x Hx). congruence.
Qed.

Lemma find_exists {A} (p : A -> bool) (l : list A) (x : A) :
  In x l -> p x = true -> exists y, find p l = Some y /\ In y l /\ p y = true.
Proof.
  intros Hx Hp. destruct (find p l) as [y|] eqn:E.
  - apply find_some in E. exists y. tauto.
  - pose proof (find_none _ _ E x Hx). congruence.
Qed.

Lemma click_only_one (d : db) (l l' : link_row) :
  schema_ok d -> In l (file_links d) -> In l' (file_links d) ->
  l' = l \/ click (l_id l) l' = l'.
Proof.
  intros Hs Hl Hl'. unfold click.
  destruct (l_id l' =? l_id l) eqn:E; [left|right; reflexivity].
  apply Z.eqb_eq in E.
  eapply NoDup_map_inj; [apply (links_pk Hs)| | |]; eauto.
Qed.

Lemma update_clicks_ok (d : db) (l : link_row) :
  schema_ok d -> In l (file_links d) -> in_int4 (clicks l + 1) = true ->
  update_clicks (l_id l) d
  = (Ok tt, mkDb (groups d) (files d) (map (click (l_id l)) (file_links d))
                 (groups_seq d) (files_seq d) (links_seq d)).
Proof.
  intros Hs Hl Hr. unfold update_clicks.
  replace (forallb _ (file_links d)) with true; [reflexivity|].
  symmetry. apply forallb_forall. intros l' Hl'.
  destruct (l_id l' =? l_id l) eqn:E; [|reflexivity].
  apply Z.eqb_eq in E.
  assert (l' = l)
    by (eapply NoDup_map_inj; [apply (links_pk Hs)| | |]; eauto).
  subst l'. exact Hr.
Qed.

Lemma join_member (d : db) (f : file_row) (g : group_row) :
  In (f, g) (files_join_groups d)
  <-> In f (files d) /\ In g (groups d) /\ g_id g = f_group_id f.
Proof.
  unfold files_join_groups. rewrite in_flat_map. split.
  - intros (f0 & Hf0 & Hin). apply in_map_iff in Hin.
    destruct Hin as (g0 & E & Hg0). inversion E; subst.
    apply filter_In in Hg0. destruct Hg0 as [Hg Eg].
    apply Z.eqb_eq in Eg. auto.
  - intros (Hf & Hg & E). exists f. split; [exact Hf|].
    apply in_map. apply filter_In. split; [exact Hg|].
    apply Z.eqb_eq. exact E.
Qed.

Lemma serial_leb_total (a b : file_row) :
  (serial_number a <=? serial_number b) = true
  \/ (serial_number b <=? serial_number a) = true.
Proof.
  destruct (Z.le_ge_cases (serial_number a) (serial_number b));
    [left|right]; apply Z.leb_le; assumption.
Qed.

Lemma serial_leb_trans (a b c : file_row) :
  (serial_number a <=? serial_number b) = true ->
  (serial_number b <=? serial_number c) = true ->
  (serial_number a <=? serial_number c) = true.
Proof.
  rewrite !Z.leb_le. lia.
Qed.

Lemma select_files_ordered_spec (gid : Z) (d : db) :
  Permutation (select_files_ordered (Some gid) d) (group_files gid d)
  /\ StronglySorted (fun a b => serial_number a <= serial_number b)
                    (select_files_ordered (Some gid) d).
Proof.
  unfold select_files_ordered, group_files.
  assert (E : filter (fun f => opt_eqb (Some gid) (f_group_id f)) (files d)
              = filter (fun f => f_group_id f =? gid) (files d)).
  { apply filter_ext. intros f. simpl. apply Z.eqb_sym. }
  rewrite E. split.
  - apply sort_by_perm.
  - pose proof (@sort_by_sorted file_row
                  (fun a b => serial_number a <=? serial_number b)
                  serial_leb_total serial_leb_trans
                  (filter (fun f => f_group_id f =? gid) (files d))) as H.
    eapply StronglySorted_ind with (P := StronglySorted _);
      [constructor| |exact H].
    intros a l _ IH Hf. constructor; [exact IH|].
    eapply Forall_impl; [|exact Hf]. intros b Hb. apply Z.leb_le. exact Hb.
Qed.

(** What one resolution does when its link is there, is active, and its
    counter can still grow. *)
Lemma resolve_found (code : string) (d : db) (l : link_row) :
  schema_ok d -> In l (file_links d) -> link_code l = code ->
  is_active l = true -> in_int4 (clicks l + 1) = true ->
  exists r,
    run (resolve_link code) d
    = (r, mkDb (groups d) (files d) (map (click (l_id l)) (file_links d))
               (groups_seq d) (files_seq d) (links_seq d))
    /\ descriptor_of l d r.
Proof.
  intros Hs Hl Hc Ha Hr.
  assert (Hsel : select_active_link code d = Some l).
  { unfold select_active_link.
    apply find_the_one with (key := link_code).
    - apply (links_unique Hs).
    - exact Hl.
    - rewrite Hc, String.eqb_refl, Ha. reflexivity.
    - intros y _ Hy. apply andb_true_iff in Hy. destruct Hy as [Hy _].
      apply String.eqb_eq in Hy. congruence. }
  unfold resolve_link, read. cbn [run]. rewrite Hsel. cbn [run].
  rewrite (update_clicks_ok d l Hs Hl Hr). cbn [run].
  set (d1 := mkDb (groups d) (files d) (map (click (l_id l)) (file_links d))
                  (groups_seq d) (files_seq d) (links_seq d)).
  unfold descriptor_of.
  destruct (link_type l); cbn [run].
  - unfold select_file_info.
    change (files_join_groups d1) with (files_join_groups d).
    destruct (l_file_id l) as [fid|] eqn:Ef.
    + pose proof (@links_fk_file d Hs l fid Hl Ef) as Hin.
      apply in_map_iff in Hin. destruct Hin as (f & Eid & Hf).
      pose proof (@files_fk d Hs f Hf) as Hg.
      apply in_map_iff in Hg. destruct Hg as (g & Eg & Hg).
      destruct (@find_exists _ (fun fg => opt_eqb (Some fid) (f_id (fst fg)))
                             (files_join_groups d) (f, g))
        as ([f' g'] & Hfind & Hin' & Hp).
      * apply join_member. auto.
      * simpl. rewrite Eid. apply Z.eqb_refl.
      * rewrite Hfind. simpl. eexists. split; [reflexivity|].
        apply join_member in Hin'. destruct Hin' as (H1 & H2 & H3).
        simpl in Hp. apply Z.eqb_eq in Hp.
        exists f', g'. repeat split; auto.
    + rewrite find_all_false; [|intros; reflexivity].
      simpl. eexists. split; reflexivity.
  - change (select_files_ordered (l_group_id l) d1)
      with (select_files_ordered (l_group_id l) d).
    change (select_group_name (l_group_id l) d1)
      with (select_group_name (l_group_id l) d).
    destruct (l_group_id l) as [gid|] eqn:Eg.
    + destruct (select_files_ordered_spec gid d) as [Hperm Hsorted].
      destruct (select_files_ordered (Some gid) d) as [|f fs] eqn:Efs;
        cbn [run].
      * eexists. split; [reflexivity|]. left. split; [|reflexivity].
        apply Permutation_nil. exact Hperm.
      * pose proof (@links_fk_group d Hs l gid Hl Eg) as Hin.
        apply in_map_iff in Hin. destruct Hin as (g & Eid & Hg).
        unfold select_group_name.
        destruct (@find_exists _ (fun g0 => opt_eqb (Some gid) (g_id g0))
                               (groups d) g Hg)
          as (g' & Hfind & Hin' & Hp).
        { simpl. rewrite Eid. apply Z.eqb_refl. }
        change (groups d1) with (groups d).
        rewrite Hfind. simpl. eexists. split; [reflexivity|].
        right. exists g', (f :: fs). simpl in Hp. apply Z.eqb_eq in Hp.
        repeat split; auto. discriminate.
    + unfold select_files_ordered. simpl.
      rewrite filter_none; [|intros; reflexivity].
      simpl. eexists. split; reflexivity.
Qed.







(** ** Resolutions running side by side *)

















(** ** Search *)

Lemma ascii_compare_refl (c : ascii) : Ascii.compare c c = Eq.
Proof. unfold Ascii.compare. apply N.compare_refl. Qed.

Lemma string_compare_refl (s : string) : String.compare s s = Eq.
Proof.
  induction s as [|c s IH]; simpl; [reflexivity|].
  rewrite ascii_compare_refl. exact IH.
Qed.

Lemma ascii_compare_lt_trans (a b c : ascii) :
  Ascii.compare a b = Lt -> Ascii.compare b c = Lt -> Ascii.compare a c = Lt.
Proof.
  unfold Ascii.compare. rewrite !N.compare_lt_iff. lia.
Qed.

Lemma string_compare_lt_trans (a : string) :
  forall b c, String.compare a b = Lt -> String.compare b c = Lt ->
              String.compare a c = Lt.
Proof.
  induction a as [|x a IH]; intros [|y b] [|z c]; simpl; try discriminate;
    try reflexivity.
  destruct (Ascii.compare x y) eqn:Exy; try discriminate;
    destruct (Ascii.compare y z) eqn:Eyz; try discriminate; intros H1 H2.
  - apply Ascii.compare_eq_iff in Exy. apply Ascii.compare_eq_iff in Eyz.
    subst. rewrite ascii_compare_refl. eapply IH; eauto.
  - apply Ascii.compare_eq_iff in Exy. subst. rewrite Eyz. reflexivity.
  - apply Ascii.compare_eq_iff in Eyz. subst. rewrite Exy. reflexivity.
  - rewrite (ascii_compare_lt_trans _ _ _ Exy Eyz). reflexivity.
Qed.



(** *** LIKE with a pattern free of wildcards between two [%] *)







Lemma list_ascii_of_string_app (a b : string) :
  list_ascii_of_string (a ++ b)
  = list_ascii_of_string a ++ list_ascii_of_string b.
Proof.
  induction a as [|c a IH]; simpl; [reflexivity|]. rewrite IH. reflexivity.
Qed.









(** ** The hypotheses of the theorems hold on the running example *)

Lemma db_movies_schema : schema_ok db_movies.
Proof.
  apply (proj1 (run_ops_invariants [OpCreateGroup 1 "Movies"] empty_db
                                   empty_schema empty_aggregates)).
Qed.

Lemma db_movies_aggregates : aggregates_ok db_movies.
Proof.
  apply (proj2 (run_ops_invariants [OpCreateGroup 1 "Movies"] empty_db
                                   empty_schema empty_aggregates)).
Qed.

Lemma db_linked_reachable : reachable db_linked.
Proof.
  exists [AInsertGroup "Movies" 1; AUploadCommit 1 1 meta_a;
          AUploadCommit 1 2 meta_b;
          AInsertLink (generate_id random_a) (Some 1) None LinkFile 1].
  vm_compute. reflexivity.
Qed.

Lemma sequential_uploads_serials_witness :
  schema_ok db_movies /\ aggregates_ok db_movies
  /\ group_files 1 db_movies = []
  /\ NoDup (map m_unique_id [meta_a; meta_b])
  /\ fst (run_ops (map (OpUpload 1) [meta_a; meta_b]) db_movies)
     = map OSaved (one_to 2)
  /\ serials_of 1 (snd (run_ops (map (OpUpload 1) [meta_a; meta_b]) db_movies))
     = one_to 2.
Proof.
  assert (H1 : schema_ok db_movies) by exact db_movies_schema.
  assert (H2 : aggregates_ok db_movies) by exact db_movies_aggregates.
  assert (H3 : exists g, In g (groups db_movies) /\ g_id g = 1).
  { exists (mkGroup 1 "Movies" 1 0 0). split; [left|]; reflexivity. }
  assert (H4 : group_files 1 db_movies = []) by reflexivity.
  assert (H5 : NoDup (map m_unique_id [meta_a; meta_b])).
  { repeat constructor; simpl; intuition discriminate. }
  assert (H6 : forall m f, In m [meta_a; meta_b] -> In f (files db_movies) ->
                           unique_id f <> m_unique_id m).
  { intros m f _ []. }
  assert (H7 : forall m, In m [meta_a; meta_b] ->
                         0 <= m_file_size m <= MAX_FILE_SIZE).
  { intros m [<-|[<-|[]]]; vm_compute; split; discriminate. }
  assert (H8 : files_seq db_movies
               + Z.of_nat (List.length [meta_a; meta_b]) <= INT4_MAX + 1).
  { vm_compute. discriminate. }
  assert (H9 : Z.of_nat (List.length [meta_a; meta_b]) <= INT4_MAX).
  { vm_compute. discriminate. }
  pose proof (sequential_uploads_serials 1 [meta_a; meta_b] db_movies
                H1 H2 H3 H4 H5 H6 H7 H8 H9) as (R1 & R2 & _).
  split; [exact H1|]. split; [exact H2|]. split; [exact H4|].
  split; [exact H5|]. split; [exact R1|exact R2].
Defined.

Lemma create_link_retries_until_fresh_witness :
  links_seq db_linked + Z.of_nat POOL_MAX_SIZE <= INT4_MAX + 1
  /\ target_exists (Some 1) None db_linked
  /\ run (_create_link POOL_MAX_SIZE (stuck_then_free 2) 0 (Some 1) None
                       LinkFile 1) db_linked
     = (OIssued (generate_id random_b),
        with_link 2 (generate_id random_b) (Some 1) None LinkFile 1 db_linked).
Proof.
  assert (H1 : links_seq db_linked + Z.of_nat POOL_MAX_SIZE <= INT4_MAX + 1).
  { vm_compute. discriminate. }
  assert (H2 : target_exists (Some 1) None db_linked).
  { split.
    - intros x E. inversion E; subst.
      exists (new_file 1 1 1 meta_a). split; [left|]; reflexivity.
    - intros x E. discriminate E. }
  split; [exact H1|]. split; [exact H2|].
  apply (proj1 (create_link_retries_until_fresh POOL_MAX_SIZE
                  (stuck_then_free 2) 0 (Some 1) None LinkFile 1 db_linked
                  H1 H2) 2%nat).
  - unfold POOL_MAX_SIZE. lia.
  - intros i Hi.
    exists (mkLink 1 (generate_id random_a) (Some 1) None LinkFile 1 0 true).
    split; [left; reflexivity|].
    destruct i as [|[|i]]; [reflexivity|reflexivity|lia].
  - intros (l & [<-|[]] & E). vm_compute in E. discriminate E.
Defined.

Lemma upload_assigns_next_serial_witness :
  run (upload_txn 1 meta_a) db_movies
  = (OSaved 1, snd (run (upload_txn 1 meta_a) db_movies))
  /\ (exists id, files (snd (run (upload_txn 1 meta_a) db_movies))
                 = files db_movies ++ [new_file id 1 1 meta_a])
  /\ groups (snd (run (upload_txn 1 meta_a) db_movies))
     = map (add_stats (m_file_size meta_a) 1) (groups db_movies).
Proof.
  assert (H : run (upload_txn 1 meta_a) db_movies
              = (OSaved 1, snd (run (upload_txn 1 meta_a) db_movies)))
    by (vm_compute; reflexivity).
  pose proof (upload_assigns_next_serial 1 meta_a db_movies _ 1 H)
    as (_ & R2 & _ & R4 & _).
  split; [exact H|]. split; assumption.
Defined.


Lemma generate_id_shape_witness :
  List.length random_a = 16%nat /\ Forall is_byte random_a
  /\ String.length (generate_id random_a) = 12%nat
  /\ generate_id random_a = "AAECAwQFRgeI"%string
  /\ uuid_bytes (uuid4 random_a)
     = [0; 1; 2; 3; 4; 5; 70; 7; 136; 9; 10; 11; 12; 13; 14; 15].
Proof.
  assert (H1 : List.length random_a = 16%nat) by reflexivity.
  assert (H2 : Forall is_byte random_a).
  { repeat constructor; discriminate. }
  pose proof (generate_id_shape random_a H1 H2) as (R1 & _ & _ & R4 & _).
  split; [exact H1|]. split; [exact H2|]. split; [exact R1|].
  split; [vm_compute; reflexivity|]. rewrite R4. reflexivity.
Defined.


Lemma cascade_integrity_witness :
  reachable db_linked
  /\ links_valid db_linked
  /\ run (resolve_link (generate_id random_a))
         (snd (run (delete_group_txn 1 "Movies") db_linked))
     = (ONotFound, snd (run (delete_group_txn 1 "Movies") db_linked)).
Proof.
  assert (H : reachable db_linked) by exact db_linked_reachable.
  destruct (cascade_integrity db_linked H) as (R1 & R2 & _).
  split; [exact H|]. split; [exact R1|].
  destruct (R2 1 "Movies" (mkGroup 1 "Movies" 1 2 5000000)) as (_ & _ & R).
  - left. reflexivity.
  - reflexivity.
  - reflexivity.
  - destruct (R (mkLink 1 (generate_id random_a) (Some 1) None LinkFile 1 0 true))
      as [_ Rr].
    + left. reflexivity.
    + right. exists (new_file 1 1 1 meta_a).
      split; [left; reflexivity|]. split; reflexivity.
    + exact Rr.
Defined.

Lemma oversize_upload_rejected_witness :
  extract_file_data big_document
  = (Some (mkFileObj "BQACbig" "AgADbig" (Some "big.iso") (Some 3000000000)),
     document, "big.iso"%string, 3000000000, "AgADbig"%string)
  /\ 3000000000 > MAX_FILE_SIZE
  /\ file_handler true UPLOAD_CONCURRENCY (limited_then_ok 0) 0
                  selected_movies db_movies user_one big_document
     = ([EvStatus MsgTooLarge], db_movies, selected_movies, 0%nat).
Proof.
  assert (H1 : extract_file_data big_document
               = (Some (mkFileObj "BQACbig" "AgADbig" (Some "big.iso")
                                  (Some 3000000000)),
                  document, "big.iso"%string, 3000000000, "AgADbig"%string))
    by reflexivity.
  assert (H2 : 3000000000 > MAX_FILE_SIZE) by reflexivity.
  pose proof (oversize_upload_rejected true UPLOAD_CONCURRENCY
                (limited_then_ok 0) 0 selected_movies db_movies user_one
                big_document _ _ _ _ _ H1 H2) as R.
  split; [exact H1|]. split; [exact H2|].
  destruct (file_handler true UPLOAD_CONCURRENCY (limited_then_ok 0) 0
                         selected_movies db_movies user_one big_document)
    as [[[evs d'] ud'] k'].
  destruct R as (_ & Rk & _ & _ & _ & Rd & Re).
  destruct (Rd eq_refl) as [-> ->].
  rewrite (Re eq_refl eq_refl 1 eq_refl ltac:(discriminate)), Rk.
  reflexivity.
Defined.

(** ** The scenario of the specification, run

    Group "Movies" of owner 1; fileA gets serial 1 and fileB serial 2, the
    counters read 2 files and 5,000,000 bytes; a link to fileA resolves to
    fileA and counts one click; after fileA is deleted the counters read 1
    file and 3,000,000 bytes and the link resolves to "not found". *)
Example scenario_movies :
  let code := generate_id random_a in
  let '(results, d) :=
    run_ops [OpCreateGroup 1 "Movies";
             OpUpload 1 meta_a;
             OpUpload 1 meta_b;
             OpGetLink POOL_MAX_SIZE (fun _ => random_a) 0 1 "Movies" 1;
             OpResolveLink code;
             OpDeleteFile 1 "Movies" 1;
             OpResolveLink code] empty_db in
  results = [OGroupCreated 1; OSaved 1; OSaved 2; OIssued code;
             OFile (new_file 1 1 1 meta_a) "Movies";
             OFileDeleted 100; ONotFound]
  /\ map (fun g => (total_files g, total_size g)) (groups d) = [(1, 3000000)]
  /\ map serial_number (files d) = [2]
  /\ file_links d = [].
Proof. vm_compute. repeat split. Qed.

(* ================================================================== *)
(** * Part III. The rest of the handlers *)

(** ** What a message carries *)

Lemma str_or_nonempty (o : option string) (dflt : string) :
  dflt <> ""%string -> str_or o dflt <> ""%string.
Proof.
  intros H. unfold str_or. destruct o as [s|]; [|exact H].
  destruct (String.eqb_spec s ""); assumption.
Qed.

Lemma default_name_nonempty (t : ftype) (fo : file_obj) (ext : string) :
  default_name t fo ext <> ""%string.
Proof. unfold default_name. destruct t; simpl; discriminate. Qed.

(** X1: [extract_file_data] yields no file exactly when the message has no
    attachment of the six kinds.  When it yields one, the name it gives is
    never empty, the content key and the size are the attachment's own (a
    missing size counts as 0), a document wins over every other kind, and a
    photo is taken from the last entry of the list of sizes. *)
Theorem extract_file_data_names (m : message) :
  let '(fo, ft, fname, fsize, uid) := extract_file_data m in
  (fo = None
   <-> msg_document m = None /\ msg_video m = None /\ msg_audio m = None
       /\ msg_photo m = [] /\ msg_voice m = None /\ msg_video_note m = None)
  /\ (forall o, fo = Some o ->
        fname <> ""%string /\ uid = fo_file_unique_id o
        /\ fsize = int_or (fo_file_size o) 0)
  /\ (forall o, msg_document m = Some o -> fo = Some o /\ ft = document)
  /\ (ft = photo -> exists l o, msg_photo m = l ++ [o] /\ fo = Some o).
Proof.
  unfold extract_file_data.
  destruct (msg_document m) as [o1|].
  { split; [split; [discriminate|intros (E & _); discriminate E]|].
    split; [intros o E; inversion E; subst; split;
            [apply str_or_nonempty, default_name_nonempty|split; reflexivity]|].
    split; [intros o E; inversion E; subst; split; reflexivity|discriminate]. }
  destruct (msg_video m) as [o2|].
  { split; [split; [discriminate|intros (_ & E & _); discriminate E]|].
    split; [intros o E; inversion E; subst; split;
            [apply str_or_nonempty, default_name_nonempty|split; reflexivity]|].
    split; [discriminate|discriminate]. }
  destruct (msg_audio m) as [o3|].
  { split; [split; [discriminate|intros (_ & _ & E & _); discriminate E]|].
    split; [intros o E; inversion E; subst; split;
            [apply str_or_nonempty, default_name_nonempty|split; reflexivity]|].
    split; [discriminate|discriminate]. }
  destruct (rev (msg_photo m)) as [|o4 r] eqn:Ep.
  2:{ assert (Hp : msg_photo m = rev r ++ [o4]).
      { rewrite <- (rev_involutive (msg_photo m)), Ep. reflexivity. }
      split; [split; [discriminate|]|].
      { intros (_ & _ & _ & E & _). rewrite E in Hp.
        destruct (rev r); discriminate Hp. }
      split; [intros o E; inversion E; subst; split;
              [apply default_name_nonempty|split; reflexivity]|].
      split; [discriminate|].
      intros _. exists (rev r), o4. split; [exact Hp|reflexivity]. }
  assert (Hp : msg_photo m = []).
  { rewrite <- (rev_involutive (msg_photo m)), Ep. reflexivity. }
  destruct (msg_voice m) as [o5|].
  { split; [split; [discriminate|intros (_ & _ & _ & _ & E & _); discriminate E]|].
    split; [intros o E; inversion E; subst; split;
            [apply default_name_nonempty|split; reflexivity]|].
    split; [discriminate|discriminate]. }
  destruct (msg_video_note m) as [o6|].
  { split; [split; [discriminate|intros (_ & _ & _ & _ & _ & E); discriminate E]|].
    split; [intros o E; inversion E; subst; split;
            [apply default_name_nonempty|split; reflexivity]|].
    split; [discriminate|discriminate]. }
  split; [split; [intros _; repeat split; assumption|reflexivity]|].
  split; [discriminate|]. split; [discriminate|discriminate].
Qed.

(** ** An upload registers its file, or leaves the rows alone *)

Lemma run_upload_failed (gid : Z) (m : file_meta) (d : db) :
  (forall s, fst (run (upload_txn gid m) d) <> OSaved s) ->
  groups (snd (run (upload_txn gid m) d)) = groups d
  /\ files (snd (run (upload_txn gid m) d)) = files d
  /\ file_links (snd (run (upload_txn gid m) d)) = file_links d.
Proof.
  unfold upload_txn. cbn [run]. unfold read.
  destruct (select_next_serial gid d) as [s|e]; cbn [run fst snd]; [|auto].
  pose proof (upload_commit_cases gid s m d) as H.
  destruct (upload_commit gid s m d) as [[u|e] d1]; cbn [run fst snd].
  - intros Hn. exfalso. apply (Hn s). reflexivity.
  - intros _. exact H.
Qed.

Lemma run_upload_duplicate (gid : Z) (m : file_meta) (d : db) (f : file_row) :
  In f (files d) -> unique_id f = m_unique_id m ->
  forall s, fst (run (upload_txn gid m) d) <> OSaved s.
Proof.
  intros Hf Hu s E.
  destruct (run (upload_txn gid m) d) as [r d'] eqn:Er. cbn [fst] in E. subst r.
  destruct (run_upload gid m d d' s Er) as [_ Hc].
  pose proof (upload_commit_cases gid s m d) as H. rewrite Hc in H.
  destruct H as (_ & _ & _ & _ & _ & H).
  destruct (H f Hf) as [Hn _]. contradiction.
Qed.

Lemma process_upload_rows (slots : nat) (store : nat -> forward_result)
    (user : tg_user) (gid : Z) (fo : file_obj) (ft : ftype) (fname : string)
    (fsize : Z) (uid : string) :
  forall (k : nat) (ud : user_data) (d : db),
    let '(o, evs, d', _, _) :=
      _process_file_upload slots store k ud d user gid fo ft fname fsize uid in
    match o with
    | UploadSaved s =>
        (exists id mid,
           files d' = files d
                      ++ [uploaded_row id gid s user fo ft fname fsize uid mid])
        /\ groups d' = map (add_stats fsize gid) (groups d)
        /\ file_links d' = file_links d
        /\ In (EvStatus (MsgSaved s)) evs
    | _ =>
        groups d' = groups d /\ files d' = files d
        /\ file_links d' = file_links d
        /\ existsb says_saved evs = false
    end.
Proof.
  induction slots as [|slots IH]; intros k ud d; cbn [_process_file_upload].
  - repeat split.
  - destruct (store k) as [mid|t|].
    + set (m := mkMeta uid fname ft fsize (fo_file_id fo) (user_id user)
                       (username user) mid).
      destruct (run (upload_txn gid m) d) as [r d'] eqn:Er.
      assert (Hf : (forall s, r <> OSaved s) ->
                   groups d' = groups d /\ files d' = files d
                   /\ file_links d' = file_links d).
      { intros Hn. pose proof (run_upload_failed gid m d) as H.
        rewrite Er in H. apply H. exact Hn. }
      destruct r;
        try (destruct Hf as (H1 & H2 & H3); [intros s; discriminate|];
             repeat split; assumption).
      destruct (run_upload gid m d d' serial Er) as [_ Hc].
      pose proof (upload_commit_cases gid serial m d) as H. rewrite Hc in H.
      destruct H as (H1 & H2 & H3 & _).
      split; [exists (files_seq d), mid; exact H1|].
      split; [exact H2|]. split; [exact H3|].
      right. right. right. left. reflexivity.
    + specialize (IH (S k) ud d).
      destruct (_process_file_upload slots store (S k) ud d user gid fo ft
                                     fname fsize uid)
        as [[[[o evs] d'] ud'] k'].
      destruct o as [s| |].
      * destruct IH as (H1 & H2 & H3 & H4).
        split; [exact H1|]. split; [exact H2|]. split; [exact H3|].
        apply in_or_app. right. apply in_or_app. left. exact H4.
      * destruct IH as (H1 & H2 & H3 & H4).
        split; [exact H1|]. split; [exact H2|]. split; [exact H3|].
        cbn [app existsb says_saved orb].
        rewrite existsb_app, H4. reflexivity.
      * destruct IH as (H1 & H2 & H3 & H4).
        split; [exact H1|]. split; [exact H2|]. split; [exact H3|].
        cbn [app existsb says_saved orb]. exact H4.
    + repeat split.
Qed.

Lemma not_said_saved (evs : list event) (s : Z) :
  existsb says_saved evs = false -> ~ In (EvStatus (MsgSaved s)) evs.
Proof.
  intros H Hin.
  assert (E : existsb says_saved evs = true).
  { apply existsb_exists. exists (EvStatus (MsgSaved s)).
    split; [exact Hin|reflexivity]. }
  rewrite H in E. discriminate E.
Qed.

(** With the edit accepted every time, the function is the one above. *)
Lemma process_edits_all_done (slots : nat) (store : nat -> forward_result)
    (user : tg_user) (gid : Z) (fo : file_obj) (ft : ftype) (fname : string)
    (fsize : Z) (uid : string) :
  forall (k : nat) (ud : user_data) (d : db),
    _process_file_upload_edits slots store (fun _ => EditDone) k ud d user gid
                               fo ft fname fsize uid
    = _process_file_upload slots store k ud d user gid fo ft fname fsize uid.
Proof.
  induction slots as [|slots IH]; intros k ud d;
    cbn [_process_file_upload_edits _process_file_upload]; [reflexivity|].
  destruct (store k) as [mid|t|]; [|rewrite IH; reflexivity|reflexivity].
  destruct (run (upload_txn gid _) d) as [r d']. destruct r; reflexivity.
Qed.

Lemma process_edits_duplicate (slots : nat) (store : nat -> forward_result)
    (edits : nat -> edit_result) (user : tg_user) (gid : Z) (fo : file_obj)
    (ft : ftype) (fname : string) (fsize : Z) (uid : string) :
  forall (k : nat) (ud : user_data) (d : db) (f : file_row),
    In f (files d) -> unique_id f = uid ->
    let '(o, evs, d', _, _) :=
      _process_file_upload_edits slots store edits k ud d user gid fo ft
                                 fname fsize uid in
    groups d' = groups d /\ files d' = files d
    /\ file_links d' = file_links d
    /\ existsb says_saved evs = false
    /\ forall s, o <> UploadSaved s.
Proof.
  induction slots as [|slots IH]; intros k ud d f Hf Hu;
    cbn [_process_file_upload_edits].
  - repeat split. discriminate.
  - destruct (store k) as [mid|t|].
    + set (m := mkMeta uid fname ft fsize (fo_file_id fo) (user_id user)
                       (username user) mid).
      pose proof (run_upload_duplicate gid m d f Hf Hu) as Hn.
      pose proof (run_upload_failed gid m d Hn) as (H1 & H2 & H3).
      destruct (run (upload_txn gid m) d) as [r d'].
      cbn [fst snd] in Hn, H1, H2, H3.
      destruct r;
        try (split; [exact H1|]; split; [exact H2|]; split; [exact H3|];
             split; [reflexivity|discriminate]).
      exfalso. apply (Hn serial). reflexivity.
    + specialize (IH (S k) ud d f Hf Hu).
      destruct (_process_file_upload_edits slots store edits (S k) ud d user
                                           gid fo ft fname fsize uid)
        as [[[[o evs] d'] ud'] k'].
      destruct IH as (H1 & H2 & H3 & H4 & H5).
      destruct o as [s| |].
      * exfalso. apply (H5 s). reflexivity.
      * split; [exact H1|]. split; [exact H2|]. split; [exact H3|].
        split; [|discriminate].
        cbn [app existsb says_saved orb]. rewrite existsb_app, H4.
        reflexivity.
      * split; [exact H1|]. split; [exact H2|]. split; [exact H3|].
        split; [|discriminate].
        cbn [app existsb says_saved orb]. exact H4.
    + repeat split. discriminate.
Qed.

Lemma process_edits_rows (slots : nat) (store : nat -> forward_result)
    (edits : nat -> edit_result) (user : tg_user) (gid : Z) (fo : file_obj)
    (ft : ftype) (fname : string) (fsize : Z) (uid : string) :
  forall (k : nat) (ud : user_data) (d : db),
    let '(o, evs, d', _, _) :=
      _process_file_upload_edits slots store edits k ud d user gid fo ft
                                 fname fsize uid in
    file_links d' = file_links d
    /\ ((groups d' = groups d /\ files d' = files d)
        \/ exists id mid s,
             files d' = files d
                        ++ [uploaded_row id gid s user fo ft fname fsize uid mid]
             /\ groups d' = map (add_stats fsize gid) (groups d))
    /\ (forall s, In (EvStatus (MsgSaved s)) evs <-> o = UploadSaved s)
    /\ (forall s, o = UploadSaved s ->
          exists id mid,
            files d' = files d
                       ++ [uploaded_row id gid s user fo ft fname fsize uid mid])
    /\ ((forall j, edits j = EditDone) -> (forall s, o <> UploadSaved s) ->
        groups d' = groups d /\ files d' = files d).
Proof.
  induction slots as [|slots IH]; intros k ud d;
    cbn [_process_file_upload_edits].
  - split; [reflexivity|]. split; [left; split; reflexivity|].
    split; [intros s; split; [intros [E|[]]; discriminate E|discriminate]|].
    split; [discriminate|]. intros _ _. split; reflexivity.
  - destruct (store k) as [mid|t|].
    + set (m := mkMeta uid fname ft fsize (fo_file_id fo) (user_id user)
                       (username user) mid).
      destruct (run (upload_txn gid m) d) as [r d1] eqn:Er.
      assert (Hfail : (forall s, r <> OSaved s) ->
                      groups d1 = groups d /\ files d1 = files d
                      /\ file_links d1 = file_links d).
      { intros Hn. pose proof (run_upload_failed gid m d) as H.
        rewrite Er in H. apply H. exact Hn. }
      assert (Hno : forall s,
                 In (EvStatus (MsgSaved s))
                    [EvStatus MsgUploading; EvAcquire; EvForward;
                     EvStatus MsgFailed; EvRelease]
                 <-> UploadFailed = UploadSaved s).
      { intros s. split; [|discriminate].
        intros [E|[E|[E|[E|[E|[]]]]]]; discriminate E. }
      destruct r;
        try (destruct Hfail as (H1 & H2 & H3); [intros s; discriminate|];
             split; [exact H3|]; split; [left; split; assumption|];
             split; [exact Hno|]; split; [discriminate|];
             intros _ _; split; assumption).
      destruct (run_upload gid m d d1 serial Er) as [_ Hc].
      pose proof (upload_commit_cases gid serial m d) as H. rewrite Hc in H.
      destruct H as (H1 & H2 & H3 & _).
      change (new_file (files_seq d) gid serial m)
        with (uploaded_row (files_seq d) gid serial user fo ft fname fsize
                           uid mid) in H1.
      change (m_file_size m) with fsize in H2.
      destruct (edits k) as [|t|] eqn:Ee.
      * split; [exact H3|].
        split; [right; exists (files_seq d), mid, serial; split; assumption|].
        split.
        { intros s. split.
          - intros [E|[E|[E|[E|[E|[]]]]]]; try discriminate E.
            inversion E; subst. reflexivity.
          - intros E. inversion E; subst.
            right. right. right. left. reflexivity. }
        split.
        { intros s E. inversion E; subst. exists (files_seq d), mid.
          exact H1. }
        intros _ Hn. exfalso. apply (Hn serial). reflexivity.
      * pose proof (process_edits_duplicate slots store edits user gid fo ft
                      fname fsize uid (S k) ud d1
                      (uploaded_row (files_seq d) gid serial user fo ft fname
                                    fsize uid mid)) as Hdup.
        destruct (_process_file_upload_edits slots store edits (S k) ud d1
                                             user gid fo ft fname fsize uid)
          as [[[[o evs] d2] ud2] k2].
        destruct Hdup as (D1 & D2 & D3 & D4 & D5).
        { rewrite H1. apply in_or_app. right. left. reflexivity. }
        { reflexivity. }
        assert (Hrows : file_links d2 = file_links d
                        /\ exists id mid0 s,
                             files d2 = files d
                                        ++ [uploaded_row id gid s user fo ft
                                              fname fsize uid mid0]
                             /\ groups d2 = map (add_stats fsize gid) (groups d)).
        { split; [congruence|]. exists (files_seq d), mid, serial.
          split; congruence. }
        destruct Hrows as [R1 R2].
        destruct o as [s| |].
        -- exfalso. apply (D5 s). reflexivity.
        -- split; [exact R1|]. split; [right; exact R2|].
           split.
           { intros s. split; [|discriminate]. intros Hin. exfalso.
             cbn [app In] in Hin.
             destruct Hin as [E|[E|[E|[E|[E|Hin]]]]]; try discriminate E.
             apply in_app_or in Hin. destruct Hin as [Hin|[E|[]]];
               [|discriminate E].
             exact (not_said_saved evs s D4 Hin). }
           split; [discriminate|].
           intros Hall. rewrite Hall in Ee. discriminate Ee.
        -- split; [exact R1|]. split; [right; exact R2|].
           split.
           { intros s. split; [|discriminate]. intros Hin. exfalso.
             cbn [app In] in Hin.
             destruct Hin as [E|[E|[E|[E|[E|Hin]]]]]; try discriminate E.
             exact (not_said_saved evs s D4 Hin). }
           split; [discriminate|].
           intros Hall. rewrite Hall in Ee. discriminate Ee.
      * split; [exact H3|].
        split; [right; exists (files_seq d), mid, serial; split; assumption|].
        split; [exact Hno|]. split; [discriminate|].
        intros Hall. rewrite Hall in Ee. discriminate Ee.
    + specialize (IH (S k) ud d).
      destruct (_process_file_upload_edits slots store edits (S k) ud d user
                                           gid fo ft fname fsize uid)
        as [[[[o evs] d'] ud'] k'].
      destruct IH as (H1 & H2 & H3 & H4 & H5).
      assert (Hin : forall s tail,
                 (forall e, In e tail -> e = EvRelease) ->
                 In (EvStatus (MsgSaved s))
                    ([EvStatus MsgUploading; EvAcquire; EvForward;
                      EvStatus (MsgRateLimited t); EvSleep t] ++ evs ++ tail)
                 <-> In (EvStatus (MsgSaved s)) evs).
      { intros s tail Ht. split.
        - intros Hin. cbn [app In] in Hin.
          destruct Hin as [E|[E|[E|[E|[E|Hin]]]]]; try discriminate E.
          apply in_app_or in Hin. destruct Hin as [Hin|Hin]; [exact Hin|].
          specialize (Ht _ Hin). discriminate Ht.
        - intros Hin. cbn [app In]. do 5 right. apply in_or_app. left.
          exact Hin. }
      destruct o as [s0| |].
      * split; [exact H1|]. split; [exact H2|].
        split.
        { intros s. rewrite (Hin s [EvRelease]); [apply H3|].
          intros e [<-|[]]. reflexivity. }
        split; [exact H4|exact H5].
      * split; [exact H1|]. split; [exact H2|].
        split.
        { intros s. rewrite (Hin s [EvRelease]); [apply H3|].
          intros e [<-|[]]. reflexivity. }
        split; [exact H4|exact H5].
      * split; [exact H1|]. split; [exact H2|].
        split.
        { intros s. rewrite <- (app_nil_r evs), (Hin s []); [apply H3|].
          intros e []. }
        split; [exact H4|exact H5].
    + split; [reflexivity|]. split; [left; split; reflexivity|].
      split.
      { intros s. split; [|discriminate].
        intros [E|[E|[E|[E|[E|[]]]]]]; discriminate E. }
      split; [discriminate|]. intros _ _. split; reflexivity.
Qed.

(** X2: an upload is all or nothing in the store, whatever the content
    store and Telegram answer and however often they make it wait: the
    links are untouched, and either nothing has changed, or [files] has
    gained exactly one row, for this file in this group, and the counters
    of that group went up by one file and the file's size.  The user is
    told "Saved" with serial s exactly when that is the outcome, and then
    the row with that serial is there.  The converse needs Telegram to
    accept the edit to "Saved": when it does whenever asked, an upload
    that did not report "Saved" has changed nothing; when it refuses (the
    edit comes after the commit), the user is told "failed" or to wait
    although the row is stored. *)
Theorem upload_all_or_nothing (slots : nat) (store : nat -> forward_result)
    (edits : nat -> edit_result) (k : nat) (ud : user_data) (d : db)
    (user : tg_user) (gid : Z) (fo : file_obj) (ft : ftype) (fname : string)
    (fsize : Z) (uid : string) :
  let '(o, evs, d', _, _) :=
    _process_file_upload_edits slots store edits k ud d user gid fo ft fname
                               fsize uid in
  file_links d' = file_links d
  /\ ((groups d' = groups d /\ files d' = files d)
      \/ exists id mid s,
           files d' = files d
                      ++ [uploaded_row id gid s user fo ft fname fsize uid mid]
           /\ groups d' = map (add_stats fsize gid) (groups d))
  /\ (forall s, In (EvStatus (MsgSaved s)) evs <-> o = UploadSaved s)
  /\ (forall s, o = UploadSaved s ->
        exists id mid,
          files d' = files d
                     ++ [uploaded_row id gid s user fo ft fname fsize uid mid])
  /\ ((forall j, edits j = EditDone) -> (forall s, o <> UploadSaved s) ->
      groups d' = groups d /\ files d' = files d).
Proof.
  exact (process_edits_rows slots store edits user gid fo ft fname fsize uid
                            k ud d).
Qed.

(** A name with a backquote: the edit to "Saved" is refused after the
    commit, and the user is told "failed" although the file is stored; on a
    rate limit of the edit the file is forwarded a second time, and the
    second INSERT is refused as a duplicate. *)
Example refused_edit_keeps_the_row :
  let run1 := _process_file_upload_edits 5 (fun j => Forwarded (100 + Z.of_nat j))
                (fun _ => EditRefused) 0 selected_movies db_movies user_one 1
                file_a video "file`A.mkv" 2000000 "AgADuniqueA" in
  let run2 := _process_file_upload_edits 5 (fun j => Forwarded (100 + Z.of_nat j))
                (fun j => if Nat.eqb j 0 then EditFlood 7 else EditDone) 0
                selected_movies db_movies user_one 1
                file_a video "fileA.mkv" 2000000 "AgADuniqueA" in
  outcome_of run1 = UploadFailed
  /\ (let '(_, _, d', _, _) := run1 in map serial_number (files d')) = [1]
  /\ files db_movies = []
  /\ outcome_of run2 = UploadFailed
  /\ count_forwards (events_of run2) = 2%nat
  /\ (let '(_, _, d', _, _) := run2 in
      (map storage_message_id (files d'), map total_files (groups d')))
     = ([100], [1]).
Proof.
  cbv zeta. repeat split; vm_compute; reflexivity.
Qed.

Lemma process_upload_duplicate (slots : nat) (store : nat -> forward_result)
    (user : tg_user) (gid : Z) (fo : file_obj) (ft : ftype) (fname : string)
    (fsize : Z) (uid : string) (d : db) (f : file_row) :
  In f (files d) -> unique_id f = uid ->
  forall (k : nat) (ud : user_data) (s : Z),
    outcome_of (_process_file_upload slots store k ud d user gid fo ft fname
                                     fsize uid)
    <> UploadSaved s.
Proof.
  intros Hf Hu.
  induction slots as [|slots IH]; intros k ud s; cbn [_process_file_upload].
  - discriminate.
  - destruct (store k) as [mid|t|].
    + set (m := mkMeta uid fname ft fsize (fo_file_id fo) (user_id user)
                       (username user) mid).
      pose proof (run_upload_duplicate gid m d f Hf Hu) as Hn.
      destruct (run (upload_txn gid m) d) as [r d'].
      destruct r; try discriminate.
      exfalso. apply (Hn serial). reflexivity.
    + specialize (IH (S k) ud s).
      destruct (_process_file_upload slots store (S k) ud d user gid fo ft
                                     fname fsize uid)
        as [[[[o evs] d'] ud'] k'].
      destruct o; [exact IH|discriminate|discriminate].
    + discriminate.
Qed.

(** X3: a file whose content key is already in [files] is never registered a
    second time, in whatever group and by whichever user: the upload does not
    report "saved" and leaves the rows and counters as they are.  The key is
    looked at only by the INSERT, after the transfer: when the content store
    accepts the first transfer, the duplicate has been forwarded there all
    the same, and the reply is "failed". *)
Theorem duplicate_content_not_registered (slots : nat)
    (store : nat -> forward_result) (k : nat) (ud : user_data) (d : db)
    (user : tg_user) (gid : Z) (fo : file_obj) (ft : ftype) (fname : string)
    (fsize : Z) (uid : string) (f : file_row) :
  In f (files d) -> unique_id f = uid ->
  let '(o, evs, d', ud', k') :=
    _process_file_upload slots store k ud d user gid fo ft fname fsize uid in
  (forall s, o <> UploadSaved s)
  /\ files d' = files d /\ groups d' = groups d
  /\ (forall mid, (0 < slots)%nat -> store k = Forwarded mid ->
        o = UploadFailed
        /\ evs = [EvStatus MsgUploading; EvAcquire; EvForward;
                  EvStatus MsgFailed; EvRelease]
        /\ k' = S k).
Proof.
  intros Hf Hu.
  pose proof (process_upload_duplicate slots store user gid fo ft fname fsize
                uid d f Hf Hu k ud) as Hn.
  pose proof (process_upload_rows slots store user gid fo ft fname fsize uid
                k ud d) as Hr.
  assert (Hfw : forall mid, (0 < slots)%nat -> store k = Forwarded mid ->
            _process_file_upload slots store k ud d user gid fo ft fname
                                 fsize uid
            = (UploadFailed,
               [EvStatus MsgUploading; EvAcquire; EvForward;
                EvStatus MsgFailed; EvRelease],
               snd (run (upload_txn gid
                           (mkMeta uid fname ft fsize (fo_file_id fo)
                                   (user_id user) (username user) mid)) d),
               finally_clear ud, S k)).
  { intros mid Hs Ek. destruct slots as [|slots]; [lia|].
    cbn [_process_file_upload]. rewrite Ek.
    pose proof (run_upload_duplicate gid
                  (mkMeta uid fname ft fsize (fo_file_id fo) (user_id user)
                          (username user) mid) d f Hf Hu) as Hd.
    destruct (run (upload_txn gid _) d) as [r d1]. cbn [fst snd] in *.
    destruct r; try reflexivity. exfalso. apply (Hd serial). reflexivity. }
  destruct (_process_file_upload slots store k ud d user gid fo ft fname
                                 fsize uid)
    as [[[[o evs] d'] ud'] k'].
  cbn [outcome_of] in Hn.
  split; [exact Hn|].
  destruct o as [s| |].
  - exfalso. apply (Hn s). reflexivity.
  - destruct Hr as (H1 & H2 & _). split; [exact H2|]. split; [exact H1|].
    intros mid Hs Ek. specialize (Hfw mid Hs Ek). inversion Hfw; subst.
    repeat split.
  - destruct Hr as (H1 & H2 & _). split; [exact H2|]. split; [exact H1|].
    intros mid Hs Ek. specialize (Hfw mid Hs Ek). discriminate Hfw.
Qed.

Lemma duplicate_content_not_registered_witness :
  In (new_file 1 1 1 meta_a) (files db_two_files)
  /\ unique_id (new_file 1 1 1 meta_a) = "AgADuniqueA"%string
  /\ outcome_of (_process_file_upload UPLOAD_CONCURRENCY (limited_then_ok 0) 0
                   selected_movies db_two_files user_one 1 file_a video
                   "fileA.mkv" 2000000 "AgADuniqueA")
     = UploadFailed
  /\ events_of (_process_file_upload UPLOAD_CONCURRENCY (limited_then_ok 0) 0
                  selected_movies db_two_files user_one 1 file_a video
                  "fileA.mkv" 2000000 "AgADuniqueA")
     = [EvStatus MsgUploading; EvAcquire; EvForward; EvStatus MsgFailed;
        EvRelease].
Proof.
  assert (H1 : In (new_file 1 1 1 meta_a) (files db_two_files))
    by (left; reflexivity).
  assert (H2 : unique_id (new_file 1 1 1 meta_a) = "AgADuniqueA"%string)
    by reflexivity.
  pose proof (duplicate_content_not_registered UPLOAD_CONCURRENCY
                (limited_then_ok 0) 0 selected_movies db_two_files user_one 1
                file_a video "fileA.mkv" 2000000 "AgADuniqueA"
                (new_file 1 1 1 meta_a) H1 H2) as R.
  split; [exact H1|]. split; [exact H2|].
  destruct (_process_file_upload UPLOAD_CONCURRENCY (limited_then_ok 0) 0
              selected_movies db_two_files user_one 1 file_a video
              "fileA.mkv" 2000000 "AgADuniqueA")
    as [[[[o evs] d'] ud'] k'].
  destruct R as (_ & _ & _ & R).
  destruct (R 100 ltac:(unfold UPLOAD_CONCURRENCY; lia) eq_refl)
    as (-> & -> & _).
  split; reflexivity.
Defined.

(** ** The selection of a group lasts for one upload *)

Lemma finally_clear_twice (ud : user_data) :
  finally_clear (finally_clear ud) = finally_clear ud.
Proof. unfold finally_clear. destruct (is_bulk_upload ud) eqn:E; cbn; rewrite ?E; reflexivity. Qed.

Lemma process_upload_session (slots : nat) (store : nat -> forward_result)
    (user : tg_user) (gid : Z) (fo : file_obj) (ft : ftype) (fname : string)
    (fsize : Z) (uid : string) :
  forall (k : nat) (ud : user_data) (d : db),
    let '(o, _, _, ud', _) :=
      _process_file_upload slots store k ud d user gid fo ft fname fsize uid in
    match o with
    | GateWait => ud' = ud
    | _ => ud' = finally_clear ud
    end.
Proof.
  induction slots as [|slots IH]; intros k ud d; cbn [_process_file_upload].
  - reflexivity.
  - destruct (store k) as [mid|t|].
    + destruct (run (upload_txn gid _) d) as [r d']. destruct r; reflexivity.
    + specialize (IH (S k) ud d).
      destruct (_process_file_upload slots store (S k) ud d user gid fo ft
                                     fname fsize uid)
        as [[[[o evs] d'] ud'] k'].
      destruct o; subst ud'; try apply finally_clear_twice. reflexivity.
    + reflexivity.
Qed.

(** X4: outside bulk mode the selection of a group is good for one file.
    When [_process_file_upload] comes to an end (saved or failed, after any
    number of rate limits), the [finally] clause has removed the selected
    group from the session, so the next file the user sends is answered
    "select a group first" and changes nothing.  In bulk mode the session is
    left as it is; [clear_handler] removes the selection and the bulk flag,
    but not a pending question for a group name. *)
Theorem selection_lasts_one_upload (slots : nat)
    (store : nat -> forward_result) (k : nat) (ud : user_data) (d : db)
    (user : tg_user) (gid : Z) (fo : file_obj) (ft : ftype) (fname : string)
    (fsize : Z) (uid : string) :
  let '(o, evs, d', ud', k') :=
    _process_file_upload slots store k ud d user gid fo ft fname fsize uid in
  (o <> GateWait -> is_bulk_upload ud = true ->
   ud' = ud
   /\ clear_handler true ud' = mkUserData None None false (awaiting_group_name ud))
  /\ (o <> GateWait -> is_bulk_upload ud = false ->
      upload_group_id ud' = None /\ upload_group_name ud' = None
      /\ awaiting_group_name ud' = awaiting_group_name ud
      /\ forall slots2 store2 msg,
           awaiting_group_name ud && truthy_str (msg_text msg) = false ->
           file_handler true slots2 store2 k' ud' d' user msg
           = ([EvStatus MsgSelectGroupFirst], d', ud', k')).
Proof.
  pose proof (process_upload_session slots store user gid fo ft fname fsize
                uid k ud d) as H.
  destruct (_process_file_upload slots store k ud d user gid fo ft fname
                                 fsize uid)
    as [[[[o evs] d'] ud'] k'].
  assert (Hc : o <> GateWait -> ud' = finally_clear ud).
  { intros Hn. destruct o; [exact H|exact H|contradiction]. }
  split.
  - intros Hn Hb. rewrite (Hc Hn). unfold finally_clear. rewrite Hb.
    split; reflexivity.
  - intros Hn Hb. rewrite (Hc Hn). unfold finally_clear. rewrite Hb.
    cbn [upload_group_id upload_group_name awaiting_group_name].
    repeat split. intros slots2 store2 msg Ha.
    unfold file_handler.
    cbn [negb awaiting_group_name upload_group_id]. rewrite Ha. reflexivity.
Qed.

(** ** Creating a group *)

Lemma space_at_head_shorter (l r : list ascii) :
  space_at_head l = Some r ->
  exists p, l = p ++ r /\ p <> [].
Proof.
  unfold space_at_head.
  destruct l as [|c1 [|c2 [|c3 l]]]; try discriminate.
  - destruct (is_space c1); [|discriminate].
    intros H. injection H as <-. exists [c1]. split; [reflexivity|discriminate].
  - destruct (is_space c1).
    { intros H. injection H as <-. exists [c1].
      split; [reflexivity|discriminate]. }
    destruct (is_space2 c1 c2); [|discriminate].
    intros H. injection H as <-. exists [c1; c2].
    split; [reflexivity|discriminate].
  - destruct (is_space c1).
    { intros H. injection H as <-. exists [c1].
      split; [reflexivity|discriminate]. }
    destruct (is_space2 c1 c2).
    { intros H. injection H as <-. exists [c1; c2].
      split; [reflexivity|discriminate]. }
    destruct (is_space3 c1 c2 c3); [|discriminate].
    intros H. injection H as <-. exists [c1; c2; c3].
    split; [reflexivity|discriminate].
Qed.

Lemma space_at_tail_shorter (l r : list ascii) :
  space_at_tail l = Some r ->
  exists p, l = p ++ r /\ p <> [].
Proof.
  unfold space_at_tail.
  destruct l as [|c1 [|c2 [|c3 l]]]; try discriminate.
  - destruct (is_space c1); [|discriminate].
    intros H. injection H as <-. exists [c1]. split; [reflexivity|discriminate].
  - destruct (is_space c1).
    { intros H. injection H as <-. exists [c1].
      split; [reflexivity|discriminate]. }
    destruct (is_space2 c2 c1); [|discriminate].
    intros H. injection H as <-. exists [c1; c2].
    split; [reflexivity|discriminate].
  - destruct (is_space c1).
    { intros H. injection H as <-. exists [c1].
      split; [reflexivity|discriminate]. }
    destruct (is_space2 c2 c1).
    { intros H. injection H as <-. exists [c1; c2].
      split; [reflexivity|discriminate]. }
    destruct (is_space3 c3 c2 c1); [|discriminate].
    intros H. injection H as <-. exists [c1; c2; c3].
    split; [reflexivity|discriminate].
Qed.

Lemma space_at_head_app (l r t : list ascii) :
  space_at_head l = Some r -> space_at_head (l ++ t) = Some (r ++ t).
Proof.
  unfold space_at_head.
  destruct l as [|c1 [|c2 [|c3 l]]]; cbn [app]; try discriminate.
  - destruct (is_space c1); [|discriminate].
    intros H. injection H as <-. reflexivity.
  - destruct (is_space c1).
    { intros H. injection H as <-. reflexivity. }
    destruct (is_space2 c1 c2); [|discriminate].
    intros H. injection H as <-. reflexivity.
  - destruct (is_space c1).
    { intros H. injection H as <-. reflexivity. }
    destruct (is_space2 c1 c2).
    { intros H. injection H as <-. reflexivity. }
    destruct (is_space3 c1 c2 c3); [|discriminate].
    intros H. injection H as <-. reflexivity.
Qed.

(** Dropping stops where no whitespace is left, and leaves the rest of the
    text. *)
Lemma drop_spaces_done (space : list ascii -> option (list ascii)) :
  (forall l r, space l = Some r -> exists p, l = p ++ r /\ p <> []) ->
  forall fuel l,
    (List.length l <= fuel)%nat ->
    space (drop_spaces space fuel l) = None
    /\ exists p, l = p ++ drop_spaces space fuel l.
Proof.
  intros Hshort. induction fuel as [|fuel IH]; intros l Hl; cbn [drop_spaces].
  - destruct l; [|cbn in Hl; lia]. split; [|exists []; reflexivity].
    destruct (space []) as [r|] eqn:E; [|reflexivity].
    destruct (Hshort _ _ E) as (p & Hp & Hne).
    destruct p; [contradiction Hne; reflexivity|discriminate Hp].
  - destruct (space l) as [r|] eqn:E.
    + destruct (Hshort _ _ E) as (p & Hp & Hne).
      assert (Hr : (List.length r <= fuel)%nat).
      { rewrite Hp, length_app in Hl. destruct p; [contradiction Hne; reflexivity|].
        cbn [List.length] in Hl. lia. }
      destruct (IH r Hr) as [Hnone [p' Hp']].
      split; [exact Hnone|]. exists (p ++ p').
      rewrite <- app_assoc, <- Hp'. exact Hp.
    + split; [exact E|]. exists []. reflexivity.
Qed.

Lemma strip_stripped (s : string) : stripped (strip s).
Proof.
  unfold stripped, strip. rewrite list_ascii_of_string_of_list_ascii.
  set (l := list_ascii_of_string s).
  destruct (drop_spaces_done space_at_head space_at_head_shorter
              (List.length l) l (Nat.le_refl _)) as [Hhead _].
  fold (lstrip l) in Hhead. set (m := lstrip l) in *.
  destruct (drop_spaces_done space_at_tail space_at_tail_shorter
              (List.length m) (rev m)) as [Htail [p Hp]].
  { rewrite length_rev. apply Nat.le_refl. }
  unfold rstrip. split.
  - destruct (space_at_head (rev (drop_spaces space_at_tail (List.length m)
                                               (rev m)))) as [r|] eqn:E;
      [|reflexivity].
    apply (space_at_head_app _ _ (rev p)) in E.
    rewrite <- rev_app_distr, <- Hp, rev_involutive, Hhead in E.
    discriminate E.
  - rewrite rev_involutive. exact Htail.
Qed.

Lemma insert_group_cases (name : string) (owner : Z) (d : db) :
  let (r, d') := insert_group name owner d in
  files d' = files d /\ file_links d' = file_links d
  /\ match r with
     | Ok id =>
         id = groups_seq d
         /\ groups d' = groups d ++ [mkGroup id name owner 0 0]
         /\ groups_seq d <= INT4_MAX
         /\ (forall g, In g (groups d) -> g_owner_id g = owner ->
                       g_name g <> name)
     | Raise e =>
         groups d' = groups d
         /\ ((e = UniqueViolationError /\ groups_seq d <= INT4_MAX
              /\ exists g, In g (groups d) /\ g_owner_id g = owner
                           /\ g_name g = name)
             \/ (e = SequenceLimitExceededError /\ INT4_MAX < groups_seq d))
     end.
Proof.
  unfold insert_group, nextval.
  destruct (groups_seq d <=? INT4_MAX) eqn:Es.
  - apply Z.leb_le in Es.
    destruct (existsb _ (groups d)) eqn:Ex; cbn [files file_links groups].
    + split; [reflexivity|]. split; [reflexivity|]. split; [reflexivity|].
      left. split; [reflexivity|]. split; [exact Es|].
      apply existsb_exists in Ex. destruct Ex as (g & Hg & Hc).
      apply andb_true_iff in Hc. destruct Hc as [Hn Ho].
      exists g. split; [exact Hg|].
      split; [apply Z.eqb_eq, Ho|apply String.eqb_eq, Hn].
    + split; [reflexivity|]. split; [reflexivity|]. split; [reflexivity|].
      split; [reflexivity|]. split; [exact Es|].
      intros g Hg Ho Hn.
      pose proof (existsb_false _ _ Ex g Hg) as Hc. cbn beta in Hc.
      rewrite Hn, Ho, String.eqb_refl, Z.eqb_refl in Hc. discriminate Hc.
  - split; [reflexivity|]. split; [reflexivity|]. split; [reflexivity|].
    right. split; [reflexivity|]. apply Z.leb_gt in Es. exact Es.
Qed.

(** X5: [_create_new_group] stores the text without the whitespace at its
    two ends as the name, and only if it is not empty, has at most 50
    characters (characters, not bytes; a name of exactly 50 is taken,
    though the reply to a longer one asks for "under 50") and the owner
    has no group of that name yet; the new group starts with both counters
    at 0.  In every other case, a second group of the same name for the
    same owner among them, [groups] is unchanged.  The pending question is
    cleared whatever happens, the selection is not touched, and no file or
    link changes. *)
Theorem create_new_group_cases (ud : user_data) (d : db) (owner : Z)
    (text : string) :
  let name := strip text in
  let '(evs, d', ud') := _create_new_group ud d owner text in
  ud' = mkUserData (upload_group_id ud) (upload_group_name ud)
                   (is_bulk_upload ud) false
  /\ files d' = files d /\ file_links d' = file_links d
  /\ (evs = [EvStatus MsgGroupCreated] ->
      groups d' = groups d ++ [mkGroup (groups_seq d) name owner 0 0]
      /\ name <> ""%string /\ (py_len name <= 50)%nat
      /\ stripped name)
  /\ (evs <> [EvStatus MsgGroupCreated] -> groups d' = groups d)
  /\ ((exists g, In g (groups d) /\ g_owner_id g = owner /\ g_name g = name) ->
      name <> ""%string -> (py_len name <= 50)%nat ->
      groups_seq d <= INT4_MAX ->
      evs = [EvStatus MsgGroupExists])
  /\ ((forall g, In g (groups d) -> g_owner_id g = owner -> g_name g <> name) ->
      name <> ""%string -> (py_len name <= 50)%nat ->
      groups_seq d <= INT4_MAX ->
      evs = [EvStatus MsgGroupCreated]).
Proof.
  cbv zeta. unfold _create_new_group.
  destruct (String.eqb_spec (strip text) "") as [E0|E0]; cbn [orb].
  { split; [reflexivity|]. split; [reflexivity|]. split; [reflexivity|].
    split; [discriminate|]. split; [reflexivity|].
    split; intros _ Hn; contradiction. }
  destruct (50 <? py_len (strip text))%nat eqn:E50.
  { apply Nat.ltb_lt in E50.
    split; [reflexivity|]. split; [reflexivity|]. split; [reflexivity|].
    split; [discriminate|]. split; [reflexivity|].
    split; intros _ _ Hl; lia. }
  apply Nat.ltb_ge in E50.
  unfold create_group. cbn [run].
  pose proof (insert_group_cases (strip text) owner d) as H.
  destruct (insert_group (strip text) owner d) as [[id|e] d1].
  - destruct H as (H1 & H2 & -> & H3 & Hs & H4). cbn [run].
    split; [reflexivity|]. split; [exact H1|]. split; [exact H2|].
    split; [intros _; split; [exact H3|];
            split; [exact E0|]; split; [exact E50|apply strip_stripped]|].
    split; [intros Hn; contradiction Hn; reflexivity|].
    split; [|reflexivity].
    intros (g & Hg & Ho & Hn) _ _ _. exfalso. exact (H4 g Hg Ho Hn).
  - destruct H as (H1 & H2 & H3 & [(-> & Hs & Hex)|(-> & Hs)]); cbn [run].
    + split; [reflexivity|]. split; [exact H1|]. split; [exact H2|].
      split; [discriminate|]. split; [intros _; exact H3|].
      split; [reflexivity|].
      intros Hfresh _ _ _. exfalso.
      destruct Hex as (g & Hg & Ho & Hn). exact (Hfresh g Hg Ho Hn).
    + split; [reflexivity|]. split; [exact H1|]. split; [exact H2|].
      split; [discriminate|]. split; [intros _; exact H3|].
      split; intros _ _ _ Hle; lia.
Qed.

(** Twenty-six letters e with an acute accent, between a no-break space
    and an ideographic space: 26 characters in 52 bytes once stripped, and
    the group is created. *)
Example accented_name_accepted :
  let e_acute := [ascii_of_nat 195; ascii_of_nat 169] in
  let text := string_of_list_ascii
                ([ascii_of_nat 194; ascii_of_nat 160]
                 ++ List.concat (repeat e_acute 26)
                 ++ [ascii_of_nat 227; ascii_of_nat 128; ascii_of_nat 128]) in
  strip text = string_of_list_ascii (List.concat (repeat e_acute 26))
  /\ String.length (strip text) = 52%nat /\ py_len (strip text) = 26%nat
  /\ fst (fst (_create_new_group selected_movies db_movies 1 text))
     = [EvStatus MsgGroupCreated].
Proof.
  cbv zeta. repeat split; vm_compute; reflexivity.
Qed.

(** ** Revoking a link *)

Lemma filter_at_most_one {A B} (key : A -> B) (p : A -> bool) (l : list A)
    (c : B) :
  NoDup (map key l) -> (forall x, In x l -> p x = true -> key x = c) ->
  (List.length (filter p l) <= 1)%nat.
Proof.
  induction l as [|x l IH]; cbn [map filter]; intros Hnd Hk; [cbn; lia|].
  inversion Hnd as [|? ? Hni Hnd']; subst.
  destruct (p x) eqn:Ep.
  - assert (Hnone : filter p l = []).
    { apply filter_none. intros y Hy.
      destruct (p y) eqn:Ey; [|reflexivity]. exfalso. apply Hni.
      rewrite (Hk x (or_introl eq_refl) Ep),
              <- (Hk y (or_intror Hy) Ey).
      apply in_map. exact Hy. }
    rewrite Hnone. cbn. lia.
  - apply IH; [exact Hnd'|]. intros y Hy. apply Hk. right. exact Hy.
Qed.

(** X6: [revoke_link_handler] deletes a link only for its owner.  In a
    store that keeps the schema, the reply is "revoked" exactly when a link
    with this code belongs to the caller; that link is then gone, every
    other link is still there, groups and files are untouched, and the code
    resolves to "not found" from then on.  For anyone else, and for an
    unknown code, nothing changes. *)
Theorem revoke_link_owner_only (code : string) (owner : Z) (d : db) :
  schema_ok d ->
  let (r, d') := run (revoke_link code owner) d in
  groups d' = groups d /\ files d' = files d
  /\ (r = OLinkRevoked
      <-> exists l, In l (file_links d) /\ link_code l = code
                    /\ l_owner_id l = owner)
  /\ (r <> OLinkRevoked -> r = ONotFound /\ d' = d)
  /\ (forall l, In l (file_links d') <->
                In l (file_links d)
                /\ (link_code l <> code \/ l_owner_id l <> owner))
  /\ (r = OLinkRevoked -> run (resolve_link code) d' = (ONotFound, d')).
Proof.
  intros Hs. unfold revoke_link. cbn [run]. unfold delete_link.
  set (hit := fun l : link_row =>
                (link_code l =? code)%string && (l_owner_id l =? owner)).
  assert (Hhit : forall l, hit l = true
                           <-> link_code l = code /\ l_owner_id l = owner).
  { intros l. unfold hit. rewrite andb_true_iff, String.eqb_eq, Z.eqb_eq.
    reflexivity. }
  assert (Hle : (List.length (filter hit (file_links d)) <= 1)%nat).
  { apply (filter_at_most_one link_code hit (file_links d) code).
    - exact (links_unique Hs).
    - intros l _ Hl. apply Hhit in Hl. exact (proj1 Hl). }
  assert (Hmem : forall l,
            In l (filter (fun l => negb (hit l)) (file_links d))
            <-> In l (file_links d)
                /\ (link_code l <> code \/ l_owner_id l <> owner)).
  { intros l. rewrite filter_In. split; intros [Hl Hc]; (split; [exact Hl|]).
    - destruct (String.eqb_spec (link_code l) code) as [E1|E1];
        [|left; exact E1].
      destruct (Z.eqb_spec (l_owner_id l) owner) as [E2|E2];
        [|right; exact E2].
      exfalso. assert (Hh : hit l = true) by (apply Hhit; split; assumption).
      rewrite Hh in Hc. discriminate Hc.
    - destruct (hit l) eqn:Eh; [|reflexivity]. exfalso.
      apply Hhit in Eh. destruct Eh as [E1 E2]. destruct Hc; contradiction. }
  destruct (filter hit (file_links d)) as [|l0 rest] eqn:Ef.
  - (* no row of the caller carries the code *)
    assert (Hsame : filter (fun l => negb (hit l)) (file_links d)
                    = file_links d).
    { apply filter_all. intros l Hl. destruct (hit l) eqn:Eh; [|reflexivity].
      exfalso. assert (Hin : In l (filter hit (file_links d)))
        by (apply filter_In; split; assumption).
      rewrite Ef in Hin. exact Hin. }
    cbn [List.length run groups files file_links].
    split; [reflexivity|]. split; [reflexivity|].
    split.
    { split; [discriminate|]. intros (l & Hl & E1 & E2). exfalso.
      assert (Hin : In l (filter hit (file_links d))).
      { apply filter_In. split; [exact Hl|]. apply Hhit. split; assumption. }
      rewrite Ef in Hin. exact Hin. }
    split.
    { intros _. split; [reflexivity|].
      transitivity (mkDb (groups d) (files d) (file_links d) (groups_seq d)
                         (files_seq d) (links_seq d));
        [|destruct d; reflexivity].
      f_equal. exact Hsame. }
    split; [exact Hmem|discriminate].
  - destruct rest as [|l1 rest]; [|cbn [List.length] in Hle; lia].
    cbn [List.length run groups files file_links].
    assert (Hl0 : In l0 (file_links d) /\ hit l0 = true).
    { apply filter_In. rewrite Ef. left. reflexivity. }
    destruct Hl0 as [Hin0 Hh0]. apply Hhit in Hh0. destruct Hh0 as [Ec Eo].
    split; [reflexivity|]. split; [reflexivity|].
    split.
    { split; [intros _; exists l0; repeat split; assumption|reflexivity]. }
    split; [intros Hn; contradiction Hn; reflexivity|].
    split; [exact Hmem|].
    intros _. apply resolve_unused_code.
    intros (l & Hl & El). cbn [file_links] in Hl.
    apply Hmem in Hl. destruct Hl as [Hl Hc].
    assert (l = l0).
    { apply (NoDup_map_inj link_code (file_links d)); try assumption.
      - exact (links_unique Hs).
      - rewrite El, Ec. reflexivity. }
    subst l. destruct Hc; contradiction.
Qed.

Lemma db_linked_schema : schema_ok db_linked.
Proof. apply reachable_schema. exact db_linked_reachable. Qed.

Lemma revoke_link_owner_only_witness :
  schema_ok db_linked
  /\ run (revoke_link (generate_id random_a) 2) db_linked
     = (ONotFound, db_linked)
  /\ fst (run (revoke_link (generate_id random_a) 1) db_linked) = OLinkRevoked
  /\ run (resolve_link (generate_id random_a))
         (snd (run (revoke_link (generate_id random_a) 1) db_linked))
     = (ONotFound, snd (run (revoke_link (generate_id random_a) 1) db_linked)).
Proof.
  assert (H : schema_ok db_linked) by exact db_linked_schema.
  pose proof (revoke_link_owner_only (generate_id random_a) 2 db_linked H)
    as R2.
  pose proof (revoke_link_owner_only (generate_id random_a) 1 db_linked H)
    as R1.
  split; [exact H|].
  destruct (run (revoke_link (generate_id random_a) 2) db_linked)
    as [r2 d2] eqn:E2.
  destruct (run (revoke_link (generate_id random_a) 1) db_linked)
    as [r1 d1] eqn:E1.
  cbn [fst snd].
  destruct R2 as (_ & _ & R2a & R2b & _).
  destruct R1 as (_ & _ & R1a & _ & _ & R1c).
  assert (Hr1 : r1 = OLinkRevoked).
  { apply R1a.
    exists (mkLink 1 (generate_id random_a) (Some 1) None LinkFile 1 0 true).
    split; [left; reflexivity|]. split; reflexivity. }
  assert (Hr2 : r2 <> OLinkRevoked).
  { intros Hr. apply R2a in Hr. destruct Hr as (l & [<-|[]] & _ & Ho).
    discriminate Ho. }
  destruct (R2b Hr2) as [-> ->].
  split; [reflexivity|]. split; [exact Hr1|]. exact (R1c Hr1).
Defined.

(** ** Deleting touches the caller's groups only *)

Lemma group_by_id (d : db) (g g' : group_row) :
  schema_ok d -> In g (groups d) -> In g' (groups d) -> g_id g = g_id g' ->
  g = g'.
Proof.
  intros Hs Hg Hg' E.
  exact (NoDup_map_inj g_id (groups d) g g' (groups_pk Hs) Hg Hg' E).
Qed.

Lemma file_by_id (d : db) (f f' : file_row) :
  schema_ok d -> In f (files d) -> In f' (files d) -> f_id f = f_id f' ->
  f = f'.
Proof.
  intros Hs Hf Hf' E.
  exact (NoDup_map_inj f_id (files d) f f' (files_pk Hs) Hf Hf' E).
Qed.

Lemma filter_filter_same {A} (p q : A -> bool) (l : list A) :
  (forall x, In x l -> p x = true -> q x = true) ->
  filter p (filter q l) = filter p l.
Proof.
  intros H. induction l as [|x l IH]; [reflexivity|]. cbn [filter].
  assert (IH' : filter p (filter q l) = filter p l)
    by (apply IH; intros y Hy; apply H; right; exact Hy).
  destruct (q x) eqn:Eq; cbn [filter].
  - rewrite IH'. reflexivity.
  - destruct (p x) eqn:Ep; [|exact IH'].
    rewrite (H x (or_introl eq_refl) Ep) in Eq. discriminate Eq.
Qed.

(** X7: the two deletions reach only what the caller owns.  Whatever group
    name and serial number user [owner] asks to delete, every group of
    another owner is still there afterwards, with the same counters and
    the same rows of [files] in the same order. *)
Theorem deletes_spare_other_owners (owner : Z) (name : string) (serial : Z)
    (d : db) (g : group_row) :
  schema_ok d -> In g (groups d) -> g_owner_id g <> owner ->
  let d1 := snd (run (delete_file_txn owner name serial) d) in
  let d2 := snd (run (delete_group_txn owner name) d) in
  In g (groups d1) /\ group_files (g_id g) d1 = group_files (g_id g) d
  /\ In g (groups d2) /\ group_files (g_id g) d2 = group_files (g_id g) d.
Proof.
  intros Hs Hg Ho. cbv zeta. split; [|split].
  - (* one file: the row of g *)
    unfold delete_file_txn. cbn [run]. unfold read.
    destruct (select_file_of owner name serial d) as [[f g0]|] eqn:Esel;
      cbn [run snd]; [|exact Hg].
    destruct (select_file_of_spec owner name serial d f g0 Esel)
      as (Hf & Hg0 & Eid & Eo & _).
    pose proof (delete_commit_cases (f_id f) (file_size f) (g_id g0) d) as Hc.
    destruct (delete_commit (f_id f) (file_size f) (g_id g0) d)
      as [[u|e] d'];
      cbn [run snd]; [|rewrite (proj1 Hc); exact Hg].
    destruct Hc as (_ & Hgr & _). rewrite Hgr.
    apply in_map_iff. exists g. split; [|exact Hg].
    unfold sub_stats. destruct (Z.eqb_spec (g_id g) (g_id g0)) as [E|E];
      [|reflexivity].
    exfalso. apply Ho. rewrite (group_by_id d g g0 Hs Hg Hg0 E). exact Eo.
  - (* one file: the files of g *)
    unfold delete_file_txn. cbn [run]. unfold read.
    destruct (select_file_of owner name serial d) as [[f g0]|] eqn:Esel;
      cbn [run snd]; [|reflexivity].
    destruct (select_file_of_spec owner name serial d f g0 Esel)
      as (Hf & Hg0 & Eid & Eo & _).
    pose proof (delete_commit_cases (f_id f) (file_size f) (g_id g0) d) as Hc.
    destruct (delete_commit (f_id f) (file_size f) (g_id g0) d)
      as [[u|e] d'];
      cbn [run snd].
    2:{ unfold group_files. rewrite (proj1 (proj2 Hc)). reflexivity. }
    destruct Hc as (Hfi & _ & _). unfold group_files. rewrite Hfi.
    apply filter_filter_same. intros x Hx Ex.
    apply Z.eqb_eq in Ex.
    destruct (Z.eqb_spec (f_id x) (f_id f)) as [E|E]; [|reflexivity].
    exfalso. apply Ho.
    assert (x = f) by (apply (file_by_id d); assumption). subst x.
    assert (g = g0).
    { apply (group_by_id d); try assumption. rewrite Eid. symmetry. exact Ex. }
    subst g0. exact Eo.
  - rewrite run_delete_group. unfold delete_group. cbn [snd groups].
    assert (Hnot : (g_owner_id g =? owner) && (g_name g =? name)%string
                   = false).
    { destruct (Z.eqb_spec (g_owner_id g) owner) as [E|E];
        [contradiction|reflexivity]. }
    split.
    + apply filter_In. split; [exact Hg|]. rewrite Hnot. reflexivity.
    + unfold group_files. cbn [files].
      apply filter_filter_same. intros x Hx Ex. apply Z.eqb_eq in Ex.
      destruct (mem_z (f_group_id x) _) eqn:Em; [|reflexivity].
      exfalso. apply mem_z_In in Em. apply in_map_iff in Em.
      destruct Em as (g0 & Eid & Hin). apply filter_In in Hin.
      destruct Hin as [Hg0 Hd].
      assert (g0 = g).
      { apply (group_by_id d); try assumption. rewrite Eid. exact Ex. }
      subst g0. rewrite Hnot in Hd. discriminate Hd.
Qed.

Lemma deletes_spare_other_owners_witness :
  schema_ok db_linked
  /\ In (mkGroup 1 "Movies" 1 2 5000000) (groups db_linked)
  /\ In (mkGroup 1 "Movies" 1 2 5000000)
        (groups (snd (run (delete_group_txn 2 "Movies") db_linked)))
  /\ group_files 1 (snd (run (delete_file_txn 2 "Movies" 1) db_linked))
     = group_files 1 db_linked.
Proof.
  assert (H1 : schema_ok db_linked) by exact db_linked_schema.
  assert (H2 : In (mkGroup 1 "Movies" 1 2 5000000) (groups db_linked))
    by (left; reflexivity).
  assert (H3 : g_owner_id (mkGroup 1 "Movies" 1 2 5000000) <> 2)
    by discriminate.
  pose proof (deletes_spare_other_owners 2 "Movies" 1 db_linked
                (mkGroup 1 "Movies" 1 2 5000000) H1 H2 H3)
    as (_ & R2 & R3 & _).
  split; [exact H1|]. split; [exact H2|]. split; [exact R3|exact R2].
Defined.

(** ** A link that was issued resolves to its target *)

Lemma create_link_issued (urandom : nat -> list Z) (fid gid : option Z)
    (lt : ltype) (owner : Z) (code : string) (d' : db) :
  forall (free n : nat) (d : db),
    run (_create_link free urandom n fid gid lt owner) d = (OIssued code, d') ->
    exists id,
      file_links d' = file_links d ++ [mkLink id code fid gid lt owner 0 true]
      /\ groups d' = groups d /\ files d' = files d.
Proof.
  induction free as [|free IH]; intros n d; cbn [_create_link run];
    [discriminate|].
  unfold insert_link, nextval.
  destruct (links_seq d <=? INT4_MAX); [|cbn [run]; discriminate].
  destruct (existsb _ (file_links d)).
  { intros H. apply IH in H. destruct H as (id & H1 & H2 & H3).
    exists id. repeat split; assumption. }
  destruct (match fid with
            | Some f => negb (existsb (fun r => f_id r =? f) (files d))
            | None => false
            end); [cbn [run]; discriminate|].
  destruct (match gid with
            | Some g => negb (existsb (fun r => g_id r =? g) (groups d))
            | None => false
            end); [cbn [run]; discriminate|].
  cbn [run]. intros H. inversion H; subst.
  exists (links_seq d). repeat split.
Qed.

(** X8: a file link that [getlink_handler] issues is a link to a file of
    the caller's own group of that name, it belongs to the caller, is
    active and starts at 0 clicks; groups and files are untouched.  Put to
    [_handle_shared_link] right away, its code delivers that very file and
    the link then counts one click. *)
Theorem issued_link_resolves (free : nat) (urandom : nat -> list Z) (n : nat)
    (user : Z) (gname : string) (serial : Z) (d d' : db) (code : string) :
  schema_ok d ->
  run (getlink_handler free urandom n user gname serial) d
  = (OIssued code, d') ->
  exists f g id,
    In f (files d) /\ In g (groups d) /\ g_id g = f_group_id f
    /\ g_owner_id g = user /\ g_name g = gname /\ serial_number f = serial
    /\ groups d' = groups d /\ files d' = files d
    /\ file_links d'
       = file_links d ++ [mkLink id code (Some (f_id f)) None LinkFile user 0 true]
    /\ fst (run (resolve_link code) d') = OFile f gname
    /\ file_links (snd (run (resolve_link code) d'))
       = file_links d ++ [mkLink id code (Some (f_id f)) None LinkFile user 1 true].
Proof.
  intros Hs Hrun.
  assert (Hs' : schema_ok d').
  { pose proof (handler_schema (OpGetLink free urandom n user gname serial) d Hs)
      as H. cbn [handler] in H. rewrite Hrun in H. exact H. }
  unfold getlink_handler in Hrun. cbn [run] in Hrun. unfold read in Hrun.
  destruct (select_file_of user gname serial d) as [[f g]|] eqn:Esel;
    cbn [run] in Hrun; [|discriminate].
  destruct (select_file_of_spec user gname serial d f g Esel)
    as (Hf & Hg & Eid & Eo & En & Ese).
  destruct (create_link_issued urandom (Some (f_id f)) None LinkFile user code
              d' free n d Hrun) as (id & Hl & Hgr & Hfi).
  set (l := mkLink id code (Some (f_id f)) None LinkFile user 0 true) in *.
  assert (Hin : In l (file_links d')).
  { rewrite Hl. apply in_or_app. right. left. reflexivity. }
  destruct (resolve_found code d' l Hs' Hin eq_refl eq_refl eq_refl)
    as (r & Hres & Hdesc).
  exists f, g, id.
  repeat (split; [assumption|]).
  rewrite Hres. cbn [fst snd file_links].
  split.
  - unfold descriptor_of in Hdesc. cbn [link_type l_file_id l] in Hdesc.
    destruct Hdesc as (f' & g' & Hf' & Ef' & Hg' & Eg' & ->).
    rewrite Hfi in Hf'. rewrite Hgr in Hg'.
    assert (f' = f) by (apply (file_by_id d); assumption). subst f'.
    assert (g' = g).
    { apply (group_by_id d); try assumption. rewrite Eg'. symmetry. exact Eid. }
    subst g'. rewrite En. reflexivity.
  - rewrite Hl, map_app. cbn [map]. f_equal.
    + transitivity (map (fun x : link_row => x) (file_links d));
        [|apply map_id].
      apply map_ext_in. intros l' Hl'.
      assert (Hin' : In l' (file_links d'))
        by (rewrite Hl; apply in_or_app; left; exact Hl').
      destruct (click_only_one d' l l' Hs' Hin Hin') as [E|E]; [|exact E].
      exfalso. subst l'.
      pose proof (links_pk Hs') as Hnd. rewrite Hl, map_app in Hnd.
      apply NoDup_remove_2 in Hnd. cbn [map app] in Hnd.
      rewrite app_nil_r in Hnd. apply Hnd.
      apply (in_map l_id) in Hl'. exact Hl'.
    + unfold click, l. cbn [l_id]. rewrite Z.eqb_refl. reflexivity.
Qed.

Lemma issued_link_resolves_witness :
  schema_ok db_two_files
  /\ run (getlink_handler POOL_MAX_SIZE (fun _ => random_a) 0 1 "Movies" 2)
         db_two_files
     = (OIssued (generate_id random_a),
        snd (run (getlink_handler POOL_MAX_SIZE (fun _ => random_a) 0 1
                                  "Movies" 2) db_two_files))
  /\ exists f,
       serial_number f = 2
       /\ fst (run (resolve_link (generate_id random_a))
                 (snd (run (getlink_handler POOL_MAX_SIZE (fun _ => random_a) 0
                                            1 "Movies" 2) db_two_files)))
          = OFile f "Movies".
Proof.
  assert (H1 : schema_ok db_two_files).
  { apply (proj1 (run_ops_invariants [OpUpload 1 meta_a; OpUpload 1 meta_b]
                    db_movies db_movies_schema db_movies_aggregates)). }
  assert (H2 : run (getlink_handler POOL_MAX_SIZE (fun _ => random_a) 0 1
                                    "Movies" 2) db_two_files
               = (OIssued (generate_id random_a),
                  snd (run (getlink_handler POOL_MAX_SIZE (fun _ => random_a) 0
                                            1 "Movies" 2) db_two_files)))
    by (vm_compute; reflexivity).
  destruct (issued_link_resolves POOL_MAX_SIZE (fun _ => random_a) 0 1
              "Movies" 2 db_two_files _ (generate_id random_a) H1 H2)
    as (f & g & id & _ & _ & _ & _ & _ & R1 & _ & _ & _ & R2 & _).
  split; [exact H1|]. split; [exact H2|].
  exists f. split; [exact R1|exact R2].
Defined.

(** ** Numbers and fields in callback data *)

Lemma small_digit (v : Z) :
  0 <= v < 10 -> exists n, v = Z.of_nat n /\ (n < 10)%nat.
Proof. intros H. exists (Z.to_nat v). lia. Qed.

Lemma digit_val_char (v : Z) :
  0 <= v < 10 -> digit_val (digit_char v) = Some v.
Proof.
  intros H. destruct (small_digit v H) as (n & -> & Hn).
  do 10 (destruct n as [|n]; [reflexivity|]). lia.
Qed.

Lemma digit_char_plain (v : Z) (c : ascii) :
  0 <= v < 10 -> digit_val c = None -> Ascii.eqb (digit_char v) c = false.
Proof.
  intros H Hc. destruct (Ascii.eqb_spec (digit_char v) c) as [E|E];
    [|reflexivity].
  rewrite <- E, (digit_val_char v H) in Hc. discriminate Hc.
Qed.

Lemma digit_not_space (c : ascii) (v : Z) :
  digit_val c = Some v -> is_c_space c = false.
Proof.
  unfold digit_val, is_c_space. cbv zeta.
  destruct (48 <=? nat_of_ascii c)%nat eqn:E1; [|discriminate].
  destruct (nat_of_ascii c <=? 57)%nat eqn:E2; [|discriminate].
  intros _. apply Nat.leb_le in E1.
  assert (H1 : (nat_of_ascii c <=? 13)%nat = false) by (apply Nat.leb_gt; lia).
  assert (H2 : (nat_of_ascii c =? 32)%nat = false) by (apply Nat.eqb_neq; lia).
  rewrite H1, H2, !andb_false_r. reflexivity.
Qed.

Lemma digit_val_range (c : ascii) (v : Z) :
  digit_val c = Some v -> 0 <= v < 10.
Proof.
  unfold digit_val. cbv zeta.
  destruct (48 <=? nat_of_ascii c)%nat eqn:E1; [|discriminate].
  destruct (nat_of_ascii c <=? 57)%nat eqn:E2; [|discriminate].
  cbn [andb]. intros H. inversion H; subst.
  apply Nat.leb_le in E1. apply Nat.leb_le in E2. lia.
Qed.

Lemma le_digits_range (fuel : nat) :
  forall n, 0 <= n -> Forall (fun v => 0 <= v < 10) (le_digits fuel n).
Proof.
  induction fuel as [|fuel IH]; intros n Hn; cbn [le_digits];
    constructor.
  - apply Z.mod_pos_bound. lia.
  - destruct (n <? 10); [constructor|].
    apply IH. apply Z.div_pos; lia.
Qed.

Lemma le_digits_value (fuel : nat) :
  forall n, 0 <= n < 10 ^ Z.of_nat fuel ->
            fold_right (fun v a => a * 10 + v) 0 (le_digits fuel n) = n.
Proof.
  induction fuel as [|fuel IH]; intros n Hn; cbn [le_digits fold_right].
  - cbn in Hn. lia.
  - destruct (Z.ltb_spec n 10) as [Hs|Hs]; cbn [fold_right].
    + rewrite Z.mod_small; lia.
    + rewrite IH.
      * pose proof (Z.div_mod n 10 ltac:(lia)). lia.
      * split; [apply Z.div_pos; lia|].
        apply Z.div_lt_upper_bound; [lia|].
        rewrite Nat2Z.inj_succ, Z.pow_succ_r in Hn; lia.
Qed.

Lemma enough_digits (n : Z) :
  0 <= n -> n < 10 ^ Z.of_nat (S (Z.to_nat (Z.log2 n))).
Proof.
  intros Hn. pose proof (Z.log2_nonneg n) as Hl.
  rewrite Nat2Z.inj_succ, Z2Nat.id by exact Hl.
  destruct (Z.eq_dec n 0) as [->|Hz]; [cbn; lia|].
  pose proof (Z.log2_spec n ltac:(lia)) as [_ Hlt].
  apply (Z.lt_le_trans _ _ _ Hlt).
  apply Z.pow_le_mono_l. lia.
Qed.

Lemma parse_digits_chars (ds : list Z) :
  Forall (fun v => 0 <= v < 10) ds ->
  forall acc b, ds <> [] \/ b = true ->
    parse_digits acc b (map digit_char ds)
    = Some (fold_left (fun a v => a * 10 + v) ds acc).
Proof.
  induction 1 as [|v ds Hv Hds IH]; intros acc b Hb; cbn [map parse_digits].
  - destruct Hb as [Hb|Hb]; [contradiction Hb; reflexivity|].
    rewrite Hb. reflexivity.
  - rewrite (digit_char_plain v "_"%char Hv eq_refl), (digit_val_char v Hv).
    cbn [fold_left]. apply IH. right. reflexivity.
Qed.

Lemma digits_spec (n : Z) :
  0 <= n ->
  exists ds, digits n = map digit_char ds /\ ds <> []
             /\ Forall (fun v => 0 <= v < 10) ds
             /\ fold_left (fun a v => a * 10 + v) ds 0 = n.
Proof.
  intros Hn. unfold digits.
  set (fuel := Z.to_nat (Z.log2 n)).
  exists (rev (le_digits (S fuel) n)).
  split; [reflexivity|]. split.
  { cbn [le_digits]. intros E. apply (f_equal (@rev Z)) in E.
    rewrite rev_involutive in E. discriminate E. }
  split.
  { apply Forall_rev. apply le_digits_range. exact Hn. }
  pose proof (fold_left_rev_right (fun v a => a * 10 + v)
                (rev (le_digits (S fuel) n)) 0) as H.
  rewrite rev_involutive in H. rewrite <- H.
  apply le_digits_value. split; [exact Hn|apply enough_digits; exact Hn].
Qed.

Lemma lstrip_id (l : list ascii) :
  Forall (fun c => is_c_space c = false) l -> lstrip_c l = l.
Proof.
  intros H. destruct H as [|c l Hc Hl]; [reflexivity|].
  cbn [lstrip_c]. rewrite Hc. reflexivity.
Qed.

Lemma strip_chars_id (l : list ascii) :
  Forall (fun c => is_c_space c = false) l ->
  rev (lstrip_c (rev (lstrip_c l))) = l.
Proof.
  intros H. rewrite (lstrip_id l H), (lstrip_id (rev l)).
  - apply rev_involutive.
  - apply Forall_rev. exact H.
Qed.

Lemma digit_chars_not_space (ds : list Z) :
  Forall (fun v => 0 <= v < 10) ds ->
  Forall (fun c => is_c_space c = false) (map digit_char ds).
Proof.
  induction 1 as [|v ds Hv Hds IH]; cbn [map]; constructor; [|exact IH].
  apply (digit_not_space _ v). apply digit_val_char. exact Hv.
Qed.

Lemma py_int_of_chars (l : list ascii) :
  Forall (fun c => is_c_space c = false) l ->
  py_int (string_of_list_ascii l)
  = match l with
    | [] => None
    | c :: r =>
      if Ascii.eqb c "-"%char then option_map Z.opp (parse_digits 0 false r)
      else if Ascii.eqb c "+"%char then parse_digits 0 false r
      else parse_digits 0 false (c :: r)
    end.
Proof.
  intros H. unfold py_int.
  rewrite list_ascii_of_string_of_list_ascii, (strip_chars_id l H).
  reflexivity.
Qed.

Lemma py_int_str (z : Z) : py_int (py_str z) = Some z.
Proof.
  unfold py_str.
  destruct (Z.ltb_spec z 0) as [Hz|Hz].
  - destruct (digits_spec (- z) ltac:(lia)) as (ds & E & Hne & Hr & Hv).
    rewrite E, py_int_of_chars.
    + rewrite Ascii.eqb_refl,
              (parse_digits_chars ds Hr 0 false (or_introl Hne)), Hv.
      unfold option_map. f_equal. lia.
    + constructor; [reflexivity|apply digit_chars_not_space; exact Hr].
  - destruct (digits_spec z Hz) as (ds & E & Hne & Hr & Hv).
    rewrite E, py_int_of_chars by (apply digit_chars_not_space; exact Hr).
    destruct ds as [|v ds]; [contradiction Hne; reflexivity|].
    inversion Hr as [|? ? Hv0 Hr']; subst.
    rewrite <- (parse_digits_chars (v :: ds) Hr 0 false (or_introl Hne)).
    unfold map at 1. fold (map digit_char ds).
    rewrite (digit_char_plain v "-"%char Hv0 eq_refl),
            (digit_char_plain v "+"%char Hv0 eq_refl).
    reflexivity.
Qed.

Lemma parse_digits_all (l : list ascii) :
  Forall (fun c => digit_val c <> None) l ->
  forall acc b, l <> [] \/ b = true -> 0 <= acc ->
    exists v, parse_digits acc b l = Some v /\ 0 <= v.
Proof.
  induction 1 as [|c l Hc Hl IH]; intros acc b Hb Ha; cbn [parse_digits].
  - destruct Hb as [Hb|Hb]; [contradiction Hb; reflexivity|].
    rewrite Hb. exists acc. split; [reflexivity|exact Ha].
  - destruct (Ascii.eqb_spec c "_"%char) as [E|E].
    { subst c. contradiction Hc. reflexivity. }
    destruct (digit_val c) as [v|] eqn:Ev; [|contradiction Hc; reflexivity].
    pose proof (digit_val_range c v Ev) as Hv.
    apply IH; [right; reflexivity|lia].
Qed.

Lemma isdigit_chars (s : string) :
  isdigit s = true ->
  list_ascii_of_string s <> []
  /\ Forall (fun c => digit_val c <> None) (list_ascii_of_string s).
Proof.
  unfold isdigit. destruct (list_ascii_of_string s) as [|c r];
    [discriminate|].
  intros H. split; [discriminate|].
  apply Forall_forall. intros x Hx.
  rewrite forallb_forall in H. specialize (H x Hx).
  destruct (digit_val x); [discriminate|discriminate H].
Qed.

Lemma py_int_isdigit (s : string) :
  isdigit s = true -> exists v, py_int s = Some v /\ 0 <= v.
Proof.
  intros H. destruct (isdigit_chars s H) as [Hne Hall].
  unfold py_int. rewrite strip_chars_id.
  2:{ apply Forall_forall. intros c Hc.
      rewrite Forall_forall in Hall. specialize (Hall c Hc).
      destruct (digit_val c) as [v|] eqn:Ev; [|contradiction Hall; reflexivity].
      exact (digit_not_space c v Ev). }
  destruct (list_ascii_of_string s) as [|c r]; [contradiction Hne; reflexivity|].
  inversion Hall as [|? ? Hc Hr]; subst.
  destruct (Ascii.eqb_spec c "-"%char) as [E|E];
    [subst c; contradiction Hc; reflexivity|].
  destruct (Ascii.eqb_spec c "+"%char) as [E'|E'];
    [subst c; contradiction Hc; reflexivity|].
  apply parse_digits_all; [exact Hall|left; discriminate|lia].
Qed.

Lemma split_on_plain (sep : ascii) (l : list ascii) :
  existsb (Ascii.eqb sep) l = false -> split_on sep l = [l].
Proof.
  induction l as [|c l IH]; cbn [existsb split_on]; [reflexivity|].
  intros H. apply orb_false_iff in H. destruct H as [Hc Hl].
  rewrite Ascii.eqb_sym, Hc, (IH Hl). reflexivity.
Qed.

Lemma split_on_field (sep : ascii) (a b : list ascii) :
  existsb (Ascii.eqb sep) a = false ->
  split_on sep (a ++ sep :: b) = a :: split_on sep b.
Proof.
  induction a as [|c a IH]; cbn [existsb app split_on].
  - intros _. rewrite Ascii.eqb_refl. reflexivity.
  - intros H. apply orb_false_iff in H. destruct H as [Hc Ha].
    rewrite Ascii.eqb_sym, Hc, (IH Ha). reflexivity.
Qed.

Lemma py_split_plain (sep : ascii) (s : string) :
  has_char sep s = false -> py_split sep s = [s].
Proof.
  intros H. unfold py_split. rewrite (split_on_plain sep _ H).
  cbn [map]. rewrite string_of_list_ascii_of_string. reflexivity.
Qed.

Lemma py_split_field (sep : ascii) (a b : string) :
  has_char sep a = false ->
  py_split sep (a ++ String sep b) = a :: py_split sep b.
Proof.
  intros H. unfold py_split.
  rewrite list_ascii_of_string_app. cbn [list_ascii_of_string].
  rewrite (split_on_field sep _ _ H). cbn [map].
  rewrite string_of_list_ascii_of_string. reflexivity.
Qed.

Lemma py_str_plain (z : Z) (c : ascii) :
  digit_val c = None -> Ascii.eqb c "-"%char = false ->
  has_char c (py_str z) = false.
Proof.
  intros Hc Hm. unfold has_char, py_str.
  rewrite list_ascii_of_string_of_list_ascii.
  assert (Hd : forall ds, Forall (fun v => 0 <= v < 10) ds ->
                 existsb (Ascii.eqb c) (map digit_char ds) = false).
  { induction 1 as [|v ds Hv Hds IH]; cbn [map existsb]; [reflexivity|].
    rewrite Ascii.eqb_sym, (digit_char_plain v c Hv Hc), IH. reflexivity. }
  destruct (Z.ltb_spec z 0) as [Hz|Hz].
  - destruct (digits_spec (- z) ltac:(lia)) as (ds & -> & _ & Hr & _).
    cbn [existsb]. rewrite Hm, (Hd ds Hr). reflexivity.
  - destruct (digits_spec z Hz) as (ds & -> & _ & Hr & _).
    exact (Hd ds Hr).
Qed.

(** ** Keyboards and what their buttons send back *)

Ltac closed_tests :=
  repeat match goal with
         | |- context [String.eqb ?a ?b] =>
             let v := eval vm_compute in (String.eqb a b) in
             change (String.eqb a b) with v
         end.

Lemma find_app_first {A} (p : A -> bool) (l1 l2 : list A) :
  find p (l1 ++ l2)
  = match find p l1 with Some x => Some x | None => find p l2 end.
Proof.
  induction l1 as [|x l1 IH]; cbn [app find]; [reflexivity|].
  destruct (p x); [reflexivity|exact IH].
Qed.

Lemma concat_rows {A B} (f : A -> B) (l : list A) :
  List.concat (map (fun x => [f x]) l) = map f l.
Proof.
  induction l as [|x l IH]; cbn [map List.concat app]; [reflexivity|].
  rewrite IH. reflexivity.
Qed.

Lemma concat_nav_row (nav : list button) : List.concat (nav_row nav) = nav.
Proof. destruct nav; cbn; [reflexivity|rewrite app_nil_r; reflexivity]. Qed.

Lemma keyboard_buttons (user_id : Z) (action : string) (offset : Z) (d : db)
    (kb : keyboard) :
  _get_groups_keyboard user_id action offset d = Some kb ->
  exists pg,
    select_groups_page user_id offset d = Some pg
    /\ List.concat kb
       = map (group_button action) pg
         ++ nav_buttons "list_groups:" offset
              (Z.of_nat (List.length (owned_groups user_id d)))
         ++ [mkButton LblCreateGroup "new_group"].
Proof.
  unfold _get_groups_keyboard.
  destruct (select_groups_page user_id offset d) as [pg|]; [|discriminate].
  intros H. inversion H; subst. exists pg. split; [reflexivity|].
  rewrite !concat_app, concat_rows, concat_nav_row. reflexivity.
Qed.

Lemma shown_group_buttons (action : string) (pg : list group_row)
    (rest : list button) :
  (forall b, In b rest -> match btn_label b with
                          | LblGroup _ _ => False
                          | _ => True
                          end) ->
  flat_map (fun b => match btn_label b with
                     | LblGroup name n => [(name, n)]
                     | _ => []
                     end)
           (map (group_button action) pg ++ rest)
  = map group_line pg.
Proof.
  intros Hrest. rewrite flat_map_app.
  assert (E1 : flat_map (fun b => match btn_label b with
                                  | LblGroup name n => [(name, n)]
                                  | _ => []
                                  end) rest = []).
  { induction rest as [|b rest IH]; [reflexivity|]. cbn [flat_map].
    pose proof (Hrest b (or_introl eq_refl)) as Hb.
    rewrite IH by (intros x Hx; apply Hrest; right; exact Hx).
    destruct (btn_label b); try reflexivity. contradiction. }
  rewrite E1, app_nil_r.
  induction pg as [|g pg IH]; [reflexivity|].
  cbn [map flat_map group_button btn_label app]. rewrite IH. reflexivity.
Qed.

Lemma nav_buttons_labels (prefix : string) (offset total : Z) (b : button) :
  In b (nav_buttons prefix offset total) ->
  (btn_label b = LblBack
   /\ callback_data b
      = (prefix ++ py_str (offset - Z.of_nat PAGINATION_LIMIT))%string
   /\ offset > 0)
  \/ (btn_label b = LblNext
      /\ callback_data b
         = (prefix ++ py_str (offset + Z.of_nat PAGINATION_LIMIT))%string
      /\ total > offset + Z.of_nat PAGINATION_LIMIT).
Proof.
  unfold nav_buttons. intros H. apply in_app_or in H.
  destruct H as [H|H].
  - destruct (Z.gtb_spec offset 0) as [Hc|Hc]; [|contradiction H].
    destruct H as [<-|[]]. left. repeat split. lia.
  - destruct (Z.gtb_spec total (offset + Z.of_nat PAGINATION_LIMIT))
      as [Hc|Hc]; [|contradiction H].
    destruct H as [<-|[]]. right. repeat split. lia.
Qed.

Lemma nav_buttons_next (prefix : string) (offset total : Z) :
  option_map callback_data (find is_next (nav_buttons prefix offset total))
  = if total >? offset + Z.of_nat PAGINATION_LIMIT
    then Some (prefix ++ py_str (offset + Z.of_nat PAGINATION_LIMIT))%string
    else None.
Proof.
  unfold nav_buttons.
  destruct (offset >? 0);
    destruct (total >? offset + Z.of_nat PAGINATION_LIMIT); reflexivity.
Qed.

Lemma keyboard_view (user_id : Z) (action : string) (offset : Z) (d : db)
    (kb : keyboard) :
  _get_groups_keyboard user_id action offset d = Some kb ->
  exists pg,
    select_groups_page user_id offset d = Some pg
    /\ shown_groups kb = map group_line pg
    /\ next_data kb
       = if Z.of_nat (List.length (owned_groups user_id d))
            >? offset + Z.of_nat PAGINATION_LIMIT
         then Some ("list_groups:"
                    ++ py_str (offset + Z.of_nat PAGINATION_LIMIT))%string
         else None.
Proof.
  intros H. destruct (keyboard_buttons user_id action offset d kb H)
    as (pg & Hpg & Hc).
  exists pg. split; [exact Hpg|]. unfold shown_groups, next_data.
  rewrite Hc. split.
  - apply shown_group_buttons. intros b Hb. apply in_app_or in Hb.
    destruct Hb as [Hb|[<-|[]]]; [|exact I].
    destruct (nav_buttons_labels _ _ _ b Hb) as [(E & _)|(E & _)];
      rewrite E; exact I.
  - rewrite find_app_first.
    assert (E : find is_next (map (group_button action) pg) = None).
    { apply find_all_false. intros b Hb. apply in_map_iff in Hb.
      destruct Hb as (g & <- & _). reflexivity. }
    rewrite E, find_app_first.
    pose proof (nav_buttons_next "list_groups:" offset
                  (Z.of_nat (List.length (owned_groups user_id d)))) as Hn.
    destruct (find is_next (nav_buttons "list_groups:" offset _)) as [b|];
      cbn [option_map] in *; [exact Hn|].
    cbn [find is_next btn_label option_map]. exact Hn.
Qed.

Lemma split_number (z : Z) : py_split ":"%char (py_str z) = [py_str z].
Proof. apply py_split_plain. apply py_str_plain; reflexivity. Qed.

Lemma split_nonempty (s : string) :
  py_split ":"%char s = first_field s :: tl (py_split ":"%char s).
Proof.
  unfold first_field, py_split.
  destruct (list_ascii_of_string s) as [|c l]; [reflexivity|].
  cbn [split_on]. destruct (Ascii.eqb c ":"%char); [reflexivity|].
  destruct (split_on ":"%char l); reflexivity.
Qed.

Lemma press_list_groups (remote : nat -> bool) (k : nat) (user_id offset : Z)
    (ud : user_data) (d : db) :
  callback_handler true remote k user_id ("list_groups:" ++ py_str offset)
                   ud d
  = match _get_groups_keyboard user_id "view_group" offset d with
    | Some kb => (CbGroups kb, d, ud, k)
    | None => (CbUnexpectedError, d, ud, k)
    end.
Proof.
  unfold callback_handler. cbv zeta. cbn [negb].
  change ("list_groups:" ++ py_str offset)%string
    with ("list_groups" ++ String ":"%char (py_str offset))%string.
  rewrite (py_split_field ":"%char "list_groups" (py_str offset) eq_refl),
          split_number.
  cbn [nth]. closed_tests. cbv iota.
  unfold int_field. cbn [nth_error]. rewrite py_int_str. reflexivity.
Qed.

Lemma firstn_more {A} (a b : nat) (l : list A) :
  firstn (a + b) l = firstn a l ++ firstn b (skipn a l).
Proof.
  revert l. induction a as [|a IH]; intros l; [reflexivity|].
  destruct l as [|x l]; cbn [Nat.add firstn skipn app].
  - rewrite firstn_nil. reflexivity.
  - rewrite IH. reflexivity.
Qed.

Lemma skipn_more {A} (a b : nat) (l : list A) :
  skipn b (skipn a l) = skipn (a + b) l.
Proof.
  revert l. induction a as [|a IH]; intros l; [reflexivity|].
  destruct l as [|x l]; cbn [Nat.add skipn]; [apply skipn_nil|apply IH].
Qed.

Lemma page_length {A} (offset : Z) (rows pg : list A) :
  page offset rows = Some pg ->
  (List.length pg <= PAGINATION_LIMIT)%nat
  /\ 0 <= offset
  /\ pg = firstn PAGINATION_LIMIT (skipn (Z.to_nat offset) rows).
Proof.
  unfold page. destruct (Z.ltb_spec offset 0) as [Hn|Hn];
    [discriminate|].
  destruct (negb (in_int8 offset)); [discriminate|]. cbn [orb].
  intros H.
  assert (E : pg = firstn PAGINATION_LIMIT (skipn (Z.to_nat offset) rows))
    by congruence.
  split; [rewrite E; apply firstn_le_length|]. split; [exact Hn|exact E].
Qed.

Lemma groups_page_at (user_id : Z) (o : nat) (d : db) (pg : list group_row) :
  select_groups_page user_id (Z.of_nat o) d = Some pg ->
  pg = firstn PAGINATION_LIMIT
              (skipn o (sort_by group_name_leb (owned_groups user_id d))).
Proof.
  unfold select_groups_page, page.
  destruct ((Z.of_nat o <? 0) || negb (in_int8 (Z.of_nat o)));
    [discriminate|].
  intros H. injection H as <-. rewrite Nat2Z.id. reflexivity.
Qed.

Lemma browse_from (remote : nat -> bool) (k : nat) (user_id : Z)
    (ud : user_data) (d : db) :
  Z.of_nat (List.length (owned_groups user_id d)) <= INT8_MAX ->
  forall (presses o : nat) (kb : keyboard),
    (o <= List.length (owned_groups user_id d))%nat ->
    _get_groups_keyboard user_id "view_group" (Z.of_nat o) d = Some kb ->
    browse_groups presses remote k user_id ud d kb
    = map group_line
        (firstn (PAGINATION_LIMIT * S presses)
                (skipn o (sort_by group_name_leb (owned_groups user_id d)))).
Proof.
  intros Hmax. set (l := sort_by group_name_leb (owned_groups user_id d)).
  assert (Hlen : List.length l = List.length (owned_groups user_id d)).
  { apply Permutation_length. apply sort_by_perm. }
  induction presses as [|n IH]; intros o kb Ho Hkb;
    destruct (keyboard_view user_id "view_group" (Z.of_nat o) d kb Hkb)
      as (pg & Hpg & Hshown & Hnext);
    apply groups_page_at in Hpg; fold l in Hpg; symmetry in Hpg;
    rename Hpg into Epg;
    cbn [browse_groups]; rewrite Hshown.
  - rewrite app_nil_r, Nat.mul_1_r, Epg. reflexivity.
  - rewrite Hnext.
    destruct (Z.gtb_spec (Z.of_nat (List.length (owned_groups user_id d)))
                (Z.of_nat o + Z.of_nat PAGINATION_LIMIT)) as [Hgt|Hle].
    + rewrite press_list_groups.
      replace (Z.of_nat o + Z.of_nat PAGINATION_LIMIT)
        with (Z.of_nat (o + PAGINATION_LIMIT)) by lia.
      assert (Hsome : exists kb',
                _get_groups_keyboard user_id "view_group"
                  (Z.of_nat (o + PAGINATION_LIMIT)) d = Some kb').
      { unfold _get_groups_keyboard, select_groups_page, page.
        assert (E1 : (Z.of_nat (o + PAGINATION_LIMIT) <? 0) = false)
          by (apply Z.ltb_ge; lia).
        assert (E2 : in_int8 (Z.of_nat (o + PAGINATION_LIMIT)) = true).
        { unfold in_int8. apply andb_true_iff.
          split; apply Z.leb_le; unfold INT8_MIN, INT8_MAX in *; lia. }
        rewrite E1, E2. cbn [orb negb]. eexists. reflexivity. }
      destruct Hsome as [kb' Hkb']. rewrite Hkb'.
      rewrite (IH (o + PAGINATION_LIMIT)%nat kb' ltac:(lia) Hkb').
      rewrite <- map_app. f_equal.
      rewrite <- Epg, <- skipn_more.
      replace (PAGINATION_LIMIT * S (S n))%nat
        with (PAGINATION_LIMIT + PAGINATION_LIMIT * S n)%nat by lia.
      symmetry. apply firstn_more.
    + rewrite app_nil_r, <- Epg. f_equal.
      assert (Hshort : (List.length (skipn o l) <= PAGINATION_LIMIT)%nat).
      { rewrite length_skipn, Hlen. lia. }
      rewrite !firstn_all2; [reflexivity|lia|exact Hshort].
Qed.

Lemma group_name_leb_total (a b : group_row) :
  group_name_leb a b = true \/ group_name_leb b a = true.
Proof.
  unfold group_name_leb.
  rewrite (String.compare_antisym (g_name a) (g_name b)).
  destruct (String.compare (g_name b) (g_name a)); cbn; auto.
Qed.

Lemma group_name_leb_trans (a b c : group_row) :
  group_name_leb a b = true -> group_name_leb b c = true ->
  group_name_leb a c = true.
Proof.
  unfold group_name_leb.
  destruct (String.compare (g_name a) (g_name b)) eqn:Eab;
    try discriminate;
    destruct (String.compare (g_name b) (g_name c)) eqn:Ebc;
    try discriminate; intros _ _.
  - apply String.compare_eq_iff in Eab. apply String.compare_eq_iff in Ebc.
    rewrite Eab, Ebc, string_compare_refl. reflexivity.
  - apply String.compare_eq_iff in Eab. rewrite Eab, Ebc. reflexivity.
  - apply String.compare_eq_iff in Ebc. rewrite <- Ebc, Eab. reflexivity.
  - rewrite (string_compare_lt_trans _ _ _ Eab Ebc). reflexivity.
Qed.

(** X9: the pages of the groups keyboard cover the groups of the user,
    once each and in the order of their names.  The keyboard of
    [groups_handler] (offset 0) exists; pressing "Next" as long as there is
    one, through [callback_handler] and the data the button carries, shows
    exactly the user's groups sorted by name, each with its counter of
    files; no page shows more than five. *)
Theorem groups_keyboard_pages (remote : nat -> bool) (k : nat) (user_id : Z)
    (ud : user_data) (d : db) :
  Z.of_nat (List.length (owned_groups user_id d)) <= INT8_MAX ->
  let sorted := sort_by group_name_leb (owned_groups user_id d) in
  (exists kb,
     _get_groups_keyboard user_id "view_group" 0 d = Some kb
     /\ browse_groups (List.length sorted) remote k user_id ud d kb
        = map group_line sorted)
  /\ Permutation sorted (owned_groups user_id d)
  /\ StronglySorted (fun a b => group_name_leb a b = true) sorted
  /\ (forall action offset kb,
        _get_groups_keyboard user_id action offset d = Some kb ->
        (List.length (shown_groups kb) <= PAGINATION_LIMIT)%nat).
Proof.
  intros Hmax sorted.
  split; [|split; [apply sort_by_perm|split]].
  - assert (Hsome : exists kb,
              _get_groups_keyboard user_id "view_group" (Z.of_nat 0) d
              = Some kb).
    { unfold _get_groups_keyboard, select_groups_page, page.
      cbn [Z.of_nat Z.ltb Z.compare orb negb in_int8].
      eexists. reflexivity. }
    destruct Hsome as [kb Hkb]. exists kb. split; [exact Hkb|].
    rewrite (browse_from remote k user_id ud d Hmax (List.length sorted) 0 kb
               ltac:(lia) Hkb).
    cbn [skipn]. fold sorted. f_equal. apply firstn_all2.
    unfold PAGINATION_LIMIT. lia.
  - apply sort_by_sorted.
    + exact group_name_leb_total.
    + exact group_name_leb_trans.
  - intros action offset kb Hkb.
    destruct (keyboard_view user_id action offset d kb Hkb)
      as (pg & Hpg & Hshown & _).
    rewrite Hshown, length_map.
    exact (proj1 (page_length offset _ pg Hpg)).
Qed.

Lemma groups_keyboard_pages_witness :
  Z.of_nat (List.length (owned_groups 1 db_shelves)) <= INT8_MAX
  /\ exists kb,
       _get_groups_keyboard 1 "view_group" 0 db_shelves = Some kb
       /\ browse_groups 7 (fun _ => true) 0 1 selected_movies db_shelves kb
          = [("Alpha", 0); ("Beta", 0); ("Delta", 0); ("Epsilon", 0);
             ("Eta", 0); ("Gamma", 0); ("Zeta", 0)]%string.
Proof.
  assert (H : Z.of_nat (List.length (owned_groups 1 db_shelves)) <= INT8_MAX)
    by (vm_compute; discriminate).
  destruct (groups_keyboard_pages (fun _ => true) 0 1 selected_movies
              db_shelves H) as ((kb & H1 & H2) & _).
  split; [exact H|]. exists kb. split; [exact H1|].
  assert (E : List.length (sort_by group_name_leb (owned_groups 1 db_shelves))
              = 7%nat) by (vm_compute; reflexivity).
  rewrite E in H2. rewrite H2. vm_compute. reflexivity.
Defined.

(** ** Selecting a group for upload *)

Lemma callback_groups_only_view (remote : nat -> bool) (k : nat)
    (user_id : Z) (data : string) (ud : user_data) (d : db) (kb : keyboard) :
  fst (fst (fst (callback_handler true remote k user_id data ud d)))
  = CbGroups kb ->
  exists offset, _get_groups_keyboard user_id "view_group" offset d = Some kb.
Proof.
  unfold callback_handler. cbv zeta. cbn [negb].
  set (fields := py_split ":"%char data).
  destruct (nth 0 fields "" =? "new_group")%string; [discriminate|].
  destruct (nth 0 fields "" =? "list_groups")%string.
  { destruct (int_field fields 1) as [offset|]; [|discriminate].
    destruct (_get_groups_keyboard user_id "view_group" offset d) as [kb'|]
      eqn:E; [|discriminate].
    cbn [fst]. intros H. injection H as ->. exists offset. exact E. }
  destruct (nth 0 fields "" =? "view_group")%string.
  { destruct (int_field fields 1); [|discriminate].
    destruct (int_field fields 2); [|discriminate].
    destruct (_send_files_list _ _ d); discriminate. }
  destruct (nth 0 fields "" =? "select_group_upload")%string.
  { destruct (int_field fields 1); [|discriminate].
    destruct (nth_error fields 2); discriminate. }
  destruct (nth 0 fields "" =? "confirm_delete_file")%string.
  { destruct (nth_error fields 1); [|discriminate].
    destruct (int_field fields 2); [|discriminate].
    destruct (_perform_file_delete _ _ _ d) as [[r a] d']. discriminate. }
  destruct (nth 0 fields "" =? "confirm_delete_group")%string.
  { destruct (nth_error fields 1); [|discriminate].
    destruct (_perform_group_delete _ _ _ _ d) as [[[r a] d'] k'].
    discriminate. }
  destruct (nth 0 fields "" =? "cancel_action")%string; [discriminate|].
  destruct (String.prefix "admin_" (nth 0 fields "")); discriminate.
Qed.

Lemma press_select_group (remote : nat -> bool) (k : nat) (user_id : Z)
    (ud : user_data) (d : db) (id : Z) (name : string) :
  callback_handler true remote k user_id
                   ("select_group_upload:" ++ py_str id ++ ":" ++ name) ud d
  = (CbSelected (first_field name) (is_bulk_upload ud), d,
     mkUserData (Some id) (Some (first_field name)) (is_bulk_upload ud)
                (awaiting_group_name ud), k).
Proof.
  unfold callback_handler. cbv zeta. cbn [negb].
  change ("select_group_upload:" ++ py_str id ++ ":" ++ name)%string
    with ("select_group_upload"
          ++ String ":"%char (py_str id ++ String ":"%char name))%string.
  rewrite (py_split_field ":"%char "select_group_upload" _ eq_refl),
          (py_split_field ":"%char (py_str id) name
             (py_str_plain id ":"%char eq_refl eq_refl)),
          (split_nonempty name).
  cbn [nth]. closed_tests. cbv iota.
  unfold int_field. cbn [nth_error]. rewrite py_int_str. reflexivity.
Qed.

Lemma first_field_plain (s : string) :
  has_char ":"%char s = false -> first_field s = s.
Proof.
  intros H. unfold first_field. rewrite (py_split_plain _ _ H). reflexivity.
Qed.

Lemma first_field_cut (p q : string) :
  has_char ":"%char p = false -> first_field (p ++ String ":"%char q) = p.
Proof.
  intros H. unfold first_field. rewrite (py_split_field _ _ _ H). reflexivity.
Qed.

(** X10: what the buttons of the upload keyboard do.  Pressing the button
    of a group always selects that group by its id; the name kept in the
    session for the replies is the group's name up to its first colon, so
    the whole name exactly when it has none.  The keyboard of
    [upload_handler] is the page at offset 0, and no reply of
    [callback_handler] carries a keyboard with a select button: the "Next"
    of the upload keyboard leads to the pages for viewing, so that groups
    after the fifth by name cannot be selected from a keyboard. *)
Theorem upload_selection_buttons (remote : nat -> bool) (k : nat)
    (user_id : Z) (ud : user_data) (d : db) :
  (forall g,
     callback_handler true remote k user_id
                      (callback_data (group_button "select_group_upload" g))
                      ud d
     = (CbSelected (first_field (g_name g)) (is_bulk_upload ud), d,
        mkUserData (Some (g_id g)) (Some (first_field (g_name g)))
                   (is_bulk_upload ud) (awaiting_group_name ud), k)
     /\ (has_char ":"%char (g_name g) = false ->
         first_field (g_name g) = g_name g)
     /\ (forall p q, has_char ":"%char p = false ->
                     g_name g = (p ++ ":" ++ q)%string ->
                     first_field (g_name g) = p))
  /\ (forall bulk,
        exists kb,
          upload_handler true bulk user_id ud d
          = (mkUserData (upload_group_id ud) (upload_group_name ud) bulk
                        (awaiting_group_name ud), Some kb)
          /\ List.concat kb
             = map (group_button "select_group_upload")
                   (firstn PAGINATION_LIMIT
                      (sort_by group_name_leb (owned_groups user_id d)))
               ++ nav_buttons "list_groups:" 0
                    (Z.of_nat (List.length (owned_groups user_id d)))
               ++ [mkButton LblCreateGroup "new_group"])
  /\ (forall data kb b,
        fst (fst (fst (callback_handler true remote k user_id data ud d)))
        = CbGroups kb ->
        In b (List.concat kb) ->
        String.prefix "select_group_upload" (callback_data b) = false).
Proof.
  split; [|split].
  - intros g. split; [|split].
    + unfold group_button. cbn [callback_data]. closed_tests. cbv iota.
      apply press_select_group.
    + apply first_field_plain.
    + intros p q Hp E. rewrite E. apply (first_field_cut p q Hp).
  - intros bulk. unfold upload_handler. cbn [negb].
    assert (Hsome : exists kb,
              _get_groups_keyboard user_id "select_group_upload" 0 d
              = Some kb).
    { unfold _get_groups_keyboard, select_groups_page, page.
      cbn [Z.ltb Z.compare orb negb in_int8]. eexists. reflexivity. }
    destruct Hsome as [kb Hkb]. exists kb. rewrite Hkb.
    split; [reflexivity|].
    destruct (keyboard_buttons user_id _ 0 d kb Hkb) as (pg & Hpg & Hc).
    rewrite Hc. apply (groups_page_at user_id 0 d pg) in Hpg.
    rewrite Hpg. reflexivity.
  - intros data kb b Hcb Hb.
    destruct (callback_groups_only_view remote k user_id data ud d kb Hcb)
      as [offset Hkb].
    destruct (keyboard_buttons user_id _ offset d kb Hkb) as (pg & _ & Hc).
    rewrite Hc in Hb. apply in_app_or in Hb. destruct Hb as [Hb|Hb].
    + apply in_map_iff in Hb. destruct Hb as (g & <- & _). reflexivity.
    + apply in_app_or in Hb. destruct Hb as [Hb|[<-|[]]]; [|reflexivity].
      destruct (nav_buttons_labels _ _ _ b Hb) as [(_ & E & _)|(_ & E & _)];
        rewrite E; reflexivity.
Qed.

(** ** Confirming a deletion *)

Lemma press_confirm_delete_file (remote : nat -> bool) (k : nat)
    (user_id : Z) (ud : user_data) (d : db) (p rest : string) :
  has_char ":"%char p = false ->
  callback_handler true remote k user_id
                   ("confirm_delete_file:" ++ p ++ ":" ++ rest) ud d
  = match py_int (first_field rest) with
    | Some serial =>
      let '(r, asked, d') := _perform_file_delete user_id p serial d in
      (CbDelete r asked, d', ud, k)
    | None => (CbUnexpectedError, d, ud, k)
    end.
Proof.
  intros Hp. unfold callback_handler. cbv zeta. cbn [negb].
  change ("confirm_delete_file:" ++ p ++ ":" ++ rest)%string
    with ("confirm_delete_file"
          ++ String ":"%char (p ++ String ":"%char rest))%string.
  rewrite (py_split_field ":"%char "confirm_delete_file" _ eq_refl),
          (py_split_field ":"%char p rest Hp), (split_nonempty rest).
  cbn [nth]. closed_tests. cbv iota.
  unfold int_field. cbn [nth_error]. reflexivity.
Qed.

Lemma press_confirm_delete_group (remote : nat -> bool) (k : nat)
    (user_id : Z) (ud : user_data) (d : db) (name : string) :
  callback_handler true remote k user_id ("confirm_delete_group:" ++ name)
                   ud d
  = let '(r, asked, d', k') :=
      _perform_group_delete remote k user_id (first_field name) d in
    (CbDelete r asked, d', ud, k').
Proof.
  unfold callback_handler. cbv zeta. cbn [negb].
  change ("confirm_delete_group:" ++ name)%string
    with ("confirm_delete_group" ++ String ":"%char name)%string.
  rewrite (py_split_field ":"%char "confirm_delete_group" _ eq_refl),
          (split_nonempty name).
  cbn [nth]. closed_tests. cbv iota. cbn [nth_error]. reflexivity.
Qed.

(** X11: the confirmation of a deletion, for a group name without a colon
    and a number written in the ASCII digits 0 to 9.  The "Yes" button that
    [deletefile_handler] builds for [GROUP NUMBER] makes [callback_handler]
    run [_perform_file_delete] for this user, this group name and the
    number the digits stand for; the one of [deletegroup_handler] runs
    [_perform_group_delete] for this name.  "Cancel" changes nothing. *)
Theorem delete_confirmation_round_trip (remote : nat -> bool) (k : nat)
    (user_id : Z) (ud : user_data) (d : db)
    (group_name file_serial_str : string) :
  has_char ":"%char group_name = false ->
  is_ascii file_serial_str = true ->
  isdigit file_serial_str = true ->
  exists serial yes yes_group,
    py_int file_serial_str = Some serial /\ 0 <= serial
    /\ deletefile_handler true [group_name; file_serial_str]
       = CmdConfirm [[mkButton LblYesDelete yes;
                      mkButton LblCancel "cancel_action"]]
    /\ callback_handler true remote k user_id yes ud d
       = (let '(r, asked, d') :=
            _perform_file_delete user_id group_name serial d in
          (CbDelete r asked, d', ud, k))
    /\ deletegroup_handler true [group_name]
       = CmdConfirm [[mkButton LblYesDeleteGroup yes_group;
                      mkButton LblCancel "cancel_action"]]
    /\ callback_handler true remote k user_id yes_group ud d
       = (let '(r, asked, d', k') :=
            _perform_group_delete remote k user_id group_name d in
          (CbDelete r asked, d', ud, k'))
    /\ callback_handler true remote k user_id "cancel_action" ud d
       = (CbCanceled, d, ud, k).
Proof.
  (* The second hypothesis keeps the statement to the strings on which
     [isdigit] is [str.isdigit]. *)
  intros Hname _ Hdigits.
  destruct (py_int_isdigit file_serial_str Hdigits) as (serial & Hint & Hpos).
  assert (Hplain : has_char ":"%char file_serial_str = false).
  { unfold has_char. apply existsb_none. intros c Hc.
    destruct (isdigit_chars file_serial_str Hdigits) as [_ Hall].
    rewrite Forall_forall in Hall. specialize (Hall c Hc).
    destruct (Ascii.eqb_spec ":"%char c) as [E|E]; [|reflexivity].
    subst c. contradiction Hall. reflexivity. }
  exists serial, ("confirm_delete_file:" ++ group_name ++ ":"
                  ++ file_serial_str)%string,
         ("confirm_delete_group:" ++ group_name)%string.
  split; [exact Hint|]. split; [exact Hpos|].
  split; [unfold deletefile_handler; cbn [negb]; rewrite Hdigits; reflexivity|].
  split.
  { rewrite (press_confirm_delete_file remote k user_id ud d group_name
               file_serial_str Hname),
            (first_field_plain _ Hplain), Hint. reflexivity. }
  split; [reflexivity|]. split; [|reflexivity].
  rewrite press_confirm_delete_group, (first_field_plain _ Hname).
  reflexivity.
Qed.

Lemma delete_confirmation_round_trip_witness :
  has_char ":"%char "Movies" = false /\ is_ascii "2" = true
  /\ isdigit "2" = true
  /\ callback_handler true (fun _ => true) 0 1 "confirm_delete_file:Movies:2"
                      selected_movies db_two_files
     = (let '(r, asked, d') := _perform_file_delete 1 "Movies" 2 db_two_files in
        (CbDelete r asked, d', selected_movies, 0%nat)).
Proof.
  assert (H1 : has_char ":"%char "Movies" = false) by reflexivity.
  assert (H2 : isdigit "2" = true) by reflexivity.
  assert (H3 : is_ascii "2" = true) by reflexivity.
  destruct (delete_confirmation_round_trip (fun _ => true) 0 1 selected_movies
              db_two_files "Movies" "2" H1 H3 H2)
    as (serial & yes & yes_group & R1 & _ & R2 & R3 & _).
  split; [exact H1|]. split; [exact H3|]. split; [exact H2|].
  assert (E1 : serial = 2) by (vm_compute in R1; congruence).
  assert (E2 : yes = "confirm_delete_file:Movies:2"%string).
  { unfold deletefile_handler in R2. cbn [negb] in R2. rewrite H2 in R2.
    cbn [negb] in R2. injection R2 as R2. symmetry. exact R2. }
  subst serial yes. exact R3.
Defined.

Lemma string_app_assoc (a b c : string) :
  ((a ++ b) ++ c = a ++ (b ++ c))%string.
Proof.
  induction a as [|x a IH]; cbn [String.append]; [reflexivity|].
  rewrite IH. reflexivity.
Qed.

Lemma split_on_cons (sep : ascii) (l : list ascii) :
  exists w ws, split_on sep l = w :: ws.
Proof.
  destruct l as [|c l]; cbn [split_on]; [eexists; eexists; reflexivity|].
  destruct (Ascii.eqb c sep); [eexists; eexists; reflexivity|].
  destruct (split_on sep l); eexists; eexists; reflexivity.
Qed.

Lemma split_on_head_app (sep : ascii) (l rest : list ascii) :
  hd [] (split_on sep (l ++ sep :: rest)) = hd [] (split_on sep l).
Proof.
  induction l as [|c l IH]; cbn [app split_on].
  - rewrite Ascii.eqb_refl. reflexivity.
  - destruct (Ascii.eqb c sep); [reflexivity|].
    destruct (split_on_cons sep l) as (w & ws & E).
    destruct (split_on_cons sep (l ++ sep :: rest)) as (w' & ws' & E').
    rewrite E, E' in *. cbn [hd] in *. rewrite IH. reflexivity.
Qed.

Lemma first_field_hd (s : string) :
  first_field s
  = string_of_list_ascii (hd [] (split_on ":"%char (list_ascii_of_string s))).
Proof.
  unfold first_field, py_split.
  destruct (split_on_cons ":"%char (list_ascii_of_string s)) as (w & ws & E).
  rewrite E. reflexivity.
Qed.

Lemma first_field_app (q rest : string) :
  first_field (q ++ String ":"%char rest) = first_field q.
Proof.
  rewrite !first_field_hd, list_ascii_of_string_app.
  cbn [list_ascii_of_string]. rewrite split_on_head_app. reflexivity.
Qed.

(** X12: the confirmation of a deletion, for a group name with a colon, in
    ASCII after the colon, and a number written in the ASCII digits.
    [callback_handler] cuts the data at every colon, so for a name [p:q] the
    "Yes" button of [deletefile_handler] deletes from the caller's group [p]
    the file whose number [q] starts with (and fails with "unexpected error",
    changing nothing, if that is no number), whatever number was asked for;
    the one of [deletegroup_handler] deletes the caller's group [p].  The
    group [p:q] itself is never the one that is touched. *)
Theorem delete_confirmation_cut_at_colon (remote : nat -> bool) (k : nat)
    (user_id : Z) (ud : user_data) (d : db) (p q file_serial_str : string) :
  has_char ":"%char p = false ->
  is_ascii q = true ->
  is_ascii file_serial_str = true ->
  isdigit file_serial_str = true ->
  exists yes yes_group,
    deletefile_handler true [(p ++ ":" ++ q)%string; file_serial_str]
    = CmdConfirm [[mkButton LblYesDelete yes;
                   mkButton LblCancel "cancel_action"]]
    /\ callback_handler true remote k user_id yes ud d
       = match py_int (first_field q) with
         | Some serial =>
           let '(r, asked, d') := _perform_file_delete user_id p serial d in
           (CbDelete r asked, d', ud, k)
         | None => (CbUnexpectedError, d, ud, k)
         end
    /\ deletegroup_handler true [(p ++ ":" ++ q)%string]
       = CmdConfirm [[mkButton LblYesDeleteGroup yes_group;
                      mkButton LblCancel "cancel_action"]]
    /\ callback_handler true remote k user_id yes_group ud d
       = (let '(r, asked, d', k') :=
            _perform_group_delete remote k user_id p d in
          (CbDelete r asked, d', ud, k')).
Proof.
  (* The hypotheses on [q] and on the number keep the statement to the
     strings on which [py_int] is [int] and [isdigit] is [str.isdigit]. *)
  intros Hp _ _ Hdigits.
  exists ("confirm_delete_file:" ++ (p ++ ":" ++ q) ++ ":"
          ++ file_serial_str)%string,
         ("confirm_delete_group:" ++ (p ++ ":" ++ q))%string.
  split; [unfold deletefile_handler; cbn [negb]; rewrite Hdigits; reflexivity|].
  split.
  { replace ("confirm_delete_file:" ++ (p ++ ":" ++ q) ++ ":"
             ++ file_serial_str)%string
      with ("confirm_delete_file:" ++ p ++ ":"
            ++ (q ++ String ":"%char file_serial_str))%string.
    - rewrite (press_confirm_delete_file remote k user_id ud d p _ Hp).
      rewrite first_field_app. reflexivity.
    - rewrite !string_app_assoc. reflexivity. }
  split; [reflexivity|].
  rewrite press_confirm_delete_group.
  change (p ++ ":" ++ q)%string with (p ++ String ":"%char q)%string.
  rewrite (first_field_cut p q Hp). reflexivity.
Qed.

Lemma delete_confirmation_cut_at_colon_witness :
  has_char ":"%char "Movies" = false /\ is_ascii "2" = true
  /\ is_ascii "1" = true /\ isdigit "1" = true
  /\ map g_name (groups db_colon) = ["Movies"; "Movies:2"]%string
  /\ fst (fst (fst (callback_handler true (fun _ => true) 0 1
                      "confirm_delete_file:Movies:2:1" selected_movies
                      db_colon)))
     = CbDelete (FileDeleted 2 "Movies") [101].
Proof.
  assert (H1 : has_char ":"%char "Movies" = false) by reflexivity.
  assert (H2 : isdigit "1" = true) by reflexivity.
  assert (H3 : is_ascii "2" = true) by reflexivity.
  assert (H4 : is_ascii "1" = true) by reflexivity.
  destruct (delete_confirmation_cut_at_colon (fun _ => true) 0 1
              selected_movies db_colon "Movies" "2" "1" H1 H3 H4 H2)
    as (yes & yes_group & R1 & R2 & _).
  split; [exact H1|]. split; [exact H3|]. split; [exact H4|].
  split; [exact H2|]. split; [reflexivity|].
  assert (E : yes = "confirm_delete_file:Movies:2:1"%string).
  { unfold deletefile_handler in R1. cbn [negb] in R1. rewrite H2 in R1.
    cbn [negb] in R1. injection R1 as R1. symmetry. exact R1. }
  subst yes. rewrite R2. vm_compute. reflexivity.
Defined.

(** ** The list of a group's files *)

Lemma find_by_id (d : db) (g : group_row) :
  schema_ok d -> In g (groups d) ->
  find (fun x => g_id x =? g_id g) (groups d) = Some g.
Proof.
  intros Hs Hg.
  apply (find_the_one g_id (fun x => g_id x =? g_id g) (groups d) g).
  - exact (groups_pk Hs).
  - exact Hg.
  - apply Z.eqb_refl.
  - intros y _ Hy. apply Z.eqb_eq. exact Hy.
Qed.

Lemma skipn_nonempty {A} (n : nat) (l : list A) :
  skipn n l <> [] <-> (n < List.length l)%nat.
Proof.
  split.
  - intros H. destruct (Nat.lt_ge_cases n (List.length l)) as [Hl|Hl];
      [exact Hl|].
    exfalso. apply H. apply skipn_all2. exact Hl.
  - intros Hl E. apply (f_equal (@List.length A)) in E.
    rewrite length_skipn in E. cbn [List.length] in E. lia.
Qed.

(** X13: [_send_files_list] in a store whose counters agree with its rows.
    For a group that exists and an offset that is not negative, the reply
    shows the group's own row and the files of the page in the order of
    their serial numbers, five at most; it says "empty" exactly when the
    group has no file and the offset is 0; and it offers "Next" exactly
    when files are left after this page.  (The button goes by the counter
    [total_files], not by the rows.) *)
Theorem files_list_pages (gid offset : Z) (d : db) (g : group_row) :
  schema_ok d -> aggregates_ok d -> In g (groups d) -> g_id g = gid ->
  0 <= offset -> in_int8 offset = true -> in_int4 gid = true ->
  let sorted := select_files_ordered (Some gid) d in
  let rows := firstn PAGINATION_LIMIT (skipn (Z.to_nat offset) sorted) in
  Permutation sorted (group_files gid d)
  /\ StronglySorted (fun a b => serial_number a <= serial_number b) sorted
  /\ ((group_files gid d = [] /\ offset = 0) ->
      _send_files_list gid offset d
      = Some (FilesEmpty g [[mkButton LblBackToGroups "list_groups:0"]]))
  /\ (~ (group_files gid d = [] /\ offset = 0) ->
      exists kb,
        _send_files_list gid offset d = Some (FilesPage g rows kb)
        /\ (next_data kb <> None
            <-> skipn (Z.to_nat offset + PAGINATION_LIMIT) sorted <> [])).
Proof.
  intros Hs Ha Hg Hid Hoff Hi8 Hi4 sorted rows.
  destruct (select_files_ordered_spec gid d) as [Hperm Hsorted].
  split; [exact Hperm|]. split; [exact Hsorted|].
  assert (Hlen : List.length sorted = List.length (group_files gid d))
    by (apply Permutation_length; exact Hperm).
  assert (Hfind : find (fun x => g_id x =? gid) (groups d) = Some g)
    by (rewrite <- Hid; apply find_by_id; assumption).
  assert (Hpage : page offset sorted = Some rows).
  { unfold page. rewrite Hi8.
    destruct (Z.ltb_spec offset 0) as [Hn|Hn]; [lia|reflexivity]. }
  assert (Hcount : total_files g = Z.of_nat (List.length sorted)).
  { rewrite Hlen, <- Hid. exact (proj1 (Ha g Hg)). }
  unfold _send_files_list. rewrite Hi4. cbn [negb].
  fold sorted. rewrite Hpage, Hfind.
  split.
  - intros [He H0]. subst offset.
    assert (Hnil : sorted = []).
    { destruct sorted; [reflexivity|]. rewrite He in Hlen. discriminate Hlen. }
    unfold rows. rewrite Hnil. reflexivity.
  - intros Hne.
    set (kb := nav_row (nav_buttons ("view_group:" ++ py_str gid ++ ":")
                                    offset (total_files g))
               ++ [[mkButton LblBackToGroups "list_groups:0"]]).
    exists kb. split.
    + destruct rows as [|f rows'] eqn:Er; [|reflexivity].
      destruct (Z.eqb_spec offset 0) as [E0|E0]; [|reflexivity].
      exfalso. apply Hne. split; [|exact E0].
      subst offset. unfold rows in Er. cbn [Z.to_nat skipn] in Er.
      destruct sorted as [|x s]; [|discriminate Er].
      destruct (group_files gid d); [reflexivity|discriminate Hlen].
    + unfold next_data, kb. rewrite concat_app, concat_nav_row.
      rewrite find_app_first.
      pose proof (nav_buttons_next ("view_group:" ++ py_str gid ++ ":")
                    offset (total_files g)) as Hn.
      rewrite skipn_nonempty.
      destruct (find is_next (nav_buttons _ offset (total_files g)))
        as [b|]; cbn [option_map] in *.
      * destruct (Z.gtb_spec (total_files g)
                    (offset + Z.of_nat PAGINATION_LIMIT)) as [Hc|Hc];
          [|discriminate Hn].
        split; [intros _; lia|discriminate].
      * cbn [List.concat app find is_next btn_label option_map].
        destruct (Z.gtb_spec (total_files g)
                    (offset + Z.of_nat PAGINATION_LIMIT)) as [Hc|Hc];
          [discriminate Hn|].
        split; [intros H; contradiction H; reflexivity|intros H; lia].
Qed.

Lemma db_two_files_schema : schema_ok db_two_files.
Proof.
  apply (proj1 (run_ops_invariants [OpUpload 1 meta_a; OpUpload 1 meta_b]
                  db_movies db_movies_schema db_movies_aggregates)).
Qed.

Lemma db_two_files_aggregates : aggregates_ok db_two_files.
Proof.
  apply (proj2 (run_ops_invariants [OpUpload 1 meta_a; OpUpload 1 meta_b]
                  db_movies db_movies_schema db_movies_aggregates)).
Qed.

Lemma files_list_pages_witness :
  schema_ok db_two_files /\ aggregates_ok db_two_files
  /\ In (mkGroup 1 "Movies" 1 2 5000000) (groups db_two_files)
  /\ exists kb,
       _send_files_list 1 0 db_two_files
       = Some (FilesPage (mkGroup 1 "Movies" 1 2 5000000)
                         [new_file 1 1 1 meta_a; new_file 2 1 2 meta_b] kb)
       /\ next_data kb = None.
Proof.
  assert (H1 : schema_ok db_two_files) by exact db_two_files_schema.
  assert (H2 : aggregates_ok db_two_files) by exact db_two_files_aggregates.
  assert (H3 : In (mkGroup 1 "Movies" 1 2 5000000) (groups db_two_files))
    by (left; reflexivity).
  destruct (files_list_pages 1 0 db_two_files (mkGroup 1 "Movies" 1 2 5000000)
              H1 H2 H3 eq_refl ltac:(lia) eq_refl eq_refl)
    as (_ & _ & _ & R).
  destruct R as (kb & R1 & R2).
  { intros [E _]. discriminate E. }
  split; [exact H1|]. split; [exact H2|]. split; [exact H3|].
  exists kb. split; [exact R1|].
  destruct (next_data kb) as [s|]; [|reflexivity].
  exfalso. apply (proj1 R2); [discriminate|]. reflexivity.
Defined.

(** ** Deleting a group, and the clean-up of the content store *)

Lemma filter_the_one {A B} (key : A -> B) (p : A -> bool) (l : list A)
    (x : A) :
  NoDup (map key l) -> In x l -> p x = true ->
  (forall y, In y l -> p y = true -> key y = key x) ->
  filter p l = [x].
Proof.
  induction l as [|y l IH]; intros Hnd Hx Hp Hk; [contradiction Hx|].
  inversion Hnd as [|? ? Hni Hnd']; subst. cbn [filter].
  destruct Hx as [->|Hx].
  - rewrite Hp. f_equal. apply filter_none. intros z Hz.
    destruct (p z) eqn:Ez; [|reflexivity]. exfalso. apply Hni.
    rewrite <- (Hk z (or_intror Hz) Ez). apply in_map. exact Hz.
  - destruct (p y) eqn:Ey.
    + exfalso. apply Hni. rewrite (Hk y (or_introl eq_refl) Ey).
      apply in_map. exact Hx.
    + apply IH; try assumption. intros z Hz. apply Hk. right. exact Hz.
Qed.

Lemma group_by_name (d : db) (g g' : group_row) :
  schema_ok d -> In g (groups d) -> In g' (groups d) ->
  g_owner_id g' = g_owner_id g -> g_name g' = g_name g -> g' = g.
Proof.
  intros Hs Hg Hg' Eo En.
  apply (NoDup_map_inj (fun x => (g_name x, g_owner_id x)) (groups d));
    try assumption.
  - exact (groups_unique Hs).
  - cbn beta. rewrite Eo, En. reflexivity.
Qed.

Lemma doomed_is_the_group (d : db) (g x : group_row) :
  schema_ok d -> In g (groups d) -> In x (groups d) ->
  (g_owner_id x =? g_owner_id g) && (g_name x =? g_name g)%string
  = (g_id x =? g_id g).
Proof.
  intros Hs Hg Hx.
  destruct (Z.eqb_spec (g_id x) (g_id g)) as [E|E].
  - assert (x = g) by (apply (group_by_id d); assumption). subst x.
    rewrite Z.eqb_refl, String.eqb_refl. reflexivity.
  - destruct (Z.eqb_spec (g_owner_id x) (g_owner_id g)) as [Eo|Eo];
      [|reflexivity].
    destruct (String.eqb_spec (g_name x) (g_name g)) as [En|En];
      [|reflexivity].
    exfalso. apply E. rewrite (group_by_name d g x Hs Hg Hx Eo En).
    reflexivity.
Qed.

Lemma group_message_ids (d : db) (g : group_row) :
  schema_ok d -> In g (groups d) ->
  select_group_message_ids (g_owner_id g) (g_name g) d
  = map storage_message_id (group_files (g_id g) d).
Proof.
  intros Hs Hg. unfold select_group_message_ids, files_join_groups, group_files.
  induction (files d) as [|f fs IH]; [reflexivity|].
  cbn [flat_map filter]. rewrite filter_app, map_app, IH.
  destruct (Z.eqb_spec (f_group_id f) (g_id g)) as [E|E].
  - rewrite E.
    rewrite (filter_the_one g_id (fun x => g_id x =? g_id g) (groups d) g
               (groups_pk Hs) Hg (Z.eqb_refl _)
               (fun y _ Hy => proj1 (Z.eqb_eq _ _) Hy)).
    cbn [map filter fst snd]. rewrite Z.eqb_refl, String.eqb_refl.
    reflexivity.
  - rewrite filter_none; [reflexivity|].
    intros [f' x] Hin. apply in_map_iff in Hin.
    destruct Hin as (x' & Ex & Hx'). inversion Ex; subst.
    apply filter_In in Hx'. destruct Hx' as [Hx Hidx].
    cbn [fst snd]. rewrite (doomed_is_the_group d g x Hs Hg Hx).
    apply Z.eqb_eq in Hidx. apply Z.eqb_neq. congruence.
Qed.

Lemma delete_group_one (d : db) (g : group_row) :
  schema_ok d -> In g (groups d) ->
  delete_group (g_owner_id g) (g_name g) d
  = (1%nat,
     mkDb (filter (fun x => negb (g_id x =? g_id g)) (groups d))
          (filter (fun f => negb (f_group_id f =? g_id g)) (files d))
          (filter (fun l => negb (opt_eqb (l_group_id l) (g_id g))
                            && negb (opt_mem (l_file_id l)
                                       (map f_id (group_files (g_id g) d))))
                  (file_links d))
          (groups_seq d) (files_seq d) (links_seq d)).
Proof.
  intros Hs Hg. unfold delete_group.
  assert (E1 : filter (fun x => (g_owner_id x =? g_owner_id g)
                                && (g_name x =? g_name g)%string) (groups d)
               = [g]).
  { rewrite (filter_ext_in _ (fun x => g_id x =? g_id g));
      [|intros x Hx; exact (doomed_is_the_group d g x Hs Hg Hx)].
    apply (filter_the_one g_id _ (groups d) g (groups_pk Hs) Hg
             (Z.eqb_refl _)).
    intros y _ Hy. apply Z.eqb_eq. exact Hy. }
  rewrite E1. cbn [map List.length].
  assert (Em : forall z, mem_z z [g_id g] = (z =? g_id g)).
  { intros z. unfold mem_z. cbn [existsb]. apply orb_false_r. }
  assert (E2 : filter (fun f => mem_z (f_group_id f) [g_id g]) (files d)
               = group_files (g_id g) d).
  { unfold group_files. apply filter_ext. intros f. apply Em. }
  rewrite E2. f_equal. f_equal.
  - apply filter_ext_in. intros x Hx.
    rewrite (doomed_is_the_group d g x Hs Hg Hx). reflexivity.
  - apply filter_ext. intros f. rewrite Em. reflexivity.
  - apply filter_ext. intros l. f_equal. f_equal.
    destruct (l_group_id l) as [z|]; cbn [opt_mem opt_eqb]; [apply Em|].
    reflexivity.
Qed.

Lemma count_true_le (l : list bool) : (count_true l <= List.length l)%nat.
Proof. unfold count_true. apply filter_length_le. Qed.

(** X14: [_perform_group_delete] for a group the caller owns, in a store
    that keeps the schema.  The group, its files and the links to them are
    deleted in the store whatever the content store answers afterwards; the
    content store is asked to delete exactly the stored messages of the
    group's files, in the order of [files]; and the reply "k/n files
    deleted" has n the number of files the group had (its counter, when the
    counters are right) and k the number of deletions the content store
    carried out, so k <= n, with other groups and their files untouched.
    For a name the caller has no group of, the reply is "not found" and
    nothing is asked of the content store. *)
Theorem group_delete_tally (remote : nat -> bool) (k : nat) (d : db) :
  schema_ok d ->
  (forall g,
     In g (groups d) ->
     let ids := map storage_message_id (group_files (g_id g) d) in
     let n := List.length (group_files (g_id g) d) in
     let done := count_true (map remote (seq k n)) in
     exists d',
       _perform_group_delete remote k (g_owner_id g) (g_name g) d
       = (GroupDeleted (g_name g) done n, ids, d', (k + n)%nat)
       /\ (done <= n)%nat
       /\ (aggregates_ok d -> total_files g = Z.of_nat n)
       /\ groups d' = filter (fun x => negb (g_id x =? g_id g)) (groups d)
       /\ files d' = filter (fun f => negb (f_group_id f =? g_id g)) (files d)
       /\ (forall l, In l (file_links d') ->
                     In l (file_links d) /\ ~ targets_group d l (g_id g)))
  /\ (forall user_id name,
        (forall g, In g (groups d) -> g_owner_id g = user_id ->
                   g_name g <> name) ->
        _perform_group_delete remote k user_id name d
        = (GroupNotFound name, [], d, k)).
Proof.
  intros Hs. split.
  - intros g Hg ids n done.
    unfold _perform_group_delete, delete_group_txn. cbn [run]. unfold read.
    rewrite (group_message_ids d g Hs Hg), (delete_group_one d g Hs Hg).
    cbn [run]. rewrite length_map. fold n. fold ids.
    eexists. split; [reflexivity|].
    split.
    { pose proof (count_true_le (map remote (seq k n))) as Hc.
      rewrite length_map, length_seq in Hc. exact Hc. }
    split; [intros Ha; exact (proj1 (Ha g Hg))|].
    split; [reflexivity|]. split; [reflexivity|].
    intros l Hl.
    apply (delete_group_links (g_owner_id g) (g_name g) d g l Hg eq_refl
             eq_refl).
    rewrite (delete_group_one d g Hs Hg). exact Hl.
  - intros user_id name Hnone.
    unfold _perform_group_delete, delete_group_txn. cbn [run]. unfold read.
    unfold delete_group.
    assert (E1 : filter (fun g => (g_owner_id g =? user_id)
                                  && (g_name g =? name)%string) (groups d)
                 = []).
    { apply filter_none. intros g Hg.
      destruct (Z.eqb_spec (g_owner_id g) user_id) as [Eo|Eo]; [|reflexivity].
      destruct (String.eqb_spec (g_name g) name) as [En|En]; [|reflexivity].
      exfalso. exact (Hnone g Hg Eo En). }
    rewrite E1. cbn [map List.length run].
    rewrite (filter_none (fun f => mem_z (f_group_id f) []) (files d))
      by (intros; reflexivity).
    f_equal. f_equal.
    transitivity (mkDb (groups d) (files d) (file_links d) (groups_seq d)
                       (files_seq d) (links_seq d));
      [|destruct d; reflexivity].
    f_equal.
    + apply filter_all. intros g Hg.
      destruct (Z.eqb_spec (g_owner_id g) user_id) as [Eo|Eo]; [|reflexivity].
      destruct (String.eqb_spec (g_name g) name) as [En|En]; [|reflexivity].
      exfalso. exact (Hnone g Hg Eo En).
    + apply filter_all. intros f _. reflexivity.
    + apply filter_all. intros l _.
      destruct (l_group_id l); destruct (l_file_id l); reflexivity.
Qed.

Lemma group_delete_tally_witness :
  schema_ok db_two_files
  /\ fst (fst (fst (_perform_group_delete (fun i => Nat.eqb i 0) 0 1 "Movies"
                      db_two_files)))
     = GroupDeleted "Movies" 1 2
  /\ _perform_group_delete (fun _ => true) 0 1 "Films" db_two_files
     = (GroupNotFound "Films", [], db_two_files, 0%nat).
Proof.
  assert (H : schema_ok db_two_files) by exact db_two_files_schema.
  destruct (group_delete_tally (fun i => Nat.eqb i 0) 0 db_two_files H)
    as [R1 _].
  destruct (group_delete_tally (fun _ => true) 0 db_two_files H) as [_ R2].
  split; [exact H|]. split.
  - destruct (R1 (mkGroup 1 "Movies" 1 2 5000000) (or_introl eq_refl))
      as (d' & E & _).
    cbn [g_owner_id g_name] in E. rewrite E. reflexivity.
  - apply R2. intros g [<-|[]] _. discriminate.
Defined.

(** ** Statistics *)

Lemma sum_z_pointwise {A} (f h : A -> Z) (l : list A) :
  sum_z (map (fun x => f x + h x) l) = sum_z (map f l) + sum_z (map h l).
Proof.
  induction l as [|x l IH]; cbn [map sum_z fold_right]; [reflexivity|].
  fold (sum_z (map (fun x => f x + h x) l)).
  fold (sum_z (map f l)). fold (sum_z (map h l)). rewrite IH. lia.
Qed.

Lemma sum_z_zero {A} (f : A -> Z) (l : list A) :
  (forall x, In x l -> f x = 0) -> sum_z (map f l) = 0.
Proof.
  induction l as [|x l IH]; intros H; [reflexivity|].
  cbn [map sum_z fold_right]. fold (sum_z (map f l)).
  rewrite (H x (or_introl eq_refl)), IH; [reflexivity|].
  intros y Hy. apply H. right. exact Hy.
Qed.

Lemma sum_z_indicator {A} (key : A -> Z) (l : list A) (k v : Z) :
  NoDup (map key l) -> In k (map key l) ->
  sum_z (map (fun x => if k =? key x then v else 0) l) = v.
Proof.
  induction l as [|x l IH]; intros Hnd Hin; [contradiction Hin|].
  inversion Hnd as [|? ? Hni Hnd']; subst.
  cbn [map sum_z fold_right].
  fold (sum_z (map (fun x => if k =? key x then v else 0) l)).
  destruct (Z.eqb_spec k (key x)) as [E|E].
  - assert (Hz : sum_z (map (fun y => if k =? key y then v else 0) l) = 0).
    { apply sum_z_zero. intros y Hy.
      destruct (Z.eqb_spec k (key y)) as [Ey|Ey]; [|reflexivity].
      exfalso. apply Hni. rewrite <- E, Ey. apply in_map. exact Hy. }
    rewrite Hz. lia.
  - rewrite IH; [lia|exact Hnd'|].
    destruct Hin as [Hin|Hin]; [congruence|exact Hin].
Qed.

Lemma sum_over_groups (w : file_row -> Z) (gs : list group_row)
    (fs : list file_row) :
  NoDup (map g_id gs) ->
  (forall f, In f fs -> In (f_group_id f) (map g_id gs)) ->
  sum_z (map (fun g => sum_z (map w (filter (fun f => f_group_id f =? g_id g)
                                            fs))) gs)
  = sum_z (map w fs).
Proof.
  intros Hnd. induction fs as [|f fs IH]; intros Hfk.
  - apply sum_z_zero. intros g _. reflexivity.
  - transitivity
      (sum_z (map (fun g => (if f_group_id f =? g_id g then w f else 0)
                            + sum_z (map w (filter (fun f0 => f_group_id f0
                                                              =? g_id g) fs)))
                  gs)).
    + f_equal. apply map_ext. intros g. cbn [filter].
      destruct (f_group_id f =? g_id g); cbn [map sum_z fold_right];
        reflexivity.
    + rewrite sum_z_pointwise, IH
        by (intros x Hx; apply Hfk; right; exact Hx).
      rewrite (sum_z_indicator g_id gs (f_group_id f) (w f) Hnd
                 (Hfk f (or_introl eq_refl))).
      reflexivity.
Qed.

Lemma length_as_sum {A} (l : list A) :
  Z.of_nat (List.length l) = sum_z (map (fun _ => 1) l).
Proof.
  induction l as [|x l IH]; [reflexivity|].
  cbn [List.length map sum_z fold_right].
  fold (sum_z (map (fun _ : A => 1) l)). lia.
Qed.

(** X15: the statistics of the admin panel.  In a store that keeps the
    schema and whose counters agree with its rows, "Total Files Stored" is
    the number of rows of [files] and "Total Groups" the number of rows of
    [groups]; "Authorized Users" counts the active rows only.  The total
    size that the query returns is the sum of the sizes of all files, but
    it comes as a [Decimal], which [format_size] does not take for a
    number: "Total Storage Used" reads "0 B" whatever is stored. *)
Theorem bot_stats_shown (one_decimal : Z -> string) (a : admin_db) (d : db) :
  schema_ok d -> aggregates_ok d ->
  let stats := _send_bot_stats one_decimal a d in
  stat_files stats = Z.of_nat (List.length (files d))
  /\ stat_groups stats = Z.of_nat (List.length (groups d))
  /\ stat_users stats
     = Z.of_nat (List.length (filter u_is_active (authorized_users a)))
  /\ stat_users stats <= Z.of_nat (List.length (authorized_users a))
  /\ stat_size stats = PyDecimal (sum_z (map file_size (files d)))
  /\ stat_size_shown stats = "0 B"%string.
Proof.
  intros Hs Ha.
  assert (Hf : sum_z (map total_files (groups d))
               = Z.of_nat (List.length (files d))).
  { rewrite length_as_sum,
            <- (sum_over_groups (fun _ => 1) (groups d) (files d)
                  (groups_pk Hs) (files_fk Hs)).
    f_equal. apply map_ext_in. intros g Hg.
    rewrite (proj1 (Ha g Hg)). unfold group_files. apply length_as_sum. }
  assert (Hz : sum_z (map total_size (groups d))
               = sum_z (map file_size (files d))).
  { rewrite <- (sum_over_groups file_size (groups d) (files d)
                  (groups_pk Hs) (files_fk Hs)).
    f_equal. apply map_ext_in. intros g Hg. exact (proj2 (Ha g Hg)). }
  cbv zeta. unfold _send_bot_stats.
  cbn [stat_files stat_size stat_groups stat_users stat_size_shown format_size].
  split; [|split; [reflexivity|split; [reflexivity|split; [|split]]]].
  - destruct (groups d); [exact Hf|exact Hf].
  - apply inj_le. apply filter_length_le.
  - f_equal. destruct (groups d); [exact Hz|exact Hz].
  - reflexivity.
Qed.

Lemma bot_stats_shown_witness :
  schema_ok db_two_files /\ aggregates_ok db_two_files
  /\ _send_bot_stats (fun _ => ""%string) empty_admin_db db_two_files
     = mkStats 0 1 2 (PyDecimal 5000000) "0 B".
Proof.
  assert (H1 : schema_ok db_two_files) by exact db_two_files_schema.
  assert (H2 : aggregates_ok db_two_files) by exact db_two_files_aggregates.
  pose proof (bot_stats_shown (fun _ => ""%string) empty_admin_db db_two_files
                H1 H2) as R.
  cbv zeta in R. destruct R as (R1 & R2 & R3 & _ & R5 & R6).
  split; [exact H1|]. split; [exact H2|].
  destruct (_send_bot_stats (fun _ => ""%string) empty_admin_db db_two_files)
    as [u g f z t].
  cbn [stat_files stat_size stat_groups stat_users stat_size_shown] in *.
  rewrite R1, R2, R3, R5, R6. reflexivity.
Defined.

(** ** Who may use the bot *)

Lemma existsb_map {A B} (p : B -> bool) (f : A -> B) (l : list A) :
  existsb p (map f l) = existsb (fun x => p (f x)) l.
Proof.
  induction l as [|x l IH]; cbn [map existsb]; [reflexivity|].
  rewrite IH. reflexivity.
Qed.

Lemma existsb_same {A} (p q : A -> bool) (l : list A) :
  (forall x, p x = q x) -> existsb p l = existsb q l.
Proof.
  intros H. induction l as [|x l IH]; cbn [existsb]; [reflexivity|].
  rewrite H, IH. reflexivity.
Qed.

Lemma upsert_user_effect (uid : Z) (first_name : string) (by_id : Z)
    (a a' : admin_db) :
  upsert_user uid first_name by_id a = Some a' ->
  in_int8 uid = true
  /\ bot_settings a' = bot_settings a
  /\ existsb (fun u => (u_user_id u =? uid) && u_is_active u)
             (authorized_users a') = true
  /\ (forall v, v <> uid ->
        existsb (fun u => (u_user_id u =? v) && u_is_active u)
                (authorized_users a')
        = existsb (fun u => (u_user_id u =? v) && u_is_active u)
                  (authorized_users a)).
Proof.
  unfold upsert_user, nextval.
  destruct (in_int8 uid) eqn:E8; [|discriminate].
  destruct (negb (in_int8 by_id)); [discriminate|]. cbn [negb orb].
  destruct (users_seq a <=? INT4_MAX); [|discriminate].
  intros H. injection H as <-. cbn [authorized_users bot_settings].
  split; [reflexivity|]. split; [reflexivity|].
  destruct (existsb (fun u => u_user_id u =? uid) (authorized_users a)) eqn:Ex.
  - split.
    + apply existsb_exists in Ex. destruct Ex as (u & Hu & Eu).
      apply existsb_exists.
      exists (activate first_name u). split.
      * apply in_map_iff. exists u. rewrite Eu. split; [reflexivity|exact Hu].
      * cbn [activate u_user_id u_is_active]. rewrite Eu. reflexivity.
    + intros v Hv. rewrite existsb_map. apply existsb_same. intros u.
      destruct (Z.eqb_spec (u_user_id u) uid) as [E|E]; [|reflexivity].
      cbn [activate u_user_id u_is_active]. rewrite E.
      destruct (Z.eqb_spec uid v) as [E'|E']; [congruence|reflexivity].
  - split.
    + rewrite existsb_app. cbn [existsb u_user_id u_is_active].
      rewrite Z.eqb_refl. apply orb_true_iff. right. reflexivity.
    + intros v Hv. rewrite existsb_app. cbn [existsb u_user_id u_is_active].
      destruct (Z.eqb_spec uid v) as [E'|E']; [congruence|].
      cbn [andb orb]. apply orb_false_r.
Qed.

Lemma deactivate_effect (uid : Z) (l : list user_row) :
  existsb (fun u => (u_user_id u =? uid) && u_is_active u)
          (map (deactivate uid) l) = false
  /\ (forall v, v <> uid ->
        existsb (fun u => (u_user_id u =? v) && u_is_active u)
                (map (deactivate uid) l)
        = existsb (fun u => (u_user_id u =? v) && u_is_active u) l).
Proof.
  split.
  - rewrite existsb_map. apply existsb_none. intros u _.
    unfold deactivate.
    destruct (Z.eqb_spec (u_user_id u) uid) as [E|E];
      cbn [u_user_id u_is_active].
    + apply andb_false_r.
    + apply Z.eqb_neq in E. rewrite E. reflexivity.
  - intros v Hv. rewrite existsb_map. apply existsb_same. intros u.
    unfold deactivate.
    destruct (Z.eqb_spec (u_user_id u) uid) as [E|E]; [|reflexivity].
    cbn [u_user_id u_is_active]. rewrite E.
    destruct (Z.eqb_spec uid v) as [E'|E']; [congruence|reflexivity].
Qed.

Lemma authorization_after_adding (admin_ids : list Z) (admin_id : Z)
    (args : list string) (a : admin_db) (uid : Z) :
  let (r, a') := add_user_handler admin_ids admin_id args a in
  forall first, r = AdAuthorized first uid ->
                is_user_authorized admin_ids a' uid = true.
Proof.
  unfold add_user_handler.
  destruct (negb (is_admin admin_ids admin_id)); [discriminate|].
  destruct args as [|s [|n1 names]]; try discriminate.
  destruct (negb (isdigit s)); [discriminate|].
  destruct (py_int s) as [uid'|]; [|discriminate].
  destruct (upsert_user uid' _ admin_id a) as [a'|] eqn:Eu; [|discriminate].
  intros first E. injection E as _ ->.
  destruct (upsert_user_effect _ _ _ _ _ Eu) as (H8 & _ & Hact & _).
  unfold is_user_authorized.
  destruct (is_admin admin_ids uid); [reflexivity|].
  rewrite H8. exact Hact.
Qed.

Lemma authorization_after_removal (admin_ids : list Z) (admin_id : Z)
    (args : list string) (a : admin_db) (uid : Z) :
  let (r, a') := remove_user_handler admin_ids admin_id args a in
  r = AdDeauthorized uid \/ r = AdUserNotFound uid ->
  is_user_authorized admin_ids a' uid = false.
Proof.
  unfold remove_user_handler.
  destruct (negb (is_admin admin_ids admin_id));
    [intros [E|E]; discriminate E|].
  destruct args as [|s [|s2 more]]; try (intros [E|E]; discriminate E).
  destruct (negb (isdigit s)); [intros [E|E]; discriminate E|].
  destruct (py_int s) as [uid'|]; [|intros [E|E]; discriminate E].
  destruct (mem_z uid' admin_ids) eqn:Em; [intros [E|E]; discriminate E|].
  destruct (in_int8 uid') eqn:E8; cbn [negb];
    [|intros [E|E]; discriminate E].
  intros Hr.
  assert (uid' = uid).
  { destruct (Nat.eqb _ 1); destruct Hr as [E|E];
      try discriminate E; injection E as E; exact E. }
  subst uid'. unfold is_user_authorized, is_admin. cbn [authorized_users].
  rewrite Em, E8. cbn [negb].
  exact (proj1 (deactivate_effect uid (authorized_users a))).
Qed.

(** X16: authorization follows the two admin commands, and only an admin
    can give them.  From a caller who is no admin both commands are
    ignored and change nothing.  When [add_user_handler] answers
    "authorized" for a user, [is_user_authorized] holds for that user from
    then on (also after an earlier removal); when [remove_user_handler]
    answers "de-authorized" or "not found" for a user, that user is no
    admin and [is_user_authorized] no longer holds; an admin cannot be
    removed.  The standing of every other user is as before. *)
Theorem authorization_follows_admin_commands (admin_ids : list Z)
    (admin_id : Z) (args : list string) (a : admin_db) :
  (let (r, a') := add_user_handler admin_ids admin_id args a in
   (is_admin admin_ids admin_id = false -> r = AdSilent /\ a' = a)
   /\ (forall first uid,
         r = AdAuthorized first uid ->
         py_int (nth 0 args ""%string) = Some uid
         /\ is_user_authorized admin_ids a' uid = true
         /\ (forall v, v <> uid ->
                       is_user_authorized admin_ids a' v
                       = is_user_authorized admin_ids a v))
   /\ ((forall first uid, r <> AdAuthorized first uid) -> a' = a))
  /\ (let (r, a') := remove_user_handler admin_ids admin_id args a in
      (is_admin admin_ids admin_id = false -> r = AdSilent /\ a' = a)
      /\ (forall uid,
            r = AdDeauthorized uid \/ r = AdUserNotFound uid ->
            py_int (nth 0 args ""%string) = Some uid
            /\ is_admin admin_ids uid = false
            /\ is_user_authorized admin_ids a' uid = false
            /\ (forall v, v <> uid ->
                          is_user_authorized admin_ids a' v
                          = is_user_authorized admin_ids a v))
      /\ (forall uid, py_int (nth 0 args ""%string) = Some uid ->
                      is_admin admin_ids uid = true ->
                      a' = a /\ is_user_authorized admin_ids a' uid = true)).
Proof.
  split.
  - unfold add_user_handler.
    destruct (is_admin admin_ids admin_id) eqn:Ead; cbn [negb].
    2:{ split; [intros _; split; reflexivity|].
        split; [discriminate|reflexivity]. }
    destruct args as [|s [|n1 names]];
      try (split; [discriminate|]; split; [discriminate|reflexivity]).
    destruct (isdigit s);
      [|split; [discriminate|]; split; [discriminate|reflexivity]].
    cbn [negb nth].
    destruct (py_int s) as [uid|] eqn:Ei;
      [|split; [discriminate|]; split; [discriminate|reflexivity]].
    destruct (upsert_user uid (join_args (n1 :: names)) admin_id a)
      as [a'|] eqn:Eu;
      [|split; [discriminate|]; split; [discriminate|reflexivity]].
    destruct (upsert_user_effect _ _ _ _ _ Eu) as (H8 & _ & Hact & Hother).
    split; [discriminate|]. split.
    + intros first uid' E. injection E as _ <-.
      split; [reflexivity|]. unfold is_user_authorized.
      split.
      * destruct (is_admin admin_ids uid); [reflexivity|].
        rewrite H8. exact Hact.
      * intros v Hv. rewrite (Hother v Hv). reflexivity.
    + intros Hn. exfalso. exact (Hn _ _ eq_refl).
  - unfold remove_user_handler.
    destruct (is_admin admin_ids admin_id) eqn:Ead; cbn [negb].
    2:{ split; [intros _; split; reflexivity|].
        split; [intros uid [E|E]; discriminate E|].
        intros uid _ Hu. split; [reflexivity|].
        unfold is_user_authorized. rewrite Hu. reflexivity. }
    assert (Hadm : forall uid, is_admin admin_ids uid = true ->
                               a = a /\ is_user_authorized admin_ids a uid = true).
    { intros uid Hu. split; [reflexivity|].
      unfold is_user_authorized. rewrite Hu. reflexivity. }
    destruct args as [|s [|s2 more]];
      try (split; [discriminate|]; split;
           [intros uid [E|E]; discriminate E|intros uid _; apply Hadm]).
    destruct (isdigit s); cbn [negb nth];
      [|split; [discriminate|]; split;
        [intros uid [E|E]; discriminate E|intros uid _; apply Hadm]].
    destruct (py_int s) as [uid|] eqn:Ei;
      [|split; [discriminate|]; split;
        [intros uid [E|E]; discriminate E|intros uid _; apply Hadm]].
    fold (is_admin admin_ids uid).
    destruct (is_admin admin_ids uid) eqn:Eu.
    { split; [discriminate|]. split; [intros uid' [E|E]; discriminate E|].
      intros uid' _. apply Hadm. }
    destruct (in_int8 uid) eqn:E8; cbn [negb].
    2:{ split; [discriminate|]. split; [intros uid' [E|E]; discriminate E|].
        intros uid' _. apply Hadm. }
    destruct (deactivate_effect uid (authorized_users a)) as [Hoff Hother].
    split; [discriminate|]. split.
    + intros uid' E.
      assert (uid' = uid).
      { destruct (Nat.eqb _ 1); destruct E as [E|E];
          try discriminate E; injection E as E; symmetry; exact E. }
      subst uid'. split; [reflexivity|]. split; [exact Eu|].
      unfold is_user_authorized. cbn [authorized_users].
      split.
      * rewrite Eu, E8. exact Hoff.
      * intros v Hv. rewrite (Hother v Hv). reflexivity.
    + intros uid' E Hu. injection E as <-. rewrite Hu in Eu. discriminate Eu.
Qed.

(** ** The users and settings tables keep their keys *)

Lemma insert_setting_ok (key value : string) (a : admin_db) :
  admin_ok a -> admin_ok (insert_setting key value a).
Proof.
  intros [H1 H2 H3 H4]. unfold insert_setting.
  destruct (existsb _ (bot_settings a)) eqn:Ex; [constructor; assumption|].
  constructor; cbn [authorized_users bot_settings users_seq]; try assumption.
  apply NoDup_map_snoc; [exact H4|].
  intros Hin. apply in_map_iff in Hin. destruct Hin as (r & Er & Hr).
  pose proof (existsb_false _ _ Ex r Hr) as Hc. cbn beta in Hc.
  cbn [s_key] in Er. rewrite Er, String.eqb_refl in Hc. discriminate Hc.
Qed.

Lemma new_user_ok (a : admin_db) (row : user_row) :
  admin_ok a -> u_id row = users_seq a ->
  existsb (fun u => u_user_id u =? u_user_id row) (authorized_users a) = false ->
  admin_ok (mkAdminDb (authorized_users a ++ [row]) (bot_settings a)
                      (users_seq a + 1)).
Proof.
  intros [H1 H2 H3 H4] Eid Ex.
  constructor; cbn [authorized_users bot_settings users_seq]; try assumption.
  - apply NoDup_map_snoc; [exact H1|].
    intros Hin. apply in_map_iff in Hin. destruct Hin as (u & Eu & Hu).
    pose proof (existsb_false _ _ Ex u Hu) as Hc. cbn beta in Hc.
    rewrite Eu, Z.eqb_refl in Hc. discriminate Hc.
  - apply NoDup_map_snoc; [exact H2|].
    intros Hin. apply in_map_iff in Hin. destruct Hin as (u & Eu & Hu).
    pose proof (H3 u Hu). lia.
  - intros u Hu. apply in_app_or in Hu. destruct Hu as [Hu|[<-|[]]].
    + pose proof (H3 u Hu). lia.
    + lia.
Qed.

Lemma same_keys_ok (a : admin_db) (F : user_row -> user_row)
    (G : setting_row -> setting_row) (s : Z) :
  admin_ok a -> users_seq a <= s ->
  (forall u, u_user_id (F u) = u_user_id u /\ u_id (F u) = u_id u) ->
  (forall r, s_key (G r) = s_key r) ->
  admin_ok (mkAdminDb (map F (authorized_users a)) (map G (bot_settings a)) s).
Proof.
  intros [H1 H2 H3 H4] Hs HF HG.
  constructor; cbn [authorized_users bot_settings users_seq].
  - rewrite map_key_update; [exact H1|]. intros u. exact (proj1 (HF u)).
  - rewrite map_key_update; [exact H2|]. intros u. exact (proj2 (HF u)).
  - intros u Hu. apply in_map_iff in Hu. destruct Hu as (u0 & <- & Hu0).
    rewrite (proj2 (HF u0)). pose proof (H3 u0 Hu0). lia.
  - rewrite map_key_update; [exact H4|]. exact HG.
Qed.

Lemma burn_id_ok (a : admin_db) :
  admin_ok a ->
  admin_ok (mkAdminDb (authorized_users a) (bot_settings a) (users_seq a + 1)).
Proof.
  intros [H1 H2 H3 H4]. constructor;
    cbn [authorized_users bot_settings users_seq]; try assumption.
  intros u Hu. pose proof (H3 u Hu). lia.
Qed.

Lemma insert_admin_ok (admin_id : Z) (a a' : admin_db) :
  admin_ok a -> insert_admin admin_id a = Some a' -> admin_ok a'.
Proof.
  intros Hok. unfold insert_admin, nextval.
  destruct (negb (in_int8 admin_id)); [discriminate|].
  destruct (users_seq a <=? INT4_MAX); [|discriminate].
  destruct (existsb _ (authorized_users a)) eqn:Ex; intros H;
    injection H as <-.
  - apply burn_id_ok. exact Hok.
  - apply new_user_ok; [exact Hok|reflexivity|exact Ex].
Qed.

Lemma seed_admins_ok (ids : list Z) :
  forall a, admin_ok a -> admin_ok (snd (seed_admins ids a)).
Proof.
  induction ids as [|id ids IH]; intros a Hok; cbn [seed_admins];
    [exact Hok|].
  destruct (insert_admin id a) as [a'|] eqn:E; [|exact Hok].
  apply IH. exact (insert_admin_ok id a a' Hok E).
Qed.

Lemma admin_step_ok (a : admin_db) (o : admin_op) :
  admin_ok a -> admin_ok (admin_step a o).
Proof.
  intros Hok. destruct o as [ids caption|ids admin_id args|ids admin_id args|];
    cbn [admin_step].
  - unfold init_database. apply seed_admins_ok.
    apply insert_setting_ok, insert_setting_ok. exact Hok.
  - unfold add_user_handler.
    destruct (negb (is_admin ids admin_id)); [exact Hok|].
    destruct args as [|s [|n1 names]]; try exact Hok.
    destruct (negb (isdigit s)); [exact Hok|].
    destruct (py_int s) as [uid|]; [|exact Hok].
    destruct (upsert_user uid _ admin_id a) as [a'|] eqn:Eu; [|exact Hok].
    cbn [snd]. unfold upsert_user, nextval in Eu.
    destruct (negb (in_int8 uid) || negb (in_int8 admin_id));
      [discriminate|].
    destruct (users_seq a <=? INT4_MAX); [|discriminate].
    destruct (existsb _ (authorized_users a)) eqn:Ex; injection Eu as <-.
    + rewrite <- (map_id (bot_settings a)).
      apply same_keys_ok; [exact Hok|lia| |reflexivity].
      intros u. destruct (u_user_id u =? uid); split; reflexivity.
    + apply new_user_ok; [exact Hok|reflexivity|exact Ex].
  - unfold remove_user_handler.
    destruct (negb (is_admin ids admin_id)); [exact Hok|].
    destruct args as [|s [|s2 more]]; try exact Hok.
    destruct (negb (isdigit s)); [exact Hok|].
    destruct (py_int s) as [uid|]; [|exact Hok].
    destruct (mem_z uid ids); [exact Hok|].
    destruct (negb (in_int8 uid)); [exact Hok|].
    cbn [snd]. rewrite <- (map_id (bot_settings a)).
    apply same_keys_ok; [exact Hok|lia| |reflexivity].
    intros u. unfold deactivate.
    destruct (u_user_id u =? uid); split; reflexivity.
  - unfold toggle_caption. cbn [snd].
    rewrite <- (map_id (authorized_users a)).
    apply same_keys_ok; [exact Hok|lia|intros u; split; reflexivity|].
    intros r. destruct (s_key r =? "caption_enabled")%string; reflexivity.
Qed.

Lemma admin_run_ok (os : list admin_op) :
  forall a, admin_ok a -> admin_ok (admin_run os a).
Proof.
  induction os as [|o os IH]; intros a Hok; [exact Hok|].
  cbn [admin_run fold_left]. apply IH. apply admin_step_ok. exact Hok.
Qed.

Lemma empty_admin_ok : admin_ok empty_admin_db.
Proof.
  constructor; cbn; try constructor. intros u [].
Qed.

(** ** Seeding *)

Lemma setting_of_insert (key value k : string) (a : admin_db) :
  setting_of k (insert_setting key value a)
  = match setting_of k a with
    | Some v => Some v
    | None => if (key =? k)%string then Some value else None
    end.
Proof.
  unfold setting_of, insert_setting.
  destruct (existsb (fun s => (s_key s =? key)%string) (bot_settings a))
    eqn:Ex.
  - destruct (find _ (bot_settings a)) as [r|] eqn:Ef; [reflexivity|].
    cbn [option_map]. destruct (String.eqb_spec key k) as [E|E];
      [|reflexivity].
    exfalso. subst k. apply existsb_exists in Ex.
    destruct Ex as (r & Hr & Er).
    pose proof (find_none _ _ Ef r Hr) as Hc. cbn beta in Hc.
    rewrite Hc in Er. discriminate Er.
  - cbn [bot_settings]. rewrite find_app_first.
    destruct (find _ (bot_settings a)) as [r|]; [reflexivity|].
    cbn [find s_key]. rewrite (String.eqb_sym key k).
    destruct (k =? key)%string; reflexivity.
Qed.

Lemma insert_setting_rows (key value : string) (a : admin_db) :
  authorized_users (insert_setting key value a) = authorized_users a
  /\ users_seq (insert_setting key value a) = users_seq a
  /\ exists more, bot_settings (insert_setting key value a)
                  = bot_settings a ++ more.
Proof.
  unfold insert_setting. destruct (existsb _ (bot_settings a)).
  - split; [reflexivity|]. split; [reflexivity|].
    exists []. symmetry. apply app_nil_r.
  - split; [reflexivity|]. split; [reflexivity|]. eexists. reflexivity.
Qed.

Lemma seed_admins_rows (ids : list Z) :
  forall a,
    let (ok, a') := seed_admins ids a in
    bot_settings a' = bot_settings a
    /\ (exists more, authorized_users a' = authorized_users a ++ more)
    /\ (ok = true ->
        forall id, In id ids ->
                   existsb (fun u => u_user_id u =? id) (authorized_users a')
                   = true)
    /\ ((forall id, In id ids ->
                    existsb (fun u => u_user_id u =? id) (authorized_users a)
                    = true) ->
        authorized_users a' = authorized_users a).
Proof.
  induction ids as [|id ids IH]; intros a; cbn [seed_admins].
  - split; [reflexivity|]. split; [exists []; symmetry; apply app_nil_r|].
    split; [intros _ id []|reflexivity].
  - destruct (insert_admin id a) as [a1|] eqn:E.
    2:{ split; [reflexivity|]. split; [exists []; symmetry; apply app_nil_r|].
        split; [discriminate|reflexivity]. }
    specialize (IH a1). destruct (seed_admins ids a1) as [ok a'].
    destruct IH as (I1 & (more & I2) & I3 & I4).
    unfold insert_admin, nextval in E.
    destruct (negb (in_int8 id)); [discriminate|].
    destruct (users_seq a <=? INT4_MAX); [|discriminate].
    destruct (existsb (fun u => u_user_id u =? id) (authorized_users a))
      eqn:Ex; injection E as <-; cbn [authorized_users bot_settings] in *.
    + split; [exact I1|]. split; [exists more; exact I2|].
      split.
      * intros Hok x [<-|Hx]; [|exact (I3 Hok x Hx)].
        rewrite I2, existsb_app, Ex. reflexivity.
      * intros Hall. apply I4. intros x Hx. apply Hall. right. exact Hx.
    + split; [exact I1|].
      split; [eexists; rewrite I2, <- app_assoc; reflexivity|].
      split.
      * intros Hok x [<-|Hx]; [|exact (I3 Hok x Hx)].
        rewrite I2, !existsb_app. cbn [existsb u_user_id].
        rewrite Z.eqb_refl, orb_true_r. reflexivity.
      * intros Hall. rewrite (Hall id (or_introl eq_refl)) in Ex.
        discriminate Ex.
Qed.

(** X17: what starting the program does to the users and the settings.
    [init_database] adds rows and changes none: the settings and users that
    were there stay as they are, in place.  Afterwards both settings exist;
    a stored caption wins over CUSTOM_CAPTION of the environment, which only
    fills in when none is stored (and likewise "1" for [caption_enabled]).
    If all statements went through, every id of ADMIN_IDS has a row, and
    starting again, with whatever caption in the environment, leaves all
    rows of both tables as they are. *)
Theorem init_database_seeds_once (admin_ids : list Z)
    (custom_caption_env : string) (a : admin_db) :
  let (ok, a') := init_database admin_ids custom_caption_env a in
  (exists more, bot_settings a' = bot_settings a ++ more)
  /\ (exists more, authorized_users a' = authorized_users a ++ more)
  /\ setting_of "caption_enabled" a'
     = Some match setting_of "caption_enabled" a with
            | Some v => v
            | None => "1"%string
            end
  /\ setting_of "custom_caption" a'
     = Some match setting_of "custom_caption" a with
            | Some v => v
            | None => custom_caption_env
            end
  /\ (ok = true ->
      (forall id, In id admin_ids ->
                  exists u, In u (authorized_users a') /\ u_user_id u = id)
      /\ forall env2,
           authorized_users (snd (init_database admin_ids env2 a'))
           = authorized_users a'
           /\ bot_settings (snd (init_database admin_ids env2 a'))
              = bot_settings a').
Proof.
  unfold init_database.
  set (a1 := insert_setting "caption_enabled" "1" a).
  set (a2 := insert_setting "custom_caption" custom_caption_env a1).
  pose proof (seed_admins_rows admin_ids a2) as H.
  destruct (seed_admins admin_ids a2) as [ok a'].
  destruct H as (Hset & (moreu & Hus) & Hall & _).
  destruct (insert_setting_rows "caption_enabled" "1" a)
    as (U1 & _ & (m1 & S1)).
  destruct (insert_setting_rows "custom_caption" custom_caption_env a1)
    as (U2 & _ & (m2 & S2)).
  fold a1 in U1, S1. fold a2 in U2, S2.
  assert (Hk1 : setting_of "caption_enabled" a'
                = Some match setting_of "caption_enabled" a with
                       | Some v => v
                       | None => "1"%string
                       end).
  { unfold setting_of at 1. rewrite Hset. fold (setting_of "caption_enabled" a2).
    unfold a2, a1. rewrite !setting_of_insert.
    destruct (setting_of "caption_enabled" a); reflexivity. }
  assert (Hk2 : setting_of "custom_caption" a'
                = Some match setting_of "custom_caption" a with
                       | Some v => v
                       | None => custom_caption_env
                       end).
  { unfold setting_of at 1. rewrite Hset. fold (setting_of "custom_caption" a2).
    unfold a2, a1. rewrite !setting_of_insert.
    destruct (setting_of "custom_caption" a); reflexivity. }
  split; [exists (m1 ++ m2); rewrite Hset, S2, S1, app_assoc; reflexivity|].
  split; [exists moreu; rewrite Hus, U2, U1; reflexivity|].
  split; [exact Hk1|]. split; [exact Hk2|].
  intros Hok. split.
  - intros id Hid. specialize (Hall Hok id Hid).
    apply existsb_exists in Hall. destruct Hall as (u & Hu & Eu).
    exists u. split; [exact Hu|]. apply Z.eqb_eq. exact Eu.
  - intros env2.
    assert (E1 : insert_setting "caption_enabled" "1" a' = a').
    { unfold insert_setting.
      assert (Hx : existsb (fun s => (s_key s =? "caption_enabled")%string)
                           (bot_settings a') = true).
      { unfold setting_of in Hk1.
        destruct (find _ (bot_settings a')) as [r|] eqn:Ef;
          [|discriminate Hk1].
        apply existsb_exists. exists r.
        split; [exact (proj1 (find_some _ _ Ef))|].
        exact (proj2 (find_some _ _ Ef)). }
      rewrite Hx. reflexivity. }
    assert (E2 : insert_setting "custom_caption" env2 a' = a').
    { unfold insert_setting.
      assert (Hx : existsb (fun s => (s_key s =? "custom_caption")%string)
                           (bot_settings a') = true).
      { unfold setting_of in Hk2.
        destruct (find _ (bot_settings a')) as [r|] eqn:Ef;
          [|discriminate Hk2].
        apply existsb_exists. exists r.
        split; [exact (proj1 (find_some _ _ Ef))|].
        exact (proj2 (find_some _ _ Ef)). }
      rewrite Hx. reflexivity. }
    rewrite E1, E2.
    pose proof (seed_admins_rows admin_ids a') as H2.
    destruct (seed_admins admin_ids a') as [ok2 a3].
    destruct H2 as (Hset2 & _ & _ & Hsame). cbn [snd].
    split; [apply Hsame; exact (Hall Hok)|exact Hset2].
Qed.

Lemma init_database_rows_kept (admin_ids : list Z) (env : string)
    (a : admin_db) :
  setting_of "caption_enabled" (snd (init_database admin_ids env a))
  = Some match setting_of "caption_enabled" a with
         | Some v => v
         | None => "1"%string
         end
  /\ setting_of "custom_caption" (snd (init_database admin_ids env a))
     = Some match setting_of "custom_caption" a with
            | Some v => v
            | None => env
            end.
Proof.
  unfold init_database.
  pose proof (seed_admins_rows admin_ids
                (insert_setting "custom_caption" env
                   (insert_setting "caption_enabled" "1" a))) as H.
  destruct (seed_admins admin_ids _) as [ok a']. cbn [snd].
  destruct H as (Hset & _).
  unfold setting_of at 1 3. rewrite Hset.
  fold (setting_of "caption_enabled"
          (insert_setting "custom_caption" env
             (insert_setting "caption_enabled" "1" a))).
  fold (setting_of "custom_caption"
          (insert_setting "custom_caption" env
             (insert_setting "caption_enabled" "1" a))).
  rewrite !setting_of_insert.
  destruct (setting_of "caption_enabled" a);
    destruct (setting_of "custom_caption" a); split; reflexivity.
Qed.

(** X18: the tables of users and settings keep their keys.  Whatever the
    admins do, in whatever order and however often the program is started,
    [authorized_users] has one row per user and [bot_settings] one row per
    key, from the empty tables on. *)
Theorem admin_tables_keep_keys (os : list admin_op) :
  NoDup (map u_user_id (authorized_users (admin_run os empty_admin_db)))
  /\ NoDup (map u_id (authorized_users (admin_run os empty_admin_db)))
  /\ NoDup (map s_key (bot_settings (admin_run os empty_admin_db)))
  /\ forall more, admin_ok (admin_run more (admin_run os empty_admin_db)).
Proof.
  pose proof (admin_run_ok os empty_admin_db empty_admin_ok) as H.
  split; [exact (users_unique H)|]. split; [exact (users_pk H)|].
  split; [exact (settings_pk H)|].
  intros more. apply admin_run_ok. exact H.
Qed.

(** ** Captions *)

Lemma settings_get_skip (key : string) (l : list setting_row) (dflt : string) :
  (forall r, In r l -> (s_key r =? key)%string = false) ->
  settings_get key l dflt = dflt.
Proof.
  revert dflt. induction l as [|r l IH]; intros dflt H; [reflexivity|].
  unfold settings_get in *. cbn [fold_left].
  rewrite (H r (or_introl eq_refl)). apply IH.
  intros x Hx. apply H. right. exact Hx.
Qed.

Lemma settings_get_find (key : string) (l : list setting_row) (dflt : string) :
  NoDup (map s_key l) ->
  settings_get key l dflt
  = match find (fun r => (s_key r =? key)%string) l with
    | Some r => s_value r
    | None => dflt
    end.
Proof.
  revert dflt. induction l as [|r l IH]; intros dflt Hnd; [reflexivity|].
  inversion Hnd as [|? ? Hni Hnd']; subst.
  unfold settings_get in *. cbn [fold_left find].
  destruct (String.eqb_spec (s_key r) key) as [E|E].
  - apply (settings_get_skip key l (s_value r)). intros x Hx.
    destruct (String.eqb_spec (s_key x) key) as [Ex|Ex]; [|reflexivity].
    exfalso. apply Hni. rewrite E, <- Ex. apply in_map. exact Hx.
  - apply IH. exact Hnd'.
Qed.

Lemma settings_get_filter (key : string) (p : setting_row -> bool)
    (l : list setting_row) :
  (forall r, (s_key r =? key)%string = true -> p r = true) ->
  forall dflt, settings_get key (filter p l) dflt = settings_get key l dflt.
Proof.
  intros Hp. induction l as [|r l IH]; intros dflt; [reflexivity|].
  unfold settings_get in *. cbn [filter fold_left].
  destruct (p r) eqn:Er; cbn [fold_left]; [apply IH|].
  destruct (s_key r =? key)%string eqn:Ek; [|apply IH].
  rewrite (Hp r Ek) in Er. discriminate Er.
Qed.

Lemma caption_setting_spec (env : string) (a : admin_db) :
  admin_ok a ->
  get_caption_setting env a
  = ((match setting_of "caption_enabled" a with
      | Some v => v
      | None => "1"%string
      end =? "1")%string,
     match setting_of "custom_caption" a with
     | Some v => v
     | None => env
     end).
Proof.
  intros Hok. unfold get_caption_setting, setting_of.
  rewrite !settings_get_filter, !settings_get_find
    by (try exact (settings_pk Hok); intros r E; rewrite E;
        try reflexivity; apply orb_true_r).
  destruct (find (fun r => (s_key r =? "caption_enabled")%string) _);
    destruct (find (fun r => (s_key r =? "custom_caption")%string) _);
    reflexivity.
Qed.

Lemma find_map_same {A} (p : A -> bool) (F : A -> A) (l : list A) :
  (forall x, p (F x) = p x) -> (forall x, p x = true -> F x = x) ->
  find p (map F l) = find p l.
Proof.
  intros H1 H2. induction l as [|x l IH]; [reflexivity|].
  cbn [map find]. rewrite H1. destruct (p x) eqn:E; [|exact IH].
  rewrite (H2 x E). reflexivity.
Qed.

Lemma admin_step_caption (a : admin_db) (o : admin_op) (c : string) :
  setting_of "custom_caption" a = Some c ->
  setting_of "custom_caption" (admin_step a o) = Some c.
Proof.
  intros Hc. destruct o as [ids caption|ids admin_id args|ids admin_id args|];
    cbn [admin_step].
  - pose proof (init_database_rows_kept ids caption a) as H.
    rewrite (proj2 H), Hc. reflexivity.
  - unfold add_user_handler.
    destruct (negb (is_admin ids admin_id)); [exact Hc|].
    destruct args as [|s [|n1 names]]; try exact Hc.
    destruct (negb (isdigit s)); [exact Hc|].
    destruct (py_int s) as [uid|]; [|exact Hc].
    destruct (upsert_user uid _ admin_id a) as [a'|] eqn:Eu; [|exact Hc].
    cbn [snd]. unfold setting_of.
    rewrite (proj1 (proj2 (upsert_user_effect _ _ _ _ _ Eu))). exact Hc.
  - unfold remove_user_handler.
    destruct (negb (is_admin ids admin_id)); [exact Hc|].
    destruct args as [|s [|s2 more]]; try exact Hc.
    destruct (negb (isdigit s)); [exact Hc|].
    destruct (py_int s) as [uid|]; [|exact Hc].
    destruct (mem_z uid ids); [exact Hc|].
    destruct (negb (in_int8 uid)); exact Hc.
  - unfold toggle_caption, setting_of. cbn [snd bot_settings].
    rewrite find_map_same; [exact Hc| |].
    + intros r. destruct (s_key r =? "caption_enabled")%string; reflexivity.
    + intros r Er. apply String.eqb_eq in Er.
      destruct (String.eqb_spec (s_key r) "caption_enabled") as [E|E];
        [|reflexivity].
      rewrite Er in E. discriminate E.
Qed.

Lemma admin_step_flags (a : admin_db) (o : admin_op) :
  (forall u, In u (authorized_users a) -> u_caption_disabled u = false) ->
  forall u, In u (authorized_users (admin_step a o)) ->
            u_caption_disabled u = false.
Proof.
  intros Hf. destruct o as [ids caption|ids admin_id args|ids admin_id args|];
    cbn [admin_step].
  - unfold init_database.
    set (a2 := insert_setting "custom_caption" caption
                 (insert_setting "caption_enabled" "1" a)).
    assert (Hf2 : forall u, In u (authorized_users a2) ->
                            u_caption_disabled u = false).
    { unfold a2.
      rewrite (proj1 (insert_setting_rows "custom_caption" caption _)),
              (proj1 (insert_setting_rows "caption_enabled" "1" a)).
      exact Hf. }
    clearbody a2. clear Hf. revert a2 Hf2.
    induction ids as [|id ids IH]; intros a2 Hf2; cbn [seed_admins];
      [exact Hf2|].
    destruct (insert_admin id a2) as [a3|] eqn:E; [|exact Hf2].
    apply IH. unfold insert_admin, nextval in E.
    destruct (negb (in_int8 id)); [discriminate|].
    destruct (users_seq a2 <=? INT4_MAX); [|discriminate].
    destruct (existsb _ (authorized_users a2)); injection E as <-;
      cbn [authorized_users]; [exact Hf2|].
    intros u Hu. apply in_app_or in Hu.
    destruct Hu as [Hu|[<-|[]]]; [exact (Hf2 u Hu)|reflexivity].
  - unfold add_user_handler.
    destruct (negb (is_admin ids admin_id)); [exact Hf|].
    destruct args as [|s [|n1 names]]; try exact Hf.
    destruct (negb (isdigit s)); [exact Hf|].
    destruct (py_int s) as [uid|]; [|exact Hf].
    destruct (upsert_user uid _ admin_id a) as [a'|] eqn:Eu; [|exact Hf].
    cbn [snd]. unfold upsert_user, nextval in Eu.
    destruct (negb (in_int8 uid) || negb (in_int8 admin_id));
      [discriminate|].
    destruct (users_seq a <=? INT4_MAX); [|discriminate].
    destruct (existsb _ (authorized_users a)); injection Eu as <-;
      cbn [authorized_users]; intros u Hu.
    + apply in_map_iff in Hu. destruct Hu as (u0 & <- & Hu0).
      destruct (u_user_id u0 =? uid); [|exact (Hf u0 Hu0)].
      cbn [activate u_caption_disabled]. exact (Hf u0 Hu0).
    + apply in_app_or in Hu.
      destruct Hu as [Hu|[<-|[]]]; [exact (Hf u Hu)|reflexivity].
  - unfold remove_user_handler.
    destruct (negb (is_admin ids admin_id)); [exact Hf|].
    destruct args as [|s [|s2 more]]; try exact Hf.
    destruct (negb (isdigit s)); [exact Hf|].
    destruct (py_int s) as [uid|]; [|exact Hf].
    destruct (mem_z uid ids); [exact Hf|].
    destruct (negb (in_int8 uid)); [exact Hf|].
    cbn [snd authorized_users]. intros u Hu.
    apply in_map_iff in Hu. destruct Hu as (u0 & <- & Hu0).
    unfold deactivate. destruct (u_user_id u0 =? uid); [|exact (Hf u0 Hu0)].
    cbn [u_caption_disabled]. exact (Hf u0 Hu0).
  - exact Hf.
Qed.

(** X19: the caption settings over time.  Once a custom caption is stored,
    nothing the program does changes it: not the admin commands, not the
    toggle, not a restart with another CUSTOM_CAPTION (the "Set Custom
    Caption" button only sets a session flag that no handler reads).  No
    row of [authorized_users] ever gets its [caption_disabled] set.  The
    toggle, when the setting exists, turns captions off if they were on and
    on if they were off, and reports the value it wrote. *)
Theorem caption_settings_over_time (os : list admin_op) (a : admin_db)
    (c : string) :
  admin_ok a -> setting_of "custom_caption" a = Some c ->
  (forall env, snd (get_caption_setting env (admin_run os a)) = c)
  /\ ((forall u, In u (authorized_users a) -> u_caption_disabled u = false) ->
      forall u, In u (authorized_users (admin_run os a)) ->
                u_caption_disabled u = false)
  /\ (forall env v,
        setting_of "caption_enabled" a = Some v ->
        fst (get_caption_setting env (snd (toggle_caption a)))
        = negb (fst (get_caption_setting env a))
        /\ fst (toggle_caption a)
           = (if fst (get_caption_setting env a) then "0" else "1")%string
        /\ snd (get_caption_setting env (snd (toggle_caption a))) = c).
Proof.
  intros Hok Hc. split; [|split].
  - intros env.
    assert (H : admin_ok (admin_run os a)
                /\ setting_of "custom_caption" (admin_run os a) = Some c).
    { revert a Hok Hc. induction os as [|o os IH]; intros a Hok Hc;
        [split; assumption|].
      cbn [admin_run fold_left]. apply IH.
      - apply admin_step_ok. exact Hok.
      - apply admin_step_caption. exact Hc. }
    destruct H as [Hok' Hc'].
    rewrite (caption_setting_spec env _ Hok'), Hc'. reflexivity.
  - revert a Hok Hc. induction os as [|o os IH]; intros a Hok Hc Hf;
      [exact Hf|].
    cbn [admin_run fold_left]. apply IH.
    + apply admin_step_ok. exact Hok.
    + apply admin_step_caption. exact Hc.
    + apply admin_step_flags. exact Hf.
  - intros env v Hv.
    pose proof (admin_step_ok a AopToggleCaption Hok) as Hok'.
    pose proof (admin_step_caption a AopToggleCaption c Hc) as Hc'.
    cbn [admin_step] in Hok', Hc'.
    rewrite (caption_setting_spec env _ Hok'),
            (caption_setting_spec env _ Hok), Hv, Hc'.
    cbn [fst snd].
    assert (Hnew : setting_of "caption_enabled" (snd (toggle_caption a))
                   = Some (if (v =? "1")%string then "0" else "1")%string).
    { unfold setting_of in Hv |- *. unfold toggle_caption at 1.
      cbn [snd bot_settings].
      destruct (find (fun r => (s_key r =? "caption_enabled")%string)
                     (bot_settings a)) as [r|] eqn:Ef; [|discriminate Hv].
      cbn [option_map] in Hv |- *. injection Hv as Hv. rewrite Hv.
      clear Hok Hok' Hc Hc'.
      induction (bot_settings a) as [|x l IH]; [discriminate Ef|].
      cbn [map find] in *.
      destruct (s_key x =? "caption_enabled")%string eqn:Ex.
      - cbn [s_key]. rewrite Ex. reflexivity.
      - rewrite Ex. apply IH. exact Ef. }
    rewrite Hnew. split; [|split; [|reflexivity]].
    + destruct (v =? "1")%string; reflexivity.
    + unfold toggle_caption. cbn [fst]. unfold setting_of in Hv.
      rewrite Hv. reflexivity.
Qed.

Lemma caption_settings_over_time_witness :
  admin_ok admin_started
  /\ setting_of "custom_caption" admin_started = Some "t.me/channel"%string
  /\ get_caption_setting "t.me/other"
       (admin_run [AopToggleCaption; AopStart [1; 2] "t.me/other";
                   AopAddUser [1] 1 ["77"; "Ann"]%string]
                  admin_started)
     = (false, "t.me/channel"%string).
Proof.
  assert (H1 : admin_ok admin_started).
  { apply (admin_run_ok [AopStart [1] "t.me/channel"] empty_admin_db).
    exact empty_admin_ok. }
  assert (H2 : setting_of "custom_caption" admin_started
               = Some "t.me/channel"%string) by reflexivity.
  destruct (caption_settings_over_time
              [AopToggleCaption; AopStart [1; 2] "t.me/other";
               AopAddUser [1] 1 ["77"; "Ann"]%string]
              admin_started "t.me/channel" H1 H2) as (R & _ & _).
  split; [exact H1|]. split; [exact H2|].
  specialize (R "t.me/other"%string).
  destruct (get_caption_setting "t.me/other" _) as [en cu] eqn:E.
  cbn [snd] in R. subst cu. f_equal.
  apply (f_equal fst) in E. cbn [fst] in E. rewrite <- E.
  vm_compute. reflexivity.
Defined.

Lemma string_length_app (a b : string) :
  String.length (a ++ b) = (String.length a + String.length b)%nat.
Proof.
  induction a as [|c a IH]; cbn [String.append String.length];
    [reflexivity|].
  rewrite IH. reflexivity.
Qed.

Lemma string_of_list_length (l : list ascii) :
  String.length (string_of_list_ascii l) = List.length l.
Proof.
  induction l as [|c l IH]; cbn [string_of_list_ascii String.length List.length];
    [reflexivity|].
  rewrite IH. reflexivity.
Qed.

Lemma parse_leading_zeros (n : nat) (l : list ascii) (b : bool) :
  l <> [] ->
  parse_digits 0 b (repeat "0"%char n ++ l)
  = parse_digits 0 (match n with O => b | S _ => true end) l.
Proof.
  intros Hl. revert b. induction n as [|n IH]; intros b; [reflexivity|].
  cbn [repeat app parse_digits].
  change (Ascii.eqb "0"%char "_"%char) with false.
  change (digit_val "0"%char) with (Some 0). cbv iota.
  change (0 * 10 + 0) with 0. rewrite IH.
  destruct n; reflexivity.
Qed.

Lemma parse_digits_started (ds : list Z) (b : bool) :
  Forall (fun v => 0 <= v < 10) ds -> ds <> [] ->
  parse_digits 0 b (map digit_char ds)
  = Some (fold_left (fun a v => a * 10 + v) ds 0).
Proof.
  intros Hr Hne. apply parse_digits_chars; [exact Hr|left; exact Hne].
Qed.

Lemma format_03d_reads_back (z : Z) :
  py_int (format_03d z) = Some z
  /\ (3 <= String.length (format_03d z))%nat.
Proof.
  unfold format_03d, zfill.
  destruct (Z.ltb_spec z 0) as [Hz|Hz].
  - destruct (digits_spec (- z) ltac:(lia)) as (ds & E & Hne & Hr & Hv).
    rewrite E. split.
    + rewrite py_int_of_chars.
      * rewrite Ascii.eqb_refl, parse_leading_zeros
          by (destruct ds; [contradiction Hne; reflexivity|discriminate]).
        rewrite (parse_digits_started ds _ Hr Hne), Hv.
        unfold option_map. f_equal. lia.
      * constructor; [reflexivity|]. apply Forall_app. split.
        -- apply Forall_forall. intros c Hc. apply repeat_spec in Hc.
           subst c. reflexivity.
        -- apply digit_chars_not_space. exact Hr.
    + rewrite string_of_list_length.
      cbn [List.length]. rewrite length_app, repeat_length, length_map. lia.
  - destruct (digits_spec z Hz) as (ds & E & Hne & Hr & Hv).
    rewrite E. split.
    + rewrite py_int_of_chars.
      * assert (Hl : map digit_char ds <> [])
          by (destruct ds; [contradiction Hne; reflexivity|discriminate]).
        destruct (repeat "0"%char (3 - List.length (map digit_char ds))
                  ++ map digit_char ds) as [|c r] eqn:El.
        { destruct (repeat _ _); [contradiction|discriminate El]. }
        assert (Hc : Ascii.eqb c "-"%char = false
                     /\ Ascii.eqb c "+"%char = false).
        { destruct (3 - List.length (map digit_char ds))%nat as [|n].
          - cbn [repeat app] in El. destruct ds as [|v ds];
              [contradiction Hne; reflexivity|].
            cbn [map] in El. injection El as <- _.
            inversion Hr as [|? ? Hv0 _]; subst.
            split; apply digit_char_plain; try exact Hv0; reflexivity.
          - cbn [repeat app] in El. injection El as <- _.
            split; reflexivity. }
        destruct Hc as [Hc1 Hc2]. rewrite Hc1, Hc2, <- El.
        rewrite parse_leading_zeros by exact Hl.
        rewrite (parse_digits_started ds _ Hr Hne), Hv. reflexivity.
      * apply Forall_app. split.
        -- apply Forall_forall. intros c Hc. apply repeat_spec in Hc.
           subst c. reflexivity.
        -- apply digit_chars_not_space. exact Hr.
    + rewrite string_of_list_length.
      rewrite length_app, repeat_length, length_map. lia.
Qed.

(** X20: [get_file_caption].  The caption is the bare file name exactly
    when captions are switched off, in the settings or for this caller; an
    admin, and a caller without id, is never looked up, so that an admin's
    own [caption_disabled] does not count.  Otherwise the caption is the
    name between backquotes, after the serial number when there is one,
    followed by an empty line and the custom caption.  The serial is
    written with at least three digits and reads back as the same
    number. *)
Theorem file_caption_cases (admin_ids : list Z) (env : string) (a : admin_db)
    (file_name : string) (serial_number user_id : option Z) :
  let caption :=
    get_file_caption admin_ids env a file_name serial_number user_id in
  (caption = file_name
   <-> fst (get_caption_setting env a) = false
       \/ caption_off_for admin_ids a user_id = true)
  /\ (caption <> file_name ->
      caption = (serial_tag serial_number ++ "`" ++ file_name ++ "`"
                 ++ two_newlines ++ snd (get_caption_setting env a))%string)
  /\ (forall uid, user_id = Some uid -> is_admin admin_ids uid = true ->
                  caption_off_for admin_ids a user_id = false)
  /\ (forall s, py_int (format_03d s) = Some s
                /\ (3 <= String.length (format_03d s))%nat).
Proof.
  cbv zeta.
  assert (Hlong : forall tag custom,
            (tag ++ "`" ++ file_name ++ "`" ++ two_newlines ++ custom)%string
            <> file_name).
  { intros tag custom E. apply (f_equal String.length) in E.
    rewrite !string_length_app in E. unfold two_newlines in E.
    cbn [String.length] in E. lia. }
  assert (Hfull : forall custom,
            (match serial_number with
             | Some s =>
                 if (s =? 0)%Z then ("`" ++ file_name ++ "`")%string
                 else ("`#" ++ format_03d s ++ "` "
                       ++ "`" ++ file_name ++ "`")%string
             | None => ("`" ++ file_name ++ "`")%string
             end ++ two_newlines ++ custom)%string
            = (serial_tag serial_number ++ "`" ++ file_name ++ "`"
               ++ two_newlines ++ custom)%string).
  { intros custom. unfold serial_tag.
    destruct serial_number as [s|]; [destruct (s =? 0)|];
      rewrite ?string_app_assoc; reflexivity. }
  split; [|split; [|split]].
  - unfold get_file_caption, caption_off_for.
    destruct (get_caption_setting env a) as [en cu]. cbn [fst].
    destruct user_id as [uid|].
    + destruct (uid =? 0); cbn [orb negb andb].
      { destruct en; cbn [negb].
        - rewrite Hfull. split; [intros E; exfalso; exact (Hlong _ _ E)|].
          intros [E|E]; discriminate E.
        - split; [intros _; left; reflexivity|reflexivity]. }
      destruct (is_admin admin_ids uid); cbn [negb andb].
      { destruct en; cbn [negb].
        - rewrite Hfull. split; [intros E; exfalso; exact (Hlong _ _ E)|].
          intros [E|E]; discriminate E.
        - split; [intros _; left; reflexivity|reflexivity]. }
      destruct (in_int8 uid); cbn [negb orb];
        [|split; [intros _; right; reflexivity|reflexivity]].
      destruct (match find _ (authorized_users a) with
                | Some u => u_caption_disabled u
                | None => false
                end);
        [split; [intros _; right; reflexivity|reflexivity]|].
      destruct en; cbn [negb].
      * rewrite Hfull. split; [intros E; exfalso; exact (Hlong _ _ E)|].
        intros [E|E]; discriminate E.
      * split; [intros _; left; reflexivity|reflexivity].
    + destruct en; cbn [negb].
      * rewrite Hfull. split; [intros E; exfalso; exact (Hlong _ _ E)|].
        intros [E|E]; discriminate E.
      * split; [intros _; left; reflexivity|reflexivity].
  - unfold get_file_caption.
    destruct (get_caption_setting env a) as [en cu]. cbn [snd].
    destruct (match user_id with
              | Some uid =>
                  if (uid =? 0) || is_admin admin_ids uid then Some false
                  else if negb (in_int8 uid) then None
                  else Some match find (fun u => u_user_id u =? uid)
                                       (authorized_users a) with
                            | Some u => u_caption_disabled u
                            | None => false
                            end
              | None => Some false
              end) as [[|]|];
      try (intros H; contradiction H; reflexivity).
    destruct en; cbn [negb];
      [|intros H; contradiction H; reflexivity].
    intros _. apply Hfull.
  - intros uid -> Hadm. unfold caption_off_for. rewrite Hadm.
    cbn [negb]. rewrite andb_false_r. reflexivity.
  - exact format_03d_reads_back.
Qed.

(** ** Opening a link *)

(** X21: a shared link opens only for a user the bot knows.  For a caller
    who is not authorized, [start_handler] answers "not authorized" and
    leaves the store as it is: the link is not looked up and no click is
    counted.  This holds from the moment [remove_user_handler] has taken
    the user off, whatever its reply; and from the moment [add_user_handler]
    has authorized a user, the same call resolves the link, counts the
    click, and asks for one copy per file delivered, each with the caption
    [get_file_caption] gives for that file and that caller. *)
Theorem shared_links_need_authorization (admin_ids : list Z) (env : string)
    (a : admin_db) (admin_id user_id : Z) (code : string)
    (rest admin_args : list string) (d : db) :
  (is_user_authorized admin_ids a user_id = false ->
   start_handler admin_ids env a user_id (code :: rest) d
   = (StartNotAuthorized, d))
  /\ (let (r, a') := remove_user_handler admin_ids admin_id admin_args a in
      r = AdDeauthorized user_id \/ r = AdUserNotFound user_id ->
      start_handler admin_ids env a' user_id (code :: rest) d
      = (StartNotAuthorized, d))
  /\ (let (r, a') := add_user_handler admin_ids admin_id admin_args a in
      forall first,
        r = AdAuthorized first user_id ->
        start_handler admin_ids env a' user_id (code :: rest) d
        = (StartLink (fst (run (resolve_link code) d))
                     (deliveries_of admin_ids env a' user_id
                                    (fst (run (resolve_link code) d))),
           snd (run (resolve_link code) d))
        /\ (forall f gname,
              fst (run (resolve_link code) d) = OFile f gname ->
              deliveries_of admin_ids env a' user_id
                            (fst (run (resolve_link code) d))
              = [mkDelivery (storage_message_id f)
                            (get_file_caption admin_ids env a' (file_name f)
                               (Some (serial_number f)) (Some user_id))])
        /\ (forall gname fs,
              fst (run (resolve_link code) d) = OGroup gname fs ->
              map dl_message_id
                  (deliveries_of admin_ids env a' user_id
                                 (fst (run (resolve_link code) d)))
              = map storage_message_id fs)).
Proof.
  split; [|split].
  - intros H. unfold start_handler. rewrite H. reflexivity.
  - pose proof (authorization_after_removal admin_ids admin_id admin_args a
                  user_id) as H.
    destruct (remove_user_handler admin_ids admin_id admin_args a) as [r a'].
    intros Hr. unfold start_handler. rewrite (H Hr). reflexivity.
  - pose proof (authorization_after_adding admin_ids admin_id admin_args a
                  user_id) as H.
    destruct (add_user_handler admin_ids admin_id admin_args a) as [r a'].
    intros first Hr. unfold start_handler. rewrite (H first Hr). cbn [negb].
    destruct (run (resolve_link code) d) as [o d']. cbn [fst snd].
    split; [reflexivity|]. split.
    + intros f gname ->. reflexivity.
    + intros gname fs ->. cbn [deliveries_of]. rewrite map_map.
      reflexivity.
Qed.

(** ** The random bits of a link code *)

(** X22: the random bits of a link code.  Of the sixteen random bytes,
    [uuid4] keeps fourteen as they are and overwrites six bits: byte 6
    becomes 64 plus its low half, byte 8 becomes 128 plus its six low bits.
    The code is the base64url text of the first nine of these bytes, so it
    does not depend on the last seven random bytes at all, and two draws
    give the same code exactly when their first nine bytes agree after
    that overwriting, that is in 66 bits. *)
Theorem link_code_random_bits (r r' : list Z) :
  List.length r = 16%nat -> Forall is_byte r ->
  List.length r' = 16%nat -> Forall is_byte r' ->
  uuid_bytes (uuid4 r) = uuid4_bytes r
  /\ generate_id r
     = string_of_list_ascii (urlsafe_b64encode (firstn 9 (uuid4_bytes r)))
  /\ (generate_id r = generate_id r'
      <-> firstn 9 (uuid4_bytes r) = firstn 9 (uuid4_bytes r'))
  /\ (firstn 9 r = firstn 9 r' -> generate_id r = generate_id r').
Proof.
  intros Hl Hb Hl' Hb'.
  pose proof (uuid_bytes_masked r Hl Hb) as E.
  pose proof (uuid_bytes_masked r' Hl' Hb') as E'.
  destruct (uuid4_bytes_ok r Hl Hb) as [Ml Mb].
  destruct (uuid4_bytes_ok r' Hl' Hb') as [Ml' Mb'].
  assert (G : generate_id r
              = string_of_list_ascii
                  (urlsafe_b64encode (firstn 9 (uuid4_bytes r))))
    by (rewrite generate_id_nine, E; reflexivity).
  assert (G' : generate_id r'
               = string_of_list_ascii
                   (urlsafe_b64encode (firstn 9 (uuid4_bytes r'))))
    by (rewrite generate_id_nine, E'; reflexivity).
  assert (Hiff : generate_id r = generate_id r'
                 <-> firstn 9 (uuid4_bytes r) = firstn 9 (uuid4_bytes r')).
  { rewrite G, G'. split.
    - intros H. apply (f_equal list_ascii_of_string) in H.
      rewrite !list_ascii_of_string_of_list_ascii in H.
      apply (encode_inj 3); try exact H.
      + rewrite length_firstn, Ml. reflexivity.
      + rewrite length_firstn, Ml'. reflexivity.
      + apply Forall_firstn. exact Mb.
      + apply Forall_firstn. exact Mb'.
    - intros H. rewrite H. reflexivity. }
  split; [exact E|]. split; [exact G|]. split; [exact Hiff|].
  intros H9. apply Hiff.
  do 16 (destruct r as [|? r]; [discriminate Hl|]).
  destruct r; [|discriminate Hl].
  do 16 (destruct r' as [|? r']; [discriminate Hl'|]).
  destruct r'; [|discriminate Hl'].
  cbn [firstn] in H9. injection H9 as -> -> -> -> -> -> -> -> ->.
  reflexivity.
Qed.

Lemma link_code_random_bits_witness :
  List.length random_a = 16%nat /\ Forall is_byte random_a
  /\ uuid_bytes (uuid4 random_a)
     = [0; 1; 2; 3; 4; 5; 70; 7; 136; 9; 10; 11; 12; 13; 14; 15]
  /\ generate_id random_a
     = generate_id [0; 1; 2; 3; 4; 5; 6; 7; 8; 255; 255; 255; 255; 255; 255;
                    255].
Proof.
  assert (H1 : List.length random_a = 16%nat) by reflexivity.
  assert (H2 : Forall is_byte random_a)
    by (repeat constructor; discriminate).
  assert (H3 : List.length [0; 1; 2; 3; 4; 5; 6; 7; 8; 255; 255; 255; 255;
                            255; 255; 255] = 16%nat) by reflexivity.
  assert (H4 : Forall is_byte [0; 1; 2; 3; 4; 5; 6; 7; 8; 255; 255; 255; 255;
                               255; 255; 255])
    by (repeat constructor; discriminate).
  destruct (link_code_random_bits random_a _ H1 H2 H3 H4)
    as (R1 & _ & _ & R4).
  split; [exact H1|]. split; [exact H2|].
  split; [rewrite R1; reflexivity|]. apply R4. reflexivity.
Defined.
